(* ===== verification/_CoqProject ===== *)
-Q . S2P
Prelude.v
GoStrings.v
Float64.v
PData.v
TraceBlock.v
Labels.v
Silent.v
Samplers.v
Cache.v
TraceCache.v
Tailbase.v
SampleCache.v
Adaptive.v
Notify.v
ProcNet.v
FillProc.v
FillRuns.v
OtlpTraces.v
OtlpHttp.v
Sharing.v
Endpoints.v
OtlpServer.v
Url.v
Loading.v
BackSampling.v
EntryUrl.v
UnmatchedRuns.v
UnmatchedRace.v
SqlPrune.v
RedParsers.v
Histogram.v
LruCache.v
RedConnector.v
RedSeries.v
RedExport.v
RedRuns.v
SwIds.v
SwComponents.v
ComponentRace.v
SwTraces.v
SwProps.v
Undertow.v
PromRW.v
PrwReceiver.v
SwMetrics.v
SwServer.v
UndertowRace.v
SwRed.v
OtlpRed.v
Factories.v
Tickers.v
MetadataProc.v
Startup.v
Wiring.v
TestUtil.v
