(* ===== verification/Prelude.v ===== *)
(** * A verification of the APO OpenTelemetry collector

    The repository is a distribution of the OpenTelemetry collector (Go, under
    [src/]).  Its own code is a set of components the collector wires together:

    - receivers turn what agents send into the collector's messages: OTLP over grpc
      and http ([pkg/receiver/otlpreceiver]), SkyWalking
      ([pkg/receiver/skywalkingreceiver]) and Prometheus remote write
      ([pkg/receiver/prometheusremotewritereceiver]);
    - an extension finds, for the peer of a connection, the process and the
      container behind it by reading /proc ([pkg/extension/fillprocextension]); the
      receivers ask it through the interface of [pkg/fillproc];
    - processors drop the spans of traces that never end
      ([pkg/processor/traceblockprocessor]), decide which traces are kept and hold
      their spans until it is known ([pkg/processor/backsamplingprocessor]), and put
      Kubernetes labels on metrics ([pkg/processor/metadataprocessor]);
    - a connector turns spans into histograms of rate, errors and duration
      ([pkg/connector/redmetricsconnector]) with the help of [pkg/sqlprune];
    - [pkg/common] has what they share.

    ** The files

    Each file is the model of a part with its theorems; the definitions keep the
    names of the source, and where two parts have the same name a prefix tells them
    apart.

    - Shared: [Prelude] (machine integers, ranges over Go maps, loops, counting,
      tactics, the hint database [go]), [GoStrings] (strings, strconv), [Float64]
      (IEEE doubles and their conversions), [PData] (the interface to the
      collector's attribute maps and ids, and the records of spans).
    - Trace blocking: [TraceBlock] ([traceblockprocessor/*.go]).
    - Back sampling ([backsamplingprocessor]): [Labels] (the record of a trace),
      [Silent], [Samplers], [Tailbase], [SampleCache] ([internal/sampler]), [Cache]
      and [TraceCache] ([internal/cache]), [Adaptive] ([internal/adaptive],
      [internal/traceutil]), [Notify] ([internal/notify], [internal/profile]), and
      [BackSampling] ([processor.go]), which composes them.
    - Processes: [ProcNet] ([fillprocextension/internal/proc]), [FillProc]
      ([socket_cache.go], [socket_proc.go], [pkg/fillproc], whose Go interface is the
      class [FillProc]) and [FillRuns] (ticks and requests in any order).
    - OTLP: [OtlpTraces] ([internal/trace], [internal/metrics], [internal/logs],
      [internal/errors], [internal/httphelper]), proved against the class [FillProc]
      and then composed with its instance; [OtlpHttp] ([otlphttp.go], [encoder.go]);
      [OtlpServer] ([otlp.go], [config.go]); [Url] ([url.Parse] as [sanitizeURLPath]
      uses it).
    - Shared receivers: [Sharing] (the two [sharedcomponent] packages, with the
      store their callers alias), [Factories] ([factory.go] of the OTLP and the
      SkyWalking receiver over the class [Registry] that both packages implement),
      [Endpoints] ([localhostgate], the ports of [skywalkingreceiver/factory.go]),
      [Loading] ([Unmarshal] of both receivers and the feature gate).
    - RED metrics ([redmetricsconnector]): [EntryUrl] ([internal/cache/bucket.go],
      [entry_url_mapping.go]) with its runs in [UnmatchedRuns] and what a tick and
      messages do to each other in [UnmatchedRace], [SqlPrune] ([pkg/sqlprune]), [RedParsers]
      ([internal/parser], [internal/cache/model.go]), [Histogram]
      ([internal/cache/histogram.go], [pm_histogram.go], [vm_histogram.go]),
      [LruCache] ([internal/cache/cache.go]), [RedConnector] ([connector.go]) with
      its invariant in [RedSeries], its export in [RedExport] and its runs in
      [RedRuns].
    - SkyWalking: [SwIds], [SwComponents], [ComponentRace], [SwTraces] and [SwProps]
      ([internal/trace/skywalkingproto_to_traces.go], [componment_mapping.go]),
      [Undertow] ([undertow_trace.go], [tracing_report_service.go]) and [UndertowRace]
      (the same cache under concurrent calls), [SwMetrics] ([internal/metrics]),
      [SwServer] ([skywalking_receiver.go], [sw_*_service.go]), [SwRed] (the receiver
      and the RED connector together).
      [OtlpRed] has the OTLP receiver, the extension and the RED connector together.
    - Prometheus remote write ([prometheusremotewritereceiver]): [PromRW] (the
      translation and the handler), [PrwReceiver] ([server.go], [receiver.go]: the
      servers with their channel and goroutines).
    - [MetadataProc] ([metadataprocessor]); [Tickers] ([timeutils], [Start] and
      [Shutdown] of the processors and the connector); [Startup] (creating components,
      [Start] of the extension, reporters); [Wiring] ([cmd/*.go],
      [generated_telemetry.go]); [TestUtil] ([pkg/common/testutil]).

    ** How the code is modelled

    State is a record per Go struct, threaded explicitly.  A goroutine with a ticker
    is a step of a run, and the runs ([TraceBlock], [FillRuns], [RedRuns],
    [UnmatchedRuns], [Sharing], [Undertow]) take the steps in any order; the granularity of a step is
    what the code's locks protect, and where a tick releases what requests share the
    tick is two steps.  [None] as a result is a run-time panic (and, for the two
    recursions that may not end, the recursion without end); errors that callers see
    are values.  [int64], [uint64] and the like are integers with their wrap-around
    written out; [float64] is [SpecFloat]; strings are sequences of bytes.  Where the order
    of a goroutine's own operations matters - the servers of [PrwReceiver], the tickers,
    the two operations of [CheckUndertow] in [UndertowRace], the accesses to the maps of
    [componment_mapping.go] in [ComponentRace], the statements of [CleanUnMatchedSpans]
    and the slice it shares with messages in [UnmatchedRace] - each is a step and a run
    any interleaving.  The clock, the order of a range over a Go map, the answers of servers and consumers and the
    file system are arguments, so that the theorems hold for all of them.

    Code of other modules is a class of operations, and what is relied on a class of
    laws with a reference instance that satisfies them: [PData] (pdata), [GoPlatform]
    (the conversions of floats out of range, which Go leaves to the platform),
    [SqlParser] (xwb1989/sqlparser), [NodeEnv] (environment and host name), [VmMath]
    (math.Log10 and the factor between two buckets; their texts are computed),
    [SimpleLRU] (golang-lru), [UuidLib] (uuid.Parse), [SwProto] (names of generated
    enumerations), [GrpcErrors] (grpc status, collector errors), [OtlpCodec]
    (encodings), [GateRegistry] and [GateStore] (featuregate).  The witnesses run on the reference
    instances.

    ** What the theorems show

    - Nothing is lost or invented: every span of a named resource is forwarded, cached
      or dropped and counted, and those of the other resources are what is lost
      ([BackSampling.ConsumeTraces_conserves_spans]); a pick
      forwards what was held for its ids ([TraceCache]); the entry-url cache measures
      every span once, and in time ([UnmatchedRuns.run_measures_once]); a remote-write request becomes one metric per named
      series ([PromRW.prw_conserves]); a segment becomes its spans with the parents
      it names ([SwProps.segments_tree]), their times, kinds, events and the links to the
      spans they refer to ([SwProps.span_translated]).
    - Both segments of an Undertow request are put together when they are served one
      after the other ([Undertow]); served at the same time, the schedules that lose
      the I/O segment are characterised ([UndertowRace]).  The first look-ups of the
      component table race ([ComponentRace]), and a tick of the entry-url cache that
      meets a message can panic ([UnmatchedRace]).
    - Decisions follow their rule in every reachable state: blocking by the age of a
      trace ([TraceBlock]), the samplers and their windows ([Silent], [Samplers],
      [SampleCache], [Adaptive]), the delivery of sampled ids through failures
      ([Tailbase]).
    - Metrics count: every measured span is one sample of the series of its labels, in
      all four families ([RedRuns.consume_counts]), and every export reports every series,
      for Prometheus and for VictoriaMetrics ([RedRuns.export_reports]); both histograms
      put a value into the bucket whose bounds hold it, by an exact account of the
      comparisons of floats ([Histogram], on the normal form of [Float64]); a key stands for one set of labels
      ([RedParsers]); the caches of dimensions implement a map ([LruCache]); a
      SkyWalking segment adds to the series a reference reads off its spans ([SwRed]).
    - Attribution is sound: the process a resource is given held the connection at an
      earlier tick ([OtlpTraces.exported_pid_source], over [FillRuns] and the
      soundness of the match in [FillProc]), and the series an export changes are of
      such a process, also when their spans wait for an entry url
      ([OtlpRed.series_pid_source], [OtlpRed.tick_changes]); addresses of the kernel are read back
      ([ProcNet]).
    - Errors and panics: the code of every HTTP answer ([OtlpHttp]); the error of each
      failure of the SkyWalking servers ([SwServer]); when the translation of a segment,
      with [nil] messages in it, ([SwProps]) or of JVM metrics ([SwMetrics]) and the
      receiver with a disabled extension ([OtlpTraces]) panic, exactly; when the
      recursion over parent spans ends - when its walk meets no cycle - and with what
      ([EntryUrl]).
    - Life cycle: shared components start and stop once and report to every instance
      ([Sharing]), and the pipelines of a configuration share one receiver
      ([Factories]); a loaded configuration starts ([Loading]); the OTLP receiver serves
      all its protocols or none ([OtlpServer]); what the SkyWalking receiver leaves
      behind when its start fails ([SwServer]); in every interleaving the remote-write
      receiver flushes what it accepted, until the consumer fails once
      ([PrwReceiver]); tickers stop, and when the processors' [Start] panics
      ([Tickers]).

    ** Bounds and fuel

    Loops are structural recursions where the data allows it.  The others have fuel:
    [GetEntrySpanName_fuel] one more than the number of recorded parents, enough
    whenever the recursion ends at all ([EntryUrl.fuel_size_enough]);
    [Histogram.search_loop] the length of the slice, as every round halves the
    range ([search_loop_spec]); [ProcNet.parseIPv6_loop] the four groups of an
    address; [OtlpHttp.params_loop] one more than the bytes left, each round consumes
    some ([params_loop_total]); [Sharing.run_report] one more than the overwritten
    settings and one for its own, of which two levels are used in every reachable
    state ([run_report_all]); [TestUtil.find_loop] the attempts, as the loop ends only
    when the system gives another port ([find_loop_first]); [TestUtil.split_bytes] the
    bytes of the string, of which every cut takes some; [Histogram.exponent_from] four rounds, as the guess it starts
    from, by the binary logarithms of the quotient, is at most three below the exponent.

    ** Not modelled

    The libraries below the servers and clients (sockets, grpc, http, unix sockets,
    snappy and protobuf decoding), of which only answers appear; logging and the
    collector's own telemetry, except where it counts spans and in the builder that
    [Wiring] has; the options of grpc and http servers and generated code ([*.pb.go],
    the constants of [generated_status.go]).  Case folding and white space are those of
    ASCII.  Go's memory model below its locks, channels and [sync.Map]s: accesses that
    race are steps of their own ([ComponentRace], [UnmatchedRace]), which is more than Go
    promises for them.

    ** Still open

    The composition of the remote-write receiver with the processors; matching of entry
    urls in [SwRed], which has it switched off.

    ** This file

    Arithmetic on machine integers, loops, ranges over maps, counting and the tactics
    shared by the development. *)

From stdpp Require Export base tactics list gmap fin_maps strings pretty option numbers.
From Stdlib Require Export ZArith Lia Ascii.

#[global] Open Scope string_scope.
#[global] Open Scope list_scope.
#[global] Open Scope Z_scope.

(** ** Machine integers

    Go's fixed-width integers are kept as [Z] and wrapped where the source
    computes with them. *)

Definition two64 : Z := 18446744073709551616.
Definition two63 : Z := 9223372036854775808.
Definition two32 : Z := 4294967296.
Definition two31 : Z := 2147483648.

(** [uint64], [uint32], [uint16], [int64], [int32] conversions. *)
Definition u64 (x : Z) : Z := x mod two64.
Definition u32 (x : Z) : Z := x mod two32.
Definition u16 (x : Z) : Z := x mod 65536.
Definition u8 (x : Z) : Z := x mod 256.
Definition i64 (x : Z) : Z := (x + two63) mod two64 - two63.
Definition i32 (x : Z) : Z := (x + two31) mod two32 - two31.

Definition maxInt64 : Z := two63 - 1.
Definition minInt64 : Z := - two63.

Ltac unfold_width :=
  unfold u64, u32, u16, u8, i64, i32, maxInt64, minInt64, two64, two63, two32, two31 in *.

Lemma u64_small x : 0 <= x < two64 → u64 x = x.
Proof. intros. unfold u64. by apply Z.mod_small. Qed.

Lemma u64_range x : 0 <= u64 x < two64.
Proof. unfold u64. apply Z.mod_pos_bound. done. Qed.

Lemma u64_add_l a b : u64 (u64 a + b) = u64 (a + b).
Proof. unfold u64. apply Zplus_mod_idemp_l. Qed.

Lemma u64_add_r a b : u64 (a + u64 b) = u64 (a + b).
Proof. unfold u64. apply Zplus_mod_idemp_r. Qed.

Lemma u64_idem a : u64 (u64 a) = u64 a.
Proof. unfold u64. apply Zmod_mod. Qed.

Lemma u32_small x : 0 <= x < two32 → u32 x = x.
Proof. intros. unfold u32. by apply Z.mod_small. Qed.

Lemma u32_range x : 0 <= u32 x < two32.
Proof. unfold u32. apply Z.mod_pos_bound. done. Qed.

Lemma i64_small x : minInt64 <= x <= maxInt64 → i64 x = x.
Proof. unfold_width. intros. rewrite Z.mod_small; lia. Qed.

Lemma i64_range x : minInt64 <= i64 x <= maxInt64.
Proof.
  unfold i64, minInt64, maxInt64.
  pose proof (Z.mod_pos_bound (x + two63) two64 eq_refl). unfold two63, two64 in *. lia.
Qed.

Lemma i64_add_l a b : i64 (i64 a + b) = i64 (a + b).
Proof.
  unfold i64. f_equal. replace ((a + two63) mod two64 - two63 + b + two63) with ((a + two63) mod two64 + b) by lia.
  rewrite Zplus_mod_idemp_l. f_equal. lia.
Qed.

Lemma i32_small x : - two31 <= x < two31 → i32 x = x.
Proof. unfold_width. intros. rewrite Z.mod_small; lia. Qed.

(** [time.Time.Sub]: the difference of two instants as a [time.Duration],
    which saturates at the ends of [int64]. *)
Definition durSub (a b : Z) : Z := Z.max minInt64 (Z.min maxInt64 (a - b)).

Lemma durSub_ge a b d : minInt64 < d <= maxInt64 → d <= durSub a b ↔ d <= a - b.
Proof. unfold durSub. lia. Qed.

(** ** Loops over slices *)

(** A slice's [RemoveIf]: the callback runs on the elements from the first to
    the last, may rewrite the element in place and change the state, and says
    whether the element goes. *)
Fixpoint RemoveIf {A S} (f : A → S → A * bool * S) (l : list A) (s : S) : list A * S :=
  match l with
  | [] => ([], s)
  | a :: l' =>
      let '(a', drop, s1) := f a s in
      let '(r, s2) := RemoveIf f l' s1 in
      (if drop then r else a' :: r, s2)
  end.

(** A [for _, x := range l] loop that threads a state. *)
Fixpoint foldS {A S} (f : A → S → S) (l : list A) (s : S) : S :=
  match l with
  | [] => s
  | a :: l' => foldS f l' (f a s)
  end.

(** The same loop, each round of which also emits a list of outputs. *)
Fixpoint foldOut {A S O} (f : A → S → list O * S) (l : list A) (s : S) : list O * S :=
  match l with
  | [] => ([], s)
  | a :: l' =>
      let '(o, s1) := f a s in
      let '(os, s2) := foldOut f l' s1 in
      (o ++ os, s2)
  end.

Lemma foldS_app {A S} (f : A → S → S) l1 l2 s :
  foldS f (l1 ++ l2) s = foldS f l2 (foldS f l1 s).
Proof. revert s. induction l1 as [|a l1 IH]; intros s; simpl; auto. Qed.

Lemma foldS_inv {A S} (P : S → Prop) (f : A → S → S) l s :
  (∀ a s, a ∈ l → P s → P (f a s)) → P s → P (foldS f l s).
Proof.
  revert s. induction l as [|a l IH]; intros s Hf Hs; simpl; [done|].
  apply IH.
  - intros b s' Hb. apply Hf. by right.
  - apply Hf; [by left | done].
Qed.

Lemma foldOut_app {A S O} (f : A → S → list O * S) l1 l2 s :
  foldOut f (l1 ++ l2) s =
    let '(o1, s1) := foldOut f l1 s in
    let '(o2, s2) := foldOut f l2 s1 in (o1 ++ o2, s2).
Proof.
  revert s. induction l1 as [|a l1 IH]; intros s; simpl.
  - by destruct (foldOut f l2 s).
  - destruct (f a s) as [o s1]. rewrite IH.
    destruct (foldOut f l1 s1) as [o1 s2]. destruct (foldOut f l2 s2) as [o2 s3].
    by rewrite app_assoc.
Qed.

Lemma foldOut_inv {A S O} (P : list O → S → Prop) (f : A → S → list O * S) l s :
  P [] s →
  (∀ a s os o s', a ∈ l → P os s → f a s = (o, s') → P (os ++ o) s') →
  ∀ os s', foldOut f l s = (os, s') → P os s'.
Proof.
  intros H0 Hf.
  assert (∀ pre l' s0 os s', (∀ a, a ∈ l' → a ∈ l) → P pre s0 →
            foldOut f l' s0 = (os, s') → P (pre ++ os) s') as Hgen.
  { intros pre l'. revert pre. induction l' as [|a l' IH]; intros pre s0 os s' Hin Hp; simpl.
    - intros [= <- <-]. by rewrite app_nil_r.
    - destruct (f a s0) as [o s1] eqn:E. destruct (foldOut f l' s1) as [os' s2] eqn:E2.
      intros [= <- <-]. rewrite app_assoc. eapply IH; eauto.
      + intros b Hb. apply Hin. by right.
      + eapply Hf; eauto. apply Hin. by left. }
  intros os s' E. apply (Hgen [] l s os s' (λ _ H, H) H0 E).
Qed.

(** Induction for a loop that may consume two elements at once. *)
Lemma list_ind2 {A} (P : list A → Prop) :
  P [] → (∀ a, P [] → P [a]) → (∀ a b l, P l → P (b :: l) → P (a :: b :: l)) → ∀ l, P l.
Proof.
  intros H0 H1 H2 l. assert (P l ∧ ∀ a, P (a :: l)) as [? _]; [|done].
  induction l as [|b l [IH1 IH2]]; split; auto.
Qed.

Lemma mjoin_fmap_cons {A B} (g : A → list B) a l :
  mjoin (g <$> a :: l) = g a ++ mjoin (g <$> l).
Proof. done. Qed.

Lemma mjoin_fmap_app {A B} (g : A → list B) l1 l2 :
  mjoin (g <$> l1 ++ l2) = mjoin (g <$> l1) ++ mjoin (g <$> l2).
Proof. by rewrite fmap_app, join_app. Qed.

(** ** Ranging over a Go map

    [for k := range m] and [sync.Map.Range] visit every key once, in an order
    the language does not fix: a definition that ranges takes the order as an
    argument, and its theorems hold for every order of the map's keys. *)
Definition range_order {K V} `{Countable K} (m : gmap K V) (ks : list K) : Prop :=
  ks ≡ₚ (map_to_list m).*1.

Section range.
Context {K V : Type} `{Countable K}.
Implicit Types (m : gmap K V) (ks : list K).

Lemma range_order_NoDup m ks : range_order m ks → NoDup ks.
Proof. intros Hp. unfold range_order in Hp. rewrite Hp. apply NoDup_fst_map_to_list. Qed.

Lemma range_order_elem m ks k : range_order m ks → k ∈ ks ↔ is_Some (m !! k).
Proof.
  intros Hp. unfold range_order in Hp. rewrite Hp, list_elem_of_fmap. split.
  - intros ([k' v] & -> & Hin%elem_of_map_to_list). simpl. by eexists.
  - intros [v Hv]. exists (k, v). split; [done|]. by apply elem_of_map_to_list.
Qed.

Lemma range_order_intro m ks :
  NoDup ks → (∀ k, k ∈ ks ↔ is_Some (m !! k)) → range_order m ks.
Proof.
  intros Hnd Hin. apply NoDup_Permutation; [done|apply NoDup_fst_map_to_list|].
  intros k. rewrite Hin, list_elem_of_fmap. split.
  - intros [v Hv]. exists (k, v). split; [done|]. by apply elem_of_map_to_list.
  - intros ([k' v] & -> & Hx%elem_of_map_to_list). by eexists.
Qed.

Lemma range_order_canon m : range_order m (map_to_list m).*1.
Proof. unfold range_order. done. Qed.
End range.

(** The body of a [Range] that keeps, rewrites or deletes the entry it is at and
    emits outputs: [f k v] gives the outputs and the entry's new value, [None]
    when the entry is deleted. *)
Definition range_step {K V O} `{Countable K} (f : K → V → list O * option V) (k : K)
    (m : gmap K V) : list O * gmap K V :=
  match m !! k with
  | None => ([], m)
  | Some v =>
      let '(o, v') := f k v in
      (o, match v' with Some v' => <[k := v']> m | None => delete k m end)
  end.

Definition range_map {K V O} `{Countable K} (f : K → V → list O * option V) (ks : list K)
    (m : gmap K V) : list O * gmap K V := foldOut (range_step f) ks m.

Section range_map.
Context {K V O : Type} `{Countable K} (f : K → V → list O * option V).
Implicit Types (m : gmap K V) (ks : list K).

Lemma range_step_lookup k k' m :
  (range_step f k m).2 !! k' =
    if decide (k' = k) then m !! k' ≫= λ v, (f k' v).2 else m !! k'.
Proof.
  unfold range_step. case_decide as Hk.
  - subst k'. destruct (m !! k) as [v|] eqn:E; simpl; [|done].
    destruct (f k v) as [o [v'|]]; simpl; by simplify_map_eq.
  - destruct (m !! k) as [v|]; simpl; [|done].
    destruct (f k v) as [o [v'|]]; simpl; by simplify_map_eq.
Qed.

Lemma range_map_lookup ks m k :
  NoDup ks →
  (range_map f ks m).2 !! k =
    if decide (k ∈ ks) then m !! k ≫= λ v, (f k v).2 else m !! k.
Proof.
  intros Hnd. revert m. induction Hnd as [|k1 ks Hk1 Hnd IH]; intros m; [done|].
  unfold range_map. simpl. pose proof (range_step_lookup k1 k m) as Hs.
  destruct (range_step f k1 m) as [o m1]. specialize (IH m1). unfold range_map in IH.
  destruct (foldOut (range_step f) ks m1) as [os m2]. simpl in *. rewrite IH, Hs.
  destruct (decide (k = k1)) as [->|Hne].
  - rewrite decide_False by done. rewrite decide_True by by left. done.
  - destruct (decide (k ∈ ks)).
    + rewrite decide_True by (by right). done.
    + rewrite decide_False by (by rewrite elem_of_cons; intros [?|?]). done.
Qed.

Lemma range_map_out ks m :
  NoDup ks →
  (range_map f ks m).1 = mjoin ((λ k, from_option (λ v, (f k v).1) [] (m !! k)) <$> ks).
Proof.
  intros Hnd. revert m. induction Hnd as [|k1 ks Hk1 Hnd IH]; intros m; [done|].
  unfold range_map. simpl.
  assert (∀ k, k ∈ ks → (range_step f k1 m).2 !! k = m !! k) as Hs.
  { intros k Hk. rewrite range_step_lookup. case_decide; [by subst|done]. }
  assert ((range_step f k1 m).1 = from_option (λ v, (f k1 v).1) [] (m !! k1)) as Ho.
  { unfold range_step. destruct (m !! k1) as [v|]; simpl; [|done]. by destruct (f k1 v). }
  destruct (range_step f k1 m) as [o m1]. specialize (IH m1). unfold range_map in IH.
  destruct (foldOut (range_step f) ks m1) as [os m2]. simpl in *. rewrite IH, Ho. f_equal.
  f_equal. apply list_fmap_ext. intros i k Hk. rewrite Hs; [done|].
  by eapply list_elem_of_lookup_2.
Qed.

(** Over all the keys of the map. *)
Lemma range_map_order ks m k :
  range_order m ks → (range_map f ks m).2 !! k = m !! k ≫= λ v, (f k v).2.
Proof.
  intros Ho. rewrite range_map_lookup by eauto using range_order_NoDup.
  case_decide as Hk; [done|]. rewrite range_order_elem in Hk by done.
  destruct (m !! k); [|done]. destruct Hk. by eexists.
Qed.

Lemma elem_of_range_map_out ks m x :
  range_order m ks →
  x ∈ (range_map f ks m).1 ↔ ∃ k v, m !! k = Some v ∧ x ∈ (f k v).1.
Proof.
  intros Ho. rewrite range_map_out by eauto using range_order_NoDup.
  rewrite list_elem_of_join. split.
  - intros (l & Hx & (k & -> & Hk)%list_elem_of_fmap).
    destruct (m !! k) as [v|] eqn:E; simpl in Hx; [by eauto|]. by apply not_elem_of_nil in Hx.
  - intros (k & v & Hk & Hx). exists (f k v).1. split; [done|].
    apply list_elem_of_fmap. exists k. rewrite Hk. split; [done|].
    eapply range_order_elem; eauto.
Qed.
End range_map.

(** Grouping a list by a key and putting the groups together again. *)
Section groups.
Context {A B : Type} `{EqDecision B} (f : A → B).

Lemma group_cons (g : B → list A) x ks :
  NoDup ks → f x ∈ ks →
  mjoin ((λ k, (if decide (f x = k) then [x] else []) ++ g k) <$> ks) ≡ₚ x :: mjoin (g <$> ks).
Proof.
  intros Hnd. assert (∀ ks, f x ∉ ks → mjoin ((λ k, (if decide (f x = k) then [x] else []) ++ g k) <$> ks) = mjoin (g <$> ks)) as H0.
  { clear. intros ks. induction ks as [|k ks IH]; [done|]. rewrite not_elem_of_cons, !mjoin_fmap_cons. intros [Hne Hk].
    by rewrite decide_False, IH by done. }
  induction Hnd as [|k ks Hk Hnd IH]; [by intros ?%elem_of_nil|]. rewrite !mjoin_fmap_cons.
  intros [<-|Hin]%elem_of_cons.
  - rewrite decide_True, H0 by done. done.
  - rewrite decide_False by congruence. rewrite IH by done. simpl. by rewrite Permutation_middle.
Qed.

Lemma group_Permutation ks l :
  NoDup ks → (∀ x, x ∈ l → f x ∈ ks) → mjoin ((λ k, filter (λ x, f x = k) l) <$> ks) ≡ₚ l.
Proof.
  intros Hnd. induction l as [|x l IH]; intros Hin.
  - clear. induction ks as [|k ks IH]; [done|]. by rewrite mjoin_fmap_cons.
  - transitivity (x :: mjoin ((λ k, filter (λ x, f x = k) l) <$> ks)).
    + rewrite <- group_cons by (done || (apply Hin; by left)). apply reflexive_eq. f_equal. apply list_fmap_ext. intros i k _.
      rewrite filter_cons. by case_decide.
    + f_equiv. apply IH. intros y Hy. apply Hin. by right.
Qed.
End groups.

(** ** Slices with Go's bounds checks: [None] is the run-time panic *)

Definition slice_get {A} (l : list A) (i : Z) : option A :=
  if 0 <=? i then l !! Z.to_nat i else None.
Definition slice_set {A} (l : list A) (i : Z) (x : A) : option (list A) :=
  if (0 <=? i) && (i <? Z.of_nat (length l)) then Some (<[Z.to_nat i := x]> l) else None.
(** [l[i:]] *)
Definition slice_from {A} (l : list A) (i : Z) : option (list A) :=
  if (0 <=? i) && (i <=? Z.of_nat (length l)) then Some (drop (Z.to_nat i) l) else None.
Definition len {A} (l : list A) : Z := Z.of_nat (length l).

Lemma len_nonneg {A} (l : list A) : 0 <= len l.
Proof. unfold len. lia. Qed.

Lemma len_app {A} (l1 l2 : list A) : len (l1 ++ l2) = len l1 + len l2.
Proof. unfold len. rewrite length_app. lia. Qed.

Lemma slice_from_app {A} (l1 l2 : list A) : slice_from (l1 ++ l2) (len l1) = Some l2.
Proof.
  unfold slice_from, len. rewrite length_app, Nat2Z.id, drop_app_length.
  destruct (Z.leb_spec 0 (Z.of_nat (length l1))); [|lia].
  by destruct (Z.leb_spec (Z.of_nat (length l1)) (Z.of_nat (length l1 + length l2))); [|lia].
Qed.

Lemma slice_get_Some {A} (l : list A) i : 0 <= i < len l → is_Some (slice_get l i).
Proof.
  unfold slice_get, len. intros Hi. destruct (Z.leb_spec 0 i); [|lia].
  apply lookup_lt_is_Some. lia.
Qed.

Lemma slice_set_Some {A} (l : list A) i x :
  0 <= i < len l → slice_set l i x = Some (<[Z.to_nat i := x]> l).
Proof.
  unfold slice_set, len. intros Hi.
  by destruct (Z.leb_spec 0 i), (Z.ltb_spec i (Z.of_nat (length l))); [|lia..].
Qed.

Lemma slice_set_get {A} (l l' : list A) i j x :
  slice_set l i x = Some l' →
  len l' = len l ∧ (slice_get l' j = if i =? j then Some x else slice_get l j).
Proof.
  unfold slice_set. destruct (_ && _) eqn:E; [|done]. intros [= <-]. apply andb_true_iff in E as [E1%Z.leb_le E2%Z.ltb_lt].
  unfold len, slice_get. rewrite length_insert. split; [done|].
  destruct (Z.eqb_spec i j) as [->|Hne].
  - destruct (Z.leb_spec 0 j); [|lia]. apply list_lookup_insert_eq. lia.
  - destruct (Z.leb_spec 0 j); [|done]. apply list_lookup_insert_ne. lia.
Qed.

(** How many elements of a list pass a test. *)
Fixpoint countb {A} (f : A → bool) (l : list A) : Z :=
  match l with
  | [] => 0
  | a :: l' => (if f a then 1 else 0) + countb f l'
  end.

Lemma countb_app {A} (f : A → bool) l1 l2 : countb f (l1 ++ l2) = countb f l1 + countb f l2.
Proof. induction l1 as [|a l1 IH]; simpl; [done|]. rewrite IH. lia. Qed.

Lemma countb_ext {A} (f g : A → bool) l : (∀ a, f a = g a) → countb f l = countb g l.
Proof. intros Hfg. induction l as [|a l IH]; [done|]. cbn [countb]. by rewrite Hfg, IH. Qed.

Lemma countb_nonneg {A} (f : A → bool) l : 0 <= countb f l.
Proof. induction l as [|a l IH]; simpl; [done|]. case_match; lia. Qed.

(** A loop whose body may panic, from the first element to the last. *)
Fixpoint run_all {A S} (f : A → S → option S) (l : list A) (s : S) : option S :=
  match l with
  | [] => Some s
  | a :: l' => f a s ≫= run_all f l'
  end.

(** [R pre s]: the state after the elements [pre]. *)
Lemma run_all_rep {A S} (R : list A → S → Prop) (f : A → S → option S) (P : A → Prop) l s :
  (∀ pre a s, R pre s → P a → ∃ s', f a s = Some s' ∧ R (pre ++ [a]) s') →
  Forall P l → R [] s → ∃ s', run_all f l s = Some s' ∧ R l s'.
Proof.
  intros Hstep Hall Hs.
  assert (∀ pre s, R pre s → ∃ s', run_all f l s = Some s' ∧ R (pre ++ l) s') as Hgen; [|exact (Hgen [] s Hs)].
  clear Hs s. induction Hall as [|a l Ha Hall IH]; intros pre s Hs; simpl.
  - exists s. by rewrite app_nil_r.
  - destruct (Hstep pre a s Hs Ha) as (s1 & -> & Hs1). simpl.
    destruct (IH _ _ Hs1) as (s2 & -> & Hs2). exists s2. by rewrite <- app_assoc in Hs2.
Qed.

Lemma run_all_app {A S} (f : A → S → option S) l1 l2 s :
  run_all f (l1 ++ l2) s = run_all f l1 s ≫= run_all f l2.
Proof.
  revert s. induction l1 as [|a l1 IH]; intros s; simpl; [done|].
  destruct (f a s) as [s1|]; simpl; [apply IH|done].
Qed.

Lemma run_all_ext {A S} (f g : A → S → option S) l s :
  (∀ a s, f a s = g a s) → run_all f l s = run_all g l s.
Proof.
  intros Hfg. revert s. induction l as [|a l IH]; intros s; simpl; [done|].
  rewrite Hfg. destruct (g a s); simpl; [apply IH|done].
Qed.

Lemma run_all_fmap {A B S} (f : B → S → option S) (g : A → B) l s :
  run_all f (g <$> l) s = run_all (λ a, f (g a)) l s.
Proof.
  revert s. induction l as [|a l IH]; intros s; simpl; [done|].
  destruct (f (g a) s); simpl; [apply IH|done].
Qed.

(** Nested loops are one loop. *)
Lemma run_all_bind {A B S} (f : B → S → option S) (g : A → list B) l s :
  run_all f (l ≫= g) s = run_all (λ a, run_all f (g a)) l s.
Proof.
  revert s. induction l as [|a l IH]; intros s; simpl; [done|].
  rewrite run_all_app. destruct (run_all f (g a) s); simpl; [apply IH|done].
Qed.

(** ** Sums over maps *)

Definition sumZ (l : list Z) : Z := foldr Z.add 0 l.

Lemma sumZ_cons x l : sumZ (x :: l) = x + sumZ l.
Proof. done. Qed.

Lemma sumZ_app l1 l2 : sumZ (l1 ++ l2) = sumZ l1 + sumZ l2.
Proof. unfold sumZ. induction l1 as [|x l1 IH]; simpl; [done|]. rewrite IH. lia. Qed.

Lemma sumZ_fmap_add {A} (f g : A → Z) l :
  sumZ ((λ a, f a + g a) <$> l) = sumZ (f <$> l) + sumZ (g <$> l).
Proof. induction l as [|a l IH]; [done|]. rewrite !fmap_cons. rewrite !sumZ_cons. lia. Qed.

Lemma u64_sumZ l : u64 (sumZ (u64 <$> l)) = u64 (sumZ l).
Proof.
  induction l as [|x l IH]; [done|].
  change (u64 (u64 x + sumZ (u64 <$> l)) = u64 (x + sumZ l)).
  by rewrite u64_add_l, <- u64_add_r, IH, u64_add_r.
Qed.

Lemma sumZ_const0 {A} (l : list A) : sumZ ((λ _, 0) <$> l) = 0.
Proof. induction l as [|a l IH]; [done|]. by rewrite fmap_cons, sumZ_cons, IH. Qed.

(** Exactly the index [k] of a range passes the test. *)
Lemma sumZ_indicator (f : nat → bool) a n k :
  (a <= k < a + n)%nat → f k = true → (∀ i, i ≠ k → f i = false) →
  sumZ ((λ i, if f i then 1 else 0) <$> seq a n) = 1.
Proof.
  intros Hk Hf Hne. assert (∀ b m, (k < b ∨ b + m <= k)%nat →
    sumZ ((λ i, if f i then 1 else 0) <$> seq b m) = 0) as H0.
  { intros b m. revert b. induction m as [|m IH]; intros b Hb; [done|].
    change (seq b (S m)) with (b :: seq (S b) m). by rewrite fmap_cons, sumZ_cons, Hne, IH by lia. }
  replace n with ((k - a) + (1 + (n - (k - a) - 1)))%nat by lia.
  rewrite !seq_app, !fmap_app, !sumZ_app. replace (a + (k - a))%nat with k by lia.
  rewrite (H0 a), (H0 (k + 1)%nat) by lia. simpl. by rewrite Hf.
Qed.

#[global] Instance sumZ_Permutation : Proper ((≡ₚ) ==> (=)) sumZ.
Proof. unfold sumZ. induction 1; simpl; lia. Qed.

Definition map_total {K V} `{Countable K} (f : V → Z) (m : gmap K V) : Z :=
  sumZ ((λ kv, f kv.2) <$> map_to_list m).

Section map_total.
Context {K V : Type} `{Countable K} (f : V → Z).
Implicit Types m : gmap K V.

Lemma map_total_empty : map_total f (∅ : gmap K V) = 0.
Proof. unfold map_total. by rewrite map_to_list_empty. Qed.

Lemma map_total_insert_None m k v : m !! k = None → map_total f (<[k := v]> m) = f v + map_total f m.
Proof. intros Hk. unfold map_total. by rewrite map_to_list_insert. Qed.

Lemma map_total_delete m k v : m !! k = Some v → map_total f m = f v + map_total f (delete k m).
Proof.
  intros Hk. rewrite <- (insert_delete_id m k v) at 1 by done.
  apply map_total_insert_None, lookup_delete_eq.
Qed.

Lemma map_total_insert m k v :
  map_total f (<[k := v]> m) = map_total f m - from_option f 0 (m !! k) + f v.
Proof.
  destruct (m !! k) as [v0|] eqn:E; simpl; [|rewrite map_total_insert_None by done; lia].
  rewrite (map_total_delete m k v0) by done.
  rewrite (map_total_delete (<[k:=v]> m) k v) by apply lookup_insert_eq.
  rewrite delete_insert_eq. lia.
Qed.

Lemma map_total_order m ks :
  range_order m ks → sumZ ((λ k, from_option f 0 (m !! k)) <$> ks) = map_total f m.
Proof.
  intros Ho. unfold range_order in Ho. rewrite Ho. unfold map_total. f_equal.
  rewrite <- list_fmap_compose. apply list_fmap_ext. intros i [k v] Hkv. simpl.
  assert (m !! k = Some v) as ->; [|done].
  apply elem_of_map_to_list. by eapply list_elem_of_lookup_2.
Qed.
End map_total.

(** ** Transition systems *)

Section invariants.
Context {S : Type} (step : S → S → Prop) (P : S → Prop).

Lemma rtc_invariant s s' :
  (∀ a b, P a → step a b → P b) → P s → rtc step s s' → P s'.
Proof. intros Hstep Hs Hr. induction Hr; eauto. Qed.
End invariants.

(** ** Sublists *)

Lemma Forall_sublist {A} (P : A → Prop) l k : k `sublist_of` l → Forall P l → Forall P k.
Proof. rewrite !list.Forall_forall. intros Hs Hl x Hx. apply Hl. by eapply elem_of_sublist. Qed.

Lemma sublist_fmap {A B} (f : A → B) l k : k `sublist_of` l → f <$> k `sublist_of` f <$> l.
Proof. induction 1; cbn; by constructor. Qed.

(** ** Automation *)

Create HintDb go.
Create Rewrite HintDb go.
#[export] Hint Resolve u64_range u32_range i64_range range_order_canon : go.
#[export] Hint Rewrite @foldS_app @foldOut_app : go.

(** Splits the innermost condition of the goal or of a hypothesis. *)
Ltac case_cond :=
  match goal with
  | |- context [if ?b then _ else _] =>
      lazymatch b with context [if _ then _ else _] => fail | _ => destruct b eqn:? end
  | H : context [if ?b then _ else _] |- _ =>
      lazymatch b with context [if _ then _ else _] => fail | _ => destruct b eqn:? end
  end.

(** Turns boolean tests of hypotheses into arithmetic facts. *)
Ltac bool_facts :=
  repeat match goal with
  | H : _ && _ = true |- _ => apply andb_true_iff in H as [? ?]
  | H : _ || _ = false |- _ => apply orb_false_iff in H as [? ?]
  | H : negb _ = true |- _ => apply negb_true_iff in H
  | H : negb _ = false |- _ => apply negb_false_iff in H
  | H : (_ <=? _) = true |- _ => apply Z.leb_le in H
  | H : (_ <=? _) = false |- _ => apply Z.leb_gt in H
  | H : (_ <? _) = true |- _ => apply Z.ltb_lt in H
  | H : (_ <? _) = false |- _ => apply Z.ltb_ge in H
  | H : (_ >=? _) = true |- _ => rewrite Z.geb_leb in H; apply Z.leb_le in H
  | H : (_ >=? _) = false |- _ => rewrite Z.geb_leb in H; apply Z.leb_gt in H
  | H : (_ >? _) = true |- _ => rewrite Z.gtb_ltb in H; apply Z.ltb_lt in H
  | H : (_ >? _) = false |- _ => rewrite Z.gtb_ltb in H; apply Z.ltb_ge in H
  | H : (_ =? _) = true |- _ => apply Z.eqb_eq in H
  | H : (_ =? _) = false |- _ => apply Z.eqb_neq in H
  | H : bool_decide _ = true |- _ => apply bool_decide_eq_true in H
  | H : bool_decide _ = false |- _ => apply bool_decide_eq_false in H
  end.

Ltac cond_lia := repeat case_cond; bool_facts; try lia.
