(* ===== verification/GoStrings.v ===== *)
(** * GoStrings: the parts of Go's [strings], [strconv] and [fmt] the program uses

    A Go string is a sequence of bytes: Rocq's [string], whose characters are
    the 256 bytes.  Only the functions the source calls are here, each written
    out from its documentation. *)

From S2P Require Import Prelude.

Abbreviation byte_list := String.list_ascii_of_string.
Abbreviation of_byte_list := String.string_of_list_ascii.

(** [len(s)]. *)
Definition slen (s : string) : Z := Z.of_nat (String.length s).

(** [string([]byte{0})], [strconv.FormatInt(n, 10)], [strconv.FormatBool]. *)
Definition nul : ascii := "000"%char.
Definition FormatInt (n : Z) : string := pretty n.
Definition FormatBool (b : bool) : string := if b then "true" else "false".

Definition HasPrefix (s pre : string) : bool := String.prefix pre s.

Fixpoint prefix_of (p l : list ascii) : bool :=
  match p, l with
  | [], _ => true
  | a :: p', b :: l' => Ascii.eqb a b && prefix_of p' l'
  | _ :: _, [] => false
  end.

Definition HasSuffix (s suf : string) : bool :=
  prefix_of (reverse (byte_list suf)) (reverse (byte_list s)).

(** [s[i:]] and [s[:i]] for an index inside the string. *)
Definition sdrop (i : nat) (s : string) : string := of_byte_list (drop i (byte_list s)).
Definition stake (i : nat) (s : string) : string := of_byte_list (take i (byte_list s)).

(** [strings.Split(s, c)] for a separator of one byte: the pieces between the
    separators, one more than there are separators. *)
Fixpoint SplitBytes (c : ascii) (l : list ascii) : list (list ascii) :=
  match l with
  | [] => [[]]
  | a :: l' =>
      if Ascii.eqb a c then [] :: SplitBytes c l'
      else match SplitBytes c l' with
           | [] => [[a]]
           | p :: ps => (a :: p) :: ps
           end
  end.

Definition Split (s : string) (c : ascii) : list string :=
  of_byte_list <$> SplitBytes c (byte_list s).

(** [strings.Join(l, sep)]. *)
Fixpoint Join (sep : string) (l : list string) : string :=
  match l with
  | [] => ""
  | [s] => s
  | s :: l' => s +:+ sep +:+ Join sep l'
  end.

(** [strings.LastIndex] and [bytes.IndexByte] of a single byte, -1 when absent. *)
Fixpoint IndexByte_from (c : ascii) (l : list ascii) (i : Z) : Z :=
  match l with
  | [] => -1
  | a :: l' => if Ascii.eqb a c then i else IndexByte_from c l' (i + 1)
  end.
Definition IndexByte (s : string) (c : ascii) : Z := IndexByte_from c (byte_list s) 0.

Fixpoint LastIndexByte_from (c : ascii) (l : list ascii) (i last : Z) : Z :=
  match l with
  | [] => last
  | a :: l' => LastIndexByte_from c l' (i + 1) (if Ascii.eqb a c then i else last)
  end.
Definition LastIndexByte (s : string) (c : ascii) : Z := LastIndexByte_from c (byte_list s) 0 (-1).

(** [strings.ToLower] and [strings.ToUpper] on the ASCII range (the bytes of
    the names the program folds). *)
Definition lower_ascii (a : ascii) : ascii :=
  let n := nat_of_ascii a in
  if ((65 <=? n) && (n <=? 90))%nat then ascii_of_nat (n + 32) else a.
Definition upper_ascii (a : ascii) : ascii :=
  let n := nat_of_ascii a in
  if ((97 <=? n) && (n <=? 122))%nat then ascii_of_nat (n - 32) else a.
Definition ToLower (s : string) : string := of_byte_list (lower_ascii <$> byte_list s).
Definition ToUpper (s : string) : string := of_byte_list (upper_ascii <$> byte_list s).

(** The value of a digit in base 16 (hex digits in either case). *)
Definition hexDigit (a : ascii) : option Z :=
  let n := Z.of_N (N_of_ascii a) in
  if (48 <=? n) && (n <=? 57) then Some (n - 48)
  else if (97 <=? n) && (n <=? 102) then Some (n - 87)
  else if (65 <=? n) && (n <=? 70) then Some (n - 55)
  else None.

Definition decDigit (a : ascii) : option Z :=
  let n := Z.of_N (N_of_ascii a) in
  if (48 <=? n) && (n <=? 57) then Some (n - 48) else None.

Fixpoint digits_value (dig : ascii → option Z) (base : Z) (l : list ascii) (acc : Z) : option Z :=
  match l with
  | [] => Some acc
  | a :: l' =>
      match dig a with
      | Some d => digits_value dig base l' (acc * base + d)
      | None => None
      end
  end.

(** [strconv.ParseUint(s, 16, bits)]: [None] is the error. *)
Definition ParseUint16 (s : string) (bits : Z) : option Z :=
  match byte_list s with
  | [] => None
  | l => match digits_value hexDigit 16 l 0 with
         | Some v => if v <? 2 ^ bits then Some v else None
         | None => None
         end
  end.

(** [strconv.Atoi(s)] on a 64-bit platform: an optional sign, decimal digits,
    the range of [int]; [None] is the error. *)
Definition Atoi (s : string) : option Z :=
  let parse neg l :=
    match l with
    | [] => None
    | _ => match digits_value decDigit 10 l 0 with
           | Some v =>
               let v := if neg : bool then - v else v in
               if (minInt64 <=? v) && (v <=? maxInt64) then Some v else None
           | None => None
           end
    end in
  match byte_list s with
  | "-"%char :: l => parse true l
  | "+"%char :: l => parse false l
  | l => parse false l
  end.

(** The value [Atoi] returns beside its error: 0 on a syntax error, the nearest
    end of [int] when out of range. *)
Definition AtoiValue (s : string) : Z :=
  let parse (neg : bool) l :=
    match l with
    | [] => 0
    | _ => match digits_value decDigit 10 l 0 with
           | Some v => Z.max minInt64 (Z.min maxInt64 (if neg then - v else v))
           | None => 0
           end
    end in
  match byte_list s with
  | "-"%char :: l => parse true l
  | "+"%char :: l => parse false l
  | l => parse false l
  end.

(** White space of the ASCII range, as [strings.Fields], [bytes.TrimSpace] and
    the class [\s] of [regexp] see it ([\s] leaves the vertical tab out). *)
Definition is_space (a : ascii) : bool :=
  let n := nat_of_ascii a in ((9 <=? n) && (n <=? 13) || (n =? 32))%nat.
Definition is_re_space (a : ascii) : bool := is_space a && negb (Nat.eqb (nat_of_ascii a) 11).

(** [strings.Fields]: the maximal runs of bytes that are not white space;
    [cur] is the run being read. *)
Fixpoint Fields_from (l cur : list ascii) : list (list ascii) :=
  match l with
  | [] => match cur with [] => [] | _ => [cur] end
  | a :: l' =>
      if is_space a then match cur with [] => Fields_from l' [] | _ => cur :: Fields_from l' [] end
      else Fields_from l' (cur ++ [a])
  end.
Definition Fields (s : string) : list string := of_byte_list <$> Fields_from (byte_list s) [].

Fixpoint trim_left (f : ascii → bool) (l : list ascii) : list ascii :=
  match l with
  | [] => []
  | a :: l' => if f a then trim_left f l' else l
  end.
Definition TrimSpace (s : string) : string :=
  of_byte_list (reverse (trim_left is_space (reverse (trim_left is_space (byte_list s))))).

Definition TrimSuffix (s suf : string) : string :=
  if HasSuffix s suf then stake (String.length s - String.length suf) s else s.

(** [strings.Contains] *)
Fixpoint contains_from (sub l : list ascii) : bool :=
  prefix_of sub l || match l with [] => false | _ :: l' => contains_from sub l' end.
Definition Contains (s sub : string) : bool := contains_from (byte_list sub) (byte_list s).

(** ** Lemmas *)

Lemma of_byte_list_inv s : of_byte_list (byte_list s) = s.
Proof. apply String.string_of_list_ascii_of_string. Qed.

Lemma byte_list_inv l : byte_list (of_byte_list l) = l.
Proof. apply String.list_ascii_of_string_of_list_ascii. Qed.

Lemma byte_list_app s t : byte_list (s +:+ t) = byte_list s ++ byte_list t.
Proof. induction s as [|a s IH]; simpl; [done|]. by rewrite IH. Qed.

Lemma byte_list_inj s t : byte_list s = byte_list t → s = t.
Proof. intros E. by rewrite <- (of_byte_list_inv s), E, of_byte_list_inv. Qed.

Lemma length_byte_list s : length (byte_list s) = String.length s.
Proof. induction s; simpl; auto. Qed.

Lemma sapp_nil_r s : s +:+ "" = s.
Proof. apply byte_list_inj. by rewrite byte_list_app, app_nil_r. Qed.

Lemma sapp_assoc s t u : (s +:+ t) +:+ u = s +:+ (t +:+ u).
Proof. apply byte_list_inj. by rewrite !byte_list_app, app_assoc. Qed.

Lemma SplitBytes_nonempty c l : SplitBytes c l ≠ [].
Proof. destruct l as [|a l]; simpl; [done|]. repeat case_match; done. Qed.

Lemma Split_nonempty s c : Split s c ≠ [].
Proof.
  unfold Split. destruct (SplitBytes c (byte_list s)) eqn:E; [|done].
  by apply SplitBytes_nonempty in E.
Qed.

(** The last position of a byte. *)
Lemma LastIndexByte_from_none c l i last : c ∉ l → LastIndexByte_from c l i last = last.
Proof.
  revert i last. induction l as [|a l IH]; intros i last; simpl; [done|].
  intros [Hne Hc]%not_elem_of_cons. destruct (Ascii.eqb_spec a c); [congruence|]. by apply IH.
Qed.

Lemma LastIndexByte_from_app c l1 l2 i last :
  c ∉ l2 → LastIndexByte_from c (l1 ++ c :: l2) i last = i + len l1.
Proof.
  unfold len. intros Hc. revert i last. induction l1 as [|a l1 IH]; intros i last; simpl.
  - rewrite Ascii.eqb_refl, LastIndexByte_from_none by done. lia.
  - rewrite IH. lia.
Qed.

Lemma FormatInt_inj : Inj (=) (=) FormatInt.
Proof. intros a b. apply (inj pretty). Qed.

Lemma FormatBool_inj : Inj (=) (=) FormatBool.
Proof. by intros [] []. Qed.

(** Joining by a byte that does not occur in the pieces loses nothing: the
    pieces come back by splitting. *)
Lemma SplitBytes_app c p l :
  c ∉ p → SplitBytes c (p ++ c :: l) = p :: SplitBytes c l.
Proof.
  induction p as [|a p IH]; simpl; intros Hc.
  - by rewrite Ascii.eqb_refl.
  - apply not_elem_of_cons in Hc as [Hne Hc].
    destruct (Ascii.eqb_spec a c) as [->|_]; [done|]. by rewrite IH.
Qed.

Lemma SplitBytes_single c p : c ∉ p → SplitBytes c p = [p].
Proof.
  induction p as [|a p IH]; simpl; intros Hc; [done|].
  apply not_elem_of_cons in Hc as [Hne Hc].
  destruct (Ascii.eqb_spec a c) as [->|_]; [done|]. by rewrite IH.
Qed.

Definition free_of (c : ascii) (s : string) : Prop := c ∉ byte_list s.

#[global] Instance free_of_dec c s : Decision (free_of c s).
Proof. unfold free_of. apply _. Defined.

Lemma Split_Join c l :
  l ≠ [] → Forall (free_of c) l → Split (Join (String c "") l) c = l.
Proof.
  intros Hne Hall. unfold Split.
  induction Hall as [|s l Hs Hl IH]; [done|].
  destruct l as [|t l].
  - simpl. rewrite SplitBytes_single by done. simpl. by rewrite of_byte_list_inv.
  - change (Join _ (s :: t :: l)) with (s +:+ String c "" +:+ Join (String c "") (t :: l)).
    rewrite !byte_list_app. change (byte_list (String c "") ++ ?l) with (c :: l).
    rewrite SplitBytes_app by done. rewrite fmap_cons, IH by done.
    by rewrite of_byte_list_inv.
Qed.

(** A joined string holds the byte once per joint and where its pieces do. *)
Definition occ (c : ascii) (l : list ascii) : nat := length (filter (λ a, a = c) l).

Lemma occ_app c l1 l2 : occ c (l1 ++ l2) = (occ c l1 + occ c l2)%nat.
Proof. unfold occ. by rewrite list.filter_app, length_app. Qed.

Lemma occ_zero c s : occ c (byte_list s) = 0%nat ↔ free_of c s.
Proof.
  unfold occ, free_of. rewrite length_zero_iff_nil. induction (byte_list s) as [|a l IH]; simpl.
  - split; [intros _; apply not_elem_of_nil|done].
  - rewrite filter_cons, not_elem_of_cons. case_decide as Ha; [|rewrite IH]; naive_solver.
Qed.

Lemma occ_Join c l :
  l ≠ [] →
  S (occ c (byte_list (Join (String c "") l))) = (length l + sum_list ((λ s, occ c (byte_list s)) <$> l))%nat.
Proof.
  induction l as [|s l IH]; [done|]. intros _. destruct l as [|t l]; [simpl; lia|].
  change (Join _ (s :: t :: l)) with (s +:+ String c "" +:+ Join (String c "") (t :: l)).
  assert (occ c (byte_list (String c "")) = 1%nat) as Hc
    by (unfold occ; simpl; rewrite filter_cons, decide_True by done; done).
  rewrite !byte_list_app, !occ_app, Hc. specialize (IH ltac:(done)).
  revert IH. generalize (t :: l) as tl. intros tl IH. cbn. cbn in IH. lia.
Qed.

(** No other list of as many pieces or more joins to the same string. *)
Lemma Join_inj c l1 l2 :
  l1 ≠ [] → (length l1 <= length l2)%nat → Forall (free_of c) l1 →
  Join (String c "") l1 = Join (String c "") l2 → l1 = l2.
Proof.
  intros Hne Hlen Hall E. assert (l2 ≠ []) as Hne2 by (by destruct l1, l2; simpl in *; try lia).
  assert (sum_list ((λ s, occ c (byte_list s)) <$> l1) = 0%nat) as H1.
  { clear -Hall. induction Hall as [|s l Hs _ IH]; [done|]. apply occ_zero in Hs. cbn in *. lia. }
  pose proof (occ_Join c l1 Hne) as E1. pose proof (occ_Join c l2 Hne2) as E2. rewrite E in E1.
  assert (Forall (free_of c) l2) as Hall2.
  { assert (sum_list ((λ s, occ c (byte_list s)) <$> l2) = 0%nat) as H2 by lia. clear -H2.
    induction l2 as [|s l IH]; [done|]. cbn in H2, IH.
    constructor; [apply occ_zero; lia|apply IH; lia]. }
  rewrite <- (Split_Join c l1), <- (Split_Join c l2) by done. by f_equal.
Qed.

#[export] Hint Rewrite of_byte_list_inv byte_list_inv byte_list_app : go.
#[export] Hint Resolve Split_nonempty FormatInt_inj FormatBool_inj : go.
