(* ===== verification/Float64.v ===== *)
(** * Float64: Go's [float64]

    IEEE 754 binary64 through the executable [SpecFloat] of the core library,
    with the conversions between [float64] and the integer types. *)

From Corelib Require Export SpecFloat.
From S2P Require Import Prelude.

Definition float64 := spec_float.

Definition F_add : float64 → float64 → float64 := SFadd 53 1024.
Definition F_sub : float64 → float64 → float64 := SFsub 53 1024.
Definition F_mul : float64 → float64 → float64 := SFmul 53 1024.
Definition F_div : float64 → float64 → float64 := SFdiv 53 1024.
Definition F_ltb : float64 → float64 → bool := SFltb.
Definition F_leb : float64 → float64 → bool := SFleb.
Definition F_eqb : float64 → float64 → bool := SFeqb.
Definition F_zero : float64 := S754_zero false.

Definition IsNaN (f : float64) : bool := match f with S754_nan => true | _ => false end.

(** [float64(n)]: round to nearest, ties to even. *)
Definition F_of_Z (n : Z) : float64 := binary_normalize 53 1024 n 0 false.

(** The integer part, toward zero; none for an infinity or a NaN. *)
Definition F_trunc (f : float64) : option Z :=
  match f with
  | S754_zero _ => Some 0
  | S754_finite s m e =>
      Some (cond_Zopp s (if 0 <=? e then Zpos m * 2 ^ e else Zpos m / 2 ^ (- e)))
  | _ => None
  end.

(** Converting a float outside the target's range is implementation-defined in
    Go: the class stands for what the platform's instruction returns. *)
Class GoPlatform := {
  float_to_uint64_out : float64 → Z;
  float_to_int64_out : float64 → Z;
}.

Definition uint64_of_float `{GoPlatform} (f : float64) : Z :=
  match F_trunc f with
  | Some v => if (0 <=? v) && (v <? two64) then v else u64 (float_to_uint64_out f)
  | None => u64 (float_to_uint64_out f)
  end.

Definition int64_of_float `{GoPlatform} (f : float64) : Z :=
  match F_trunc f with
  | Some v => if (minInt64 <=? v) && (v <=? maxInt64) then v else i64 (float_to_int64_out f)
  | None => i64 (float_to_int64_out f)
  end.

(** [time.Duration.Seconds]: Go's [/] and [%] truncate toward zero. *)
Definition Seconds (d : Z) : float64 :=
  F_add (F_of_Z (Z.quot d 1000000000))
        (F_div (F_of_Z (Z.rem d 1000000000)) (F_of_Z 1000000000)).

(** The value of a number data point ([pmetric.NumberDataPoint]). *)
Inductive NumberValue := IntValue (n : Z) | DoubleValue (f : float64).

(** The indefinite integer of x86-64's conversions. *)
Module AMD64.
#[export] Instance platform : GoPlatform :=
  {| float_to_uint64_out _ := two63; float_to_int64_out _ := minInt64 |}.
End AMD64.

(** ** Integers below 2^53 are exact *)

Lemma digits2_pos_bounds m :
  2 ^ (Zpos (digits2_pos m) - 1) <= Zpos m < 2 ^ Zpos (digits2_pos m).
Proof.
  induction m as [m IH|m IH|]; simpl digits2_pos; [..|vm_compute; split; congruence].
  all: rewrite Pos2Z.inj_succ; replace (Z.succ (Z.pos (digits2_pos m)) - 1)
         with (Z.succ (Z.pos (digits2_pos m) - 1)) by lia.
  all: rewrite !Z.pow_succ_r by lia; lia.
Qed.

Lemma iter_xO_spec m k :
  Zpos (Pos.iter xO m k) = Zpos m * 2 ^ Zpos k ∧
  Zpos (digits2_pos (Pos.iter xO m k)) = Zpos (digits2_pos m) + Zpos k.
Proof.
  induction k as [|k [IH1 IH2]] using Pos.peano_ind.
  - simpl. split; lia.
  - rewrite Pos.iter_succ. split.
    + rewrite Pos2Z.inj_xO, IH1, Pos2Z.inj_succ, Z.pow_succ_r; lia.
    + simpl digits2_pos. rewrite !Pos2Z.inj_succ, IH2. lia.
Qed.

Lemma fexp_53 x : -1021 <= x → fexp 53 1024 x = x - 53.
Proof. unfold fexp, emin. lia. Qed.

(** A mantissa of 53 digits and a small exponent is not rounded. *)
Lemma binary_round_aux_exact s m e :
  Zpos (digits2_pos m) = 53 → -1074 <= e <= 971 →
  binary_round_aux 53 1024 s (Zpos m) e loc_Exact = S754_finite s m e.
Proof.
  intros Hd He. unfold binary_round_aux.
  assert (shr_fexp 53 1024 (Zpos m) e loc_Exact =
          ({| shr_m := Zpos m; shr_r := false; shr_s := false |}, e)) as E.
  { unfold shr_fexp. unfold Zdigits2. rewrite Hd, fexp_53 by lia.
    replace (53 + e - 53 - e) with 0 by lia. done. }
  rewrite E. simpl loc_of_shr_record. simpl round_nearest_even. simpl shr_m. rewrite E. simpl shr_m.
  cbv iota. destruct (Z.leb_spec e (1024 - 53)); [done|lia].
Qed.

Lemma F_of_Z_finite n :
  0 < n < 2 ^ 53 →
  ∃ m e, F_of_Z n = S754_finite false m e ∧ e <= 0 ∧ Zpos m = n * 2 ^ (- e).
Proof.
  intros Hn. destruct n as [|m|]; [lia| |lia].
  unfold F_of_Z, binary_normalize, binary_round.
  pose proof (digits2_pos_bounds m) as [Hlo Hhi].
  set (d := Zpos (digits2_pos m)) in *.
  assert (d <= 53) as Hd.
  { apply Z.nlt_ge. intros Hlt. assert (2 ^ 53 <= 2 ^ (d - 1)) by (apply Z.pow_le_mono_r; lia). lia. }
  assert (0 < d) by (unfold d; lia).
  rewrite fexp_53 by lia. replace (d + 0 - 53) with (d - 53) by lia. unfold shl_align.
  replace (d - 53 - 0) with (d - 53) by lia.
  destruct (decide (d = 53)) as [Hd53|Hne].
  - rewrite Hd53. replace (53 - 53) with 0 by lia. exists m, 0.
    rewrite binary_round_aux_exact by (done || lia). split_and!; lia || done.
  - destruct (d - 53) as [|p|p] eqn:E; [lia..|].
    destruct (iter_xO_spec m p) as [Hv Hdig].
    exists (Pos.iter xO m p), (Zneg p). rewrite binary_round_aux_exact.
    + split_and!; [done|lia|]. by rewrite Hv.
    + fold d in Hdig. lia.
    + lia.
Qed.

Lemma F_trunc_of_Z n : 0 <= n < 2 ^ 53 → F_trunc (F_of_Z n) = Some n.
Proof.
  intros Hn. destruct (decide (n = 0)) as [->|]; [done|].
  destruct (F_of_Z_finite n) as (m & e & -> & He & Hm); [lia|]. unfold F_trunc. simpl. f_equal.
  destruct (Z.leb_spec 0 e).
  - assert (e = 0) as -> by lia. rewrite Z.pow_0_r. simpl in Hm. lia.
  - rewrite Hm. apply Z.div_mul. apply Z.pow_nonzero; lia.
Qed.

Lemma uint64_of_float_of_Z `{GoPlatform} n : 0 <= n < 2 ^ 53 → uint64_of_float (F_of_Z n) = n.
Proof.
  intros Hn. unfold uint64_of_float. rewrite F_trunc_of_Z by done.
  destruct (Z.leb_spec 0 n), (Z.ltb_spec n two64); simpl; unfold two64 in *; lia.
Qed.

Lemma uint64_of_float_range `{GoPlatform} f : 0 <= uint64_of_float f < two64.
Proof.
  unfold uint64_of_float. case_match; [|apply u64_range].
  case_match; bool_facts; [lia|apply u64_range].
Qed.

(** ** The order of floats that are not NaN *)

Lemma SFcompare_swap x y : SFcompare y x = CompOpp <$> SFcompare x y.
Proof.
  destruct x as [[]|[]| |[] mx ex], y as [[]|[]| |[] my ey]; try done; simpl; f_equal.
  all: rewrite (Z.compare_antisym ex ey); destruct (ex ?= ey); simpl; try done.
  all: change (Pos.compare_cont Eq my mx) with (Pos.compare my mx);
       change (Pos.compare_cont Eq mx my) with (Pos.compare mx my).
  all: rewrite (Pos.compare_antisym mx my); by destruct (mx ?= my)%positive.
Qed.

(** A key that orders the floats that are not NaN lexicographically: the class
    of the value, then the exponent, then the mantissa, negated below zero. *)
Definition F_key (f : float64) : Z * Z * Z :=
  match f with
  | S754_infinity true => (-2, 0, 0)
  | S754_finite true m e => (-1, - e, Zneg m)
  | S754_zero _ | S754_nan => (0, 0, 0)
  | S754_finite false m e => (1, e, Zpos m)
  | S754_infinity false => (2, 0, 0)
  end.

Definition key_le (a b : Z * Z * Z) : Prop :=
  a.1.1 < b.1.1 ∨ a.1.1 = b.1.1 ∧ (a.1.2 < b.1.2 ∨ a.1.2 = b.1.2 ∧ a.2 <= b.2).

Lemma F_leb_key x y :
  IsNaN x = false → IsNaN y = false → F_leb x y = true ↔ key_le (F_key x) (F_key y).
Proof.
  intros Hx Hy. unfold F_leb, SFleb, key_le.
  destruct x as [[]|[]| |[] mx ex], y as [[]|[]| |[] my ey]; try done; simpl; try (split; (done || lia)).
  all: change (Pos.compare_cont Eq mx my) with (Pos.compare mx my).
  all: destruct (Z.compare_spec ex ey); simpl; try (split; (done || lia)).
  all: destruct (Pos.compare_spec mx my); simpl; split; (done || lia).
Qed.

Lemma key_le_trans a b c : key_le a b → key_le b c → key_le a c.
Proof. unfold key_le. lia. Qed.

Lemma key_le_total a b : key_le a b ∨ key_le b a.
Proof. unfold key_le. lia. Qed.

Lemma F_leb_nan x y : F_leb x y = true → IsNaN x = false ∧ IsNaN y = false.
Proof. destruct x as [[]|[]| |[] ? ?], y as [[]|[]| |[] ? ?]; done. Qed.

Lemma F_leb_trans x y z : F_leb x y = true → F_leb y z = true → F_leb x z = true.
Proof.
  intros H1 H2. destruct (F_leb_nan _ _ H1) as [Hx Hy], (F_leb_nan _ _ H2) as [_ Hz].
  apply F_leb_key in H1, H2; [|done..]. apply F_leb_key; [done..|]. by eapply key_le_trans.
Qed.

Lemma F_leb_total x y : IsNaN x = false → IsNaN y = false → F_leb x y = true ∨ F_leb y x = true.
Proof. intros Hx Hy. rewrite !F_leb_key by done. apply key_le_total. Qed.

Lemma F_ltb_leb x y : IsNaN x = false → IsNaN y = false → F_ltb x y = negb (F_leb y x).
Proof.
  intros Hx Hy. unfold F_ltb, F_leb, SFltb, SFleb. rewrite (SFcompare_swap x y).
  destruct x as [[]|[]| |[] mx ex], y as [[]|[]| |[] my ey]; try done.
  all: destruct (SFcompare _ _) as [[]|] eqn:E; simpl; try done.
  all: by simpl in E; repeat case_match.
Qed.

(** ** Rounding keeps the mantissa below 2^53 *)

Lemma shr_1_m r : 0 <= shr_m r → shr_m (shr_1 r) = shr_m r / 2.
Proof.
  destruct r as [[|[p|p|]|p] b1 b2]; simpl; try done; intros _.
  - rewrite Pos2Z.inj_xI. Z.div_mod_to_equations. lia.
  - rewrite Pos2Z.inj_xO. Z.div_mod_to_equations. lia.
Qed.

Lemma iter_shr_1_m p r : 0 <= shr_m r → shr_m (SpecFloat.iter_pos shr_1 p r) = shr_m r / 2 ^ Zpos p.
Proof.
  assert (∀ a k, 0 <= a → 0 <= a / 2 ^ Zpos k) as Hpos by (intros; apply Z.div_pos; lia).
  revert r. induction p as [p IH|p IH|]; intros r Hr; simpl SpecFloat.iter_pos.
  - assert (shr_m (shr_1 r) = shr_m r / 2) as E1 by by apply shr_1_m.
    assert (0 <= shr_m r / 2) as H1 by (apply Z.div_pos; lia).
    rewrite IH; rewrite IH, E1 by (by rewrite E1); [|by apply Hpos].
    rewrite !Z.div_div by lia. f_equal. rewrite Pos2Z.inj_xI.
    replace (2 * Z.pos p + 1) with (1 + Z.pos p + Z.pos p) by lia.
    rewrite !Z.pow_add_r by lia. lia.
  - rewrite IH; rewrite IH by done; [|by apply Hpos]. rewrite Z.div_div by lia. f_equal.
    rewrite (Pos2Z.inj_xO p). replace (2 * Z.pos p) with (Z.pos p + Z.pos p) by lia.
    by rewrite Z.pow_add_r by lia.
  - by rewrite shr_1_m.
Qed.

Lemma shr_fexp_m m e l : 0 <= m → 0 <= shr_m (shr_fexp 53 1024 m e l).1 < 2 ^ 53.
Proof.
  intros Hm. unfold shr_fexp.
  set (r := shr_record_of_loc m l). assert (shr_m r = m) as Er by (by destruct l as [|[]]).
  set (n := fexp 53 1024 (Zdigits2 m + e) - e).
  assert (m < 2 ^ Z.max 53 (n + 53)) as Hlt.
  { destruct m as [|p|p]; [by apply Z.pow_pos_nonneg; lia| |lia].
    pose proof (digits2_pos_bounds p) as [_ Hhi]. eapply Z.lt_le_trans; [exact Hhi|].
    apply Z.pow_le_mono_r; [lia|]. unfold n, fexp. simpl Zdigits2. lia. }
  destruct n as [|p|p] eqn:En; simpl shr.
  - simpl fst. rewrite Er. rewrite Z.max_l in Hlt by lia. done.
  - simpl fst. rewrite iter_shr_1_m, Er by lia. split; [apply Z.div_pos; lia|].
    apply Z.div_lt_upper_bound; [lia|]. rewrite Z.max_r in Hlt by lia. by rewrite Z.pow_add_r in Hlt by lia.
  - simpl fst. rewrite Er. rewrite Z.max_l in Hlt by lia. done.
Qed.

(** A positive mantissa rounds to a number, with a mantissa of 53 bits. *)
Definition rounded (f : float64) : Prop :=
  match f with
  | S754_nan => False
  | S754_finite _ m _ => Zpos m < 2 ^ 53
  | _ => True
  end.

Lemma binary_round_aux_rounded s m e l : 0 <= m → rounded (binary_round_aux 53 1024 s m e l).
Proof.
  intros Hm. unfold binary_round_aux. pose proof (shr_fexp_m m e l Hm) as H1.
  destruct (shr_fexp 53 1024 m e l) as [r1 e1]. simpl in H1.
  assert (0 <= round_nearest_even (shr_m r1) (loc_of_shr_record r1)) as Hr.
  { unfold round_nearest_even. repeat case_match; lia. }
  pose proof (shr_fexp_m _ e1 loc_Exact Hr) as H2.
  destruct (shr_fexp 53 1024 _ e1 loc_Exact) as [r2 e2]. simpl in H2.
  destruct (shr_m r2); simpl; [done| |lia]. case_match; simpl; [lia|done].
Qed.

Lemma binary_normalize_rounded m e s : rounded (binary_normalize 53 1024 m e s).
Proof.
  unfold binary_normalize, binary_round. destruct m as [|p|p]; [done|..].
  all: case_match; by apply binary_round_aux_rounded.
Qed.

(** Rounding keeps the sign. *)
Lemma binary_round_aux_sign s m e l :
  match binary_round_aux 53 1024 s m e l with
  | S754_zero b | S754_infinity b | S754_finite b _ _ => b = s | S754_nan => True end.
Proof.
  unfold binary_round_aux. destruct (shr_fexp 53 1024 m e l) as [r1 e1].
  destruct (shr_fexp 53 1024 _ e1 loc_Exact) as [r2 e2].
  destruct (shr_m r2); [done| |done]. by destruct (e2 <=? _).
Qed.

Lemma F_of_Z_nonneg n : 0 <= n → IsNaN (F_of_Z n) = false ∧ F_ltb (F_of_Z n) F_zero = false.
Proof.
  intros Hn. unfold F_of_Z.
  pose proof (binary_normalize_rounded n 0 false) as Hr.
  assert (match binary_normalize 53 1024 n 0 false with
          | S754_zero b | S754_infinity b | S754_finite b _ _ => b = false | S754_nan => True end) as Hs.
  { unfold binary_normalize, binary_round. destruct n as [|m|m]; [done| |lia].
    destruct (shl_align _ _ _) as [mz ez]. apply binary_round_aux_sign. }
  destruct (binary_normalize 53 1024 n 0 false) as [[]|[]| |[] ? ?]; done.
Qed.

Lemma F_mul_rounded x y :
  match x, y with S754_finite _ _ _, S754_finite _ _ _ => rounded (F_mul x y) | _, _ => True end.
Proof. destruct x, y; try done. by apply binary_round_aux_rounded. Qed.

Lemma F_sub_not_nan x s m e : IsNaN x = false → IsNaN (F_sub x (S754_finite s m e)) = false.
Proof.
  destruct x as [b|b| |b mx ex]; try done; intros _; unfold F_sub, SFsub.
  match goal with |- IsNaN ?f = _ => assert (rounded f) as Hr by apply binary_normalize_rounded end.
  by destruct (binary_normalize _ _ _ _ _).
Qed.

(** ** Normal form

    A number with a mantissa of 53 bits, or with the least exponent: the results of the
    operations have it, and it makes the comparison of floats that of their values. *)

Definition normal (f : float64) : Prop :=
  match f with
  | S754_nan => False
  | S754_finite _ m e => Zpos m < 2 ^ 53 ∧ (2 ^ 52 <= Zpos m ∨ e = -1074)
  | _ => True
  end.

Lemma digits_of m d : 2 ^ (d - 1) <= Zpos m < 2 ^ d → Zpos (digits2_pos m) = d.
Proof.
  intros [Hlo Hhi]. pose proof (digits2_pos_bounds m) as [Dlo Dhi]. set (x := Zpos (digits2_pos m)) in *.
  assert (0 < x) by (unfold x; lia).
  destruct (Z.lt_trichotomy x d) as [Hlt|[?|Hlt]]; [|done|].
  - assert (2 ^ x <= 2 ^ (d - 1)) by (apply Z.pow_le_mono_r; lia). lia.
  - assert (2 ^ d <= 2 ^ (x - 1)) by (apply Z.pow_le_mono_r; lia). lia.
Qed.

(** The shift that brings a mantissa to 53 bits, or its exponent to the least one. *)
Lemma shr_fexp_spec m e :
  0 < m → e <= fexp 53 1024 (Zdigits2 m + e) →
  let e1 := fexp 53 1024 (Zdigits2 m + e) in
  (shr_fexp 53 1024 m e loc_Exact).2 = e1 ∧ shr_m (shr_fexp 53 1024 m e loc_Exact).1 = m / 2 ^ (e1 - e).
Proof.
  intros Hm He e1. unfold shr_fexp. fold e1. set (r := shr_record_of_loc m loc_Exact).
  assert (shr_m r = m) as Er by done. destruct (e1 - e) as [|p|p] eqn:En; simpl shr; simpl snd; simpl fst; [|..|lia].
  - rewrite Z.pow_0_r, Z.div_1_r. split; [lia|done].
  - split; [lia|]. by rewrite iter_shr_1_m, Er by (rewrite Er; lia).
Qed.

(** The second shift, after a mantissa of 53 bits was rounded up or not. *)
Lemma round_finish s m1 e1 :
  0 <= m1 <= 2 ^ 53 → -1074 <= e1 → (2 ^ 52 <= m1 ∨ e1 = -1074) →
  normal (let '(mrs, e) := shr_fexp 53 1024 m1 e1 loc_Exact in
          match shr_m mrs with
          | Z0 => S754_zero s
          | Zpos m => if e <=? 1024 - 53 then S754_finite s m e else S754_infinity s
          | Zneg _ => S754_nan
          end).
Proof.
  intros Hm1 He1 Hn1.
  destruct (Z.eq_dec m1 0) as [->|Hne].
  { assert (shr_m (shr_fexp 53 1024 0 e1 loc_Exact).1 = 0) as E0.
    { unfold shr_fexp. destruct (_ - e1) as [|p|p]; [done| |done]. cbn [shr fst]. rewrite iter_shr_1_m by done.
      apply Z.div_0_l, Z.pow_nonzero; lia. }
    destruct (shr_fexp 53 1024 0 e1 loc_Exact) as [r2 e2]. simpl in E0. by rewrite E0. }
  assert (0 < m1) as Hpos by lia. destruct m1 as [|q1|]; [done| |lia].
  destruct (Z.eq_dec (Zpos q1) (2 ^ 53)) as [E53|N53].
  - assert (Zpos (digits2_pos q1) = 54) as D1 by (apply digits_of; rewrite E53; lia).
    destruct (shr_fexp_spec (Zpos q1) e1) as [E2 M2]; cbn [Zdigits2]; rewrite ?D1, ?fexp_53 by lia; [lia..|].
    cbn [Zdigits2] in *. rewrite D1, fexp_53 in E2, M2 by lia.
    destruct (shr_fexp 53 1024 _ e1 loc_Exact) as [r2 e2]. simpl in E2, M2.
    replace (54 + e1 - 53 - e1) with 1 in M2 by lia. rewrite E53 in M2. rewrite M2.
    change (2 ^ 53 / 2 ^ 1) with (Zpos 4503599627370496). cbv iota. destruct (_ <=? _); [|done]. split; [done|by left].
  - assert (0 < Zpos q1 < 2 ^ 53) as Hq by lia. pose proof (digits2_pos_bounds q1) as [D1lo D1hi].
    assert (Zpos (digits2_pos q1) <= 53) as D1.
    { apply Z.nlt_ge. intros Hlt. assert (2 ^ 53 <= 2 ^ (Zpos (digits2_pos q1) - 1)) by (apply Z.pow_le_mono_r; lia). lia. }
    assert (2 ^ 52 <= Zpos q1 → Zpos (digits2_pos q1) = 53) as D53 by (intros; apply digits_of; lia).
    assert (fexp 53 1024 (Zpos (digits2_pos q1) + e1) = e1) as Ef.
    { unfold fexp, emin. destruct Hn1 as [Hbig|Hsm]; [rewrite D53 by lia; lia|lia]. }
    destruct (shr_fexp_spec (Zpos q1) e1) as [E2 M2]; cbn [Zdigits2] in *; rewrite ?Ef; [lia..|].
    rewrite Ef in E2, M2. rewrite Z.sub_diag, Z.pow_0_r, Z.div_1_r in M2.
    destruct (shr_fexp 53 1024 _ e1 loc_Exact) as [r2 e2]. simpl in E2, M2. rewrite M2. cbv iota.
    destruct (_ <=? _); [|done]. split; [lia|]. destruct Hn1; [left|right]; lia.
Qed.

Lemma binary_round_aux_normal s m e :
  0 < m → e <= fexp 53 1024 (Zdigits2 m + e) → normal (binary_round_aux 53 1024 s m e loc_Exact).
Proof.
  intros Hm He. unfold binary_round_aux. destruct (shr_fexp_spec m e Hm He) as [E1 M1].
  destruct (shr_fexp 53 1024 m e loc_Exact) as [r1 e1]. simpl in E1, M1. rewrite <- E1 in M1.
  set (m1 := round_nearest_even _ _). assert (m1 = shr_m r1 ∨ m1 = shr_m r1 + 1) as Hm1.
  { unfold m1, round_nearest_even. destruct (loc_of_shr_record r1) as [|[]]; try lia. destruct (Z.even _); lia. }
  clearbody m1. destruct m as [|q|]; [lia| |lia]. cbn [Zdigits2] in *. pose proof (digits2_pos_bounds q) as [Dlo Dhi].
  set (d := Zpos (digits2_pos q)) in *. set (x := Zpos q) in *. clearbody x d. unfold fexp, emin in E1, He.
  change (3 - 1024 - 53) with (-1074) in *.
  assert (0 <= d) by (destruct (Z.le_gt_cases 0 d); [done|rewrite (Z.pow_neg_r 2 d) in Dhi by done; lia]).
  assert (0 <= shr_m r1 < 2 ^ 53 ∧ (2 ^ 52 <= shr_m r1 ∨ e1 = -1074)) as [Hr1 Hn1].
  { assert (0 < 2 ^ (e1 - e)) as Hp by (apply Z.pow_pos_nonneg; lia). rewrite M1. split; [split|].
    - apply Z.div_pos; lia.
    - apply Z.div_lt_upper_bound; [done|]. rewrite <- Z.pow_add_r by lia.
      eapply Z.lt_le_trans; [exact Dhi|]. apply Z.pow_le_mono_r; lia.
    - destruct (Z.max_spec (d + e - 53) (-1074)) as [[? Em]|[? Em]]; [right; lia|left].
      apply Z.div_le_lower_bound; [done|]. rewrite <- Z.pow_add_r by lia.
      replace (e1 - e + 52) with (d - 1) by lia. lia. }
  apply round_finish; lia.
Qed.

Lemma binary_normalize_normal m e s : normal (binary_normalize 53 1024 m e s).
Proof.
  assert (∀ s p, normal (binary_round 53 1024 s p e)) as Hp.
  { intros b p. unfold binary_round, shl_align.
    set (x := fexp 53 1024 (Zpos (digits2_pos p) + e)). destruct (x - e) as [|q|q] eqn:E.
    - apply binary_round_aux_normal; [lia|]. cbn [Zdigits2]. fold x. lia.
    - apply binary_round_aux_normal; [lia|]. cbn [Zdigits2]. fold x. lia.
    - apply binary_round_aux_normal; [lia|]. cbn [Zdigits2]. destruct (iter_xO_spec p q) as [_ ->].
      replace (Zpos (digits2_pos p) + Zpos q + x) with (Zpos (digits2_pos p) + e) by lia. fold x. lia. }
  unfold binary_normalize. destruct m; [done|apply Hp..].
Qed.

Lemma F_of_Z_normal n : normal (F_of_Z n).
Proof. apply binary_normalize_normal. Qed.

Lemma F_sub_normal x s m e : IsNaN x = false → normal (S754_finite s m e) → normal (F_sub x (S754_finite s m e)).
Proof. destruct x as [b|b| |b mx ex]; try done. intros _ _. apply binary_normalize_normal. Qed.

(** The product with a number that has a mantissa of 53 bits. *)
Lemma F_mul_normal x s m e : IsNaN x = false → 2 ^ 52 <= Zpos m → normal (F_mul x (S754_finite s m e)).
Proof.
  destruct x as [b|b| |b mx ex]; try done. intros _ Hm. apply binary_round_aux_normal; [lia|]. cbn [Zdigits2].
  pose proof (digits2_pos_bounds (mx * m)) as [_ Hhi]. set (d := Zpos (digits2_pos (mx * m))) in *.
  assert (2 ^ 52 < 2 ^ d) as Hd by (eapply Z.le_lt_trans; [|exact Hhi]; rewrite Pos2Z.inj_mul; nia).
  apply Z.pow_lt_mono_r_iff in Hd; [|lia..]. unfold fexp, emin. lia.
Qed.

(** The value of a number against an integer, exactly. *)
Definition F_compare_Z (f : float64) (n : Z) : option comparison :=
  match f with
  | S754_zero _ => Some (0 ?= n)
  | S754_infinity s => Some (if s then Lt else Gt)
  | S754_nan => None
  | S754_finite s m e =>
      Some (if 0 <=? e then (cond_Zopp s (Zpos m) * 2 ^ e ?= n) else (cond_Zopp s (Zpos m) ?= n * 2 ^ (- e)))
  end.
Definition F_ltZ (f : float64) (n : Z) : bool := match F_compare_Z f n with Some Lt => true | _ => false end.
Definition F_leZ (f : float64) (n : Z) : bool := match F_compare_Z f n with Some (Lt | Eq) => true | _ => false end.

(** A number is a fraction, or an infinity. *)
Lemma F_compare_Z_fraction f :
  (∃ p q, 0 < q ∧ ∀ n, F_compare_Z f n = Some (p ?= n * q)) ∨
  (∃ c, c ≠ Eq ∧ ∀ n, F_compare_Z f n = Some c) ∨ ∀ n, F_compare_Z f n = None.
Proof.
  destruct f as [b|[]| |b m e].
  - left. exists 0, 1. split; [done|]. intros n. cbn [F_compare_Z]. by rewrite Z.mul_1_r.
  - right. left. by exists Lt.
  - right. left. by exists Gt.
  - right. by right.
  - left. cbn [F_compare_Z]. destruct (Z.leb_spec 0 e).
    + exists (cond_Zopp b (Zpos m) * 2 ^ e), 1. split; [done|]. intros n. by rewrite Z.mul_1_r.
    + exists (cond_Zopp b (Zpos m)), (2 ^ (- e)). split; [apply Z.pow_pos_nonneg; lia|done].
Qed.

Ltac fraction_cases f :=
  let p := fresh "p" in let q := fresh "q" in let Hq := fresh "Hq" in let H := fresh "Hf" in
  unfold F_leZ, F_ltZ; destruct (F_compare_Z_fraction f) as [(p & q & Hq & H)|[([] & ? & H)|H]]; rewrite !H; try done;
  repeat match goal with |- context [?a ?= ?b] => destruct (Z.compare_spec a b) end; try done; intros; nia.

Lemma F_leZ_mono f a b : a <= b → F_leZ f a = true → F_leZ f b = true.
Proof. intros Hab. fraction_cases f. Qed.
Lemma F_ltZ_mono f a b : a <= b → F_ltZ f a = true → F_ltZ f b = true.
Proof. intros Hab. fraction_cases f. Qed.
Lemma F_ltZ_leZ f n : F_ltZ f n = true → F_leZ f n = true.
Proof. fraction_cases f. Qed.
Lemma F_leZ_ltZ f a b : a < b → F_leZ f a = true → F_ltZ f b = true.
Proof. intros Hab. fraction_cases f. Qed.

Lemma F_ltZ_zero f : F_ltb f F_zero = F_ltZ f 0.
Proof.
  destruct f as [[]|[]| |[] m e]; try done; unfold F_ltZ; cbn [F_compare_Z cond_Zopp]; destruct (Z.leb_spec 0 e);
    (assert (0 < 2 ^ e ∨ e < 0) by (destruct (Z.le_gt_cases 0 e); [left; by apply Z.pow_pos_nonneg|by right]));
    match goal with |- _ = match (?a ?= ?b) with _ => _ end => destruct (Z.compare_spec a b) as [Hc|Hc|Hc] end; try done; nia.
Qed.

(** The integer part of a number that is not negative. *)
Lemma F_trunc_floor f n :
  F_ltZ f 0 = false → F_trunc f = Some n →
  0 <= n ∧ F_ltZ f n = false ∧ F_ltZ f (n + 1) = true.
Proof.
  destruct f as [b|b| |[] m e]; try done; intros Hp; cbn [F_trunc].
  - intros [= <-]. done.
  - exfalso. revert Hp. rewrite <- F_ltZ_zero. done.
  - intros [= <-]. unfold F_ltZ in *. cbn [F_compare_Z cond_Zopp] in *. destruct (Z.leb_spec 0 e).
    + assert (0 < 2 ^ e) by (by apply Z.pow_pos_nonneg). split_and!; [nia| |].
      * by rewrite Z.compare_refl.
      * by rewrite (proj2 (Z.compare_lt_iff _ _)) by lia.
    + assert (0 < 2 ^ (- e)) as Hq by (apply Z.pow_pos_nonneg; lia). set (q := 2 ^ (- e)) in *.
      pose proof (Z.div_mod (Zpos m) q ltac:(lia)) as Hdm. pose proof (Z.mod_pos_bound (Zpos m) q Hq).
      split_and!; [apply Z.div_pos; lia| |].
      * destruct (Z.compare_spec (Zpos m) (Zpos m / q * q)); [done|nia|done].
      * rewrite (proj2 (Z.compare_lt_iff _ _)); [done|nia].
Qed.

(** Two mantissas of 53 bits with different exponents are different numbers. *)
Lemma mantissa_unique n a b m m' :
  0 < n → 0 <= a → 0 <= b → m = n * 2 ^ a → m' = n * 2 ^ b →
  2 ^ 52 <= m < 2 ^ 53 → 2 ^ 52 <= m' < 2 ^ 53 → a = b.
Proof.
  assert (∀ a b m m', 0 < n → 0 <= a → 0 <= b → m = n * 2 ^ a → m' = n * 2 ^ b → 2 ^ 52 <= m → m' < 2 ^ 53 → b <= a) as Hle.
  { clear. intros a b m m' Hn Ha Hb -> -> Hm Hm'. apply Z.nlt_ge. intros Hlt.
    assert (2 ^ b = 2 ^ a * 2 ^ (b - a)) as E by (rewrite <- Z.pow_add_r by lia; f_equal; lia).
    assert (2 ^ 1 <= 2 ^ (b - a)) by (apply Z.pow_le_mono_r; lia). rewrite E in Hm'. nia. }
  intros Hn Ha Hb Em Em' Hm Hm'. apply Z.le_antisymm.
  - apply (Hle b a m' m); (lia || done).
  - apply (Hle a b m m'); (lia || done).
Qed.

(** A positive integer has a mantissa of 53 bits and a small exponent. *)
Lemma F_of_Z_53 n :
  0 < n < 2 ^ 52 →
  ∃ m e, F_of_Z n = S754_finite false m e ∧ -1074 < e <= 0 ∧ Zpos m = n * 2 ^ (- e) ∧ 2 ^ 52 <= Zpos m < 2 ^ 53.
Proof.
  intros Hn. pose proof (F_of_Z_normal n) as Hnn. destruct (F_of_Z_finite n) as (m & e & E & He & Hm); [lia|].
  rewrite E in *. destruct Hnn as [Hlt Hn']. assert (-1074 < e) as Hmin.
  { apply Z.nle_gt. intros Hle. assert (2 ^ 53 <= 2 ^ (- e)) by (apply Z.pow_le_mono_r; lia). nia. }
  exists m, e. split_and!; (done || lia).
Qed.

Lemma F_compare_Z_neg m e n : 0 < n → F_compare_Z (S754_finite true m e) n = Some Lt.
Proof.
  intros Hn. cbn [F_compare_Z cond_Zopp]. f_equal. destruct (Z.leb_spec 0 e); apply Z.compare_lt_iff.
  - assert (0 < 2 ^ e) by (by apply Z.pow_pos_nonneg). nia.
  - assert (0 < 2 ^ (- e)) by (apply Z.pow_pos_nonneg; lia). nia.
Qed.

(** In normal form a number that is equal to an integer is the float of the integer. *)
Lemma F_eqb_of_Z f n : normal f → 0 < n < 2 ^ 52 → F_eqb f (F_of_Z n) = (F_leZ f n && negb (F_ltZ f n)).
Proof.
  intros Hf Hn. destruct (F_of_Z_53 n Hn) as (m' & e' & -> & He' & Hm' & [Hge' Hlt']). unfold F_leZ, F_ltZ.
  destruct f as [b|[]| |[] m e]; try done.
  - cbn [F_compare_Z]. by rewrite (proj2 (Z.compare_lt_iff 0 n)) by lia.
  - by rewrite F_compare_Z_neg by lia.
  - destruct Hf as [Hlt Hnorm]. cbn [F_compare_Z cond_Zopp]. assert (F_eqb (S754_finite false m e) (S754_finite false m' e') = bool_decide (e = e' ∧ m = m')) as ->.
    { unfold F_eqb, SFeqb. cbn [SFcompare]. destruct (Z.compare_spec e e') as [->|?|?].
      - change (Pos.compare_cont Eq m m') with (Pos.compare m m'). destruct (Pos.compare_spec m m') as [->|?|?].
        + by rewrite bool_decide_eq_true_2.
        + rewrite bool_decide_eq_false_2; [done|]. intros [_ ->]. lia.
        + rewrite bool_decide_eq_false_2; [done|]. intros [_ ->]. lia.
      - rewrite bool_decide_eq_false_2; [done|]. lia.
      - rewrite bool_decide_eq_false_2; [done|]. lia. }
    destruct (Z.leb_spec 0 e) as [He|He].
    + assert (2 ^ 52 <= Zpos m) as Hge by (destruct Hnorm; lia).
      assert (0 < 2 ^ e) by (by apply Z.pow_pos_nonneg).
      rewrite (proj2 (Z.compare_gt_iff _ n)) by nia. apply bool_decide_eq_false_2. intros [-> ->].
      assert (e' = 0) as -> by lia. change (2 ^ (- 0)) with 1 in Hm'. lia.
    + destruct (Z.compare_spec (Zpos m) (n * 2 ^ (- e))) as [Hc|Hc|Hc]; cbn [andb negb].
      * apply bool_decide_eq_true_2. assert (2 ^ 52 <= Zpos m) as Hge.
        { destruct Hnorm as [?| ->]; [done|]. change (- -1074) with 1074 in Hc.
          assert (2 ^ 53 <= 2 ^ 1074) by (apply Z.pow_le_mono_r; lia). nia. }
        assert (- e = - e') as Ee by (eapply (mantissa_unique n (- e) (- e') (Zpos m) (Zpos m')); lia).
        split; [lia|]. rewrite Ee in Hc. lia.
      * apply bool_decide_eq_false_2. intros [-> ->]. lia.
      * apply bool_decide_eq_false_2. intros [-> ->]. lia.
Qed.

(** Half the power of two, for an exponent that is greater. *)
Lemma pow_halves a b : 0 <= a < b → 2 * 2 ^ a <= 2 ^ b.
Proof. intros Hab. rewrite <- Z.pow_succ_r by lia. apply Z.pow_le_mono_r; lia. Qed.

Lemma F_leb_of_Z f n : normal f → 0 < n < 2 ^ 52 → F_leb (F_of_Z n) f = negb (F_ltZ f n).
Proof.
  intros Hf Hn. destruct (F_of_Z_53 n Hn) as (m' & e' & -> & He' & Hm' & [Hge' Hlt']). unfold F_ltZ.
  destruct f as [b|[]| |[] m e]; try done.
  - cbn [F_compare_Z]. by rewrite (proj2 (Z.compare_lt_iff 0 n)) by lia.
  - by rewrite F_compare_Z_neg by lia.
  - destruct Hf as [Hlt Hnorm]. cbn [F_compare_Z cond_Zopp]. unfold F_leb, SFleb. cbn [SFcompare].
    destruct (Z.compare_spec e' e) as [<-|Hee|Hee].
    + change (Pos.compare_cont Eq m' m) with (Pos.compare m' m).
      assert ((if 0 <=? e' then (Zpos m * 2 ^ e' ?= n) else (Zpos m ?= n * 2 ^ (- e'))) = (Zpos m ?= Zpos m')) as ->.
      { destruct (Z.leb_spec 0 e'); [|by rewrite <- Hm']. assert (e' = 0) as -> by lia. rewrite Z.mul_1_r.
        change (2 ^ (- 0)) with 1 in Hm'. by rewrite Z.mul_1_r in Hm'; rewrite Hm'. }
      destruct (Pos.compare_spec m' m), (Z.compare_spec (Zpos m) (Zpos m')); (done || lia).
    + assert (2 ^ 52 <= Zpos m) as Hge by lia. destruct (Z.leb_spec 0 e) as [He|He].
      * assert (0 < 2 ^ e) by (by apply Z.pow_pos_nonneg). destruct (Z.compare_spec (Zpos m * 2 ^ e) n); (done || nia).
      * pose proof (pow_halves (- e) (- e') ltac:(lia)). destruct (Z.compare_spec (Zpos m) (n * 2 ^ (- e))); (done || nia).
    + destruct (Z.leb_spec 0 e); [lia|]. pose proof (pow_halves (- e') (- e) ltac:(lia)).
      rewrite (proj2 (Z.compare_lt_iff (Zpos m) _)); [done|nia].
Qed.

#[export] Hint Rewrite @uint64_of_float_of_Z F_trunc_of_Z using lia : go.
