(* ===== verification/PData.v ===== *)
(** * PData: the interface to the collector's data packages

    [go.opentelemetry.io/collector/pdata] is not part of the repository: its
    attribute map, its value type and its identifiers are the operations of the
    class [PData], and what the program relies on is the class [PDataLaws].
    The messages themselves (spans, scopes, resources) are the plain data the
    accessors expose, as records. *)

From S2P Require Import Prelude GoStrings.

(** [pcommon.TraceID] is a [[16]byte], [pcommon.SpanID] a [[8]byte]: the bytes
    are kept as strings of 16 and 8 characters. *)
Definition TraceID := string.
Definition SpanID := string.

Class PData := {
  (** [pcommon.Value] and [pcommon.Map] *)
  Value : Type;
  AMap : Type;
  Value_Str : Value → string;
  Value_Int : Value → Z;
  Value_AsString : Value → string;
  ValueStr : string → Value;
  ValueInt : Z → Value;
  ValueBool : bool → Value;
  Map_New : AMap;
  Map_Get : string → AMap → option Value;
  (** [PutStr], [PutInt], [PutBool] store the corresponding value *)
  Map_Put : string → Value → AMap → AMap;
  (** [TraceID.String], [TraceID.IsEmpty], and the same of [SpanID] *)
  TraceID_String : TraceID → string;
  SpanID_String : SpanID → string;
  TraceID_IsEmpty : TraceID → bool;
  SpanID_IsEmpty : SpanID → bool;
}.

Definition Map_PutStr `{PData} (k s : string) : AMap → AMap := Map_Put k (ValueStr s).
Definition Map_PutInt `{PData} (k : string) (n : Z) : AMap → AMap := Map_Put k (ValueInt n).
Definition Map_PutBool `{PData} (k : string) (b : bool) : AMap → AMap := Map_Put k (ValueBool b).

(** The documented behaviour the program relies on. *)
Class PDataLaws (PD : PData) : Prop := {
  Value_Str_Str : ∀ s, Value_Str (ValueStr s) = s;
  Value_Int_Int : ∀ n, Value_Int (ValueInt n) = n;
  Value_Str_Int : ∀ n, Value_Str (ValueInt n) = "";
  Value_Int_Str : ∀ s, Value_Int (ValueStr s) = 0;
  Value_AsString_Str : ∀ s, Value_AsString (ValueStr s) = s;
  Value_AsString_Int : ∀ n, Value_AsString (ValueInt n) = FormatInt n;
  Map_Get_New : ∀ k, Map_Get k Map_New = None;
  Map_Get_Put : ∀ k v m, Map_Get k (Map_Put k v m) = Some v;
  Map_Get_Put_ne : ∀ k k' v m, k ≠ k' → Map_Get k' (Map_Put k v m) = Map_Get k' m;
  TraceID_String_inj : ∀ a b, String.length a = 16%nat → String.length b = 16%nat →
    TraceID_String a = TraceID_String b → a = b;
  TraceID_String_empty : ∀ a, TraceID_IsEmpty a = false → TraceID_String a ≠ "";
}.

#[export] Hint Rewrite @Value_Str_Str @Value_Int_Int @Value_Str_Int @Value_Int_Str
  @Value_AsString_Str @Value_AsString_Int @Map_Get_New @Map_Get_Put using assumption : go.

Lemma Map_Get_Put_dec `{!PData, !PDataLaws _} k k' v m :
  Map_Get k' (Map_Put k v m) = if decide (k = k') then Some v else Map_Get k' m.
Proof. case_decide; subst; [apply Map_Get_Put | by apply Map_Get_Put_ne]. Qed.

(** ** Traces *)

(** [ptrace.SpanKind], [ptrace.StatusCode]. *)
Inductive SpanKind :=
  | SpanKindUnspecified | SpanKindInternal | SpanKindServer
  | SpanKindClient | SpanKindProducer | SpanKindConsumer.

Inductive StatusCode := StatusCodeUnset | StatusCodeOk | StatusCodeError.

#[global] Instance SpanKind_eq_dec : EqDecision SpanKind.
Proof. solve_decision. Defined.
#[global] Instance StatusCode_eq_dec : EqDecision StatusCode.
Proof. solve_decision. Defined.

Definition SpanKind_eqb (a b : SpanKind) : bool := bool_decide (a = b).
Definition isError (c : StatusCode) : bool := bool_decide (c = StatusCodeError).

(** [SpanKind.String()]. *)
Definition SpanKind_String (k : SpanKind) : string :=
  match k with
  | SpanKindUnspecified => "Unspecified"
  | SpanKindInternal => "Internal"
  | SpanKindServer => "Server"
  | SpanKindClient => "Client"
  | SpanKindProducer => "Producer"
  | SpanKindConsumer => "Consumer"
  end.

Section data.
Context `{PData}.

Record Span := {
  Span_TraceID : TraceID;
  Span_SpanID : SpanID;
  Span_ParentSpanID : SpanID;
  Span_Name : string;
  Span_Kind : SpanKind;
  Span_StartTimestamp : Z;     (* uint64, ns *)
  Span_EndTimestamp : Z;
  Span_Attributes : AMap;
  Span_Status : StatusCode;
}.

(** [ptrace.ScopeSpans] and [ptrace.ResourceSpans]: the spans under a scope,
    the scopes under a resource; a [ptrace.Traces] is a list of the latter. *)
Record ScopeSpans := { ScopeSpans_Spans : list Span }.
Record ResourceSpans := {
  ResourceSpans_Resource : AMap;
  ResourceSpans_ScopeSpans : list ScopeSpans;
}.
Definition Traces := list ResourceSpans.

(** All spans of a resource, and of a message, in order. *)
Definition spansOf (rs : ResourceSpans) : list Span :=
  mjoin (ScopeSpans_Spans <$> ResourceSpans_ScopeSpans rs).
Definition Traces_spans (td : Traces) : list Span := mjoin (spansOf <$> td).
(** [Traces.SpanCount()]. *)
Definition SpanCount (td : Traces) : Z := Z.of_nat (length (Traces_spans td)).
End data.

(** ** A reference implementation

    [gmap] attributes and hexadecimal identifiers: it satisfies the laws, and
    the witnesses of the theorems run on it. *)
Module RefPData.
Inductive value := VStr (s : string) | VInt (n : Z) | VBool (b : bool).

Definition hexChar (n : N) : ascii :=
  ascii_of_N (if (n <? 10)%N then n + 48 else n + 87)%N.

Definition hexByte (a : ascii) : list ascii :=
  let n := N_of_ascii a in [hexChar (n / 16); hexChar (n mod 16)].

Definition hexString (s : string) : string :=
  of_byte_list (mjoin (hexByte <$> byte_list s)).

Definition allZero (s : string) : bool :=
  forallb (λ a, Ascii.eqb a nul) (byte_list s).

Definition idString (s : string) : string := if allZero s then "" else hexString s.

#[export] Instance pdata : PData := {|
  Value := value;
  AMap := gmap string value;
  Value_Str v := match v with VStr s => s | _ => "" end;
  Value_Int v := match v with VInt n => n | _ => 0 end;
  Value_AsString v :=
    match v with VStr s => s | VInt n => FormatInt n | VBool b => FormatBool b end;
  ValueStr := VStr;
  ValueInt := VInt;
  ValueBool := VBool;
  Map_New := ∅;
  Map_Get k m := m !! k;
  Map_Put k v m := <[k:=v]> m;
  TraceID_String := idString;
  SpanID_String := idString;
  TraceID_IsEmpty := allZero;
  SpanID_IsEmpty := allZero;
|}.

Definition unhexByte (l : list ascii) : option ascii :=
  match l with
  | [x; y] => match hexDigit x, hexDigit y with
              | Some h, Some d => Some (ascii_of_N (Z.to_N (h * 16 + d)))
              | _, _ => None
              end
  | _ => None
  end.

Lemma unhexByte_hexByte a : unhexByte (hexByte a) = Some a.
Proof. by destruct a as [[] [] [] [] [] [] [] []]. Qed.

Lemma hexByte_inj a b : hexByte a = hexByte b → a = b.
Proof.
  intros E. apply (f_equal unhexByte) in E. rewrite !unhexByte_hexByte in E. congruence.
Qed.

Lemma hexBytes_inj l1 l2 :
  length l1 = length l2 → mjoin (hexByte <$> l1) = mjoin (hexByte <$> l2) → l1 = l2.
Proof.
  revert l2. induction l1 as [|a l1 IH]; intros [|b l2] Hlen; simpl; try done.
  intros [= E1 E2 E3]. f_equal.
  - apply hexByte_inj. unfold hexByte. by rewrite E1, E2.
  - apply IH; [by injection Hlen | done].
Qed.

Lemma allZero_unique s t :
  String.length s = String.length t → allZero s = true → allZero t = true → s = t.
Proof.
  unfold allZero. rewrite <- !length_byte_list. intros Hlen Hs Ht.
  apply byte_list_inj.
  revert Hlen Hs Ht.
  generalize (byte_list s), (byte_list t).
  induction l as [|a l IH]; intros [|b l']; simpl; try done.
  intros [= Hlen] [Ha Hl]%andb_true_iff [Hb Hl']%andb_true_iff.
  apply Ascii.eqb_eq in Ha as ->, Hb as ->. f_equal. by apply IH.
Qed.

Lemma hexString_nonempty s : String.length s ≠ 0%nat → hexString s ≠ "".
Proof. destruct s; simpl; done. Qed.

Lemma idString_empty s : allZero s = false → idString s ≠ "".
Proof.
  unfold idString. intros E. rewrite E. apply hexString_nonempty.
  intros E0. destruct s; [by vm_compute in E | done].
Qed.

Lemma idString_inj a b :
  String.length a = String.length b → String.length a ≠ 0%nat →
  idString a = idString b → a = b.
Proof.
  intros Hlen Hn E.
  destruct (allZero a) eqn:Ea, (allZero b) eqn:Eb.
  - by apply allZero_unique.
  - exfalso. apply (idString_empty b Eb). rewrite <- E. unfold idString. by rewrite Ea.
  - exfalso. apply (idString_empty a Ea). rewrite E. unfold idString. by rewrite Eb.
  - unfold idString in E. rewrite Ea, Eb in E. unfold hexString in E.
    apply (f_equal byte_list) in E. rewrite !byte_list_inv in E.
    apply byte_list_inj, hexBytes_inj; [|done]. by rewrite !length_byte_list.
Qed.

#[export] Instance pdata_laws : PDataLaws pdata.
Proof.
  split; simpl; try done.
  - intros. apply lookup_insert_eq.
  - intros. by apply lookup_insert_ne.
  - intros a b Ha Hb E. apply idString_inj; lia || done.
  - apply idString_empty.
Qed.
End RefPData.
