(* ===== verification/TraceBlock.v ===== *)
(** * TraceBlock: the processor that drops the spans of traces that never end

    Models [pkg/processor/traceblockprocessor] ([processor.go], [config.go],
    [factory.go]).  Instants and durations are nanoseconds; every
    [time.Now()] of the code is an argument.  [ConsumeTraces] reads the clock
    once per span, so it takes a clock [nat → Z] and the number of readings
    taken so far.  [shouldDrop] and [cleanExpired] read the clock before they take the
    lock, so two calls that wait for it may get it in the other order; the runs here are
    those in which the clock does not go back between one holder of the lock and the
    next. *)

From S2P Require Import Prelude GoStrings PData.

Record traceState := {
  ts_firstSeen : Z;
  ts_lastSeen : Z;
  ts_isBlocked : bool;
}.

Record TraceBlockConfig := {
  cfg_IdleTTL : Z;
  cfg_BlockThreshold : Z;
  cfg_BlockedIdleTTL : Z;
}.

Inductive tbError :=
  | ErrIdleTTL | ErrBlockThreshold | ErrBlockedIdleTTL
  | ErrBlockedNotAboveIdle | ErrThresholdNotAboveIdle.

(** [None] is Go's nil error. *)
Definition TraceBlockConfig_Validate (cfg : TraceBlockConfig) : option tbError :=
  if cfg_IdleTTL cfg <=? 0 then Some ErrIdleTTL
  else if cfg_BlockThreshold cfg <=? 0 then Some ErrBlockThreshold
  else if cfg_BlockedIdleTTL cfg <=? 0 then Some ErrBlockedIdleTTL
  else if cfg_BlockedIdleTTL cfg <=? cfg_IdleTTL cfg then Some ErrBlockedNotAboveIdle
  else if cfg_BlockThreshold cfg <=? cfg_IdleTTL cfg then Some ErrThresholdNotAboveIdle
  else None.

Definition minute : Z := 60 * 1000000000.

Definition traceblock_createDefaultConfig : TraceBlockConfig :=
  {| cfg_IdleTTL := 5 * minute;
     cfg_BlockThreshold := 30 * minute;
     cfg_BlockedIdleTTL := 10 * minute |}.

Record traceBlockProcessor := {
  tb_traces : gmap string traceState;
  tb_idleTTL : Z;
  tb_blockedIdleTTL : Z;
  tb_blockThreshold : Z;
  tb_receivedSpans : Z;    (* int64 *)
  tb_droppedSpans : Z;
}.

Definition newTraceBlockProcessor (cfg : TraceBlockConfig) : traceBlockProcessor + tbError :=
  match TraceBlockConfig_Validate cfg with
  | Some e => inr e
  | None =>
      inl {| tb_traces := ∅;
             tb_idleTTL := cfg_IdleTTL cfg;
             tb_blockedIdleTTL := cfg_BlockedIdleTTL cfg;
             tb_blockThreshold := cfg_BlockThreshold cfg;
             tb_receivedSpans := 0;
             tb_droppedSpans := 0 |}
  end.

Definition set_traces (m : gmap string traceState) (p : traceBlockProcessor) : traceBlockProcessor :=
  {| tb_traces := m;
     tb_idleTTL := tb_idleTTL p;
     tb_blockedIdleTTL := tb_blockedIdleTTL p;
     tb_blockThreshold := tb_blockThreshold p;
     tb_receivedSpans := tb_receivedSpans p;
     tb_droppedSpans := tb_droppedSpans p |}.

Definition set_stats (received dropped : Z) (p : traceBlockProcessor) : traceBlockProcessor :=
  {| tb_traces := tb_traces p;
     tb_idleTTL := tb_idleTTL p;
     tb_blockedIdleTTL := tb_blockedIdleTTL p;
     tb_blockThreshold := tb_blockThreshold p;
     tb_receivedSpans := received;
     tb_droppedSpans := dropped |}.

(** The entry [shouldDrop] leaves in the cache for a trace it already knows. *)
Definition touch (threshold now : Z) (st : traceState) : traceState :=
  {| ts_firstSeen := ts_firstSeen st;
     ts_lastSeen := now;
     ts_isBlocked :=
       if negb (ts_isBlocked st) && (threshold <=? durSub now (ts_firstSeen st))
       then true else ts_isBlocked st |}.

(** [shouldDrop], the key being [traceID.String()]. *)
Definition shouldDrop_key (now : Z) (key : string) (p : traceBlockProcessor)
    : bool * traceBlockProcessor :=
  if bool_decide (key = "") then (false, p)
  else match tb_traces p !! key with
       | None =>
           (false, set_traces (<[key := {| ts_firstSeen := now; ts_lastSeen := now;
                                           ts_isBlocked := false |}]> (tb_traces p)) p)
       | Some st =>
           let st' := touch (tb_blockThreshold p) now st in
           (ts_isBlocked st', set_traces (<[key := st']> (tb_traces p)) p)
       end.

Definition expired (p : traceBlockProcessor) (now : Z) (st : traceState) : bool :=
  let ttl := if ts_isBlocked st then tb_blockedIdleTTL p else tb_idleTTL p in
  ttl <=? durSub now (ts_lastSeen st).

(** [cleanExpired]: deleting while ranging leaves the entries that are not
    expired, whatever the order. *)
Definition cleanExpired (now : Z) (p : traceBlockProcessor) : traceBlockProcessor :=
  set_traces (filter (λ kv, expired p now kv.2 = false) (tb_traces p)) p.

(** [reportStats]: the pair logged when something was received. *)
Definition reportStats (p : traceBlockProcessor) : option (Z * Z) * traceBlockProcessor :=
  let received := tb_receivedSpans p in
  let dropped := tb_droppedSpans p in
  (if received >? 0 then Some (received, dropped) else None, set_stats 0 0 p).

(** One tick of [runMinuteTask]. *)
Definition minuteTick (now : Z) (p : traceBlockProcessor) : option (Z * Z) * traceBlockProcessor :=
  reportStats (cleanExpired now p).

Section consume.
Context `{PData}.



Variable clk : nat → Z.






(** *** The filter as one pass over the spans of the message *)











End consume.

(** ** Functional correctness of [ConsumeTraces] *)


(** ** The processor over time

    Spans and clean-ups interleave in any order; the clock does not go back. *)

Inductive tb_step : Z * traceBlockProcessor → Z * traceBlockProcessor → Prop :=
  | tb_step_span now now' key p : now <= now' →
      tb_step (now, p) (now', (shouldDrop_key now' key p).2)
  | tb_step_minute now now' p : now <= now' →
      tb_step (now, p) (now', (minuteTick now' p).2).

Definition tb_reachable (cfg : TraceBlockConfig) (s : Z * traceBlockProcessor) : Prop :=
  ∃ t0 p0, newTraceBlockProcessor cfg = inl p0 ∧ rtc tb_step (t0, p0) s.

(** An entry's block flag says exactly that its last span came at least
    [block_threshold] after its first. *)
Definition entry_ok (threshold now : Z) (st : traceState) : Prop :=
  ts_firstSeen st <= ts_lastSeen st <= now ∧
  (ts_isBlocked st = true ↔ threshold <= ts_lastSeen st - ts_firstSeen st).

Definition tb_inv (cfg : TraceBlockConfig) (s : Z * traceBlockProcessor) : Prop :=
  tb_idleTTL s.2 = cfg_IdleTTL cfg ∧
  tb_blockedIdleTTL s.2 = cfg_BlockedIdleTTL cfg ∧
  tb_blockThreshold s.2 = cfg_BlockThreshold cfg ∧
  map_Forall (λ key st, key ≠ "" ∧ entry_ok (cfg_BlockThreshold cfg) s.1 st) (tb_traces s.2).

Definition valid_threshold (d : Z) : Prop := 0 < d <= maxInt64.

Lemma touch_ok threshold now st :
  valid_threshold threshold → ts_lastSeen st <= now →
  entry_ok threshold (ts_lastSeen st) st → entry_ok threshold now (touch threshold now st).
Proof.
  intros Hv Hnow [Hord Hb]. unfold entry_ok, touch. simpl. split; [lia|].
  destruct (ts_isBlocked st); simpl.
  - split; [|done]. intros _. destruct Hb as [Hb _]. specialize (Hb eq_refl). lia.
  - destruct (Z.leb_spec threshold (durSub now (ts_firstSeen st))) as [Hle|Hlt]; simpl.
    + split; [|done]. intros _. apply durSub_ge; [|done]. unfold valid_threshold, minInt64, two63 in *. lia.
    + split; [done|]. intros Hle. apply durSub_ge in Hle; [lia|].
      unfold valid_threshold, minInt64, two63 in *. lia.
Qed.

Lemma entry_ok_later threshold now now' st :
  now <= now' → entry_ok threshold now st → entry_ok threshold now' st.
Proof. unfold entry_ok. intros ? [? ?]. split; [lia|done]. Qed.

Lemma entry_ok_last threshold now st :
  entry_ok threshold now st → entry_ok threshold (ts_lastSeen st) st.
Proof. unfold entry_ok. intros [? ?]. split; [lia|done]. Qed.

Lemma entry_ok_fresh threshold now :
  valid_threshold threshold →
  entry_ok threshold now {| ts_firstSeen := now; ts_lastSeen := now; ts_isBlocked := false |}.
Proof. unfold entry_ok, valid_threshold. simpl. intros. split; [lia|]. split; [done|lia]. Qed.

Lemma tb_step_inv cfg a b :
  valid_threshold (cfg_BlockThreshold cfg) → tb_inv cfg a → tb_step a b → tb_inv cfg b.
Proof.
  intros Hv (Hi & Hb & Ht & Hm) Hs. inversion Hs as [now now' key p Hnow|now now' p Hnow]; subst; simpl in *.
  - assert (map_Forall (λ key st, key ≠ "" ∧ entry_ok (cfg_BlockThreshold cfg) now' st) (tb_traces p)) as Hm'.
    { intros k st Hk. destruct (Hm k st Hk) as [? ?]. split; [done|]. by eapply entry_ok_later. }
    unfold shouldDrop_key. case_bool_decide as Hkey; [done|].
    destruct (tb_traces p !! key) as [st|] eqn:E; simpl; (split_and!; [done..|]);
      apply map_Forall_insert_2; try done; split; try done.
    + rewrite Ht. destruct (Hm key st E) as [_ Hok]. apply touch_ok; [done| |by eapply entry_ok_last].
      destruct Hok. lia.
    + by apply entry_ok_fresh.
  - split_and!; [done..|]. intros k st Hk.
    apply map_lookup_filter_Some in Hk as [Hk _].
    destruct (Hm k st Hk) as [? ?]. split; [done|]. by eapply entry_ok_later.
Qed.

Lemma Validate_threshold cfg : TraceBlockConfig_Validate cfg = None → 0 < cfg_BlockThreshold cfg.
Proof. unfold TraceBlockConfig_Validate. cond_lia; done. Qed.

Lemma tb_reachable_inv cfg s :
  cfg_BlockThreshold cfg <= maxInt64 → tb_reachable cfg s →
  valid_threshold (cfg_BlockThreshold cfg) ∧ tb_inv cfg s.
Proof.
  intros Hmax (t0 & p0 & Hnew & Hr). unfold newTraceBlockProcessor in Hnew.
  destruct (TraceBlockConfig_Validate cfg) eqn:Ev; [done|]. injection Hnew as <-.
  assert (valid_threshold (cfg_BlockThreshold cfg)) as Hv.
  { split; [by apply Validate_threshold|done]. }
  split; [done|]. apply (rtc_invariant tb_step (tb_inv cfg) _ _ (λ a b, tb_step_inv cfg a b Hv)) in Hr; [done|].
  split_and!; done.
Qed.


(** The trace is in the cache, blocked, and its last span is not older than
    [t]. *)
Definition blocked_since (t : Z) (key : string) (p : traceBlockProcessor) : Prop :=
  ∃ st, tb_traces p !! key = Some st ∧ ts_isBlocked st = true ∧ t <= ts_lastSeen st.

Lemma tb_step_blocked cfg t key a b :
  tb_inv cfg a → tb_step a b → cfg_BlockedIdleTTL cfg <= maxInt64 →
  b.1 - t < cfg_BlockedIdleTTL cfg → 0 < cfg_BlockedIdleTTL cfg →
  blocked_since t key a.2 → blocked_since t key b.2.
Proof.
  intros (Hi & Hb & Ht & Hm) Hs Hmax Hlt Hpos (st & Hst & Hbl & Hlast).
  inversion Hs as [now now' key' p Hnow|now now' p Hnow]; subst; simpl in *.
  - unfold shouldDrop_key. case_bool_decide as Hkey; simpl; [by exists st|].
    destruct (decide (key' = key)) as [->|Hne].
    + rewrite Hst. simpl. eexists. split; [apply lookup_insert_eq|]. simpl. rewrite Hbl. simpl.
      split; [done|]. destruct (Hm key st Hst) as [_ [? _]]. lia.
    + exists st. split; [|done].
      destruct (tb_traces p !! key'); (etrans; [by apply lookup_insert_ne|done]).
  - exists st. split; [|done]. apply map_lookup_filter_Some. split; [done|].
    simpl. unfold expired. rewrite Hbl, Hb. apply Z.leb_gt.
    destruct (Hm key st Hst) as [_ [? _]]. unfold durSub, minInt64, two63. lia.
Qed.

Lemma tb_steps_blocked cfg t key a b :
  valid_threshold (cfg_BlockThreshold cfg) → cfg_BlockedIdleTTL cfg <= maxInt64 → 0 < cfg_BlockedIdleTTL cfg →
  rtc tb_step a b → tb_inv cfg a → b.1 - t < cfg_BlockedIdleTTL cfg →
  blocked_since t key a.2 → a.1 <= b.1 ∧ tb_inv cfg b ∧ blocked_since t key b.2.
Proof.
  intros Hv Hmax Hpos Hr Ha Hb Hk.
  assert (∀ x y, tb_step x y → x.1 <= y.1) as Hmono by (intros ? ? []; done).
  induction Hr as [|x y z Hxy Hyz IH]; [done|].
  pose proof (tb_step_inv cfg _ _ Hv Ha Hxy) as Hy.
  assert (y.1 <= z.1) as Hle.
  { clear -Hyz Hmono. induction Hyz as [|? ? ? H]; [lia|]. apply Hmono in H. lia. }
  destruct IH as (? & ? & ?); [done..| |].
  - apply (tb_step_blocked cfg t key x y); done || lia.
  - apply Hmono in Hxy. split_and!; [lia|done..].
Qed.

(** C2: A blocked trace stays blocked, and every span of it is dropped, through
    any sequence of spans and clean-ups that ends less than [blocked_idle_ttl]
    after one of its spans. *)
Theorem blocked_trace_stays_blocked cfg now p now' p' key st :
  cfg_BlockThreshold cfg <= maxInt64 → cfg_BlockedIdleTTL cfg <= maxInt64 →
  tb_reachable cfg (now, p) →
  tb_traces p !! key = Some st → ts_isBlocked st = true →
  rtc tb_step (now, p) (now', p') →
  now' - ts_lastSeen st < cfg_BlockedIdleTTL cfg →
  (∃ st', tb_traces p' !! key = Some st' ∧ ts_isBlocked st' = true) ∧
  (shouldDrop_key now' key p').1 = true.
Proof.
  intros Hmax Hmax' Hr Hst Hbl Hsteps Hlt.
  destruct (tb_reachable_inv cfg _ Hmax Hr) as [Hv Hinv].
  assert (0 < cfg_BlockedIdleTTL cfg) as Hpos.
  { destruct Hr as (t0 & p0 & Hnew & _). unfold newTraceBlockProcessor, TraceBlockConfig_Validate in Hnew.
    repeat case_cond; bool_facts; try done; lia. }
  destruct (tb_steps_blocked cfg (ts_lastSeen st) key _ _ Hv Hmax' Hpos Hsteps Hinv) as (_ & Hinv' & Hb);
    simpl in *; [done|by exists st|].
  destruct Hb as (st' & Hst' & Hbl' & _). split; [by exists st'|].
  unfold shouldDrop_key. destruct Hinv' as (_ & _ & _ & Hm).
  destruct (Hm key st' Hst') as [Hkey _]. simpl in *.
  rewrite bool_decide_eq_false_2 by done. rewrite Hst'. simpl. by rewrite Hbl'.
Qed.

(** ** The theorems on a concrete run *)


Definition ex_tb_proc : traceBlockProcessor :=
  match newTraceBlockProcessor traceblock_createDefaultConfig with
  | inl p => p
  | inr _ => {| tb_traces := ∅; tb_idleTTL := 0; tb_blockedIdleTTL := 0; tb_blockThreshold := 0;
                tb_receivedSpans := 0; tb_droppedSpans := 0 |}
  end.





Definition ex_tb_seen : traceBlockProcessor := (shouldDrop_key 0 "t" ex_tb_proc).2.
Definition ex_tb_blocked : traceBlockProcessor := (shouldDrop_key (30 * minute) "t" ex_tb_seen).2.



Lemma blocked_trace_stays_blocked_witness :
  (shouldDrop_key (39 * minute) "t" (minuteTick (39 * minute) ex_tb_blocked).2).1 = true.
Proof.
  eapply (blocked_trace_stays_blocked traceblock_createDefaultConfig (30 * minute) ex_tb_blocked).
  - done.
  - done.
  - exists 0, ex_tb_proc. split; [done|]. eapply rtc_l; [by apply (tb_step_span 0 0 "t")|].
    apply rtc_once. by constructor.
  - reflexivity.
  - reflexivity.
  - apply rtc_once. by constructor.
  - done.
Defined.
