(* ===== verification/Labels.v ===== *)
(** * Labels: the trace label record the sampling components pass around

    [model.TraceLabels] and [model.TraceGroup] come from the module
    [apo-module]; the record has the fields the processor sets or reads. *)

From S2P Require Import Prelude GoStrings Float64.

Record TraceLabels := {
  tl_Pid : Z;              (* uint32 *)
  tl_Tid : Z;              (* uint32 *)
  tl_TopSpan : bool;
  tl_Protocol : string;
  tl_ServiceName : string;
  tl_Url : string;
  tl_HttpUrl : string;
  tl_IsSampled : bool;
  tl_IsSlow : bool;
  tl_IsServer : bool;
  tl_IsError : bool;
  tl_IsProfiled : bool;
  tl_ReportType : Z;       (* uint32 *)
  tl_SampleValue : Z;
  tl_TraceId : string;
  tl_ApmType : string;
  tl_ApmSpanId : string;
  tl_ContainerId : string;
  tl_StartTime : Z;        (* uint64, ns *)
  tl_Duration : Z;
  tl_EndTime : Z;
  tl_NodeName : string;
  tl_NodeIp : string;
  tl_ClusterID : string;
  tl_ThresholdType : string;
  tl_ThresholdRange : string;
  tl_ThresholdValue : float64;
  tl_ThresholdMultiple : float64;
}.

(** The assignments to the record's fields. *)

Definition set_threshold (ty range : string) (value multiple : float64) (slow : bool)
    (t : TraceLabels) : TraceLabels :=
  {| tl_Pid := tl_Pid t; tl_Tid := tl_Tid t; tl_TopSpan := tl_TopSpan t;
     tl_Protocol := tl_Protocol t; tl_ServiceName := tl_ServiceName t; tl_Url := tl_Url t;
     tl_HttpUrl := tl_HttpUrl t; tl_IsSampled := tl_IsSampled t; tl_IsSlow := slow;
     tl_IsServer := tl_IsServer t; tl_IsError := tl_IsError t;
     tl_IsProfiled := tl_IsProfiled t; tl_ReportType := tl_ReportType t;
     tl_SampleValue := tl_SampleValue t; tl_TraceId := tl_TraceId t; tl_ApmType := tl_ApmType t;
     tl_ApmSpanId := tl_ApmSpanId t; tl_ContainerId := tl_ContainerId t;
     tl_StartTime := tl_StartTime t; tl_Duration := tl_Duration t; tl_EndTime := tl_EndTime t;
     tl_NodeName := tl_NodeName t; tl_NodeIp := tl_NodeIp t; tl_ClusterID := tl_ClusterID t;
     tl_ThresholdType := ty; tl_ThresholdRange := range;
     tl_ThresholdValue := value; tl_ThresholdMultiple := multiple |}.

Definition set_profile (profiled : bool) (reportType : Z) (t : TraceLabels) : TraceLabels :=
  {| tl_Pid := tl_Pid t; tl_Tid := tl_Tid t; tl_TopSpan := tl_TopSpan t;
     tl_Protocol := tl_Protocol t; tl_ServiceName := tl_ServiceName t; tl_Url := tl_Url t;
     tl_HttpUrl := tl_HttpUrl t; tl_IsSampled := tl_IsSampled t; tl_IsSlow := tl_IsSlow t;
     tl_IsServer := tl_IsServer t; tl_IsError := tl_IsError t;
     tl_IsProfiled := profiled; tl_ReportType := reportType;
     tl_SampleValue := tl_SampleValue t; tl_TraceId := tl_TraceId t; tl_ApmType := tl_ApmType t;
     tl_ApmSpanId := tl_ApmSpanId t; tl_ContainerId := tl_ContainerId t;
     tl_StartTime := tl_StartTime t; tl_Duration := tl_Duration t; tl_EndTime := tl_EndTime t;
     tl_NodeName := tl_NodeName t; tl_NodeIp := tl_NodeIp t; tl_ClusterID := tl_ClusterID t;
     tl_ThresholdType := tl_ThresholdType t; tl_ThresholdRange := tl_ThresholdRange t;
     tl_ThresholdValue := tl_ThresholdValue t; tl_ThresholdMultiple := tl_ThresholdMultiple t |}.

Definition set_profiled (t : TraceLabels) : TraceLabels := set_profile true (tl_ReportType t) t.
Definition set_report (r : Z) (t : TraceLabels) : TraceLabels := set_profile (tl_IsProfiled t) r t.

(** [getPidUrl] of [sampler/normal_sampler.go]: [fmt.Sprintf("%d-%s", pid, url)]. *)
Definition getPidUrl (t : TraceLabels) : string := FormatInt (tl_Pid t) +:+ "-" +:+ tl_Url t.

(** A sample record for the witnesses. *)
Definition ex_labels (id url : string) (duration : Z) (error top : bool) : TraceLabels :=
  {| tl_Pid := 7; tl_Tid := 1; tl_TopSpan := top; tl_Protocol := "http"; tl_ServiceName := "svc";
     tl_Url := url; tl_HttpUrl := url; tl_IsSampled := true; tl_IsSlow := false;
     tl_IsServer := true; tl_IsError := error; tl_IsProfiled := false; tl_ReportType := 0;
     tl_SampleValue := 0; tl_TraceId := id; tl_ApmType := "otel"; tl_ApmSpanId := "s";
     tl_ContainerId := ""; tl_StartTime := 1; tl_Duration := duration; tl_EndTime := 1 + duration;
     tl_NodeName := ""; tl_NodeIp := ""; tl_ClusterID := ""; tl_ThresholdType := "";
     tl_ThresholdRange := ""; tl_ThresholdValue := F_zero; tl_ThresholdMultiple := F_zero |}.

(** ** The key of a process and url is unambiguous

    The decimal digits of a pid hold no dash, so the first dash of the key
    ends the pid. *)

Lemma pretty_N_char_not_dash n : pretty_N_char n ≠ "-"%char.
Proof. unfold pretty_N_char. repeat case_match; done. Qed.

Lemma byte_list_pretty_N_go n s :
  "-"%char ∉ byte_list s → "-"%char ∉ byte_list (pretty_N_go n s).
Proof.
  revert s. induction (N.lt_wf_0 n) as [n _ IH]; intros s Hs.
  destruct (decide (n = 0)%N) as [->|Hn]; [by rewrite pretty_N_go_0|].
  rewrite pretty_N_go_step by lia. apply IH; [apply N.div_lt; lia|].
  simpl. apply not_elem_of_cons. split; [|done]. intros E. symmetry in E.
  by apply pretty_N_char_not_dash in E.
Qed.

Lemma FormatInt_free_of_dash n : 0 <= n → free_of "-"%char (FormatInt n).
Proof.
  intros Hn. unfold free_of, FormatInt. destruct n as [|p|p]; [|..|lia].
  - by apply (bool_decide_unpack (free_of "-"%char (FormatInt 0))).
  - unfold pretty, pretty_Z. unfold pretty_positive. unfold pretty, pretty_N. simpl.
    apply byte_list_pretty_N_go. simpl. apply not_elem_of_nil.
Qed.

Lemma getPidUrl_inj a b :
  0 <= tl_Pid a → 0 <= tl_Pid b → getPidUrl a = getPidUrl b →
  tl_Pid a = tl_Pid b ∧ tl_Url a = tl_Url b.
Proof.
  intros Ha Hb E. unfold getPidUrl in E.
  apply (f_equal byte_list) in E. rewrite !byte_list_app in E. simpl in E.
  assert (∀ (p q u v : list ascii), "-"%char ∉ p → "-"%char ∉ q →
            p ++ "-"%char :: u = q ++ "-"%char :: v → p = q ∧ u = v) as H.
  { induction p as [|x p IH]; intros [|y q] u v Hp Hq; simpl; intros E'; simplify_eq/=.
    - done.
    - by apply not_elem_of_cons in Hq as [? _].
    - by apply not_elem_of_cons in Hp as [? _].
    - apply not_elem_of_cons in Hp as [_ Hp], Hq as [_ Hq].
      by destruct (IH _ _ _ Hp Hq H0) as [-> ->]. }
  apply H in E as [E1 E2]; [|by apply FormatInt_free_of_dash..].
  apply byte_list_inj, FormatInt_inj in E1. apply byte_list_inj in E2. done.
Qed.
