(* ===== verification/Silent.v ===== *)
(** * Silent: how many slow or error traces of one url are sampled

    Models [sampler/silent.go] of the back-sampling processor.  [sync.Map] is a
    finite map, [time.Now().Unix()] an argument of the operations that read the
    clock, [int] and [int64] are 64 bits wide. *)

From S2P Require Import Prelude GoStrings.

Inductive SilentMode := SilentWindow | SilentWait.

Record SilentData := {
  sd_leftCount : Z;
  sd_silentTime : Z;
}.

Record Silent := {
  sl_pidUrlDatas : gmap string SilentData;
  sl_count : Z;
  sl_period : Z;
  sl_mode : SilentMode;
  sl_nextWindowTime : Z;
}.

Definition NewSilent (silentCount silentPeriod : Z) (silentMode : string) : Silent :=
  {| sl_pidUrlDatas := ∅;
     sl_count := silentCount;
     sl_period := silentPeriod;
     sl_mode := if bool_decide (silentMode = "wait") then SilentWait else SilentWindow;
     sl_nextWindowTime := 0 |}.

Definition set_pidUrlDatas (m : gmap string SilentData) (s : Silent) : Silent :=
  {| sl_pidUrlDatas := m; sl_count := sl_count s; sl_period := sl_period s;
     sl_mode := sl_mode s; sl_nextWindowTime := sl_nextWindowTime s |}.

Definition set_nextWindowTime (t : Z) (s : Silent) : Silent :=
  {| sl_pidUrlDatas := sl_pidUrlDatas s; sl_count := sl_count s; sl_period := sl_period s;
     sl_mode := sl_mode s; sl_nextWindowTime := t |}.

(** [checkSilent] updates the stored record through its pointer. *)
Definition checkSilent (now : Z) (d : SilentData) : bool * SilentData :=
  if sd_leftCount d <=? 0 then (true, d)
  else if sd_leftCount d =? 1 then (false, {| sd_leftCount := 0; sd_silentTime := now |})
  else (false, {| sd_leftCount := sd_leftCount d - 1; sd_silentTime := 0 |}).

Definition IsSilent (now : Z) (pidUrl : string) (s : Silent) : bool * Silent :=
  if sl_count s <=? 0 then (true, s)
  else if sl_period s <=? 0 then (false, s)
  else match sl_pidUrlDatas s !! pidUrl with
       | Some d =>
           let '(b, d') := checkSilent now d in
           (b, set_pidUrlDatas (<[pidUrl := d']> (sl_pidUrlDatas s)) s)
       | None =>
           (false, set_pidUrlDatas
                     (<[pidUrl := {| sd_leftCount := sl_count s - 1; sd_silentTime := 0 |}]>
                        (sl_pidUrlDatas s)) s)
       end.

Definition isNewWindow (duration now : Z) (s : Silent) : bool * Silent :=
  if duration =? 0 then (true, s)
  else match sl_mode s with
       | SilentWait => (false, s)
       | SilentWindow =>
           if sl_nextWindowTime s =? 0 then (false, set_nextWindowTime (i64 (now + duration)) s)
           else if sl_nextWindowTime s <=? now
           then (true, set_nextWindowTime (i64 (now + duration)) s)
           else (false, s)
       end.

Definition isExpire (s : Silent) (time now : Z) (newWindow : bool) : bool :=
  if sl_period s =? 0 then true
  else match sl_mode s with
       | SilentWait => (time >? 0) && (i64 (time + sl_period s) <? now)
       | SilentWindow => newWindow
       end.

(** Deleting while ranging: what is left does not depend on the order. *)
Definition CheckAndResetSilent (now : Z) (s : Silent) : Silent :=
  let '(newWindow, s1) := isNewWindow (sl_period s) now s in
  set_pidUrlDatas
    (filter (λ kv, isExpire s1 (sd_silentTime kv.2) now newWindow = false) (sl_pidUrlDatas s1)) s1.

(** ** Theorems *)

(** How many more calls of a url are answered "not silent". *)
Definition left_calls (k : string) (s : Silent) : Z :=
  match sl_pidUrlDatas s !! k with
  | None => sl_count s
  | Some d => Z.max 0 (sd_leftCount d)
  end.

(** A run of calls, each with the time it reads; the answers in order. *)
Fixpoint run_IsSilent (calls : list (Z * string)) (s : Silent) : list (string * bool) * Silent :=
  match calls with
  | [] => ([], s)
  | (now, k) :: calls' =>
      let '(b, s1) := IsSilent now k s in
      let '(bs, s2) := run_IsSilent calls' s1 in
      ((k, b) :: bs, s2)
  end.

Definition granted (k : string) (answers : list (string * bool)) : Z :=
  Z.of_nat (length (filter (λ a, a = (k, false)) answers)).
Definition calls_of (k : string) (calls : list (Z * string)) : Z :=
  Z.of_nat (length (filter (λ c, c.2 = k) calls)).

Lemma checkSilent_left now d :
  let '(b, d') := checkSilent now d in
  Z.max 0 (sd_leftCount d') = Z.max 0 (Z.max 0 (sd_leftCount d) - 1) ∧
  (b = false ↔ 0 < Z.max 0 (sd_leftCount d)).
Proof. unfold checkSilent. cond_lia; simpl; split; try lia; split; (done || lia). Qed.

Lemma IsSilent_left now k s b s' :
  0 < sl_count s → 0 < sl_period s → IsSilent now k s = (b, s') →
  sl_count s' = sl_count s ∧ sl_period s' = sl_period s ∧
  (b = false ↔ 0 < left_calls k s) ∧
  ∀ k', left_calls k' s' =
        if decide (k' = k) then Z.max 0 (left_calls k s - 1) else left_calls k' s.
Proof.
  intros Hc Hp. unfold IsSilent, left_calls.
  destruct (Z.leb_spec (sl_count s) 0); [lia|]. destruct (Z.leb_spec (sl_period s) 0); [lia|].
  destruct (sl_pidUrlDatas s !! k) as [d|] eqn:E.
  - pose proof (checkSilent_left now d) as Hd. destruct (checkSilent now d) as [c d'].
    destruct Hd as [Hl Hb]. intros [= <- <-]. simpl. split_and!; try done.
    intros k'. case_decide as Hk; [subst k'|]; simplify_map_eq; lia || done.
  - intros [= <- <-]. simpl. split_and!; try done.
    intros k'. case_decide as Hk; [subst k'|]; simplify_map_eq; simpl; lia || done.
Qed.

(** Between two resets the calls for one url are answered "not silent" as
    many times as the url has calls left, and no more: a url seen for the first
    time gets [silent_count] samples, whatever other urls are asked for. *)
Theorem run_IsSilent_granted k calls s :
  0 < sl_count s → 0 < sl_period s →
  granted k (run_IsSilent calls s).1 = Z.min (Z.max 0 (left_calls k s)) (calls_of k calls).
Proof.
  revert s. induction calls as [|[now k1] calls IH]; intros s Hc Hp.
  - unfold granted, calls_of. simpl. lia.
  - simpl. destruct (IsSilent now k1 s) as [b s1] eqn:E.
    destruct (IsSilent_left _ _ _ _ _ Hc Hp E) as (Hc1 & Hp1 & Hb & Hl).
    specialize (IH s1). rewrite Hc1, Hp1, Hl in IH. specialize (IH Hc Hp).
    destruct (run_IsSilent calls s1) as [bs s2]. simpl in *.
    unfold granted, calls_of in *. rewrite !filter_cons. simpl.
    destruct (decide (k = k1)) as [<-|Hk].
    + destruct b; [rewrite decide_False by congruence|rewrite decide_True by done];
        simpl; rewrite ?(decide_True (P := k = k)) by done; simpl.
      * destruct (Z.lt_ge_cases 0 (left_calls k s)) as [Hx|Hx]; [by apply Hb in Hx|lia].
      * pose proof (proj1 Hb eq_refl) as Hx. lia.
    + rewrite (decide_False (P := (k1, b) = (k, false))) by congruence.
      rewrite (decide_False (P := k1 = k)) by congruence. done.
Qed.

Lemma run_IsSilent_granted_witness :
  granted "7-/a" (run_IsSilent [(1, "7-/a"); (1, "7-/b"); (2, "7-/a"); (3, "7-/a")]
                               (NewSilent 2 5 "window")).1 = 2.
Proof. rewrite run_IsSilent_granted; vm_compute; reflexivity. Defined.

(** A reset in window mode: the first one only sets the end of the window, a
    later one at the end of the window or after gives every url its calls back,
    and one before it changes nothing. *)
Lemma CheckAndResetSilent_window now s :
  sl_mode s = SilentWindow → 0 < sl_period s →
  (∀ k, left_calls k (CheckAndResetSilent now s) =
        if (negb (sl_nextWindowTime s =? 0) && (sl_nextWindowTime s <=? now))
        then sl_count s else left_calls k s) ∧
  sl_nextWindowTime (CheckAndResetSilent now s) =
    if (sl_nextWindowTime s =? 0) || (sl_nextWindowTime s <=? now)
    then i64 (now + sl_period s) else sl_nextWindowTime s.
Proof.
  intros Hm Hp. unfold CheckAndResetSilent, isNewWindow. rewrite Hm.
  destruct (Z.eqb_spec (sl_period s) 0); [lia|].
  assert (∀ k b t, left_calls k (set_pidUrlDatas (filter (λ kv : string * SilentData,
            isExpire (set_nextWindowTime t s) (sd_silentTime kv.2) now b = false)
              (sl_pidUrlDatas s)) (set_nextWindowTime t s)) =
          if b then sl_count s else left_calls k s) as Hf.
  { intros k b t. unfold left_calls, isExpire. simpl. rewrite Hm.
    destruct (Z.eqb_spec (sl_period s) 0); [lia|]. rewrite map_lookup_filter.
    destruct (sl_pidUrlDatas s !! k); simpl; [|by destruct b].
    by destruct b. }
  destruct (sl_nextWindowTime s =? 0) eqn:E0; simpl.
  - split; [|done]. intros k. apply (Hf k false).
  - destruct (sl_nextWindowTime s <=? now) eqn:E1; simpl.
    + split; [|done]. intros k. apply (Hf k true).
    + split; [|done]. intros k.
      transitivity (left_calls k (set_pidUrlDatas (filter (λ kv : string * SilentData,
            isExpire (set_nextWindowTime (sl_nextWindowTime s) s) (sd_silentTime kv.2) now false
              = false) (sl_pidUrlDatas s)) (set_nextWindowTime (sl_nextWindowTime s) s)));
        [by destruct s|apply (Hf k false)].
Qed.

(** ** Waiting with a count of one *)

Inductive silent_step : Silent → Silent → Prop :=
  | silent_step_call now k s : silent_step s (IsSilent now k s).2
  | silent_step_reset now s : silent_step s (CheckAndResetSilent now s).

(** A url without calls left and with no silent time. *)
Definition stuck (k : string) (s : Silent) : Prop :=
  sl_mode s = SilentWait ∧ 0 < sl_period s ∧ 0 < sl_count s ∧
  sl_pidUrlDatas s !! k = Some {| sd_leftCount := 0; sd_silentTime := 0 |}.

Lemma stuck_step k s s' : stuck k s → silent_step s s' → stuck k s'.
Proof.
  intros (Hm & Hp & Hc & Hk) Hstep. destruct Hstep as [now k1 s|now s].
  - unfold IsSilent. destruct (Z.leb_spec (sl_count s) 0); [lia|].
    destruct (Z.leb_spec (sl_period s) 0); [lia|].
    destruct (decide (k1 = k)) as [->|Hne].
    + rewrite Hk. simpl. split_and!; try done. simpl. by rewrite lookup_insert_eq.
    + destruct (sl_pidUrlDatas s !! k1) as [d|]; simpl.
      * destruct (checkSilent now d) as [b d']. split_and!; try done. simpl.
        by rewrite lookup_insert_ne.
      * split_and!; try done. simpl. by rewrite lookup_insert_ne.
  - unfold CheckAndResetSilent, isNewWindow. rewrite Hm.
    destruct (Z.eqb_spec (sl_period s) 0); [lia|].
    split_and!; try done. simpl. apply map_lookup_filter_Some. split; [done|].
    unfold isExpire. rewrite Hm. destruct (Z.eqb_spec (sl_period s) 0); [lia|]. done.
Qed.

(** With [silent_mode: wait] and [silent_count: 1] the first sampled trace
    of a url is its last: the entry is stored with no silent time, which the
    expiry test takes for "not silent yet", so that whatever calls and resets
    follow the url stays silent. *)
Lemma wait_count_one_silences_forever k now period s s' now' :
  0 < period →
  s = NewSilent 1 period "wait" →
  rtc silent_step (IsSilent now k s).2 s' →
  (IsSilent now k s).1 = false ∧ (IsSilent now' k s').1 = true.
Proof.
  intros Hp -> Hr.
  assert (stuck k (IsSilent now k (NewSilent 1 period "wait")).2) as H0.
  { unfold IsSilent. simpl. destruct (Z.leb_spec period 0); [lia|].
    rewrite lookup_empty. split_and!; simpl; try done. by rewrite lookup_insert_eq. }
  apply (rtc_invariant _ (stuck k)) in Hr as (_ & Hp' & Hc' & Hk'); [|by eauto using stuck_step|done].
  split.
  - unfold IsSilent. simpl. destruct (Z.leb_spec period 0); [lia|]. by rewrite lookup_empty.
  - unfold IsSilent. destruct (Z.leb_spec (sl_count s') 0); [lia|].
    destruct (Z.leb_spec (sl_period s') 0); [lia|]. by rewrite Hk'.
Qed.

Lemma wait_count_one_silences_forever_witness :
  (IsSilent 10 "7-/a" (NewSilent 1 5 "wait")).1 = false ∧
  (IsSilent 99 "7-/a" (CheckAndResetSilent 90 (IsSilent 10 "7-/a" (NewSilent 1 5 "wait")).2)).1 = true.
Proof.
  apply (wait_count_one_silences_forever "7-/a" 10 5 (NewSilent 1 5 "wait")); [lia|done|].
  apply rtc_once. constructor.
Defined.
