(* ===== verification/Samplers.v ===== *)
(** * Samplers: the normal-trace samplers and the single-trace sampler

    Models [sampler/normal_sampler.go] and [sampler/single_sampler.go] of the
    back-sampling processor.  The interface [NoramlSampler] (the source's
    spelling) has two implementations: the inductive type lists them and its
    methods dispatch on it. *)

From S2P Require Import Prelude GoStrings Float64 Labels Silent.

(** ** [TopNormalTraceSampler]: one trace per process and url in each window *)

Record TopNormalTraceSampler := {
  top_displayWindow : Z;
  top_nextWindow : Z;
  top_collectedPidUrls : gmap string bool;
}.

Definition NewTopNormalTraceSampler (displayWindow : Z) : TopNormalTraceSampler :=
  {| top_displayWindow := displayWindow; top_nextWindow := 0; top_collectedPidUrls := ∅ |}.

Definition Top_Sample (trace : TraceLabels) (s : TopNormalTraceSampler)
    : bool * TopNormalTraceSampler :=
  if top_displayWindow s =? 0 then (false, s)
  else
    let pidUrl := getPidUrl trace in
    match top_collectedPidUrls s !! pidUrl with
    | Some _ => (false, s)
    | None =>
        (true, {| top_displayWindow := top_displayWindow s; top_nextWindow := top_nextWindow s;
                  top_collectedPidUrls := <[pidUrl := true]> (top_collectedPidUrls s) |})
    end.

Definition Top_UpdateTime (trace : TraceLabels) (s : TopNormalTraceSampler)
    : TopNormalTraceSampler := s.

Definition Top_Check (now : Z) (s : TopNormalTraceSampler) : TopNormalTraceSampler :=
  if top_displayWindow s =? 0 then s
  else if top_nextWindow s =? 0 then
    {| top_displayWindow := top_displayWindow s; top_nextWindow := i64 (top_displayWindow s + now);
       top_collectedPidUrls := top_collectedPidUrls s |}
  else if top_nextWindow s <=? now then
    {| top_displayWindow := top_displayWindow s; top_nextWindow := i64 (top_displayWindow s + now);
       top_collectedPidUrls := ∅ |}
  else s.

(** ** [AnyNormalTraceSampler]: a url rests until its check time *)

Record AnyNormalTraceSampler := {
  any_logEnable : bool;
  any_waitTime : Z;
  any_collectedPidUrls : gmap string Z;
}.

Definition newAnyNormalTraceSampler (waitTime : Z) (logEnable : bool) : AnyNormalTraceSampler :=
  {| any_logEnable := logEnable; any_waitTime := waitTime; any_collectedPidUrls := ∅ |}.

Definition set_anyUrls (m : gmap string Z) (s : AnyNormalTraceSampler) : AnyNormalTraceSampler :=
  {| any_logEnable := any_logEnable s; any_waitTime := any_waitTime s; any_collectedPidUrls := m |}.

Definition Any_Sample (trace : TraceLabels) (s : AnyNormalTraceSampler) : bool :=
  if any_waitTime s =? 0 then false
  else match any_collectedPidUrls s !! getPidUrl trace with
       | Some _ => false
       | None => true
       end.

Definition Any_UpdateTime (now : Z) (trace : TraceLabels) (s : AnyNormalTraceSampler)
    : AnyNormalTraceSampler :=
  if any_waitTime s =? 0 then s
  else set_anyUrls
         (<[getPidUrl trace := i64 (now + any_waitTime s)]> (any_collectedPidUrls s)) s.

Definition Any_Check (now : Z) (s : AnyNormalTraceSampler) : AnyNormalTraceSampler :=
  if any_waitTime s =? 0 then s
  else set_anyUrls (filter (λ kv, (kv.2 <? now) = false) (any_collectedPidUrls s)) s.

(** ** The interface *)

Inductive NoramlSampler :=
  | TopSampler (s : TopNormalTraceSampler)
  | AnySampler (s : AnyNormalTraceSampler).

Definition newNormalSampler (topSampler : bool) (nextTime : Z) (logEnable : bool) : NoramlSampler :=
  if topSampler then TopSampler (NewTopNormalTraceSampler nextTime)
  else AnySampler (newAnyNormalTraceSampler nextTime logEnable).

Definition Normal_Sample (trace : TraceLabels) (n : NoramlSampler) : bool * NoramlSampler :=
  match n with
  | TopSampler s => let '(b, s') := Top_Sample trace s in (b, TopSampler s')
  | AnySampler s => (Any_Sample trace s, AnySampler s)
  end.

Definition Normal_UpdateTime (now : Z) (trace : TraceLabels) (n : NoramlSampler) : NoramlSampler :=
  match n with
  | TopSampler s => TopSampler (Top_UpdateTime trace s)
  | AnySampler s => AnySampler (Any_UpdateTime now trace s)
  end.

Definition Normal_Check (now : Z) (n : NoramlSampler) : NoramlSampler :=
  match n with
  | TopSampler s => TopSampler (Top_Check now s)
  | AnySampler s => AnySampler (Any_Check now s)
  end.

(** ** [SingleSampler] *)

Record SingleSampler := {
  ss_normalSampler : NoramlSampler;
  ss_openNormalSampling : bool;
  ss_openSlowSampling : bool;
  ss_openErrorSampling : bool;
  ss_ignoreThreshold : Z;     (* uint64 *)
  ss_silent : Silent;
}.

(** [NewSingleSampler(..).WithNormalSampler(..).WithSilent(..)], as the
    processor builds it. *)
Definition NewSingleSampler (slowSampling errorSampling : bool) (ignoreThreshold : Z)
    (normalSampleWaitTime silentCount silentPeriod : Z) (silentMode : string) : SingleSampler :=
  {| ss_normalSampler := TopSampler (NewTopNormalTraceSampler normalSampleWaitTime);
     ss_openNormalSampling := normalSampleWaitTime >? 0;
     ss_openSlowSampling := slowSampling;
     ss_openErrorSampling := errorSampling;
     ss_ignoreThreshold := ignoreThreshold;
     ss_silent := NewSilent silentCount silentPeriod silentMode |}.

Definition set_ss (n : NoramlSampler) (sl : Silent) (c : SingleSampler) : SingleSampler :=
  {| ss_normalSampler := n; ss_openNormalSampling := ss_openNormalSampling c;
     ss_openSlowSampling := ss_openSlowSampling c; ss_openErrorSampling := ss_openErrorSampling c;
     ss_ignoreThreshold := ss_ignoreThreshold c; ss_silent := sl |}.

(** The answer, the trace with its [IsProfiled] mark, and the sampler. *)
Definition Single_Sample (now : Z) (trace : TraceLabels) (c : SingleSampler)
    : bool * TraceLabels * SingleSampler :=
  if negb (ss_openNormalSampling c) && negb (ss_openSlowSampling c) && negb (ss_openErrorSampling c)
  then (false, trace, c)
  else if negb (tl_IsError trace) && negb (tl_TopSpan trace)
          && (tl_Duration trace <? ss_ignoreThreshold c)
  then (false, trace, c)
  else
    let '(isSampled, c') :=
      if tl_IsSlow trace || tl_IsError trace then
        let hasSlow := ss_openSlowSampling c && tl_IsSlow trace in
        let hasError := ss_openErrorSampling c && tl_IsError trace in
        if (hasSlow || hasError) && tl_IsSampled trace then
          let '(silent, sl) := IsSilent now (getPidUrl trace) (ss_silent c) in
          (negb silent, set_ss (ss_normalSampler c) sl c)
        else (false, c)
      else if ss_openNormalSampling c && tl_IsSampled trace then
        let '(b, n) := Normal_Sample trace (ss_normalSampler c) in
        (b, set_ss n (ss_silent c) c)
      else (false, c) in
    if isSampled then (true, set_profiled trace, c') else (false, trace, c').

Definition Single_CheckWindow (now : Z) (c : SingleSampler) : SingleSampler :=
  set_ss (Normal_Check now (ss_normalSampler c)) (CheckAndResetSilent now (ss_silent c)) c.

(** ** Theorems *)

(** Every trace of a list through [Top_Sample]: the urls of the sampled ones. *)
Fixpoint Top_sampled (l : list TraceLabels) (s : TopNormalTraceSampler) : list string :=
  match l with
  | [] => []
  | t :: l' =>
      let '(b, s') := Top_Sample t s in
      if b then getPidUrl t :: Top_sampled l' s' else Top_sampled l' s'
  end.

(** Within one display window the top sampler picks, for each process and
    url with traffic that was not picked before, exactly one trace. *)
Theorem Top_sampled_once l s :
  top_displayWindow s ≠ 0 →
  NoDup (Top_sampled l s) ∧
  ∀ k, k ∈ Top_sampled l s ↔ k ∈ (getPidUrl <$> l) ∧ top_collectedPidUrls s !! k = None.
Proof.
  revert s. induction l as [|t l IH]; intros s Hw; simpl Top_sampled.
  - split; [constructor|]. intros k. split; [by intros ?%not_elem_of_nil|].
    by intros [?%not_elem_of_nil _].
  - unfold Top_Sample at 1 2. destruct (Z.eqb_spec (top_displayWindow s) 0); [done|].
    destruct (top_collectedPidUrls s !! getPidUrl t) as [b|] eqn:E.
    + destruct (IH s Hw) as [Hnd Hk]. split; [done|]. intros k. rewrite Hk, fmap_cons, elem_of_cons.
      split; [tauto|]. intros [[->|?] Hn]; [congruence|done].
    + destruct (IH {| top_displayWindow := top_displayWindow s; top_nextWindow := top_nextWindow s;
                      top_collectedPidUrls := <[getPidUrl t := true]> (top_collectedPidUrls s) |} Hw)
        as [Hnd Hk]. simpl in Hk. split.
      * constructor; [|done]. rewrite Hk. intros [_ Hn]. by rewrite lookup_insert_eq in Hn.
      * intros k. rewrite elem_of_cons, Hk, fmap_cons, elem_of_cons.
        destruct (decide (k = getPidUrl t)) as [->|Hne]; [tauto|].
        rewrite lookup_insert_ne by done. tauto.
Qed.

Lemma Top_sampled_once_witness :
  Top_sampled [ex_labels "t1" "/a" 5 false true; ex_labels "t2" "/a" 5 false true]
              (NewTopNormalTraceSampler 60) = ["7-/a"] ∧
  NoDup (Top_sampled [ex_labels "t1" "/a" 5 false true; ex_labels "t2" "/a" 5 false true]
              (NewTopNormalTraceSampler 60)).
Proof.
  split; [reflexivity|]. apply (Top_sampled_once _ (NewTopNormalTraceSampler 60)). done.
Defined.

(** The window moves only in [Check]: it starts at the first check, and at its
    end every url can be picked again. *)
Lemma Top_Check_clears now s k :
  top_displayWindow s ≠ 0 →
  top_collectedPidUrls (Top_Check now s) !! k =
    if negb (top_nextWindow s =? 0) && (top_nextWindow s <=? now)
    then None else top_collectedPidUrls s !! k.
Proof.
  intros Hw. unfold Top_Check. destruct (Z.eqb_spec (top_displayWindow s) 0); [done|].
  destruct (top_nextWindow s =? 0); simpl; [done|]. destruct (top_nextWindow s <=? now); simpl; done.
Qed.

(** The operations of the [Any] sampler, with the time each reads. *)
Inductive any_op :=
  | OpUpdate (now : Z) (trace : TraceLabels)
  | OpCheck (now : Z).

Definition any_do (o : any_op) (s : AnyNormalTraceSampler) : AnyNormalTraceSampler :=
  match o with
  | OpUpdate now t => Any_UpdateTime now t s
  | OpCheck now => Any_Check now s
  end.

Definition any_time (o : any_op) : Z := match o with OpUpdate now _ | OpCheck now => now end.

(** A url that was just recorded rests: no normal trace of it is sampled
    until a check later than [wait_time] after the last record, and the first
    such check frees it. *)
Theorem Any_rests t now ops s :
  0 < any_waitTime s → now + any_waitTime s <= maxInt64 → minInt64 <= now →
  (∀ o, o ∈ ops → now <= any_time o <= now + any_waitTime s ∧
                  any_time o + any_waitTime s <= maxInt64) →
  let s' := foldS any_do ops (Any_UpdateTime now t s) in
  Any_Sample t s' = false ∧
  (∀ c, (∀ n t', OpUpdate n t' ∈ ops → n + any_waitTime s < c) → now + any_waitTime s < c →
        Any_Sample t (Any_Check c s') = true).
Proof.
  intros Hw Hmax Hmin Hops s'.
  assert (any_waitTime s' = any_waitTime s ∧
          ∃ v, any_collectedPidUrls s' !! getPidUrl t = Some v ∧ now + any_waitTime s <= v ∧
               (v = now + any_waitTime s ∨ ∃ n t', OpUpdate n t' ∈ ops ∧ v = n + any_waitTime s))
    as (Hw' & v & Hv & Hge & Hcase).
  { apply (foldS_inv (λ s', any_waitTime s' = any_waitTime s ∧
          ∃ v, any_collectedPidUrls s' !! getPidUrl t = Some v ∧ now + any_waitTime s <= v ∧
               (v = now + any_waitTime s ∨ ∃ n t', OpUpdate n t' ∈ ops ∧ v = n + any_waitTime s))).
    - intros o s1 Ho (Hw1 & v & Hv & Hge & Hc). destruct (Hops o Ho) as [Ht Hto].
      destruct o as [n t'|c]; simpl in *.
      + unfold Any_UpdateTime. destruct (Z.eqb_spec (any_waitTime s1) 0); [by eauto|].
        split; [done|]. simpl. destruct (decide (getPidUrl t' = getPidUrl t)) as [->|Hne].
        * exists (i64 (n + any_waitTime s1)). rewrite lookup_insert_eq, Hw1, i64_small by lia.
          split_and!; [done|lia|]. right. eauto.
        * exists v. by rewrite lookup_insert_ne.
      + unfold Any_Check. destruct (Z.eqb_spec (any_waitTime s1) 0); [by eauto|].
        split; [done|]. exists v. simpl. split_and!; [|done..].
        apply map_lookup_filter_Some. split; [done|]. simpl. apply Z.ltb_ge. lia.
    - unfold Any_UpdateTime. destruct (Z.eqb_spec (any_waitTime s) 0); [lia|]. split; [done|].
      exists (now + any_waitTime s). simpl. rewrite lookup_insert_eq, i64_small by lia. eauto with lia. }
  split.
  - unfold Any_Sample. rewrite Hv. by destruct (any_waitTime s' =? 0).
  - intros c Hc Hnow. unfold Any_Check. rewrite Hw'.
    destruct (Z.eqb_spec (any_waitTime s) 0); [lia|].
    unfold Any_Sample. simpl. rewrite Hw'. destruct (Z.eqb_spec (any_waitTime s) 0); [lia|].
    rewrite (map_lookup_filter_None_2 _ _ (getPidUrl t)); [done|]. right. intros x Hx. simpl.
    rewrite Hv in Hx. injection Hx as <-. rewrite Z.ltb_ge.
    destruct Hcase as [->|(n2 & t' & Ho & ->)]; [lia|]. specialize (Hc n2 t' Ho). lia.
Qed.

Lemma Any_rests_witness :
  let t := ex_labels "t1" "/a" 5 false true in
  let s := Any_UpdateTime 100 t (newAnyNormalTraceSampler 60 false) in
  Any_Sample t (Any_Check 150 s) = false ∧ Any_Sample t (Any_Check 161 (Any_Check 150 s)) = true.
Proof.
  pose proof (Any_rests (ex_labels "t1" "/a" 5 false true) 100 [OpCheck 150]
                (newAnyNormalTraceSampler 60 false)) as H.
  destruct H as [H1 H2]; [unfold_width; simpl; lia..| |].
  { intros o ->%list_elem_of_singleton. unfold_width. simpl. lia. }
  split; [exact H1|]. apply H2; [|simpl; lia]. by intros n t' ?%list_elem_of_singleton.
Defined.

(** What [Single_Sample] does to the trace: at most the profile mark. *)
Lemma Single_Sample_marks now t c b t' c' :
  Single_Sample now t c = (b, t', c') →
  t' = (if b then set_profiled t else t) ∧
  (b = true → tl_IsSampled t = true ∧
     (ss_openNormalSampling c || ss_openSlowSampling c || ss_openErrorSampling c = true)).
Proof.
  unfold Single_Sample. destruct (negb (ss_openNormalSampling c) && _ && _) eqn:Eo.
  { by intros [= <- <- <-]. }
  case_match; [by intros [= <- <- <-]|].
  assert (ss_openNormalSampling c || ss_openSlowSampling c || ss_openErrorSampling c = true).
  { by destruct (ss_openNormalSampling c), (ss_openSlowSampling c), (ss_openErrorSampling c). }
  destruct (tl_IsSampled t) eqn:Es; repeat rewrite andb_true_r, andb_false_r.
  - intros E. split; [|done]. repeat case_match; simplify_eq/=; done.
  - rewrite !andb_false_r. case_match; intros E; repeat case_match; simplify_eq/=; done.
Qed.
