(* ===== verification/Cache.v ===== *)
(** * Cache: the write cache and the ring of readable batches

    Models [internal/cache/cache.go] of the back-sampling processor.  [None] is
    a run-time panic (an index outside the ring); the theorems show it does not
    happen.  Pointers to a [CacheData] are held by the map only, so the record
    is stored in the map. *)

From S2P Require Import Prelude GoStrings.

Section cache.
Context {T : Type}.

(** ** [WriteableCache] *)

Record WriteableCache := { wc_cache : gmap string (list T) }.

Definition NewWriteableCache : WriteableCache := {| wc_cache := ∅ |}.

Definition Write (key : string) (data : T) (c : WriteableCache) : WriteableCache :=
  let datas := match wc_cache c !! key with
               | Some datas => datas ++ [data]
               | None => [data]
               end in
  {| wc_cache := <[key := datas]> (wc_cache c) |}.

Definition GetAndReset (c : WriteableCache) : gmap string (list T) * WriteableCache :=
  (wc_cache c, {| wc_cache := ∅ |}).

(** ** [ReadableCache] *)

Record CacheData := { cd_datas : list T; cd_index : Z }.

Definition newCacheData (datas : list T) (index : Z) : CacheData :=
  {| cd_datas := datas; cd_index := index |}.

Definition CacheData_merge (datas : list T) (index : Z) (c : CacheData) : CacheData :=
  {| cd_datas := cd_datas c ++ datas; cd_index := index |}.

Definition Batch := list string.

Record ReadableCache := {
  rc_name : string;
  rc_cache : gmap string CacheData;
  rc_buckets : list Batch;
  rc_readIndex : Z;
  rc_writeIndex : Z;
  rc_size : Z;
  rc_activeCount : Z;      (* int64 *)
}.

Definition NewReadableCache (name : string) (size : Z) : option ReadableCache :=
  if size + 1 <? 0 then None
  else Some {| rc_name := name;
               rc_cache := ∅;
               rc_buckets := replicate (Z.to_nat (size + 1)) [];
               rc_readIndex := 0;
               rc_writeIndex := size;
               rc_size := size + 1;
               rc_activeCount := 0 |}.

Definition set_rc (m : gmap string CacheData) (active : Z) (c : ReadableCache) : ReadableCache :=
  {| rc_name := rc_name c; rc_cache := m; rc_buckets := rc_buckets c;
     rc_readIndex := rc_readIndex c; rc_writeIndex := rc_writeIndex c; rc_size := rc_size c;
     rc_activeCount := active |}.

(** The loop of [Copy] over the entries of [datas] (in the order [ks]): the
    cache, the active count and the batch it builds. *)
Definition copy_key (datas : gmap string (list T)) (writeIndex : Z) (key : string)
    (s : gmap string CacheData * Z * Batch) : gmap string CacheData * Z * Batch :=
  let '(m, active, batch) := s in
  match datas !! key with
  | None => s
  | Some value =>
      match m !! key with
      | Some cd => (<[key := CacheData_merge value writeIndex cd]> m, active, batch ++ [key])
      | None => (<[key := newCacheData value writeIndex]> m, i64 (active + 1), batch ++ [key])
      end
  end.

Definition Copy (ks : list string) (datas : gmap string (list T)) (c : ReadableCache)
    : option ReadableCache :=
  let '(m, active, batch) :=
    foldS (copy_key datas (rc_writeIndex c)) ks (rc_cache c, rc_activeCount c, []) in
  match slice_set (rc_buckets c) (rc_writeIndex c) batch with
  | None => None
  | Some buckets =>
      Some {| rc_name := rc_name c; rc_cache := m; rc_buckets := buckets;
              rc_readIndex := rc_readIndex c;
              rc_writeIndex := if rc_writeIndex c + 1 >=? rc_size c then 0
                               else rc_writeIndex c + 1;
              rc_size := rc_size c; rc_activeCount := active |}
  end.

(** [None] is Go's nil slice. *)
Definition PickMatchData (key : string) (c : ReadableCache) : option (list T) * ReadableCache :=
  match rc_cache c !! key with
  | Some cd => (Some (cd_datas cd), set_rc (delete key (rc_cache c)) (rc_activeCount c) c)
  | None => (None, c)
  end.

Definition pick_key (key : string) (c : ReadableCache) : list T * ReadableCache :=
  let '(o, c') := PickMatchData key c in (from_option id [] o, c').

Definition PickMatchDatas (keys : list string) (c : ReadableCache) : list T * ReadableCache :=
  foldOut pick_key keys c.

(** The loop of [CleanExpireDatas] over the bucket: the cache and how many
    entries were removed. *)
Definition clean_key (readIndex : Z) (key : string) (s : gmap string CacheData * Z)
    : gmap string CacheData * Z :=
  match s.1 !! key with
  | Some cd => if cd_index cd =? readIndex then (delete key s.1, s.2 + 1) else s
  | None => s
  end.

Definition CleanExpireDatas (logEnable : bool) (c : ReadableCache) : option ReadableCache :=
  match slice_get (rc_buckets c) (rc_readIndex c) with
  | None => None
  | Some bucket =>
      let '(m, cleanCount) := foldS (clean_key (rc_readIndex c)) bucket (rc_cache c, 0) in
      Some {| rc_name := rc_name c; rc_cache := m; rc_buckets := rc_buckets c;
              rc_readIndex := if rc_readIndex c + 1 >=? rc_size c then 0 else rc_readIndex c + 1;
              rc_writeIndex := rc_writeIndex c; rc_size := rc_size c;
              rc_activeCount := if logEnable && (cleanCount >? 0)
                                then i64 (rc_activeCount c - cleanCount)
                                else rc_activeCount c |}
  end.

(** ** One round of the owner: copy, pick, clean *)

Record round := {
  rd_order : list string;
  rd_datas : gmap string (list T);
  rd_picks : list string;
}.

Definition rc_round (log : bool) (r : round) (c : ReadableCache) : option (list T * ReadableCache) :=
  match Copy (rd_order r) (rd_datas r) c with
  | None => None
  | Some c1 =>
      let '(out, c2) := PickMatchDatas (rd_picks r) c1 in
      match CleanExpireDatas log c2 with
      | None => None
      | Some c3 => Some (out, c3)
      end
  end.

Fixpoint rc_rounds (log : bool) (rs : list round) (c : ReadableCache)
    : option (list (list T) * ReadableCache) :=
  match rs with
  | [] => Some ([], c)
  | r :: rs' =>
      match rc_round log r c with
      | None => None
      | Some (out, c1) =>
          match rc_rounds log rs' c1 with
          | None => None
          | Some (outs, c2) => Some (out :: outs, c2)
          end
      end
  end.

(** ** The specification: a cache that forgets by age

    Every key holds its data and the round it was last written in; what is not
    picked within [delay] rounds after that is forgotten. *)

Abbreviation aged := (gmap string (list T * Z)).

Definition aged_copy (t : Z) (datas : gmap string (list T)) (m : aged) : aged :=
  merge (λ old new, match new with
                    | None => old
                    | Some ds => Some (from_option fst [] old ++ ds, t)
                    end) m datas.

Definition aged_pick (key : string) (m : aged) : list T * aged :=
  (from_option fst [] (m !! key), delete key m).

Definition aged_round (delay t : Z) (r : round) (m : aged) : list T * aged :=
  let '(out, m') := foldOut aged_pick (rd_picks r) (aged_copy t (rd_datas r) m) in
  (out, filter (λ kv, t < kv.2.2 + delay) m').

Fixpoint aged_rounds (delay t : Z) (rs : list round) (m : aged) : list (list T) :=
  match rs with
  | [] => []
  | r :: rs' =>
      let '(out, m') := aged_round delay t r m in out :: aged_rounds delay (t + 1) rs' m'
  end.

(** *** The simulation *)

Definition slot (delay w : Z) : Z := (w + delay) mod (delay + 1).

Definition in_bucket (buckets : list Batch) (i : Z) (k : string) : Prop :=
  ∃ b, slice_get buckets i = Some b ∧ k ∈ b.

(** [pre] and [w < hi] bound the rounds of the entries. *)
Definition ring_data (delay lo hi : Z) (buckets : list Batch) (mc : gmap string CacheData)
    (m : aged) : Prop :=
  (∀ k, mc !! k = (λ x, newCacheData x.1 (slot delay x.2)) <$> m !! k) ∧
  (∀ k ds w, m !! k = Some (ds, w) → lo <= w + delay ∧ w < hi ∧
                                     in_bucket buckets (slot delay w) k).

Definition ring_inv (delay t : Z) (c : ReadableCache) (m : aged) : Prop :=
  rc_size c = delay + 1 ∧ len (rc_buckets c) = delay + 1 ∧
  rc_readIndex c = t mod (delay + 1) ∧ rc_writeIndex c = slot delay t ∧
  ring_data delay t t (rc_buckets c) (rc_cache c) m.

Lemma ring_next n i : 0 < n → (if i mod n + 1 >=? n then 0 else i mod n + 1) = (i + 1) mod n.
Proof.
  intros Hn. pose proof (Z.mod_pos_bound i n Hn) as Hb. pose proof (Z_div_mod_eq_full i n) as Hd.
  destruct (i mod n + 1 >=? n) eqn:E; bool_facts.
  - apply Z.mod_unique with (q := i / n + 1); nia.
  - apply Z.mod_unique with (q := i / n); nia.
Qed.

Lemma slot_inj delay w w' :
  0 <= delay → w < w' <= w + delay → slot delay w ≠ slot delay w'.
Proof.
  intros Hd Hw E. unfold slot in E.
  pose proof (Z_div_mod_eq_full (w + delay) (delay + 1)).
  pose proof (Z_div_mod_eq_full (w' + delay) (delay + 1)).
  destruct (Z.le_gt_cases ((w' + delay) / (delay + 1)) ((w + delay) / (delay + 1))); nia.
Qed.

Lemma slot_bound delay w : 0 <= delay → 0 <= slot delay w < delay + 1.
Proof. intros. apply Z.mod_pos_bound. lia. Qed.

Lemma copy_keys_lookup datas wi ks m active batch :
  NoDup ks →
  let '(m', _, batch') := foldS (copy_key datas wi) ks (m, active, batch) in
  (∀ k, m' !! k =
     if decide (k ∈ ks) then
       match datas !! k with
       | Some ds => Some (newCacheData (from_option cd_datas [] (m !! k) ++ ds) wi)
       | None => m !! k
       end
     else m !! k) ∧
  (∀ k, k ∈ batch' ↔ k ∈ batch ∨ k ∈ ks ∧ is_Some (datas !! k)).
Proof.
  intros Hnd. revert m active batch.
  induction Hnd as [|k1 ks Hk1 Hnd IH]; intros m active batch.
  { simpl. split; [done|]. intros k. rewrite elem_of_nil. tauto. }
  assert (∃ m1 a1 b1, copy_key datas wi k1 (m, active, batch) = (m1, a1, b1) ∧
    m1 !! k1 = (match datas !! k1 with
                | Some ds => Some (newCacheData (from_option cd_datas [] (m !! k1) ++ ds) wi)
                | None => m !! k1 end) ∧
    (∀ k, k ≠ k1 → m1 !! k = m !! k) ∧
    (∀ k, k ∈ b1 ↔ k ∈ batch ∨ k = k1 ∧ is_Some (datas !! k1)))
    as (m1 & a1 & b1 & E & Hm1 & Hm & Hb).
  { unfold copy_key. destruct (datas !! k1) as [ds|] eqn:Ed; [destruct (m !! k1) as [cd|] eqn:Em|].
    - do 3 eexists. split; [done|]. split_and!; [by rewrite lookup_insert_eq| |].
      + intros k Hne. by rewrite lookup_insert_ne.
      + intros k. rewrite elem_of_app, list_elem_of_singleton.
        split; [intros [?| ->]; eauto|intros [?|[-> _]]; auto].
    - do 3 eexists. split; [done|]. split_and!; [by rewrite lookup_insert_eq| |].
      + intros k Hne. by rewrite lookup_insert_ne.
      + intros k. rewrite elem_of_app, list_elem_of_singleton.
        split; [intros [?| ->]; eauto|intros [?|[-> _]]; auto].
    - do 3 eexists. split; [done|]. split_and!; [done..|]. intros k.
      split; [tauto|]. intros [?|[_ [x Hx]]]; [done|discriminate]. }
  cbn [foldS]. rewrite E. specialize (IH m1 a1 b1).
  destruct (foldS (copy_key datas wi) ks (m1, a1, b1)) as [[m' a'] batch']. destruct IH as [IHm IHb].
  split.
  - intros k. rewrite IHm. destruct (decide (k = k1)) as [->|Hne].
    + rewrite decide_False by done. rewrite decide_True by (by left). done.
    + rewrite (Hm k Hne). destruct (decide (k ∈ ks)).
      * rewrite decide_True by (by right). done.
      * rewrite decide_False by (rewrite elem_of_cons; tauto). done.
  - intros k. rewrite IHb, Hb, elem_of_cons.
    split; [intros [[?|[-> ?]]|[? ?]]; auto|intros [?|[[->|?] ?]]; auto].
Qed.

Lemma Copy_ring delay t ks datas c m :
  0 <= delay → range_order datas ks → ring_inv delay t c m →
  ∃ c', Copy ks datas c = Some c' ∧
    rc_size c' = delay + 1 ∧ len (rc_buckets c') = delay + 1 ∧
    rc_readIndex c' = t mod (delay + 1) ∧ rc_writeIndex c' = slot delay (t + 1) ∧
    ring_data delay t (t + 1) (rc_buckets c') (rc_cache c') (aged_copy t datas m).
Proof.
  intros Hd Ho (Hs & Hl & Hr & Hw & Hdata & Hb). unfold Copy.
  pose proof (copy_keys_lookup datas (rc_writeIndex c) ks (rc_cache c) (rc_activeCount c) []
                (range_order_NoDup _ _ Ho)) as Hc.
  destruct (foldS _ ks _) as [[m' a'] batch]. destruct Hc as [Hm Hbatch].
  pose proof (slot_bound delay t Hd) as Hsb.
  rewrite slice_set_Some by lia. eexists. split; [done|]. simpl. split_and!; [done| |done| |].
  - unfold len. by rewrite length_insert.
  - rewrite Hs, Hw. unfold slot. rewrite ring_next by lia. f_equal. lia.
  - assert (∀ k, k ∈ ks ↔ is_Some (datas !! k)) as Hks by (intros; by apply range_order_elem).
    split.
    + intros k. rewrite Hm. unfold aged_copy. rewrite lookup_merge. specialize (Hdata k).
      specialize (Hks k). destruct (datas !! k) as [ds|] eqn:Ed.
      * rewrite decide_True by (apply Hks; by eexists). rewrite Hdata, Hw.
        by destruct (m !! k) as [[ds' w]|].
      * rewrite decide_False by (rewrite Hks; by intros [? ?]). rewrite Hdata.
        by destruct (m !! k) as [[ds' w]|].
    + intros k ds w. unfold aged_copy. rewrite lookup_merge. intros Hk.
      assert (slice_get (<[Z.to_nat (rc_writeIndex c):=batch]> (rc_buckets c)) (slot delay t) =
              Some batch) as Hnew.
      { unfold slice_get. rewrite Hw. destruct (Z.leb_spec 0 (slot delay t)); [|lia].
        apply list_lookup_insert_eq. unfold len in Hl. lia. }
      destruct (datas !! k) as [ds'|] eqn:Ed.
      * assert (ds = from_option fst [] (m !! k) ++ ds' ∧ w = t) as [-> ->]
          by (destruct (m !! k) as [[? ?]|]; simpl in Hk; by simplify_eq).
        split; [lia|]. split; [lia|]. exists batch. split; [done|].
        rewrite Hbatch, Hks, Ed. right. split; by eexists.
      * assert (m !! k = Some (ds, w)) as Hmk
          by (destruct (m !! k) as [[? ?]|]; simpl in Hk; by simplify_eq).
        destruct (Hb _ _ _ Hmk) as (H1 & H2 & b & Hget & Hkb). split; [lia|]. split; [lia|].
        exists b. split; [|done]. unfold slice_get in *. rewrite Hw.
        pose proof (slot_bound delay w Hd).
        destruct (Z.leb_spec 0 (slot delay w)); [|lia].
        rewrite list_lookup_insert_ne; [done|]. intros E.
        apply (slot_inj delay w t); lia.
Qed.

Lemma pick_ring delay lo hi keys c m :
  ring_data delay lo hi (rc_buckets c) (rc_cache c) m →
  let '(out, c') := PickMatchDatas keys c in
  let '(out', m') := foldOut aged_pick keys m in
  out = out' ∧ rc_size c' = rc_size c ∧ rc_buckets c' = rc_buckets c ∧
  rc_readIndex c' = rc_readIndex c ∧ rc_writeIndex c' = rc_writeIndex c ∧
  ring_data delay lo hi (rc_buckets c') (rc_cache c') m'.
Proof.
  unfold PickMatchDatas. revert c m. induction keys as [|k keys IH]; intros c m [Hc Hb].
  { simpl. split_and!; done. }
  cbn [foldOut].
  assert (ring_data delay lo hi (rc_buckets c) (delete k (rc_cache c)) (delete k m)) as Hdel.
  { split.
    - intros k'. destruct (decide (k' = k)) as [->|Hne].
      + by rewrite !lookup_delete_eq.
      + by rewrite !lookup_delete_ne.
    - intros k' ds w. destruct (decide (k' = k)) as [->|Hne].
      + by rewrite lookup_delete_eq.
      + rewrite lookup_delete_ne by done. apply Hb. }
  pose proof (Hc k) as Hk. destruct (m !! k) as [[ds w]|] eqn:Em; simpl in Hk.
  - assert (pick_key k c = (ds, set_rc (delete k (rc_cache c)) (rc_activeCount c) c)) as ->
      by (unfold pick_key, PickMatchData; by rewrite Hk).
    assert (aged_pick k m = (ds, delete k m)) as -> by (unfold aged_pick; by rewrite Em).
    specialize (IH (set_rc (delete k (rc_cache c)) (rc_activeCount c) c) (delete k m) Hdel).
    destruct (foldOut pick_key keys _) as [o c'], (foldOut aged_pick keys _) as [o' m'].
    simpl in IH. by destruct IH as (-> & ? & ? & ? & ? & ?).
  - assert (pick_key k c = ([], c)) as -> by (unfold pick_key, PickMatchData; by rewrite Hk).
    assert (aged_pick k m = ([], m)) as ->
      by (unfold aged_pick; by rewrite Em, delete_id).
    specialize (IH c m (conj Hc Hb)).
    destruct (foldOut pick_key keys _) as [o c'], (foldOut aged_pick keys _) as [o' m'].
    by destruct IH as (-> & ? & ? & ? & ? & ?).
Qed.

Lemma clean_keys_lookup ri bucket mc n k :
  (foldS (clean_key ri) bucket (mc, n)).1 !! k =
    if decide (k ∈ bucket)
    then mc !! k ≫= λ cd, if cd_index cd =? ri then None else Some cd
    else mc !! k.
Proof.
  revert mc n. induction bucket as [|k1 bucket IH]; intros mc n; [done|]. cbn [foldS].
  assert (∃ m1 n1, clean_key ri k1 (mc, n) = (m1, n1) ∧
    m1 !! k1 = (mc !! k1 ≫= λ cd, if cd_index cd =? ri then None else Some cd) ∧
    ∀ k, k ≠ k1 → m1 !! k = mc !! k) as (m1 & n1 & -> & H1 & Hne).
  { unfold clean_key. simpl. destruct (mc !! k1) as [cd|] eqn:E; simpl.
    - destruct (cd_index cd =? ri).
      + do 2 eexists. split; [done|]. split; [by rewrite lookup_delete_eq|].
        intros. by rewrite lookup_delete_ne.
      + do 2 eexists. done.
    - do 2 eexists. done. }
  rewrite IH. destruct (decide (k = k1)) as [->|Hk].
  - rewrite (decide_True (P := k1 ∈ k1 :: bucket)) by by left. rewrite H1.
    case_decide; [|done]. destruct (mc !! k1) as [cd|]; simpl; [|done].
    destruct (cd_index cd =? ri) eqn:Ei; simpl; [done|]. by rewrite Ei.
  - rewrite (Hne k Hk). destruct (decide (k ∈ bucket)).
    + rewrite decide_True by by right. done.
    + rewrite decide_False by (rewrite elem_of_cons; tauto). done.
Qed.

Lemma Clean_ring log delay t c m :
  0 <= delay →
  rc_size c = delay + 1 → len (rc_buckets c) = delay + 1 →
  rc_readIndex c = t mod (delay + 1) → rc_writeIndex c = slot delay (t + 1) →
  ring_data delay t (t + 1) (rc_buckets c) (rc_cache c) m →
  ∃ c', CleanExpireDatas log c = Some c' ∧
        ring_inv delay (t + 1) c' (filter (λ kv, t < kv.2.2 + delay) m).
Proof.
  intros Hd Hs Hl Hr Hw [Hc Hb]. unfold CleanExpireDatas.
  assert (0 <= t mod (delay + 1) < delay + 1) by (apply Z.mod_pos_bound; lia).
  destruct (slice_get_Some (rc_buckets c) (rc_readIndex c)) as [bucket Hbk]; [lia|]. rewrite Hbk.
  pose proof (clean_keys_lookup (rc_readIndex c) bucket (rc_cache c) 0) as Hclean.
  destruct (foldS _ bucket _) as [mc n]. simpl in Hclean.
  eexists. split; [done|]. unfold ring_inv. simpl. split_and!; try done.
  { rewrite Hs, Hr. apply ring_next. lia. }
  assert (rc_readIndex c = slot delay (t - delay)) as Hslot
    by (rewrite Hr; unfold slot; f_equal; lia).
  split.
  - intros k. rewrite Hclean, Hc, map_lookup_filter.
    destruct (m !! k) as [[ds w]|] eqn:Em; simpl; [|by case_decide].
    destruct (Hb _ _ _ Em) as (H1 & H2 & b & Hget & Hkb).
    destruct (decide (t < w + delay)) as [Hlt|Hge].
    + rewrite option_guard_True by done. simpl. case_decide; [|done].
      destruct (Z.eqb_spec (slot delay w) (rc_readIndex c)) as [E|]; [|done].
      rewrite Hslot in E. symmetry in E. by apply slot_inj in E; [|lia..].
    + rewrite option_guard_False by done. assert (w = t - delay) as -> by lia.
      rewrite <- Hslot, Hbk in Hget. simplify_eq. rewrite decide_True by done.
      rewrite <- Hslot, Z.eqb_refl. done.
  - intros k ds w [Hk Hlt]%map_lookup_filter_Some. simpl in Hlt.
    destruct (Hb _ _ _ Hk) as (H1 & H2 & Hin). split_and!; [lia..|done].
Qed.

Lemma rc_round_ring log delay t r c m :
  0 <= delay → range_order (rd_datas r) (rd_order r) → ring_inv delay t c m →
  ∃ c', rc_round log r c = Some ((aged_round delay t r m).1, c') ∧
        ring_inv delay (t + 1) c' (aged_round delay t r m).2.
Proof.
  intros Hd Ho Hinv. unfold rc_round, aged_round.
  destruct (Copy_ring delay t _ _ _ _ Hd Ho Hinv) as (c1 & -> & Hs & Hl & Hr & Hw & Hdata).
  pose proof (pick_ring delay t (t + 1) (rd_picks r) c1 _ Hdata) as Hp.
  destruct (PickMatchDatas (rd_picks r) c1) as [out c2].
  destruct (foldOut aged_pick (rd_picks r) _) as [out' m']. destruct Hp as (-> & E1 & E2 & E3 & E4 & Hd2).
  destruct (Clean_ring log delay t c2 m') as (c3 & -> & Hinv'); [done| |rewrite E2| | |done|]; try congruence.
  exists c3. done.
Qed.

Lemma rc_rounds_ring log delay t rs c m :
  0 <= delay → Forall (λ r, range_order (rd_datas r) (rd_order r)) rs → ring_inv delay t c m →
  ∃ c', rc_rounds log rs c = Some (aged_rounds delay t rs m, c').
Proof.
  intros Hd Hall. revert t c m. induction Hall as [|r rs Ho Hall IH]; intros t c m Hinv; simpl; [eauto|].
  destruct (rc_round_ring log delay t r c m Hd Ho Hinv) as (c1 & -> & Hinv1).
  destruct (aged_round delay t r m) as [out m1]. simpl in *.
  destruct (IH _ _ _ Hinv1) as (c2 & ->). eauto.
Qed.

Lemma NewReadableCache_ring name delay c :
  0 <= delay → NewReadableCache name delay = Some c → ring_inv delay 0 c ∅.
Proof.
  intros Hd. unfold NewReadableCache. destruct (Z.ltb_spec (delay + 1) 0); [lia|].
  intros [= <-]. split_and!; simpl; try done.
  - unfold len. rewrite length_replicate. lia.
  - unfold slot. rewrite Z.mod_small; lia.
Qed.
End cache.

Arguments WriteableCache : clear implicits.
Arguments ReadableCache : clear implicits.
Arguments round : clear implicits.

(** C5: The ring of [delay + 1] buckets is an age-based cache: over any rounds of
    copy, pick and clean, whatever the order the written maps are ranged over,
    no index leaves the ring and each round picks what the specification picks -
    everything written under the key since it was last picked or forgotten,
    where a key is forgotten [delay] rounds after its last write. *)
Theorem ReadableCache_refines_aged {T} log name delay (rs : list (round T)) :
  0 <= delay → Forall (λ r, range_order (rd_datas r) (rd_order r)) rs →
  ∃ c c', NewReadableCache name delay = Some c ∧
          rc_rounds log rs c = Some (aged_rounds delay 0 rs ∅, c').
Proof.
  intros Hd Hall. unfold NewReadableCache. destruct (Z.ltb_spec (delay + 1) 0); [lia|].
  eexists. edestruct (rc_rounds_ring log delay 0 rs) as [c' Hc']; [done..| |by eauto].
  apply (NewReadableCache_ring name); [done|]. unfold NewReadableCache.
  destruct (Z.ltb_spec (delay + 1) 0); [lia|done].
Qed.

Lemma ReadableCache_refines_aged_witness :
  let w k := {| rd_order := [k]; rd_datas := {[k := [1%nat]]}; rd_picks := [] |} in
  let p k := {| rd_order := []; rd_datas := ∅; rd_picks := [k] |} in
  ∃ c c', NewReadableCache "t" 1 = Some c ∧
    rc_rounds false [w "a"; p "a"; w "b"; p "z"; p "b"] c =
      Some (aged_rounds 1 0 [w "a"; p "a"; w "b"; p "z"; p "b"] ∅, c') ∧
    aged_rounds 1 0 [w "a"; p "a"; w "b"; p "z"; p "b"] ∅ = [[]; [1%nat]; []; []; []].
Proof.
  intros w p.
  destruct (ReadableCache_refines_aged false "t" 1 [w "a"; p "a"; w "b"; p "z"; p "b"]) as (c & c' & H1 & H2).
  - lia.
  - repeat constructor; unfold range_order; simpl; try done.
  - exists c, c'. split; [exact H1|]. split; [exact H2|]. vm_compute. reflexivity.
Defined.
