(* ===== verification/TraceCache.v ===== *)
(** * TraceCache: the spans kept until their trace is known to be sampled

    Models [internal/cache/trace_cache.go] of the back-sampling processor on
    top of [Cache].  [sampledIds] maps a trace id to the [atomic.Int32] that
    counts the picks it has lived through. *)

From S2P Require Import Prelude GoStrings PData Cache.

Section tracecache.
Context `{PData}.

Record OtelTrace := {
  ot_Resource : AMap;
  ot_Spans : list Span;
}.

Definition NewOtelTrace (resource : AMap) (spans : list Span) : OtelTrace :=
  {| ot_Resource := resource; ot_Spans := spans |}.

Definition BuildTraces (resource : AMap) (spans : list Span) : Traces :=
  [{| ResourceSpans_Resource := resource;
      ResourceSpans_ScopeSpans := [{| ScopeSpans_Spans := spans |}] |}].

Definition ConvertToTraces (trace : OtelTrace) : Traces :=
  BuildTraces (ot_Resource trace) (ot_Spans trace).

Record OtelTraceSampler := {
  ots_sampledIds : gmap string Z;
  ots_traceWriteCache : WriteableCache OtelTrace;
  ots_traceReadCache : ReadableCache OtelTrace;
  ots_traceIdExpireTime : Z;      (* int32 *)
}.

(** [traceIdExpireTime.Seconds()] is the argument [expireSeconds]. *)
Definition NewOtelTraceSampler (expireSeconds delayTime : Z) : option OtelTraceSampler :=
  match NewReadableCache "OtelTrace" delayTime with
  | None => None
  | Some rc =>
      Some {| ots_sampledIds := ∅;
              ots_traceWriteCache := NewWriteableCache;
              ots_traceReadCache := rc;
              ots_traceIdExpireTime := i32 expireSeconds |}
  end.

Definition SetSampledTraceId (traceId : string) (s : OtelTraceSampler) : OtelTraceSampler :=
  {| ots_sampledIds := <[traceId := 0]> (ots_sampledIds s);
     ots_traceWriteCache := ots_traceWriteCache s;
     ots_traceReadCache := ots_traceReadCache s;
     ots_traceIdExpireTime := ots_traceIdExpireTime s |}.

Definition CacheOtelTrace (id : TraceID) (trace : OtelTrace) (s : OtelTraceSampler)
    : OtelTraceSampler :=
  {| ots_sampledIds := ots_sampledIds s;
     ots_traceWriteCache := Write (TraceID_String id) trace (ots_traceWriteCache s);
     ots_traceReadCache := ots_traceReadCache s;
     ots_traceIdExpireTime := ots_traceIdExpireTime s |}.

(** The body of the [Range] over the sampled ids. *)
Definition pick_sampled (expire : Z) (k : string) (s : gmap string Z * ReadableCache OtelTrace)
    : list OtelTrace * (gmap string Z * ReadableCache OtelTrace) :=
  match s.1 !! k with
  | None => ([], s)
  | Some holdTime =>
      let '(sampledTraces, rc) := PickMatchData k s.2 in
      let holdTime := i32 (holdTime + 1) in
      (from_option id [] sampledTraces,
       (if holdTime >=? expire then delete k s.1 else <[k := holdTime]> s.1, rc))
  end.

(** [ws] is the order the written traces are copied in, [ids] the order the
    sampled ids are ranged over. *)
Definition PickSampledTraces (logEnable : bool) (ws ids : list string) (s : OtelTraceSampler)
    : option (list OtelTrace * OtelTraceSampler) :=
  let '(toWriteTraces, wc) := GetAndReset (ots_traceWriteCache s) in
  match Copy ws toWriteTraces (ots_traceReadCache s) with
  | None => None
  | Some rc1 =>
      let '(traces, (ids', rc2)) :=
        foldOut (pick_sampled (ots_traceIdExpireTime s)) ids (ots_sampledIds s, rc1) in
      match CleanExpireDatas logEnable rc2 with
      | None => None
      | Some rc3 =>
          Some (traces, {| ots_sampledIds := ids'; ots_traceWriteCache := wc;
                           ots_traceReadCache := rc3;
                           ots_traceIdExpireTime := ots_traceIdExpireTime s |})
      end
  end.

(** ** Reachable samplers *)

Inductive ots_step : OtelTraceSampler → OtelTraceSampler → Prop :=
  | ots_step_set k s : ots_step s (SetSampledTraceId k s)
  | ots_step_cache id tr s : ots_step s (CacheOtelTrace id tr s)
  | ots_step_pick log ws ids s out s' :
      range_order (wc_cache (ots_traceWriteCache s)) ws →
      range_order (ots_sampledIds s) ids →
      PickSampledTraces log ws ids s = Some (out, s') → ots_step s s'.

Definition ots_reachable (s : OtelTraceSampler) : Prop :=
  ∃ expire delay s0, 0 <= delay ∧ NewOtelTraceSampler expire delay = Some s0 ∧
                     rtc ots_step s0 s.

(** What the sampler holds of a trace. *)
Definition held (s : OtelTraceSampler) (k : string) : list OtelTrace :=
  from_option cd_datas [] (rc_cache (ots_traceReadCache s) !! k) ++
  from_option id [] (wc_cache (ots_traceWriteCache s) !! k).

Definition ots_inv (s : OtelTraceSampler) : Prop :=
  ∃ delay t m, 0 <= delay ∧ ring_inv delay t (ots_traceReadCache s) m.

(** The loop over the ids is one pass of picks and one pass over the ids. *)
Lemma pick_sampled_split expire ids m rc :
  NoDup ids → (∀ k, k ∈ ids → is_Some (m !! k)) →
  foldOut (pick_sampled expire) ids (m, rc) =
    ((PickMatchDatas ids rc).1,
     ((range_map (λ _ h, ([] : list unit, if i32 (h + 1) >=? expire then None
                                          else Some (i32 (h + 1)))) ids m).2,
      (PickMatchDatas ids rc).2)).
Proof.
  intros Hnd. revert m rc. induction Hnd as [|k ids Hk Hnd IH]; intros m rc Hin; [done|].
  unfold PickMatchDatas, range_map in *. cbn [foldOut].
  destruct (Hin k) as [h Hh]; [by left|].
  assert (∃ o rc', pick_key k rc = (o, rc') ∧
     pick_sampled expire k (m, rc) =
       (o, (if i32 (h + 1) >=? expire then delete k m else <[k := i32 (h + 1)]> m, rc')))
    as (o & rc' & -> & ->).
  { unfold pick_sampled, pick_key. simpl. rewrite Hh. destruct (PickMatchData k rc). eauto. }
  assert (∀ f : string → Z → list unit * option Z, range_step f k m =
     ((f k h).1, match (f k h).2 with Some v => <[k := v]> m | None => delete k m end)) as Hr.
  { intros f. unfold range_step. rewrite Hh. by destruct (f k h) as [? []]. }
  rewrite Hr. simpl.
  rewrite IH.
  - destruct (foldOut pick_key ids rc') as [os rc2]. simpl.
    destruct (i32 (h + 1) >=? expire); by destruct (foldOut _ ids _) as [us m2].
  - intros k' Hk'. destruct (decide (k' = k)) as [->|Hne]; [done|].
    destruct (Hin k') as [h' Hh']; [by right|].
    destruct (i32 (h + 1) >=? expire); simplify_map_eq; by eexists.
Qed.

Lemma PickMatchDatas_out {T} ids (rc : ReadableCache T) :
  NoDup ids →
  (PickMatchDatas ids rc).1 = mjoin ((λ k, from_option cd_datas [] (rc_cache rc !! k)) <$> ids) ∧
  (∀ k, rc_cache (PickMatchDatas ids rc).2 !! k = if decide (k ∈ ids) then None else rc_cache rc !! k).
Proof.
  intros Hnd. unfold PickMatchDatas. revert rc. induction Hnd as [|k ids Hk Hnd IH]; intros rc; [done|].
  cbn [foldOut]. rewrite mjoin_fmap_cons.
  assert (∃ rc', pick_key k rc = (from_option cd_datas [] (rc_cache rc !! k), rc') ∧
                 rc_cache rc' = delete k (rc_cache rc)) as (rc' & -> & Hrc).
  { unfold pick_key, PickMatchData. destruct (rc_cache rc !! k) as [cd|] eqn:E.
    - eexists. done.
    - exists rc. by rewrite delete_id. }
  specialize (IH rc'). destruct (foldOut pick_key ids rc') as [os rc2]. simpl in *.
  destruct IH as [-> IHk]. split.
  - f_equal. f_equal. apply list_fmap_ext. intros i k' Hk'. rewrite Hrc, lookup_delete_ne; [done|].
    intros ->. apply Hk. by eapply list_elem_of_lookup_2.
  - intros k'. rewrite IHk, Hrc. destruct (decide (k' ∈ ids)).
    + rewrite decide_True by by right. done.
    + destruct (decide (k' = k)) as [->|Hne].
      * rewrite decide_True by by left. by rewrite lookup_delete_eq.
      * rewrite decide_False by (rewrite elem_of_cons; tauto). by rewrite lookup_delete_ne.
Qed.

Lemma PickSampledTraces_ok log ws ids s :
  ots_inv s →
  range_order (wc_cache (ots_traceWriteCache s)) ws →
  range_order (ots_sampledIds s) ids →
  ∃ out s', PickSampledTraces log ws ids s = Some (out, s') ∧ ots_inv s' ∧
    out = mjoin (held s <$> ids) ∧
    (∀ k, is_Some (ots_sampledIds s !! k) → held s' k = []) ∧
    (∀ k, ots_sampledIds s' !! k =
       ots_sampledIds s !! k ≫= λ h, if i32 (h + 1) >=? ots_traceIdExpireTime s then None
                                     else Some (i32 (h + 1))).
Proof.
  intros (delay & t & m & Hd & Hinv) Hws Hids. unfold PickSampledTraces. simpl.
  pose proof (range_order_NoDup _ _ Hids) as Hnd.
  assert (∀ k, k ∈ ids ↔ is_Some (ots_sampledIds s !! k)) as Hin by (intros; by apply range_order_elem).
  destruct (Copy_ring delay t ws _ _ _ Hd Hws Hinv) as (c1 & Ec & Hs & Hl & Hr & Hw & Hdata).
  rewrite Ec, pick_sampled_split by (done || intros; by apply Hin).
  assert (∀ k, from_option cd_datas [] (rc_cache c1 !! k) = held s k) as Hheld.
  { intros k. destruct Hdata as [Hc _]. destruct Hinv as (_ & _ & _ & _ & Hc0 & _).
    unfold held. rewrite Hc, Hc0. unfold aged_copy. rewrite lookup_merge.
    destruct (m !! k) as [[ds w]|], (wc_cache (ots_traceWriteCache s) !! k); simpl;
      by rewrite ?app_nil_r. }
  pose proof (pick_ring delay t (t + 1) ids c1 _ Hdata) as Hp.
  destruct (PickMatchDatas_out ids c1 Hnd) as [Hout Hgone].
  destruct (PickMatchDatas ids c1) as [out c2].
  destruct (foldOut aged_pick ids _) as [out' m']. destruct Hp as (-> & E1 & E2 & E3 & E4 & Hd2).
  simpl in *.
  destruct (Clean_ring log delay t c2 m') as (c3 & Ecl & Hinv'); [done|congruence..|by rewrite E2 in *|].
  rewrite Ecl. do 2 eexists. split; [done|]. split_and!.
  - exists delay, (t + 1), (filter (λ kv, t < kv.2.2 + delay) m'). done.
  - rewrite Hout. f_equal. apply list_fmap_ext. intros. apply Hheld.
  - intros k Hk%Hin. unfold held. simpl. rewrite lookup_empty. simpl.
    destruct Hinv' as (_ & _ & _ & _ & Hc3 & _). rewrite Hc3, map_lookup_filter.
    specialize (Hgone k). rewrite decide_True in Hgone by done.
    destruct Hd2 as [Hc2 _]. rewrite Hc2 in Hgone. by destruct (m' !! k).
  - intros k. simpl. by apply range_map_order.
Qed.

Lemma ots_inv_step s s' : ots_inv s → ots_step s s' → ots_inv s'.
Proof.
  intros Hinv Hstep. destruct Hstep as [k s|id tr s|log ws ids s out s' Hws Hids E]; [done..|].
  destruct (PickSampledTraces_ok log ws ids s Hinv Hws Hids) as (o & s1 & E1 & Hinv1 & _).
  congruence.
Qed.

Lemma ots_inv_reachable s : ots_reachable s → ots_inv s.
Proof.
  intros (expire & delay & s0 & Hd & Hnew & Hr).
  apply (rtc_invariant _ ots_inv) in Hr; [done|apply ots_inv_step|].
  unfold NewOtelTraceSampler in Hnew. destruct (NewReadableCache "OtelTrace" delay) as [rc|] eqn:E;
    [|done]. injection Hnew as <-. exists delay, 0, ∅. split; [done|].
  by eapply NewReadableCache_ring.
Qed.
End tracecache.

(** C6: A pick never panics, forwards everything held - written since the last
    pick or waiting in the ring - of every sampled trace id and of no other, and
    keeps nothing of those traces, so that no span group is forwarded twice; a
    sampled id lives for [traceIdExpireTime] picks after it was last set. *)
Theorem PickSampledTraces_forwards `{PData} log ws ids s :
  ots_reachable s →
  range_order (wc_cache (ots_traceWriteCache s)) ws →
  range_order (ots_sampledIds s) ids →
  ∃ out s', PickSampledTraces log ws ids s = Some (out, s') ∧
    out = mjoin (held s <$> ids) ∧
    (∀ k, is_Some (ots_sampledIds s !! k) → held s' k = []) ∧
    (∀ k, ots_sampledIds s' !! k =
       ots_sampledIds s !! k ≫= λ h, if i32 (h + 1) >=? ots_traceIdExpireTime s then None
                                     else Some (i32 (h + 1))).
Proof.
  intros Hr Hws Hids.
  destruct (PickSampledTraces_ok log ws ids s (ots_inv_reachable s Hr) Hws Hids)
    as (out & s' & E & _ & Ho & Hh & Hi). by exists out, s'.
Qed.

Definition ex_id : string := String "001" (of_byte_list (replicate 15 "000"%char)).

Lemma PickSampledTraces_forwards_witness :
  let PD := RefPData.pdata in
  let tr := NewOtelTrace (∅ : gmap string RefPData.value) [] in
  ∃ s0, NewOtelTraceSampler 5 2 = Some s0 ∧
    let k := TraceID_String ex_id in
    let s := SetSampledTraceId k (CacheOtelTrace ex_id tr s0) in
    ∃ s', PickSampledTraces false [k] [k] s = Some ([tr], s') ∧ held s' k = [].
Proof.
  intros PD tr. eexists. split; [reflexivity|]. intros k s.
  destruct (PickSampledTraces_forwards false [k] [k] s) as (out & s' & E & Ho & Hh & _).
  - exists 5, 2. eexists. split; [lia|]. split; [reflexivity|].
    eapply rtc_l; [apply ots_step_cache|]. apply rtc_once. apply ots_step_set.
  - exact (range_order_canon _).
  - exact (range_order_canon _).
  - exists s'. rewrite E, Ho. split; [reflexivity|].
    apply Hh. exists 0. reflexivity.
Defined.
