(* ===== verification/Tailbase.v ===== *)
(** * Tailbase: the ids of sampled traces and their delivery to the receiver

    Models [sampler/tailbase_sampler.go] and [sampler/sampler.go] of the
    back-sampling processor.  [None] is a run-time panic: a slice index or
    bound out of range. *)

From S2P Require Import Prelude GoStrings Float64 Labels Cache.

(** ** [RetryList] *)

Record RetryList := {
  rl_counts : list Z;
  rl_fromIndex : Z;
  rl_lastNum : Z;
  rl_size : Z;
}.

Definition newRetryList (retryNum : Z) : option RetryList :=
  if retryNum >? 0 then
    Some {| rl_counts := replicate (Z.to_nat retryNum) 0; rl_fromIndex := 0; rl_lastNum := 0;
            rl_size := 0 |}
  else None.

Definition getToRemoveSize (num : Z) (r : RetryList) : option (Z * RetryList) :=
  if rl_size r <? len (rl_counts r) then
    let index := rl_fromIndex r + rl_size r in
    let index := if index >=? len (rl_counts r) then index - len (rl_counts r) else index in
    match slice_set (rl_counts r) index (num - rl_lastNum r) with
    | None => None
    | Some counts =>
        Some (0, {| rl_counts := counts; rl_fromIndex := rl_fromIndex r; rl_lastNum := num;
                    rl_size := rl_size r + 1 |})
    end
  else
    match slice_get (rl_counts r) (rl_fromIndex r),
          slice_set (rl_counts r) (rl_fromIndex r) (num - rl_lastNum r) with
    | Some toRemoveSize, Some counts =>
        let counts := drop 1 counts ++ [num - rl_lastNum r] in
        Some (toRemoveSize,
              {| rl_counts := counts;
                 rl_fromIndex := if rl_fromIndex r =? len counts - 1 then 0 else rl_fromIndex r + 1;
                 rl_lastNum := num - toRemoveSize;
                 rl_size := rl_size r |})
    | _, _ => None
    end.

Definition Retry_reset (r : RetryList) : RetryList :=
  {| rl_counts := rl_counts r; rl_fromIndex := rl_fromIndex r; rl_lastNum := 0; rl_size := 0 |}.

(** ** [unSendIds] *)

Record unSendIds := {
  us_toSendIds : list string;
  us_retry : option RetryList;      (* [None]: the nil pointer *)
}.

Definition newUnSendIds (retryNum : Z) : unSendIds :=
  {| us_toSendIds := []; us_retry := newRetryList retryNum |}.

Definition cacheIds (id : string) (u : unSendIds) : unSendIds :=
  {| us_toSendIds := us_toSendIds u ++ [id]; us_retry := us_retry u |}.

Definition markUnSent (num : Z) (u : unSendIds) : option unSendIds :=
  if num <=? 0 then Some u
  else
    match (match us_retry u with
           | None => Some (num, None)
           | Some r => match getToRemoveSize num r with
                       | None => None
                       | Some (n, r') => Some (n, Some r')
                       end
           end) with
    | None => None
    | Some (toRemoveSize, retry) =>
        if toRemoveSize >? 0 then
          match slice_from (us_toSendIds u) toRemoveSize with
          | None => None
          | Some ids => Some {| us_toSendIds := ids; us_retry := retry |}
          end
        else Some {| us_toSendIds := us_toSendIds u; us_retry := retry |}
    end.

Definition markSent (num : Z) (u : unSendIds) : option unSendIds :=
  match slice_from (us_toSendIds u) num with
  | None => None
  | Some ids => Some {| us_toSendIds := ids; us_retry := Retry_reset <$> us_retry u |}
  end.

Definition GetToSendIds (u : unSendIds) : list string := us_toSendIds u.

(** ** [TailbaseSampler] *)

Record TailbaseSampler := {
  ts_name : string;
  ts_unSendIds : unSendIds;
  ts_sampledTraceIds : gmap string Z;      (* [traceIdHoldTime.count] *)
  ts_traceHoldTime : Z;
  ts_logEnable : bool;
}.

Definition newTailbaseSampler (name : string) (traceHoldTime retryNum : Z) (logEnable : bool)
    : TailbaseSampler :=
  {| ts_name := name; ts_unSendIds := newUnSendIds retryNum; ts_sampledTraceIds := ∅;
     ts_traceHoldTime := traceHoldTime; ts_logEnable := logEnable |}.

Definition set_tailbase (u : unSendIds) (m : gmap string Z) (s : TailbaseSampler) : TailbaseSampler :=
  {| ts_name := ts_name s; ts_unSendIds := u; ts_sampledTraceIds := m;
     ts_traceHoldTime := ts_traceHoldTime s; ts_logEnable := ts_logEnable s |}.

Definition isTailBaseSampled (trace : TraceLabels) (s : TailbaseSampler) : bool :=
  match ts_sampledTraceIds s !! tl_TraceId trace with Some _ => true | None => false end.

Definition notifyTailbase (trace : TraceLabels) (s : TailbaseSampler)
    : TraceLabels * TailbaseSampler :=
  (set_profiled trace,
   match ts_sampledTraceIds s !! tl_TraceId trace with
   | Some _ => s
   | None => set_tailbase (cacheIds (tl_TraceId trace) (ts_unSendIds s))
               (<[tl_TraceId trace := 0]> (ts_sampledTraceIds s)) s
   end).

Definition isExpired (holdTime count : Z) : bool := count >=? holdTime.

Definition checkSampled (count : Z) : bool * Z := (count + 1 <=? 2, count + 1).

(** The body of the [Range] of [cleanSampledIds]. *)
Definition clean_sampled (holdTime : Z) (k : string) (count : Z) : list string * option Z :=
  if isExpired holdTime count then ([], None)
  else let '(b, count') := checkSampled count in (if b then [k] else [], Some count').

Definition cleanSampledIds (ks : list string) (s : TailbaseSampler)
    : list string * TailbaseSampler :=
  let '(result, m) := range_map (clean_sampled (ts_traceHoldTime s)) ks (ts_sampledTraceIds s) in
  (result, set_tailbase (ts_unSendIds s) m s).

Definition updateSampledTraceIds (traceIds : list string) (count : Z) (s : TailbaseSampler)
    : option TailbaseSampler :=
  let store u := set_tailbase u
                   (foldS (λ id, <[id := 0]>) traceIds (ts_sampledTraceIds s)) s in
  if count >? 0 then store <$> markSent count (ts_unSendIds s) else Some (store (ts_unSendIds s)).

Definition updateUnSentCount (count : Z) (s : TailbaseSampler) : option TailbaseSampler :=
  if count >? 0 then
    (λ u, set_tailbase u (ts_sampledTraceIds s) s) <$> markUnSent count (ts_unSendIds s)
  else Some s.

(** ** [TailbaseSamplers] *)

Inductive SampleResult :=
  | SampleResultNoOp | SampleResultCache | SampleResultTrace
  | SampleResultTraceProfile | SampleResultTraceLog | SampleResultNormal.

#[global] Instance SampleResult_eq_dec : EqDecision SampleResult.
Proof. solve_decision. Defined.

Record TailbaseSamplers := {
  tbs_traceCache : WriteableCache TraceLabels;
  tbs_slowSampler : TailbaseSampler;
  tbs_errorSampler : TailbaseSampler;
  tbs_normalSampler : TailbaseSampler;
}.

Definition newTailbaseSamplers (holdTime retryNum : Z) (logEnable : bool) : TailbaseSamplers :=
  {| tbs_traceCache := NewWriteableCache;
     tbs_slowSampler := newTailbaseSampler "slow" holdTime retryNum logEnable;
     tbs_errorSampler := newTailbaseSampler "error" holdTime retryNum logEnable;
     tbs_normalSampler := newTailbaseSampler "normal" holdTime retryNum logEnable |}.

Definition set_samplers (slow error normal : TailbaseSampler) (s : TailbaseSamplers)
    : TailbaseSamplers :=
  {| tbs_traceCache := tbs_traceCache s; tbs_slowSampler := slow; tbs_errorSampler := error;
     tbs_normalSampler := normal |}.

Definition Tailbase_Sample (trace : TraceLabels) (hasSlow hasError isSampled : bool)
    (s : TailbaseSamplers) : SampleResult * TraceLabels * TailbaseSamplers :=
  if isSampled then
    if hasSlow && hasError then
      let '(trace1, slow) := notifyTailbase trace (tbs_slowSampler s) in
      let '(trace2, error) := notifyTailbase trace1 (tbs_errorSampler s) in
      (SampleResultTraceProfile, set_report 4 trace2,
       set_samplers slow error (tbs_normalSampler s) s)
    else if hasSlow then
      let '(trace1, slow) := notifyTailbase trace (tbs_slowSampler s) in
      (SampleResultTraceProfile, set_report 1 trace1,
       set_samplers slow (tbs_errorSampler s) (tbs_normalSampler s) s)
    else if hasError then
      let '(trace1, error) := notifyTailbase trace (tbs_errorSampler s) in
      (SampleResultTraceLog, set_report 3 trace1,
       set_samplers (tbs_slowSampler s) error (tbs_normalSampler s) s)
    else
      let '(trace1, normal) := notifyTailbase trace (tbs_normalSampler s) in
      (SampleResultNormal, set_report 2 trace1,
       set_samplers (tbs_slowSampler s) (tbs_errorSampler s) normal s)
  else if isTailBaseSampled trace (tbs_errorSampler s) then
    (if hasError then SampleResultTraceLog else SampleResultTrace, trace, s)
  else if isTailBaseSampled trace (tbs_slowSampler s) || isTailBaseSampled trace (tbs_normalSampler s)
  then (SampleResultTrace, trace, s)
  else (SampleResultCache, trace, s).

Definition Tailbase_GetSampledTraceIds (s : TailbaseSamplers)
    : list string * list string * list string :=
  (GetToSendIds (ts_unSendIds (tbs_slowSampler s)),
   GetToSendIds (ts_unSendIds (tbs_errorSampler s)),
   GetToSendIds (ts_unSendIds (tbs_normalSampler s))).

(** ** The decision of [Tailbase_Sample] *)

(** A trace id is in a sampler after [notifyTailbase], and was queued for the
    receiver unless it was in it before. *)
Definition notified (k : string) (s : TailbaseSampler) : TailbaseSampler :=
  match ts_sampledTraceIds s !! k with
  | Some _ => s
  | None => set_tailbase {| us_toSendIds := us_toSendIds (ts_unSendIds s) ++ [k];
                            us_retry := us_retry (ts_unSendIds s) |}
              (<[k := 0]> (ts_sampledTraceIds s)) s
  end.

Definition report_of (hasSlow hasError : bool) : Z :=
  match hasSlow, hasError with
  | true, true => 4 | true, false => 1 | false, true => 3 | false, false => 2
  end.

Definition sampled_result (hasSlow hasError : bool) : SampleResult :=
  match hasSlow, hasError with
  | true, _ => SampleResultTraceProfile
  | false, true => SampleResultTraceLog
  | false, false => SampleResultNormal
  end.

(** The decision of the tail samplers.  A sampled trace is marked profiled,
    gets the report type of its combination and enters exactly the slow, error
    or normal samplers that apply, each queueing a new id once; a trace that is
    not sampled changes nothing, is stored when some sampler holds its id - with
    its log only when the error sampler does and it is an error - and is cached
    otherwise. *)
Theorem Tailbase_Sample_spec trace hasSlow hasError isSampled s :
  let k := tl_TraceId trace in
  let '(result, trace', s') := Tailbase_Sample trace hasSlow hasError isSampled s in
  if isSampled then
    result = sampled_result hasSlow hasError ∧
    trace' = set_report (report_of hasSlow hasError) (set_profiled trace) ∧
    tbs_slowSampler s' = (if hasSlow then notified k (tbs_slowSampler s) else tbs_slowSampler s) ∧
    tbs_errorSampler s' = (if hasError then notified k (tbs_errorSampler s) else tbs_errorSampler s) ∧
    tbs_normalSampler s' =
      (if hasSlow || hasError then tbs_normalSampler s else notified k (tbs_normalSampler s)) ∧
    tbs_traceCache s' = tbs_traceCache s
  else
    trace' = trace ∧ s' = s ∧
    let inError := is_Some (ts_sampledTraceIds (tbs_errorSampler s) !! k) in
    let inOther := is_Some (ts_sampledTraceIds (tbs_slowSampler s) !! k) ∨
                   is_Some (ts_sampledTraceIds (tbs_normalSampler s) !! k) in
    (result = SampleResultTraceLog ↔ inError ∧ hasError = true) ∧
    (result = SampleResultTrace ↔ inError ∧ hasError = false ∨ ¬ inError ∧ inOther) ∧
    (result = SampleResultCache ↔ ¬ inError ∧ ¬ inOther).
Proof.
  cbv zeta. unfold Tailbase_Sample. destruct isSampled.
  - destruct hasSlow, hasError; split_and!; done.
  - unfold isTailBaseSampled.
    destruct (ts_sampledTraceIds (tbs_errorSampler s) !! _) as [?|] eqn:E1;
      [destruct hasError|
       destruct (ts_sampledTraceIds (tbs_slowSampler s) !! _) as [?|] eqn:E2;
       destruct (ts_sampledTraceIds (tbs_normalSampler s) !! _) as [?|] eqn:E3]; simpl;
      rewrite <- ?not_eq_None_Some; split_and!; try done; intuition congruence.
Qed.

(** ** Delivery *)

Definition cache_all (ids : list string) (u : unSendIds) : unSendIds := foldS cacheIds ids u.

Lemma cache_all_ids ids u :
  us_toSendIds (cache_all ids u) = us_toSendIds u ++ ids ∧ us_retry (cache_all ids u) = us_retry u.
Proof.
  unfold cache_all. revert u. induction ids as [|k ids IH]; intros u; simpl.
  - by rewrite app_nil_r.
  - destruct (IH (cacheIds k u)) as [-> ->]. simpl. by rewrite <- app_assoc.
Qed.

(** Once the receiver has answered a query that carried the pending ids,
    exactly those leave the queue: the ids sampled while the query was under way
    stay, in order, and none is sent twice; the retry count starts afresh. *)
Theorem markSent_keeps_new ids u :
  let sent := GetToSendIds u in
  ∃ u', markSent (len sent) (cache_all ids u) = Some u' ∧
        GetToSendIds u' = ids ∧ us_retry u' = Retry_reset <$> us_retry u.
Proof.
  cbv zeta. destruct (cache_all_ids ids u) as [Hi Hr]. unfold markSent, GetToSendIds.
  rewrite Hi, slice_from_app, Hr. eexists. done.
Qed.

(** A round in which the query fails: ids were queued since the last one, all
    that is pending is sent and the failure is recorded. *)
Definition fail_round (batch : list string) (u : unSendIds) : option unSendIds :=
  let u1 := cache_all batch u in markUnSent (len (GetToSendIds u1)) u1.

Fixpoint fail_rounds (batches : list (list string)) (u : unSendIds) : option unSendIds :=
  match batches with
  | [] => Some u
  | b :: bs => match fail_round b u with None => None | Some u' => fail_rounds bs u' end
  end.

(** After [i] failures, [i] between 1 and the number of retries: nothing was
    dropped, and the oldest count is that of the first batch. *)
Definition retry_at (n i : Z) (first pending : list string) (u : unSendIds) : Prop :=
  us_toSendIds u = pending ∧ first ≠ [] ∧
  (∃ rest, pending = first ++ rest) ∧
  ∃ r, us_retry u = Some r ∧ len (rl_counts r) = n ∧ 0 <= rl_fromIndex r < n ∧ rl_size r = i ∧
       rl_lastNum r = len pending ∧ slice_get (rl_counts r) (rl_fromIndex r) = Some (len first).

Lemma len_pos {A} (l : list A) : l ≠ [] → 0 < len l.
Proof. destruct l; [done|]. unfold len. simpl. lia. Qed.

Lemma fail_round_pending batch u :
  us_toSendIds u ++ batch ≠ [] →
  fail_round batch u =
    match us_retry u with
    | None => Some {| us_toSendIds := []; us_retry := None |}
    | Some r =>
        match getToRemoveSize (len (us_toSendIds u ++ batch)) r with
        | None => None
        | Some (n, r') =>
            if n >? 0 then
              (λ ids, {| us_toSendIds := ids; us_retry := Some r' |}) <$>
                slice_from (us_toSendIds u ++ batch) n
            else Some {| us_toSendIds := us_toSendIds u ++ batch; us_retry := Some r' |}
        end
    end.
Proof.
  intros Hne. apply len_pos in Hne. unfold fail_round, markUnSent, GetToSendIds.
  destruct (cache_all_ids batch u) as [-> ->].
  destruct (Z.leb_spec (len (us_toSendIds u ++ batch)) 0); [lia|].
  destruct (us_retry u) as [r|].
  - destruct (getToRemoveSize _ r) as [[n r']|]; [|done]. by destruct (n >? 0), (slice_from (us_toSendIds u ++ batch) n).
  - destruct (len (us_toSendIds u ++ batch) >? 0) eqn:E; bool_facts; [|lia].
    rewrite <- (app_nil_r (us_toSendIds u ++ batch)) at 1. by rewrite slice_from_app.
Qed.

Lemma fail_round_first n batch u r :
  us_retry u = Some r → len (rl_counts r) = n → 0 <= rl_fromIndex r < n →
  rl_size r = 0 → rl_lastNum r = 0 → us_toSendIds u ++ batch ≠ [] →
  ∃ u', fail_round batch u = Some u' ∧
        retry_at n 1 (us_toSendIds u ++ batch) (us_toSendIds u ++ batch) u'.
Proof.
  intros Hr Hl Hf Hs Hn Hne. rewrite fail_round_pending, Hr by done.
  unfold getToRemoveSize. rewrite Hs, Hl, Hn.
  destruct (Z.ltb_spec 0 n); [|lia]. rewrite Z.add_0_r.
  destruct (rl_fromIndex r >=? n) eqn:E; bool_facts; [lia|].
  rewrite slice_set_Some by lia. simpl. eexists. split; [done|].
  split_and!; simpl; [done..|by exists []; rewrite app_nil_r|]. eexists. split; [done|]. simpl.
  split_and!; try lia; unfold len in *.
  - by rewrite length_insert.
  - unfold slice_get. destruct (Z.leb_spec 0 (rl_fromIndex r)); [|lia].
    rewrite list_lookup_insert_eq by lia. f_equal. lia.
Qed.

Lemma fail_round_next n i first pending batch u :
  retry_at n i first pending u → 1 <= i < n →
  ∃ u', fail_round batch u = Some u' ∧ retry_at n (i + 1) first (pending ++ batch) u'.
Proof.
  intros (Hp & Hne & [rest Hrest] & r & Hr & Hl & Hf & Hs & Hn & Hg) Hi.
  rewrite fail_round_pending, Hr, Hp by (rewrite Hp, Hrest; by destruct first).
  unfold getToRemoveSize. rewrite Hs, Hl. destruct (Z.ltb_spec i n); [|lia].
  set (ix := if rl_fromIndex r + i >=? n then _ else _).
  assert (0 <= ix < n ∧ ix ≠ rl_fromIndex r) as [Hix Hixne].
  { unfold ix. destruct (rl_fromIndex r + i >=? n) eqn:E; bool_facts; lia. }
  rewrite slice_set_Some by lia. simpl. eexists. split; [done|].
  split_and!; simpl; [done..|exists (rest ++ batch); by rewrite Hrest, app_assoc|].
  eexists. split; [done|]. simpl. split_and!; try lia; unfold len in *.
  - by rewrite length_insert.
  - unfold slice_get in *. destruct (Z.leb_spec 0 (rl_fromIndex r)); [|lia].
    rewrite list_lookup_insert_ne by lia. done.
Qed.

Lemma fail_round_full n first pending batch u :
  retry_at n n first pending u →
  ∃ u' rest, pending = first ++ rest ∧ fail_round batch u = Some u' ∧
             GetToSendIds u' = rest ++ batch.
Proof.
  intros (Hp & Hne & [rest Hrest] & r & Hr & Hl & Hf & Hs & Hn & Hg).
  rewrite fail_round_pending, Hr, Hp by (rewrite Hp, Hrest; by destruct first).
  unfold getToRemoveSize. rewrite Hs, Hl. destruct (Z.ltb_spec n n); [lia|].
  rewrite Hg, slice_set_Some by lia. apply len_pos in Hne.
  destruct (len first >? 0) eqn:E; bool_facts; [|lia].
  rewrite Hrest, <- app_assoc, slice_from_app. simpl. do 2 eexists. done.
Qed.

Lemma fail_rounds_app b1 b2 u u' :
  fail_rounds b1 u = Some u' → fail_rounds (b1 ++ b2) u = fail_rounds b2 u'.
Proof.
  revert u. induction b1 as [|b b1 IH]; intros u; simpl; [by intros [= ->]|].
  destruct (fail_round b u); [apply IH|done].
Qed.

Lemma fail_rounds_retry n i first pending batches u :
  retry_at n i first pending u → 1 <= i → i + len batches <= n →
  ∃ u', fail_rounds batches u = Some u' ∧
        retry_at n (i + len batches) first (pending ++ mjoin batches) u'.
Proof.
  revert i pending u. induction batches as [|b bs IH]; intros i pending u Hat Hi Hn.
  - exists u. split; [done|]. unfold len. simpl. by rewrite Z.add_0_r, app_nil_r.
  - assert (len (b :: bs) = 1 + len bs) as Hlen by (unfold len; simpl; lia).
    pose proof (len_nonneg bs). simpl fail_rounds.
    destruct (fail_round_next n i first pending b u) as (u1 & -> & Hat1); [done|lia|].
    destruct (IH _ _ _ Hat1) as (u' & -> & Hat'); [lia..|]. exists u'. split; [done|].
    simpl. rewrite Hlen, app_assoc. by replace (i + (1 + len bs)) with (i + 1 + len bs) by lia.
Qed.

(** C7: Failed queries lose nothing for [sample_trace_repeat_num] rounds: after
    that many failures in a row every id is still pending, and the next failure
    drops exactly what was pending at the first of them. *)
Theorem fail_rounds_keep_then_drop u r b bs last :
  us_retry u = Some r → 0 <= rl_fromIndex r < len (rl_counts r) →
  rl_size r = 0 → rl_lastNum r = 0 → us_toSendIds u ++ b ≠ [] →
  len (b :: bs) = len (rl_counts r) →
  ∃ u1 u2, fail_rounds (b :: bs) u = Some u1 ∧
    GetToSendIds u1 = us_toSendIds u ++ mjoin (b :: bs) ∧
    fail_rounds ((b :: bs) ++ [last]) u = Some u2 ∧
    GetToSendIds u2 = mjoin bs ++ last.
Proof.
  intros Hr Hf Hs Hn Hne Hlen.
  assert (len (b :: bs) = 1 + len bs) as Hl1 by (unfold len; simpl; lia).
  destruct (fail_round_first (len (rl_counts r)) b u r) as (u0 & E0 & Hat); [done..|].
  destruct (fail_rounds_retry _ 1 _ _ bs u0 Hat) as (u1 & E1 & Hat1); [lia..|].
  assert (fail_rounds (b :: bs) u = Some u1) as Eb by (simpl; by rewrite E0).
  replace (1 + len bs) with (len (rl_counts r)) in Hat1 by lia.
  destruct (fail_round_full _ _ _ last u1 Hat1) as (u2 & rest & Hp & E2 & Hids).
  exists u1, u2. split; [done|]. destruct Hat1 as (Hids1 & _). split_and!.
  - unfold GetToSendIds. rewrite Hids1. simpl. by rewrite app_assoc.
  - rewrite (fail_rounds_app _ _ _ _ Eb). simpl. by rewrite E2.
  - rewrite Hids. f_equal. by apply app_inv_head in Hp.
Qed.

Lemma fail_rounds_keep_then_drop_witness :
  ∃ u1 u2, fail_rounds [["a"]; ["b"; "c"]] (newUnSendIds 2) = Some u1 ∧
    GetToSendIds u1 = ["a"; "b"; "c"] ∧
    fail_rounds [["a"]; ["b"; "c"]; ["d"]] (newUnSendIds 2) = Some u2 ∧
    GetToSendIds u2 = ["b"; "c"; "d"].
Proof.
  apply (fail_rounds_keep_then_drop (newUnSendIds 2)
           {| rl_counts := [0; 0]; rl_fromIndex := 0; rl_lastNum := 0; rl_size := 0 |}
           ["a"] [["b"; "c"]] ["d"]); try reflexivity; try (unfold len; simpl; lia). done.
Defined.

(** After that the counts no longer match the batches: [getToRemoveSize] writes
    the new count over the oldest and shifts the slice as well.  With three
    retries the fifth failure drops the third batch in place of the second; with
    four, a batch is dropped twice, and the slice bound of [toSendIds] fails. *)
Lemma fail_rounds_drop_wrong_batch :
  GetToSendIds <$> fail_rounds [["a"]; ["b"]; ["c"; "c"]; ["d"]; ["e"]] (newUnSendIds 3) =
    Some ["c"; "d"; "e"] ∧
  GetToSendIds <$> fail_rounds [["a"]; ["b"; "b"]; ["c"]; ["d"]; ["e"]] (newUnSendIds 3) =
    Some ["b"; "c"; "d"; "e"].
Proof. split; vm_compute; reflexivity. Qed.

Lemma fail_rounds_can_panic :
  fail_rounds [["a"]; ["b"]; ["c"]; ["d"]; ["e"]; ["f"]; ["g"; "g"; "g"; "g"; "g"; "g"]; ["h"]; ["i"]]
              (newUnSendIds 4) = None.
Proof. vm_compute. reflexivity. Qed.

(** ** The life of a sampled id *)

(** A trace id enters when it is notified and not known, or when the receiver answers
    with it. *)
Inductive enters (k : string) : TailbaseSampler → Prop :=
  | enters_notify t s :
      tl_TraceId t = k → ts_sampledTraceIds s !! k = None → enters k (notifyTailbase t s).2
  | enters_answer ids count s s' :
      k ∈ ids → updateSampledTraceIds ids count s = Some s' → enters k s'.

(** [n] cleanings, between which traces are notified - those of a known id too -, the
    receiver answers with other ids, and queries fail. *)
Inductive clean_rounds (k : string) (s : TailbaseSampler) : nat → TailbaseSampler → Prop :=
  | clean_rounds_0 : clean_rounds k s 0 s
  | clean_rounds_notify n s1 t :
      clean_rounds k s n s1 → (tl_TraceId t = k → is_Some (ts_sampledTraceIds s1 !! k)) →
      clean_rounds k s n (notifyTailbase t s1).2
  | clean_rounds_answer n s1 ids count s2 :
      clean_rounds k s n s1 → k ∉ ids → updateSampledTraceIds ids count s1 = Some s2 → clean_rounds k s n s2
  | clean_rounds_failure n s1 count s2 :
      clean_rounds k s n s1 → updateUnSentCount count s1 = Some s2 → clean_rounds k s n s2
  | clean_rounds_clean n s1 ks :
      clean_rounds k s n s1 → range_order (ts_sampledTraceIds s1) ks →
      clean_rounds k s (S n) (cleanSampledIds ks s1).2.

(** The ids of an answer count from 0, the others as before. *)
Lemma store_ids_lookup (ids : list string) (m : gmap string Z) k :
  foldS (λ id, <[id := 0]>) ids m !! k = if decide (k ∈ ids) then Some 0 else m !! k.
Proof.
  revert m. induction ids as [|id ids IH]; intros m; cbn [foldS]; [done|]. rewrite IH.
  destruct (decide (k ∈ ids)) as [Hk|Hk]; [by rewrite decide_True by (by right)|].
  destruct (decide (k = id)) as [->|Hne]; [by rewrite lookup_insert_eq, decide_True by (by left)|].
  rewrite lookup_insert_ne by done. rewrite decide_False; [done|]. by intros [|]%elem_of_cons.
Qed.

Lemma updateSampledTraceIds_spec ids count s s' k :
  updateSampledTraceIds ids count s = Some s' →
  ts_traceHoldTime s' = ts_traceHoldTime s ∧
  ts_sampledTraceIds s' !! k = if decide (k ∈ ids) then Some 0 else ts_sampledTraceIds s !! k.
Proof.
  unfold updateSampledTraceIds. destruct (count >? 0); [destruct (markSent count _); [|done]|]; intros [= <-];
    (split; [done|]); apply store_ids_lookup.
Qed.

Lemma updateUnSentCount_spec count s s' :
  updateUnSentCount count s = Some s' →
  ts_traceHoldTime s' = ts_traceHoldTime s ∧ ts_sampledTraceIds s' = ts_sampledTraceIds s.
Proof. unfold updateUnSentCount. destruct (count >? 0); [destruct (markUnSent count _); [|done]|]; by intros [= <-]. Qed.

Lemma enters_count k s : enters k s → ts_sampledTraceIds s !! k = Some 0.
Proof.
  intros [t s1 <- Hn|ids count s1 s' Hk Hu].
  - unfold notifyTailbase. rewrite Hn. cbn. by rewrite lookup_insert_eq.
  - apply (updateSampledTraceIds_spec _ _ _ _ k) in Hu as [_ ->]. by rewrite decide_True.
Qed.

Lemma cleanSampledIds_spec ks s k :
  range_order (ts_sampledTraceIds s) ks →
  let '(ids, s') := cleanSampledIds ks s in
  ts_sampledTraceIds s' !! k =
    (ts_sampledTraceIds s !! k ≫= λ c, if c >=? ts_traceHoldTime s then None else Some (c + 1)) ∧
  (k ∈ ids ↔ ∃ c, ts_sampledTraceIds s !! k = Some c ∧ c < ts_traceHoldTime s ∧ c < 2).
Proof.
  intros Ho. unfold cleanSampledIds.
  pose proof (range_map_order (clean_sampled (ts_traceHoldTime s)) ks _ k Ho) as Hm.
  pose proof (elem_of_range_map_out (clean_sampled (ts_traceHoldTime s)) ks _ k Ho) as Hx.
  destruct (range_map _ ks _) as [ids m]. simpl in *. split.
  - rewrite Hm. destruct (ts_sampledTraceIds s !! k) as [c|]; simpl; [|done].
    unfold clean_sampled, isExpired. by destruct (c >=? ts_traceHoldTime s).
  - rewrite Hx. unfold clean_sampled, isExpired, checkSampled. split.
    + intros (k' & c & Hk' & Hin). destruct (c >=? ts_traceHoldTime s) eqn:E; simpl in Hin;
        [by apply not_elem_of_nil in Hin|].
      destruct (c + 1 <=? 2) eqn:E2; simpl in Hin; [|by apply not_elem_of_nil in Hin].
      apply list_elem_of_singleton in Hin as ->. bool_facts. exists c. split_and!; [done|lia..].
    + intros (c & Hk & H1 & H2). exists k, c. split; [done|].
      destruct (c >=? ts_traceHoldTime s) eqn:E; bool_facts; [lia|].
      destruct (Z.leb_spec (c + 1) 2); [|lia]. simpl. by left.
Qed.

Lemma clean_rounds_count k s n s' :
  clean_rounds k s n s' → ts_sampledTraceIds s !! k = Some 0 →
  ts_traceHoldTime s' = ts_traceHoldTime s ∧
  ts_sampledTraceIds s' !! k =
    if decide (Z.of_nat n <= Z.max 0 (ts_traceHoldTime s)) then Some (Z.of_nat n) else None.
Proof.
  intros Hr H0. induction Hr as [|n s1 t Hr [IHh IH] Hkn|n s1 ids count s2 Hr [IHh IH] Hni Hu|n s1 count s2 Hr [IHh IH] Hu|n s1 ks Hr [IHh IH] Ho].
  - split; [done|]. rewrite decide_True by lia. done.
  - unfold notifyTailbase. simpl. destruct (ts_sampledTraceIds s1 !! tl_TraceId t) eqn:Et; [done|].
    simpl. split; [done|]. rewrite lookup_insert_ne; [done|]. intros Ek. rewrite Ek in Et. destruct (Hkn Ek). congruence.
  - apply (updateSampledTraceIds_spec _ _ _ _ k) in Hu as [-> ->]. by rewrite decide_False.
  - apply updateUnSentCount_spec in Hu as [-> ->]. done.
  - pose proof (cleanSampledIds_spec ks s1 k Ho) as Hc.
    assert (ts_traceHoldTime (cleanSampledIds ks s1).2 = ts_traceHoldTime s1) as Hh
      by (unfold cleanSampledIds; by destruct (range_map _ _ _)).
    destruct (cleanSampledIds ks s1) as [ids s2]. simpl in *. destruct Hc as [-> _].
    split; [congruence|]. rewrite IH, IHh.
    destruct (decide (Z.of_nat n <= Z.max 0 (ts_traceHoldTime s))); simpl;
      [|rewrite decide_False by lia; done].
    destruct (Z.of_nat n >=? ts_traceHoldTime s) eqn:E; bool_facts.
    + rewrite decide_False by lia. done.
    + rewrite decide_True by lia. f_equal. lia.
Qed.

(** C8: A trace id that enters a sampler - notified for the first time, or in an answer
    of the receiver - is handed to the tail cache by the next two cleanings, by fewer when
    its hold time is shorter, and by no later one, whatever is notified, answered or fails in between, and stays known - so
    that later traces of it are stored at once - until the cleaning number
    [sample_trace_wait_time + 1]. *)
Theorem sampled_id_lifecycle k s n s' ks :
  enters k s → 0 <= ts_traceHoldTime s →
  clean_rounds k s n s' → range_order (ts_sampledTraceIds s') ks →
  (k ∈ (cleanSampledIds ks s').1 ↔ Z.of_nat n < 2 ∧ Z.of_nat n < ts_traceHoldTime s) ∧
  (is_Some (ts_sampledTraceIds s' !! k) ↔ Z.of_nat n <= ts_traceHoldTime s) ∧
  (∀ t, tl_TraceId t = k → isTailBaseSampled t s' = (Z.of_nat n <=? ts_traceHoldTime s)).
Proof.
  intros H0%enters_count Hh Hr Ho. destruct (clean_rounds_count _ _ _ _ Hr H0) as [Hhold Hk].
  rewrite Z.max_r in Hk by lia.
  pose proof (cleanSampledIds_spec ks s' k Ho) as Hc. destruct (cleanSampledIds ks s') as [ids s2].
  destruct Hc as [_ ->]. unfold isTailBaseSampled. rewrite Hk, Hhold. case_decide as Hn; simpl; split_and!.
  - split; [intros (c & [= <-] & ? & ?); lia|]. intros [? ?]. eexists. split; [done|]. lia.
  - split; [done|by eexists].
  - intros t ->. rewrite Hk. symmetry. by apply Z.leb_le.
  - split; [by intros (c & ? & _)|lia].
  - split; [by intros [? ?]|lia].
  - intros t ->. rewrite Hk. symmetry. apply Z.leb_gt. lia.
Qed.

Lemma sampled_id_lifecycle_witness :
  let t := ex_labels "t1" "/a" 5 false true in
  let s := (notifyTailbase t (newTailbaseSampler "slow" 60 3 false)).2 in
  "t1" ∈ (cleanSampledIds ["t1"] (cleanSampledIds ["t1"] s).2).1 ∧
  is_Some (ts_sampledTraceIds (cleanSampledIds ["t1"] s).2 !! "t1").
Proof.
  intros t s.
  destruct (sampled_id_lifecycle "t1" s 1 (cleanSampledIds ["t1"] s).2 ["t1"]) as (H1 & H2 & _).
  - apply enters_notify; reflexivity.
  - vm_compute. discriminate.
  - apply clean_rounds_clean; [constructor|exact (range_order_canon _)].
  - exact (range_order_canon _).
  - split; [apply H1|apply H2].
    + split; vm_compute; reflexivity.
    + vm_compute. discriminate.
Defined.
