(* ===== verification/SampleCache.v ===== *)
(** * SampleCache: the sampling decision for one trace

    Models [sampler/sample_cache.go] of the back-sampling processor: the slow
    thresholds, [GetSampleResult] and the operations its owner calls on a tick.
    [model.P90ThresholdType] is a constant of [apo-module]; the answers of the
    receiver ([ProfileResult], [SlowThresholdData]) are the plain messages of the
    generated gRPC code. *)

From S2P Require Import Prelude GoStrings Float64 Labels Silent Samplers Cache Tailbase.

Record ProfileResult := {
  pr_QueryTime : Z;
  pr_SlowTraceIds : list string;
  pr_ErrorTraceIds : list string;
  pr_NormalTraceIds : list string;
}.

Record SlowThresholdData := {
  std_Url : string;
  std_Type : string;
  std_Range : string;
  std_Value : float64;
  std_Multiple : float64;
}.

(** ** The slow thresholds by url *)

Record SlowThreshold := {
  st_thresholdType : string;
  st_thresholdRange : string;
  st_thresholdValue : float64;
  st_thresholdMultiple : float64;
}.

Record ContainerSlowThreshold := {
  cst_updateTime : Z;
  cst_thresholdValues : gmap string SlowThreshold;
}.

Definition newContainerSlowThreshold (now : Z) : ContainerSlowThreshold :=
  {| cst_updateTime := now; cst_thresholdValues := ∅ |}.

Definition updateSlowThreshold (data : SlowThresholdData) (time : Z) (c : ContainerSlowThreshold)
    : ContainerSlowThreshold :=
  if F_ltb F_zero (std_Value data) then
    {| cst_updateTime := time;
       cst_thresholdValues :=
         <[std_Url data := {| st_thresholdType := std_Type data; st_thresholdRange := std_Range data;
                              st_thresholdValue := std_Value data;
                              st_thresholdMultiple := std_Multiple data |}]>
           (cst_thresholdValues c) |}
  else c.

Section sample.
Context `{GoPlatform} (P90ThresholdType : string).

Definition getSlowThreshold (url : string) (slowThreshold : Z) (c : ContainerSlowThreshold)
    : SlowThreshold :=
  match cst_thresholdValues c !! url with
  | Some t => t
  | None => {| st_thresholdType := P90ThresholdType; st_thresholdRange := "default";
               st_thresholdValue := F_of_Z slowThreshold; st_thresholdMultiple := F_of_Z 1 |}
  end.

Record SampleCache := {
  sc_normalTopSampling : bool;
  sc_normalSampler : NoramlSampler;
  sc_tailbaseSamplers : TailbaseSamplers;
  sc_openNormalSampling : bool;
  sc_openSlowSampling : bool;
  sc_openErrorSampling : bool;
  sc_ignoreThreshold : Z;          (* uint64 *)
  sc_defaultSlowThreshold : Z;     (* uint64 *)
  sc_slowThresholdCache : ContainerSlowThreshold;
  sc_silent : Silent;
}.

(** [NewSampleCache(..).WithNormalSampler(..).WithTailBaseSampler(..)
    .WithSilent(..)], as the processor builds it. *)
Definition NewSampleCache (now : Z) (slowSampling errorSampling : bool)
    (ignoreThreshold slowThreshold : Z) (normalTopSample : bool) (normalSampleWaitTime : Z)
    (logEnable : bool) (retryNum sampleWaitTime silentCount silentPeriod : Z)
    (silentMode : string) : SampleCache :=
  {| sc_normalTopSampling := normalTopSample;
     sc_normalSampler := newNormalSampler normalTopSample normalSampleWaitTime logEnable;
     sc_tailbaseSamplers := newTailbaseSamplers sampleWaitTime retryNum logEnable;
     sc_openNormalSampling := normalSampleWaitTime >? 0;
     sc_openSlowSampling := slowSampling;
     sc_openErrorSampling := errorSampling;
     sc_ignoreThreshold := ignoreThreshold;
     sc_defaultSlowThreshold := slowThreshold;
     sc_slowThresholdCache := newContainerSlowThreshold now;
     sc_silent := NewSilent silentCount silentPeriod silentMode |}.

Definition set_sc (n : NoramlSampler) (tb : TailbaseSamplers) (th : ContainerSlowThreshold)
    (sl : Silent) (c : SampleCache) : SampleCache :=
  {| sc_normalTopSampling := sc_normalTopSampling c; sc_normalSampler := n;
     sc_tailbaseSamplers := tb; sc_openNormalSampling := sc_openNormalSampling c;
     sc_openSlowSampling := sc_openSlowSampling c; sc_openErrorSampling := sc_openErrorSampling c;
     sc_ignoreThreshold := sc_ignoreThreshold c;
     sc_defaultSlowThreshold := sc_defaultSlowThreshold c;
     sc_slowThresholdCache := th; sc_silent := sl |}.

Definition set_normal (n : NoramlSampler) (c : SampleCache) : SampleCache :=
  set_sc n (sc_tailbaseSamplers c) (sc_slowThresholdCache c) (sc_silent c) c.
Definition set_tail (tb : TailbaseSamplers) (c : SampleCache) : SampleCache :=
  set_sc (sc_normalSampler c) tb (sc_slowThresholdCache c) (sc_silent c) c.
Definition set_silent (sl : Silent) (c : SampleCache) : SampleCache :=
  set_sc (sc_normalSampler c) (sc_tailbaseSamplers c) (sc_slowThresholdCache c) sl c.

Definition CheckSlow (trace : TraceLabels) (slowThreshold : Z) (c : SampleCache) : TraceLabels :=
  let th := getSlowThreshold (tl_Url trace) slowThreshold (sc_slowThresholdCache c) in
  let slow := tl_Duration trace >=? uint64_of_float (st_thresholdValue th) in
  set_threshold (st_thresholdType th) (st_thresholdRange th) (st_thresholdValue th)
    (st_thresholdMultiple th)
    (if tl_Duration trace <? sc_ignoreThreshold c then false else slow) trace.

Definition UpdateNoramlTime (now : Z) (trace : TraceLabels) (c : SampleCache) : SampleCache :=
  set_normal (Normal_UpdateTime now trace (sc_normalSampler c)) c.

(** The flags [GetSampleResult] computes before it asks the tail samplers, and
    the samplers it touches on the way; [now1] is the clock it reads. *)
Definition sample_flags (now1 : Z) (trace : TraceLabels) (c : SampleCache)
    : bool * bool * bool * SampleCache :=
  if tl_IsSlow trace || tl_IsError trace then
    let hasSlow := sc_openSlowSampling c && tl_IsSlow trace in
    let hasError := sc_openErrorSampling c && tl_IsError trace in
    if (hasSlow || hasError) && tl_IsSampled trace then
      let '(silent, sl) := IsSilent now1 (getPidUrl trace) (sc_silent c) in
      (hasSlow, hasError, negb silent, set_silent sl c)
    else (hasSlow, hasError, false, c)
  else if sc_openNormalSampling c && tl_IsSampled trace
          && (negb (sc_normalTopSampling c) || tl_TopSpan trace) then
    let '(isSampled, n) := Normal_Sample trace (sc_normalSampler c) in
    let c' := set_normal n c in
    (false, false, isSampled, if isSampled then UpdateNoramlTime now1 trace c' else c')
  else (false, false, false, c).

(** [now1] is the clock of [IsSilent] or of the first [UpdateTime], [now2] that
    of the last [UpdateTime]. *)
Definition GetSampleResult (now1 now2 : Z) (trace : TraceLabels) (c : SampleCache)
    : SampleResult * TraceLabels * SampleCache :=
  let trace := CheckSlow trace (sc_defaultSlowThreshold c) c in
  if negb (sc_openNormalSampling c) && negb (sc_openSlowSampling c) && negb (sc_openErrorSampling c)
  then (SampleResultNoOp, trace, c)
  else if negb (tl_IsError trace) && negb (tl_TopSpan trace)
          && (tl_Duration trace <? sc_ignoreThreshold c)
  then (SampleResultNoOp, trace, c)
  else
    let '(hasSlow, hasError, isSampled, c1) := sample_flags now1 trace c in
    let '(result, trace', tb) :=
      Tailbase_Sample trace hasSlow hasError isSampled (sc_tailbaseSamplers c1) in
    let c2 := set_tail tb c1 in
    let c3 :=
      if sc_openNormalSampling c && negb (sc_normalTopSampling c) then
        match result with
        | SampleResultTrace | SampleResultTraceProfile | SampleResultTraceLog =>
            UpdateNoramlTime now2 trace' c2
        | _ => c2
        end
      else c2 in
    (result, trace', c3).

Definition CacheTrace (trace : TraceLabels) (c : SampleCache) : SampleCache :=
  let tb := sc_tailbaseSamplers c in
  set_tail {| tbs_traceCache := Write (tl_TraceId trace) trace (tbs_traceCache tb);
              tbs_slowSampler := tbs_slowSampler tb; tbs_errorSampler := tbs_errorSampler tb;
              tbs_normalSampler := tbs_normalSampler tb |} c.

(** [None] is the panic of [markSent]. *)
Definition UpdateSampledTraceIds (result : ProfileResult) (slowCount errorCount normalCount : Z)
    (c : SampleCache) : option SampleCache :=
  let tb := sc_tailbaseSamplers c in
  match updateSampledTraceIds (pr_SlowTraceIds result) slowCount (tbs_slowSampler tb),
        updateSampledTraceIds (pr_ErrorTraceIds result) errorCount (tbs_errorSampler tb),
        updateSampledTraceIds (pr_NormalTraceIds result) normalCount (tbs_normalSampler tb) with
  | Some slow, Some error, Some normal => Some (set_tail (set_samplers slow error normal tb) c)
  | _, _, _ => None
  end.

Definition UpdateUnSentCount (slowCount errorCount normalCount : Z) (c : SampleCache)
    : option SampleCache :=
  let tb := sc_tailbaseSamplers c in
  match updateUnSentCount slowCount (tbs_slowSampler tb),
        updateUnSentCount errorCount (tbs_errorSampler tb),
        updateUnSentCount normalCount (tbs_normalSampler tb) with
  | Some slow, Some error, Some normal => Some (set_tail (set_samplers slow error normal tb) c)
  | _, _, _ => None
  end.

Definition UpdateSlowThreshold (now : Z) (datas : list SlowThresholdData) (c : SampleCache)
    : SampleCache :=
  match datas with
  | [] => c
  | _ => set_sc (sc_normalSampler c) (sc_tailbaseSamplers c)
           (foldS (λ d, updateSlowThreshold d now) datas (sc_slowThresholdCache c)) (sc_silent c) c
  end.

Definition CheckWindow (now : Z) (c : SampleCache) : SampleCache :=
  set_normal (Normal_Check now (sc_normalSampler c))
    (set_silent (CheckAndResetSilent now (sc_silent c)) c).

Definition GetSampledTraceIds (c : SampleCache) : list string * list string * list string :=
  Tailbase_GetSampledTraceIds (sc_tailbaseSamplers c).

Record SampledTraceIds := {
  sti_TraceCache : gmap string (list TraceLabels);
  sti_ErrorIds : list string;
  sti_SlowIds : list string;
  sti_NormalIds : list string;
}.

(** The three orders are those of the ranges over the sampled ids. *)
Definition GetAndCleanTailbaseTraces (es ss ns : list string) (c : SampleCache)
    : SampledTraceIds * SampleCache :=
  let tb := sc_tailbaseSamplers c in
  let '(datas, wc) := GetAndReset (tbs_traceCache tb) in
  let '(errorIds, error) := cleanSampledIds es (tbs_errorSampler tb) in
  let '(slowIds, slow) := cleanSampledIds ss (tbs_slowSampler tb) in
  let '(normalIds, normal) := cleanSampledIds ns (tbs_normalSampler tb) in
  ({| sti_TraceCache := datas; sti_ErrorIds := errorIds; sti_SlowIds := slowIds;
      sti_NormalIds := normalIds |},
   set_tail {| tbs_traceCache := wc; tbs_slowSampler := slow; tbs_errorSampler := error;
               tbs_normalSampler := normal |} c).

(** ** Theorems *)

Lemma CheckSlow_slow trace slowThreshold c :
  tl_IsSlow (CheckSlow trace slowThreshold c) =
    negb (tl_Duration trace <? sc_ignoreThreshold c) &&
    (tl_Duration trace >=? uint64_of_float (st_thresholdValue
       (getSlowThreshold (tl_Url trace) slowThreshold (sc_slowThresholdCache c)))).
Proof. unfold CheckSlow. simpl. by destruct (tl_Duration trace <? sc_ignoreThreshold c). Qed.

(** A url for which the receiver sent no threshold is judged by the
    configured one, exactly: the detour of the [uint64] threshold through
    [float64] and back loses nothing below 2^53 ns (104 days), so a trace is slow
    exactly when its duration reaches the default and is not ignored. *)
Theorem CheckSlow_default_exact trace slowThreshold c :
  cst_thresholdValues (sc_slowThresholdCache c) !! tl_Url trace = None →
  0 <= slowThreshold < 2 ^ 53 →
  tl_IsSlow (CheckSlow trace slowThreshold c) = true ↔
    slowThreshold <= tl_Duration trace ∧ sc_ignoreThreshold c <= tl_Duration trace.
Proof.
  intros Hn Hr. rewrite CheckSlow_slow. unfold getSlowThreshold. rewrite Hn. simpl.
  rewrite uint64_of_float_of_Z by done.
  destruct (Z.ltb_spec (tl_Duration trace) (sc_ignoreThreshold c)); simpl; [split; [done|lia]|].
  rewrite Z.geb_leb. rewrite Z.leb_le. lia.
Qed.

(** The receiver's threshold takes over for its url: after an update whose
    last entry for the url is positive, the trace is slow exactly when its
    duration reaches the truncated value and is not ignored; entries that are not
    positive change nothing. *)
Lemma UpdateSlowThreshold_used now datas d trace c :
  let c' := UpdateSlowThreshold now (datas ++ [d]) c in
  std_Url d = tl_Url trace →
  (F_ltb F_zero (std_Value d) = true →
   tl_IsSlow (CheckSlow trace (sc_defaultSlowThreshold c') c') = true ↔
     uint64_of_float (std_Value d) <= tl_Duration trace ∧
     sc_ignoreThreshold c <= tl_Duration trace) ∧
  (F_ltb F_zero (std_Value d) = false →
   CheckSlow trace (sc_defaultSlowThreshold c') c' =
     let c'' := UpdateSlowThreshold now datas c in
     CheckSlow trace (sc_defaultSlowThreshold c'') c'').
Proof.
  intros c' Hu.
  assert (sc_ignoreThreshold c' = sc_ignoreThreshold c ∧
          sc_slowThresholdCache c' =
            updateSlowThreshold d now (foldS (λ d, updateSlowThreshold d now) datas
                                         (sc_slowThresholdCache c))) as [Hi Ht].
  { unfold c', UpdateSlowThreshold. destruct (datas ++ [d]) eqn:E; [by destruct datas|].
    rewrite <- E. simpl. by rewrite foldS_app. }
  split; intros Hv.
  - rewrite CheckSlow_slow, Hi, Ht. unfold updateSlowThreshold at 1. rewrite Hv.
    unfold getSlowThreshold. simpl. rewrite Hu, lookup_insert_eq. simpl.
    destruct (Z.ltb_spec (tl_Duration trace) (sc_ignoreThreshold c)); simpl; [split; [done|lia]|].
    rewrite Z.geb_leb, Z.leb_le. lia.
  - assert (c' = UpdateSlowThreshold now datas c) as ->; [|done].
    unfold c', UpdateSlowThreshold. destruct (datas ++ [d]) eqn:E; [by destruct datas|].
    rewrite <- E, foldS_app. simpl. unfold updateSlowThreshold at 1. rewrite Hv.
    destruct datas; [by destruct c|done].
Qed.

(** What ends the decision early. *)
Definition ignored (trace : TraceLabels) (c : SampleCache) : bool :=
  negb (sc_openNormalSampling c) && negb (sc_openSlowSampling c) && negb (sc_openErrorSampling c)
  || negb (tl_IsError trace) && negb (tl_TopSpan trace)
     && (tl_Duration trace <? sc_ignoreThreshold c).

Lemma Tailbase_Sample_not_NoOp t a b s tb : (Tailbase_Sample t a b s tb).1.1 ≠ SampleResultNoOp.
Proof. unfold Tailbase_Sample. by destruct s, a, b; simpl; repeat case_match. Qed.

(** [GetSampleResult] answers [NoOp] exactly when nothing is sampled by the
    configuration or the trace is an inner, short trace without error, and then
    nothing but the trace's threshold fields changes. *)
Lemma GetSampleResult_NoOp_iff now1 now2 trace c :
  let '(result, trace', c') := GetSampleResult now1 now2 trace c in
  (result = SampleResultNoOp ↔ ignored trace c = true) ∧
  (result = SampleResultNoOp →
     c' = c ∧ trace' = CheckSlow trace (sc_defaultSlowThreshold c) c).
Proof.
  unfold GetSampleResult, ignored. set (t := CheckSlow trace _ c).
  assert (tl_IsError t = tl_IsError trace ∧ tl_TopSpan t = tl_TopSpan trace ∧
          tl_Duration t = tl_Duration trace) as (-> & -> & ->) by done.
  destruct (negb (sc_openNormalSampling c) && _ && _); simpl; [done|].
  destruct (negb (tl_IsError trace) && _ && _); simpl; [done|].
  destruct (sample_flags now1 t c) as [[[hs he] s] c1].
  pose proof (Tailbase_Sample_not_NoOp t hs he s (sc_tailbaseSamplers c1)) as Hne.
  destruct (Tailbase_Sample t hs he s (sc_tailbaseSamplers c1)) as [[r t'] tb]. simpl in Hne.
  split; [split|]; done.
Qed.

(** The samplers keep their configuration. *)
Lemma UpdateNoramlTime_rests now trace c s :
  sc_normalSampler c = AnySampler s → any_waitTime s ≠ 0 →
  ∃ s', sc_normalSampler (UpdateNoramlTime now trace c) = AnySampler s' ∧
        any_waitTime s' = any_waitTime s ∧ Any_Sample trace s' = false.
Proof.
  intros Hs Hw. unfold UpdateNoramlTime. simpl. rewrite Hs. simpl. eexists. split; [done|].
  unfold Any_UpdateTime. destruct (Z.eqb_spec (any_waitTime s) 0); [done|]. split; [done|].
  unfold Any_Sample. simpl. rewrite lookup_insert_eq. by destruct (any_waitTime s =? 0).
Qed.

Lemma Tailbase_Sample_labels t a b s tb :
  let t' := (Tailbase_Sample t a b s tb).1.2 in
  getPidUrl t' = getPidUrl t ∧ ((Tailbase_Sample t a b s tb).1.1 = SampleResultNormal → s = true).
Proof.
  unfold Tailbase_Sample. destruct s, a, b; simpl; repeat case_match; split; done.
Qed.

(** With the [Any] normal sampler every trace that gets stored - slow, error,
    normal or picked by the tail - makes its process and url rest: right after,
    no normal trace of it is sampled. *)
Theorem stored_trace_rests now1 now2 trace c s :
  sc_openNormalSampling c = true → sc_normalTopSampling c = false →
  sc_normalSampler c = AnySampler s → any_waitTime s ≠ 0 →
  let '(result, _, c') := GetSampleResult now1 now2 trace c in
  result ≠ SampleResultNoOp → result ≠ SampleResultCache →
  ∃ s', sc_normalSampler c' = AnySampler s' ∧ Any_Sample trace s' = false.
Proof.
  intros Ho Ht Hs Hw. unfold GetSampleResult. set (t := CheckSlow trace _ c).
  assert (∀ s, Any_Sample trace s = Any_Sample t s) as Hany by done. clearbody t.
  rewrite Ho, Ht. simpl negb. cbv iota beta. rewrite !andb_false_l. cbv iota.
  match goal with |- context [if ?b then (SampleResultNoOp, _, _) else _] => destruct b end;
    [done|].
  assert (∃ s1, sc_normalSampler (sample_flags now1 t c).2 = AnySampler s1 ∧
                any_waitTime s1 = any_waitTime s ∧
                ((sample_flags now1 t c).1.1.1 = false → (sample_flags now1 t c).1.1.2 = false →
                 (sample_flags now1 t c).1.2 = true → Any_Sample t s1 = false))
    as Hc1; [|destruct (sample_flags now1 t c) as [[[hs he] sm] c1];
              destruct Hc1 as (s1 & Hs1 & Hw1 & Hrest)].
  { unfold sample_flags. rewrite Ho, Ht. simpl.
    destruct (tl_IsSlow t || tl_IsError t).
    - destruct ((sc_openSlowSampling c && tl_IsSlow t || sc_openErrorSampling c && tl_IsError t)) eqn:E;
        simpl; [|exists s; by split_and!].
      destruct (tl_IsSampled t); [|exists s; by split_and!].
      destruct (IsSilent now1 _ _) as [silent sl]. exists s. simpl. split_and!; [done..|].
      intros E1 E2. by rewrite E1, E2 in E.
    - destruct (tl_IsSampled t); simpl; [|exists s; by split_and!]. rewrite Hs. simpl.
      destruct (Any_Sample t s); simpl; [|exists s; by split_and!].
      destruct (UpdateNoramlTime_rests now1 t (set_normal (AnySampler s) c) s eq_refl Hw)
        as (s' & E1 & E2 & E3). by exists s'. }
  pose proof (Tailbase_Sample_labels t hs he sm (sc_tailbaseSamplers c1)) as [Hpu Hnorm].
  pose proof (Tailbase_Sample_spec t hs he sm (sc_tailbaseSamplers c1)) as Hspec.
  destruct (Tailbase_Sample t hs he sm (sc_tailbaseSamplers c1)) as [[r t'] tb]. simpl in *.
  intros Hn1 Hn2.
  destruct (UpdateNoramlTime_rests now2 t' (set_tail tb c1) s1 Hs1) as (s' & E1 & E2 & E3); [congruence|].
  assert (Any_Sample trace s' = Any_Sample t' s') as E4 by (rewrite Hany; unfold Any_Sample; by rewrite Hpu).
  destruct r; [done|done|exists s'; split; [done|congruence]..|].
  exists s1. split; [done|]. specialize (Hnorm eq_refl). subst sm.
  destruct Hspec as [Hr _]. destruct hs, he; simpl in Hr; try done. rewrite Hany. by apply Hrest.
Qed.
End sample.

Arguments SampleCache : clear implicits.

Definition ex_cache : SampleCache :=
  NewSampleCache 0 true true 0 100000000 false 60 false 3 60 1 5 "window".

Lemma CheckSlow_default_exact_witness :
  tl_IsSlow (CheckSlow (H := AMD64.platform) "p90" (ex_labels "t1" "/a" 100000000 false true)
               100000000 ex_cache) = true.
Proof.
  apply (CheckSlow_default_exact "p90" (ex_labels "t1" "/a" 100000000 false true) 100000000 ex_cache).
  - reflexivity.
  - lia.
  - split; vm_compute; discriminate.
Defined.

Definition ex_threshold (v : Z) : SlowThresholdData :=
  {| std_Url := "/a"; std_Type := "p90"; std_Range := "1d"; std_Value := F_of_Z v;
     std_Multiple := F_of_Z 1 |}.

Lemma UpdateSlowThreshold_used_witness :
  let c := UpdateSlowThreshold 5 [ex_threshold 200000000] ex_cache in
  tl_IsSlow (CheckSlow (H := AMD64.platform) "p90" (ex_labels "t1" "/a" 100000000 false true)
               (sc_defaultSlowThreshold c) c) ≠ true ∧
  tl_IsSlow (CheckSlow (H := AMD64.platform) "p90" (ex_labels "t1" "/a" 200000000 false true)
               (sc_defaultSlowThreshold c) c) = true.
Proof.
  intros c. split.
  - intros Hs. apply (UpdateSlowThreshold_used "p90" 5 [] (ex_threshold 200000000)
      (ex_labels "t1" "/a" 100000000 false true) ex_cache) in Hs; [|reflexivity..].
    destruct Hs as [Hs _]. vm_compute in Hs. by apply Hs.
  - apply (UpdateSlowThreshold_used "p90" 5 [] (ex_threshold 200000000)
      (ex_labels "t1" "/a" 200000000 false true) ex_cache); [reflexivity..|].
    split; vm_compute; discriminate.
Defined.

Lemma stored_trace_rests_witness :
  let t := ex_labels "t1" "/a" 5 false true in
  let '(result, _, c) := GetSampleResult (H := AMD64.platform) "p90" 10 10 t ex_cache in
  result = SampleResultNormal ∧
  ∃ s, sc_normalSampler c = AnySampler s ∧ Any_Sample t s = false.
Proof.
  intros t.
  pose proof (stored_trace_rests (H := AMD64.platform) "p90" 10 10 t ex_cache
                (newAnyNormalTraceSampler 60 false) eq_refl eq_refl eq_refl) as Hr.
  destruct (GetSampleResult "p90" 10 10 t ex_cache) as [[result t'] c] eqn:E.
  assert (result = SampleResultNormal) as ->.
  { transitivity ((GetSampleResult (H := AMD64.platform) "p90" 10 10 t ex_cache).1.1); [by rewrite E|].
    reflexivity. }
  split; [reflexivity|]. apply Hr; discriminate.
Defined.
