(* ===== verification/Adaptive.v ===== *)
(** * Adaptive: pre-sampling of the spans of one resource by trace id

    Models [internal/adaptive/adaptive.go], [internal/adaptive/memory_check.go]
    and [internal/traceutil/trace_helper.go] of the back-sampling processor.
    The atomic counters behind the pointers of [serviceTps] and [singleIds] are
    held by the maps only, so the maps hold their values. *)

From S2P Require Import Prelude GoStrings PData.

(** ** Results *)

Inductive AdaptiveResult := Sampled | SampleDrop | SampleSlow | SampleLow.

#[global] Instance AdaptiveResult_eq_dec : EqDecision AdaptiveResult.
Proof. solve_decision. Defined.

(** The constants' values. *)
Definition result_code (r : AdaptiveResult) : Z :=
  match r with Sampled => 0 | SampleDrop => 1 | SampleSlow => 2 | SampleLow => 3 end.

Definition IsDrop (r : AdaptiveResult) : bool := result_code r =? result_code SampleDrop.

Definition IsSingleStore (r : AdaptiveResult) : bool :=
  (result_code r =? result_code SampleSlow) || (result_code r =? result_code SampleLow).

(** The case of the switch is the bitwise or of two constants. *)
Definition GetReportType (r : AdaptiveResult) : Z :=
  if result_code r =? Z.lor (result_code SampleSlow) (result_code SampleLow) then 5 else 0.

(** ** [MemoryCheck]: [alloc] is what [runtime.ReadMemStats] reports *)

Definition mibBytes : Z := 1024 * 1024.

Record MemoryCheck := { mc_memoryLimit : Z }.

Definition NewMemoryCheck (memoryLimit : Z) : MemoryCheck := {| mc_memoryLimit := memoryLimit |}.
Definition GetCurrentMemory (alloc : Z) (c : MemoryCheck) : Z := alloc / mibBytes.
Definition GetMemoryLimit (c : MemoryCheck) : Z := mc_memoryLimit c.

(** ** [AdaptiveSampler] *)

Record AdaptiveSampler := {
  as_sampleValue : Z;              (* int64 *)
  as_slowThreshold : Z;            (* uint64, ns *)
  as_serviceUrlCount : Z;          (* int32 *)
  as_serviceTps : gmap string Z;   (* int32 *)
  as_singleIds : gmap string Z;    (* int32 *)
  as_traceIdExpireTime : Z;        (* int32, s *)
  as_serviceWindow : Z;            (* int, s *)
  as_serviceWindowCount : Z;       (* int32 *)
  as_currentWindow : Z;            (* int *)
}.

(** [slowThreshold] in nanoseconds, [serviceWindow] and [traceIdExpireTime] in
    whole seconds. *)
Definition NewAdaptiveSampler (slowThreshold serviceWindow serviceCount traceIdExpireTime : Z)
    : AdaptiveSampler :=
  {| as_sampleValue := 0;
     as_slowThreshold := u64 slowThreshold;
     as_serviceUrlCount := 0;
     as_serviceTps := ∅;
     as_singleIds := ∅;
     as_traceIdExpireTime := i32 traceIdExpireTime;
     as_serviceWindow := serviceWindow;
     as_serviceWindowCount := i32 serviceCount;
     as_currentWindow := 0 |}.

Definition set_adaptive (value urls : Z) (tps ids : gmap string Z) (window : Z)
    (s : AdaptiveSampler) : AdaptiveSampler :=
  {| as_sampleValue := value; as_slowThreshold := as_slowThreshold s;
     as_serviceUrlCount := urls; as_serviceTps := tps; as_singleIds := ids;
     as_traceIdExpireTime := as_traceIdExpireTime s; as_serviceWindow := as_serviceWindow s;
     as_serviceWindowCount := as_serviceWindowCount s; as_currentWindow := window |}.

Definition set_singleIds (ids : gmap string Z) (s : AdaptiveSampler) : AdaptiveSampler :=
  set_adaptive (as_sampleValue s) (as_serviceUrlCount s) (as_serviceTps s) ids
    (as_currentWindow s) s.

Definition GetSampleValue (s : AdaptiveSampler) : Z := as_sampleValue s.
Definition SetSampleValue (v : Z) (s : AdaptiveSampler) : AdaptiveSampler :=
  set_adaptive v (as_serviceUrlCount s) (as_serviceTps s) (as_singleIds s) (as_currentWindow s) s.

(** [traceId[i]] of a [[16]byte]. *)
Definition byte_at (traceId : TraceID) (i : nat) : Z :=
  match byte_list traceId !! i with Some a => Z.of_N (N_of_ascii a) | None => 0 end.

(** The 16 bits of the trace id that decide, and the mask [1<<v - 1] in
    [uint32]. *)
Definition adaptive_bits (traceId : TraceID) (swTraceId : string) : Z :=
  let index := (if slen swTraceId >? 32 then 10 else 15)%nat in
  Z.lor (u32 (Z.shiftl (byte_at traceId (index - 1)) 8)) (byte_at traceId index).

Definition adaptive_mask (sampleValue : Z) : Z := u32 (u32 (Z.shiftl 1 sampleValue) - 1).

Definition CheckAdaptiveSampleValue (traceId : TraceID) (swTraceId : string) (s : AdaptiveSampler)
    : bool :=
  if as_sampleValue s =? 0 then true
  else Z.land (adaptive_bits traceId swTraceId) (adaptive_mask (as_sampleValue s)) =? 0.

Section adaptive.
Context `{PData}.

Definition AttributeSkywalkingComponmentId : string := "sw8.componment_id".
Definition ComponentUndertow : Z := 84.

(** [traceutil.IsEntrySpan]. *)
Definition IsEntrySpan (span : Span) : bool :=
  if negb (SpanKind_eqb (Span_Kind span) SpanKindServer)
     && negb (SpanKind_eqb (Span_Kind span) SpanKindConsumer) then false
  else match Map_Get AttributeSkywalkingComponmentId (Span_Attributes span) with
       | Some id => if Value_Int id =? ComponentUndertow then false else true
       | None => true
       end.

(** The parameter [key] is shadowed by the key of the service and url. *)
Definition CheckLowUrl (key : string) (traceId : TraceID) (serviceName : string) (span : Span)
    (s : AdaptiveSampler) : bool * AdaptiveSampler :=
  if (as_serviceWindowCount s >? 0) && IsEntrySpan span then
    let key := serviceName +:+ "-" +:+ Span_Name span in
    let '(tps, urls) :=
      match as_serviceTps s !! key with
      | Some tps => (tps, as_serviceUrlCount s)
      | None => (0, i32 (as_serviceUrlCount s + 1))
      end in
    let tps := i32 (tps + 1) in
    let low := tps <=? as_serviceWindowCount s in
    (low, set_adaptive (as_sampleValue s) urls (<[key := tps]> (as_serviceTps s))
            (if low then <[key := 0]> (as_singleIds s) else as_singleIds s)
            (as_currentWindow s) s)
  else (false, s).

Definition span_slow (span : Span) (s : AdaptiveSampler) : bool :=
  Span_EndTimestamp span >? u64 (Span_StartTimestamp span + as_slowThreshold s).

(** The loop of [Sample] over the spans. *)
Fixpoint Sample_spans (key : string) (traceId : TraceID) (serviceName : string) (spans : list Span)
    (s : AdaptiveSampler) : AdaptiveResult * AdaptiveSampler :=
  match spans with
  | [] => (SampleDrop, s)
  | span :: spans' =>
      if span_slow span s then (SampleSlow, set_singleIds (<[key := 0]> (as_singleIds s)) s)
      else
        let '(low, s1) := CheckLowUrl key traceId serviceName span s in
        if low then (SampleLow, s1) else Sample_spans key traceId serviceName spans' s1
  end.

(** [fmt.Sprintf("%s-%s", serviceName, traceId.String())]. *)
Definition single_key (traceId : TraceID) (serviceName : string) : string :=
  serviceName +:+ "-" +:+ TraceID_String traceId.

Definition Adaptive_Sample (traceId : TraceID) (swTraceId serviceName : string) (spans : list Span)
    (s : AdaptiveSampler) : AdaptiveResult * AdaptiveSampler :=
  if CheckAdaptiveSampleValue traceId swTraceId s then (Sampled, s)
  else
    let key := single_key traceId serviceName in
    match as_singleIds s !! key with
    | Some _ => (SampleLow, s)
    | None => Sample_spans key traceId serviceName spans s
    end.

(** [ids] is the order of the range over [singleIds]; the range over
    [serviceTps] does the same to every entry. *)
Definition Adaptive_Reset (ids : list string) (s : AdaptiveSampler) : AdaptiveSampler :=
  let window := as_currentWindow s + 1 in
  let '(window, tps) :=
    if window >=? as_serviceWindow s then
      (0, if as_serviceUrlCount s >=? 10000 then ∅ else (λ _, 0) <$> as_serviceTps s)
    else (window, as_serviceTps s) in
  let '(_, singleIds) :=
    range_map (λ _ holdTime, ([] : list unit,
                 if i32 (holdTime + 1) >=? as_traceIdExpireTime s then None
                 else Some (i32 (holdTime + 1)))) ids (as_singleIds s) in
  set_adaptive (as_sampleValue s) (as_serviceUrlCount s) tps singleIds window s.

(** ** Theorems *)

Lemma byte_at_range traceId i : 0 <= byte_at traceId i < 256.
Proof.
  unfold byte_at. destruct (byte_list traceId !! i) as [a|]; [|lia].
  pose proof (N_ascii_bounded a). lia.
Qed.

Lemma testbit_above a k n : 0 <= a < 2 ^ k → 0 <= k <= n → Z.testbit a n = false.
Proof.
  intros Ha Hn. destruct (Z.eq_dec a 0) as [->|]; [apply Z.bits_0|].
  apply Z.bits_above_log2; [lia|]. assert (Z.log2 a < k) by (apply Z.log2_lt_pow2; lia). lia.
Qed.

Lemma adaptive_bits_bytes traceId sw :
  let index := (if slen sw >? 32 then 10 else 15)%nat in
  adaptive_bits traceId sw = byte_at traceId (index - 1) * 256 + byte_at traceId index.
Proof.
  intros index. unfold adaptive_bits. fold index.
  pose proof (byte_at_range traceId (index - 1)). pose proof (byte_at_range traceId index).
  rewrite Z.shiftl_mul_pow2, u32_small by (unfold two32; lia).
  rewrite <- Z.add_nocarry_lor; [done|]. apply Z.bits_inj'. intros n Hn.
  rewrite Z.land_spec, Z.bits_0. destruct (Z.lt_ge_cases n 8).
  - by rewrite Z.mul_pow2_bits_low by lia.
  - rewrite (testbit_above (byte_at traceId index) 8) by lia. apply andb_false_r.
Qed.

Lemma adaptive_mask_ones v : 0 < v → adaptive_mask v = Z.ones (Z.min v 32).
Proof.
  intros Hv. unfold adaptive_mask. rewrite Z.shiftl_mul_pow2, Z.mul_1_l, Z.ones_equiv by lia.
  assert (0 < 2 ^ v) by (apply Z.pow_pos_nonneg; lia).
  destruct (Z.lt_ge_cases v 32).
  - assert (2 ^ v < 2 ^ 32) by (apply Z.pow_lt_mono_r; lia).
    change (2 ^ 32) with two32 in *.
    rewrite Z.min_l, (u32_small (2 ^ v)), u32_small by lia. lia.
  - rewrite Z.min_r by lia. replace v with ((v - 32) + 32) by lia. rewrite Z.pow_add_r by lia.
    unfold u32 at 2. change (2 ^ 32) with two32. rewrite Z.mod_mul by (unfold two32; lia). done.
Qed.

Lemma CheckAdaptive_divide traceId sw s :
  0 <= as_sampleValue s →
  CheckAdaptiveSampleValue traceId sw s = true ↔
    (2 ^ Z.min (as_sampleValue s) 32 | adaptive_bits traceId sw).
Proof.
  intros Hv. unfold CheckAdaptiveSampleValue. destruct (Z.eqb_spec (as_sampleValue s) 0) as [->|Hne].
  - split; [|done]. intros _. apply Z.divide_1_l.
  - rewrite adaptive_mask_ones, Z.land_ones, Z.eqb_eq by lia.
    rewrite Z.mod_divide; [done|]. apply Z.pow_nonzero; lia.
Qed.
End adaptive.

(** Adaptive sampling is consistent: with sample value [v] a trace passes
    exactly when the two deciding bytes of its id, read big-endian, are a multiple
    of [2^v] - on every node the same traces, one in [2^v] of them - and a trace
    that passes at some value passes at every smaller one. *)
Theorem CheckAdaptiveSampleValue_nested traceId sw s v v' :
  0 <= v <= v' → v' < 32 →
  let index := (if slen sw >? 32 then 10 else 15)%nat in
  (CheckAdaptiveSampleValue traceId sw (SetSampleValue v s) = true ↔
     (2 ^ v | byte_at traceId (index - 1) * 256 + byte_at traceId index)) ∧
  (CheckAdaptiveSampleValue traceId sw (SetSampleValue v' s) = true →
   CheckAdaptiveSampleValue traceId sw (SetSampleValue v s) = true).
Proof.
  intros Hv Hv' index. rewrite !CheckAdaptive_divide by (simpl; lia).
  rewrite adaptive_bits_bytes. fold index. simpl. rewrite !Z.min_l by lia. split; [done|].
  apply Z.divide_trans. exists (2 ^ (v' - v)). rewrite <- Z.pow_add_r by lia. f_equal. lia.
Qed.

Definition ex_traceid (hi lo : ascii) : TraceID :=
  of_byte_list (replicate 14 "001"%char ++ [hi; lo]).

Lemma CheckAdaptiveSampleValue_nested_witness :
  let s := NewAdaptiveSampler 100 10 5 30 in
  CheckAdaptiveSampleValue (ex_traceid "003" "016") "" (SetSampleValue 2 s) = true.
Proof.
  intros s.
  apply (CheckAdaptiveSampleValue_nested (ex_traceid "003" "016") "" s 2 4); [lia|lia|].
  vm_compute. reflexivity.
Defined.

(** *** A slow trace stays *)

Section adaptive_life.
Context `{PData}.

(** Groups of spans, changes of the sample value and resets, the orders of the
    latter arbitrary; the number counts the resets. *)
Inductive as_run (s : AdaptiveSampler) : nat → AdaptiveSampler → Prop :=
  | as_run_0 : as_run s 0 s
  | as_run_sample n s1 traceId sw svc spans :
      as_run s n s1 → as_run s n (Adaptive_Sample traceId sw svc spans s1).2
  | as_run_value n s1 v : as_run s n s1 → as_run s n (SetSampleValue v s1)
  | as_run_reset n s1 ids :
      as_run s n s1 → range_order (as_singleIds s1) ids → as_run s (S n) (Adaptive_Reset ids s1).

(** The age of a remembered id never exceeds the resets since. *)
Definition id_age (key : string) (n : nat) (expire : Z) (s : AdaptiveSampler) : Prop :=
  as_traceIdExpireTime s = expire ∧
  ∃ h, as_singleIds s !! key = Some h ∧ 0 <= h <= Z.of_nat n.

Lemma id_age_insert key k n e s ids urls tps w v :
  id_age key n e s → ids = <[k := 0]> (as_singleIds s) ∨ ids = as_singleIds s →
  id_age key n e (set_adaptive v urls tps ids w s).
Proof.
  intros (He & h & Hh & Hle) [-> | ->].
  - split; [done|]. simpl. destruct (decide (key = k)) as [->|Hne].
    + exists 0. rewrite lookup_insert_eq. split; [done|lia].
    + exists h. by rewrite lookup_insert_ne.
  - split; [done|]. by exists h.
Qed.

Lemma id_age_Sample_spans key n e k tid svc spans s :
  id_age key n e s → id_age key n e (Sample_spans k tid svc spans s).2.
Proof.
  revert s. induction spans as [|sp spans IH]; intros s Ha; [done|]. simpl.
  destruct (span_slow sp s); [apply (id_age_insert key k); auto|].
  assert (id_age key n e (CheckLowUrl k tid svc sp s).2) as Hl.
  { unfold CheckLowUrl. destruct (_ && _); [|done].
    destruct (match as_serviceTps s !! _ with Some _ => _ | None => _ end) as [tps urls]. simpl.
    apply (id_age_insert key (svc +:+ "-" +:+ Span_Name sp)); [done|].
    destruct (i32 (tps + 1) <=? as_serviceWindowCount s); auto. }
  destruct (CheckLowUrl k tid svc sp s) as [low s1]. destruct low; [done|]. by apply IH.
Qed.

Lemma id_age_Reset key n e ids s :
  range_order (as_singleIds s) ids → Z.of_nat (S n) < e → e < two31 →
  id_age key n e s → id_age key (S n) e (Adaptive_Reset ids s).
Proof.
  intros Ho Hn He31 (He & h & Hh & Hle). unfold Adaptive_Reset.
  destruct (if as_currentWindow s + 1 >=? as_serviceWindow s then _ else _) as [w tps].
  pose proof (range_map_order (λ _ holdTime, ([] : list unit,
                 if i32 (holdTime + 1) >=? as_traceIdExpireTime s then None
                 else Some (i32 (holdTime + 1)))) ids _ key Ho) as Hm.
  destruct (range_map _ ids _) as [o m]. simpl in *. split; [done|]. exists (h + 1).
  simpl. rewrite Hm, Hh. simpl. rewrite i32_small by (unfold two31 in *; lia).
  rewrite He. destruct (h + 1 >=? e) eqn:E; bool_facts; [lia|]. split; [done|lia].
Qed.

Lemma as_run_age key s n s' e :
  as_run s n s' → Z.of_nat n < e → e < two31 → id_age key 0 e s → id_age key n e s'.
Proof.
  intros Hr Hn He Ha. induction Hr as [|n s1 tid sw svc spans Hr IH|n s1 v Hr IH|n s1 ids Hr IH Ho].
  - done.
  - specialize (IH Hn). unfold Adaptive_Sample.
    destruct (CheckAdaptiveSampleValue tid sw s1); [done|].
    destruct (as_singleIds s1 !! single_key tid svc); [done|]. by apply id_age_Sample_spans.
  - specialize (IH Hn). by apply (id_age_insert key key); auto.
  - apply id_age_Reset; [done..|]. apply IH. lia.
Qed.
End adaptive_life.

(** A trace stored because one of its spans was slow stays whole: until its
    id expires, every later group of spans of the same trace and service is kept,
    whatever is sampled, reset or reconfigured in between. *)
Theorem slow_trace_never_dropped `{PData} traceId sw sw' svc spans spans' s n s' :
  (Adaptive_Sample traceId sw svc spans s).1 = SampleSlow →
  as_run (Adaptive_Sample traceId sw svc spans s).2 n s' →
  Z.of_nat n < as_traceIdExpireTime s < two31 →
  IsDrop (Adaptive_Sample traceId sw' svc spans' s').1 = false.
Proof.
  intros Hslow Hr [Hn He].
  assert (id_age (single_key traceId svc) 0 (as_traceIdExpireTime s)
            (Adaptive_Sample traceId sw svc spans s).2) as Ha.
  { revert Hslow. unfold Adaptive_Sample. destruct (CheckAdaptiveSampleValue traceId sw s); [done|].
    destruct (as_singleIds s !! _); [done|]. generalize (single_key traceId svc) as key. intros key.
    clear. revert s. induction spans as [|sp spans IH]; intros s; [done|]. simpl.
    destruct (span_slow sp s).
    - intros _. split; [done|]. exists 0. simpl. rewrite lookup_insert_eq. split; [done|lia].
    - assert (as_traceIdExpireTime (CheckLowUrl key traceId svc sp s).2 = as_traceIdExpireTime s) as E.
      { unfold CheckLowUrl. destruct (_ && _); [|done]. by repeat case_match. }
      destruct (CheckLowUrl key traceId svc sp s) as [[] s1]; [done|]. simpl in E. rewrite <- E.
      apply IH. }
  destruct (as_run_age _ _ _ _ _ Hr Hn He Ha) as (_ & h & Hh & _).
  unfold Adaptive_Sample. destruct (CheckAdaptiveSampleValue traceId sw' s'); [done|]. by rewrite Hh.
Qed.

Definition ex_span (start stop : Z) (kind : SpanKind) : Span (H := RefPData.pdata) :=
  {| Span_TraceID := ex_traceid "001" "001"; Span_SpanID := of_byte_list (replicate 8 "002"%char);
     Span_ParentSpanID := ""; Span_Name := "/a"; Span_Kind := kind;
     Span_StartTimestamp := start; Span_EndTimestamp := stop;
     Span_Attributes := @Map_New RefPData.pdata; Span_Status := StatusCodeOk |}.

Lemma slow_trace_never_dropped_witness :
  let s := SetSampleValue 3 (NewAdaptiveSampler 100 10 0 30) in
  let id := ex_traceid "001" "001" in
  IsDrop (Adaptive_Sample id "" "svc" [ex_span 0 5 SpanKindServer]
            (Adaptive_Sample id "" "svc" [ex_span 0 500 SpanKindServer] s).2).1 = false.
Proof.
  intros s id.
  apply (slow_trace_never_dropped id "" "" "svc" [ex_span 0 500 SpanKindServer]
           [ex_span 0 5 SpanKindServer] s 0).
  - reflexivity.
  - constructor.
  - split; vm_compute; reflexivity.
Defined.

(** A trace stored for its rare url is not remembered: [CheckLowUrl] stores the
    key of the url in place of the key of the trace, so a later group of the same
    trace is dropped. *)
Lemma low_trace_is_forgotten :
  let s := SetSampleValue 3 (NewAdaptiveSampler 100 10 1 30) in
  let id := ex_traceid "001" "001" in
  let '(r1, s1) := Adaptive_Sample id "" "svc" [ex_span 0 5 SpanKindServer] s in
  let '(r2, _) := Adaptive_Sample id "" "svc" [ex_span 0 5 SpanKindInternal] s1 in
  r1 = SampleLow ∧ r2 = SampleDrop ∧ as_singleIds s1 !! single_key (H := RefPData.pdata) id "svc" = None ∧
  as_singleIds s1 !! "svc-/a" = Some 0.
Proof. repeat split; reflexivity. Qed.

(** Only [SampleLow] gets the report type of a single store: the case of the
    switch is [SampleSlow | SampleLow], the number 3. *)
Lemma GetReportType_slow : GetReportType SampleSlow = 0 ∧ GetReportType SampleLow = 5.
Proof. done. Qed.
