(* ===== verification/Notify.v ===== *)
(** * Notify: the queues towards the agent, the profiler and the receiver

    Models [internal/notify] ([signal.go], [uds_notify.go]), [internal/profile]
    and the queue of [internal/sampler/sample_api.go] of the back-sampling
    processor.  The outcome of an HTTP request is an argument: [post n] is
    whether the [n]-th request of the run succeeds.  JSON encoding and the
    logging of outcomes are left out. *)

From S2P Require Import Prelude GoStrings Float64 Labels.

(** ** Signals *)

Record Signal := {
  sg_PidStr : string;
  sg_StartTS : Z;          (* uint32, s *)
  sg_EndTS : Z;
  sg_ContainerId : string;
  sg_ApmSpanId : string;
  sg_ApmServiceName : string;
  sg_ApmTraceId : string;
  sg_EndPoint : string;
  sg_SignalType : Z;       (* uint32 *)
}.

Definition buildSignal (trace : TraceLabels) : Signal :=
  let signalType := 0 in
  let signalType := if tl_IsSlow trace then Z.lor signalType 1 else signalType in
  let signalType := if tl_IsError trace then Z.lor signalType 2 else signalType in
  {| sg_PidStr := FormatInt (tl_Pid trace);
     sg_StartTS := u32 (tl_StartTime trace / 1000000000);
     sg_EndTS := u32 (tl_EndTime trace / 1000000000);
     sg_ContainerId := tl_ContainerId trace;
     sg_ApmSpanId := tl_ApmSpanId trace;
     sg_ApmServiceName := tl_ServiceName trace;
     sg_ApmTraceId := tl_TraceId trace;
     sg_EndPoint := tl_Url trace;
     sg_SignalType := signalType |}.

(** ** The registry of clients *)

Record UdsClient := {
  uc_sockAddr : string;
  uc_urlPath : string;
  uc_component : string;
  uc_isHealth : bool;
}.

Definition buildUdsClient (sockAddr urlPath component : string) : UdsClient :=
  {| uc_sockAddr := sockAddr; uc_urlPath := urlPath; uc_component := component;
     uc_isHealth := true |}.

Definition set_health (b : bool) (c : UdsClient) : UdsClient :=
  {| uc_sockAddr := uc_sockAddr c; uc_urlPath := uc_urlPath c; uc_component := uc_component c;
     uc_isHealth := b |}.

Record RegisterArg := { ra_Component : string; ra_SockAddr : string; ra_UrlPath : string }.

Record UdsRegistryServer := {
  ur_signals : list Signal;
  ur_udsClients : list UdsClient;
}.

(** The loop of [registry] over the clients: the first one of the component
    becomes healthy; [None] when there is none. *)
Fixpoint mark_healthy (component : string) (l : list UdsClient) : option (list UdsClient) :=
  match l with
  | [] => None
  | c :: l' =>
      if bool_decide (uc_component c = component) then Some (set_health true c :: l')
      else (λ l'', c :: l'') <$> mark_healthy component l'
  end.

(** [arg] is [None] when the body is no [RegisterArg]; the answer is always the
    same. *)
Definition registry (arg : option RegisterArg) (s : UdsRegistryServer)
    : string * UdsRegistryServer :=
  ("register success",
   match arg with
   | None => s
   | Some a =>
       match mark_healthy (ra_Component a) (ur_udsClients s) with
       | Some l => {| ur_signals := ur_signals s; ur_udsClients := l |}
       | None =>
           {| ur_signals := ur_signals s;
              ur_udsClients := ur_udsClients s ++
                [buildUdsClient (ra_SockAddr a) (ra_UrlPath a) (ra_Component a)] |}
       end
   end).

Fixpoint find_client (component : string) (l : list UdsClient) : option UdsClient :=
  match l with
  | [] => None
  | c :: l' => if bool_decide (uc_component c = component) then Some c
               else find_client component l'
  end.

Definition healthCheck (component : option string) (s : UdsRegistryServer) : string :=
  match component with
  | None => "error, cannot parse request argument"
  | Some k =>
      match find_client k (ur_udsClients s) with
      | Some c => if uc_isHealth c then "ok" else "error, already register but not health"
      | None => "error, not exist"
      end
  end.

Definition SendSignal (trace : TraceLabels) (s : UdsRegistryServer) : UdsRegistryServer :=
  {| ur_signals := ur_signals s ++ [buildSignal trace]; ur_udsClients := ur_udsClients s |}.

(** A request: the client it goes to and the signal. *)
Definition Request := (string * string * Signal)%type.

Section batch.
Variable post : nat → bool.

(** The inner loop: the signals for one client, [n] requests made so far. *)
Fixpoint send_signals (signals : list Signal) (c : UdsClient) (n : nat)
    : list Request * UdsClient * nat :=
  match signals with
  | [] => ([], c, n)
  | sg :: rest =>
      if negb (uc_isHealth c) then send_signals rest c n
      else
        let c' := if post n then c else set_health false c in
        let '(reqs, c'', n') := send_signals rest c' (S n) in
        ((uc_sockAddr c, uc_urlPath c, sg) :: reqs, c'', n')
  end.

Fixpoint send_clients (signals : list Signal) (clients : list UdsClient) (n : nat)
    : list (list Request) * list UdsClient * nat :=
  match clients with
  | [] => ([], [], n)
  | c :: cs =>
      let '(reqs, c', n1) := send_signals signals c n in
      let '(rest, cs', n2) := send_clients signals cs n1 in
      (reqs :: rest, c' :: cs', n2)
  end.

(** The requests client by client; the queue is taken whole before. *)
Definition BatchSendSignals (n : nat) (s : UdsRegistryServer)
    : list (list Request) * UdsRegistryServer :=
  match ur_signals s with
  | [] => ([], s)
  | signals =>
      let '(reqs, clients, _) := send_clients signals (ur_udsClients s) n in
      (reqs, {| ur_signals := []; ur_udsClients := clients |})
  end.

(** How many of the requests numbered from [n] on are made out of [k]: up to the
    first that fails, included. *)
Fixpoint delivered (n k : nat) : nat :=
  match k with
  | O => O
  | S k' => if post n then S (delivered (S n) k') else 1%nat
  end.

Lemma send_signals_unhealthy signals c n :
  uc_isHealth c = false → send_signals signals c n = ([], c, n).
Proof. intros Hc. induction signals as [|sg rest IH]; simpl; [done|]. by rewrite Hc. Qed.

Lemma send_signals_spec signals c n :
  uc_isHealth c = true →
  let d := delivered n (length signals) in
  send_signals signals c n =
    ((λ sg, (uc_sockAddr c, uc_urlPath c, sg)) <$> take d signals,
     set_health (forallb post (seq n d)) c, (n + d)%nat).
Proof.
  intros Hc. cbv zeta. revert n. induction signals as [|sg rest IH]; intros n.
  - simpl. rewrite Nat.add_0_r. by destruct c; simpl in Hc; subst.
  - simpl. rewrite Hc. simpl. destruct (post n) eqn:Ep; simpl.
    + rewrite IH. simpl. rewrite Ep. simpl. by rewrite Nat.add_succ_r.
    + rewrite send_signals_unhealthy by done. rewrite Ep. simpl.
      by rewrite Nat.add_1_r.
Qed.
End batch.

(** A batch takes every queued signal out of the queue; a client that was
    healthy is sent them in order up to and including the first that fails, after
    which it is unhealthy, and an unhealthy client is sent nothing: no signal is
    sent twice to one client. *)
Theorem BatchSendSignals_spec post n s :
  ur_signals s ≠ [] →
  let '(reqs, s') := BatchSendSignals post n s in
  ur_signals s' = [] ∧
  ∃ starts, length starts = length (ur_udsClients s) ∧
    Forall2 (λ cn rc,
      let '(c, m) := cn in let '(req, c') := rc in
      if uc_isHealth c then
        let d := delivered post m (length (ur_signals s)) in
        req = ((λ sg, (uc_sockAddr c, uc_urlPath c, sg)) <$> take d (ur_signals s)) ∧
        c' = set_health (forallb post (seq m d)) c
      else req = [] ∧ c' = c)
      (zip (ur_udsClients s) starts) (zip reqs (ur_udsClients s')).
Proof.
  intros Hne. unfold BatchSendSignals. destruct (ur_signals s) as [|sg0 rest] eqn:E; [done|].
  clear Hne. generalize (sg0 :: rest) as signals. clear E. intros signals.
  generalize (ur_udsClients s) as clients. intros clients. revert n.
  induction clients as [|c clients IH]; intros n.
  { split; [done|]. exists []. split; [done|constructor]. }
  cbn [send_clients]. destruct (send_signals post signals c n) as [[req c'] n1] eqn:Es.
  specialize (IH n1). destruct (send_clients post signals clients n1) as [[reqs cs] n2].
  destruct IH as (_ & starts & Hlen & Hall). split; [done|]. exists (n :: starts).
  split; [simpl; by rewrite Hlen|]. simpl. constructor; [|exact Hall].
  destruct (uc_isHealth c) eqn:Ec.
  - rewrite send_signals_spec in Es by done. injection Es as <- <- <-. done.
  - rewrite send_signals_unhealthy in Es by done. by injection Es as <- <- <-.
Qed.

Lemma BatchSendSignals_spec_witness :
  let t := ex_labels "t1" "/a" 5 true true in
  let s := SendSignal t (SendSignal t
             (registry (Some {| ra_Component := "agent"; ra_SockAddr := "/s"; ra_UrlPath := "/u" |})
                {| ur_signals := []; ur_udsClients := [] |}).2) in
  ur_signals (BatchSendSignals (λ _, false) 0 s).2 = [].
Proof.
  intros t s. pose proof (BatchSendSignals_spec (λ _, false) 0 s) as H.
  destruct (BatchSendSignals (λ _, false) 0 s) as [reqs s']. apply H. discriminate.
Defined.

(** *** Registration *)

Lemma mark_healthy_None k l : mark_healthy k l = None ↔ find_client k l = None.
Proof.
  induction l as [|c l IH]; simpl; [done|]. case_bool_decide; [done|].
  rewrite <- IH. by destruct (mark_healthy k l).
Qed.

Lemma mark_healthy_Some k l l' :
  mark_healthy k l = Some l' →
  uc_component <$> l' = uc_component <$> l ∧
  find_client k l' = set_health true <$> find_client k l ∧
  ∀ k', k' ≠ k → find_client k' l' = find_client k' l.
Proof.
  revert l'. induction l as [|c l IH]; intros l'; simpl; [done|].
  case_bool_decide as Hc.
  - intros [= <-]. simpl. split; [done|]. rewrite bool_decide_true by done. split; [done|].
    intros k' Hk'. by rewrite !bool_decide_false by congruence.
  - destruct (mark_healthy k l) as [l1|]; simpl; [|done]. intros [= <-].
    destruct (IH l1 eq_refl) as (H1 & H2 & H3). split; [by rewrite !fmap_cons, H1|]. simpl.
    rewrite bool_decide_false by done. split; [done|]. intros k' Hk'.
    case_bool_decide; [done|]. by apply H3.
Qed.

Lemma find_client_app k l1 l2 :
  find_client k (l1 ++ l2) = match find_client k l1 with Some c => Some c | None => find_client k l2 end.
Proof. induction l1 as [|c l1 IH]; simpl; [done|]. by case_bool_decide. Qed.

Lemma find_client_elem k l : find_client k l = None ↔ k ∉ (uc_component <$> l).
Proof.
  induction l as [|c l IH]; simpl; [split; [by intros _ ?%not_elem_of_nil|done]|].
  rewrite not_elem_of_cons, <- IH. case_bool_decide; naive_solver.
Qed.

(** A registration makes its component healthy - the health check answers
    ["ok"] - and touches no other; a component is never listed twice, and one that
    registers again keeps the address it registered first. *)
Lemma registry_spec a s :
  NoDup (uc_component <$> ur_udsClients s) →
  let s' := (registry (Some a) s).2 in
  healthCheck (Some (ra_Component a)) s' = "ok" ∧
  (∀ k, k ≠ ra_Component a → healthCheck (Some k) s' = healthCheck (Some k) s) ∧
  NoDup (uc_component <$> ur_udsClients s') ∧
  find_client (ra_Component a) (ur_udsClients s') =
    Some (from_option (set_health true)
            (buildUdsClient (ra_SockAddr a) (ra_UrlPath a) (ra_Component a))
            (find_client (ra_Component a) (ur_udsClients s))).
Proof.
  intros Hnd. unfold registry, healthCheck. simpl.
  destruct (mark_healthy (ra_Component a) (ur_udsClients s)) as [l|] eqn:E; simpl.
  - destruct (mark_healthy_Some _ _ _ E) as (H1 & H2 & H3).
    destruct (find_client (ra_Component a) (ur_udsClients s)) as [c|] eqn:Ef.
    + rewrite H2. simpl. split_and!; [done| |by rewrite H1|done]. intros k Hk. by rewrite H3.
    + apply mark_healthy_None in Ef. congruence.
  - apply mark_healthy_None in E. rewrite find_client_app, E. simpl.
    rewrite bool_decide_true by done. simpl. split_and!; [done| | |done].
    + intros k Hk. rewrite find_client_app. destruct (find_client k (ur_udsClients s)); [done|].
      simpl. by rewrite bool_decide_false by congruence.
    + rewrite fmap_app. apply list.NoDup_app. split_and!; [done| |apply NoDup_singleton].
      intros x Hx ->%list_elem_of_singleton. by apply find_client_elem in E.
Qed.

Lemma registry_spec_witness :
  healthCheck (Some "agent")
    (registry (Some {| ra_Component := "agent"; ra_SockAddr := "/s"; ra_UrlPath := "/u" |})
       {| ur_signals := []; ur_udsClients := [] |}).2 = "ok".
Proof.
  apply (registry_spec {| ra_Component := "agent"; ra_SockAddr := "/s"; ra_UrlPath := "/u" |}).
  constructor.
Defined.

(** ** The profile signals *)

Record ProfileSignal := {
  ps_TraceId : string;
  ps_SpanId : string;
  ps_StartTime : Z;
  ps_EndTime : Z;
  ps_Flag : Z;
  ps_Retry : Z;
}.

(** The interface [ProfileApi]: the queue of [ebpfProfileApi], or the
    implementation that does nothing. *)
Inductive ProfileApi :=
  | ebpfProfileApi (address : string) (signals : list ProfileSignal)
  | noopProfileApi.

Definition NewProfileApi (ip : string) (port : Z) : ProfileApi :=
  if port <=? 0 then noopProfileApi
  else ebpfProfileApi ("http://" +:+ ip +:+ ":" +:+ FormatInt port +:+ "/otelSignal") [].

Definition AddProfileSignal (trace : TraceLabels) (flag : Z) (api : ProfileApi) : ProfileApi :=
  match api with
  | ebpfProfileApi address signals =>
      ebpfProfileApi address
        (signals ++ [{| ps_TraceId := tl_TraceId trace; ps_SpanId := tl_ApmSpanId trace;
                        ps_StartTime := tl_StartTime trace; ps_EndTime := tl_EndTime trace;
                        ps_Flag := flag; ps_Retry := 3 |}])
  | noopProfileApi => noopProfileApi
  end.

(** The address and body of the request, if one is made. *)
Definition ConsumeProfileSignals (api : ProfileApi)
    : option (string * list ProfileSignal) * ProfileApi :=
  match api with
  | ebpfProfileApi address [] => (None, api)
  | ebpfProfileApi address signals => (Some (address, signals), ebpfProfileApi address [])
  | noopProfileApi => (None, noopProfileApi)
  end.

(** ** The traces for the receiver *)

Record TraceGroup := {
  tg_Name : string;
  tg_Version : string;
  tg_Source : string;
  tg_Timestamp : Z;
  tg_Labels : TraceLabels;
}.

Definition TableSpanTrace : string := "span_trace_group".

Record SampleApi := { sa_cachedTraces : list TraceGroup }.

Definition StoreTrace (trace : TraceLabels) (api : SampleApi) : SampleApi :=
  {| sa_cachedTraces := sa_cachedTraces api ++
       [{| tg_Name := TableSpanTrace; tg_Version := "v1.1"; tg_Source := "otel";
           tg_Timestamp := tl_StartTime trace; tg_Labels := trace |}] |}.

(** The data group that is sent, if any. *)
Definition SendTraces (api : SampleApi) : option (string * list TraceGroup) * SampleApi :=
  match sa_cachedTraces api with
  | [] => (None, api)
  | traces => (Some (TableSpanTrace, traces), {| sa_cachedTraces := [] |})
  end.
