(* ===== verification/ProcNet.v ===== *)
(** * ProcNet: what the extension reads under /proc

    Models [pkg/extension/fillprocextension/internal/proc]: [netstat.go],
    [proc.go], [container.go] and [blacklist.go].  The file system is the
    argument [ProcFS]: what [os.Readlink], [os.ReadFile], [os.ReadDir] and a line
    scanner over an opened file give for a path, [None] being the error.  Errors
    of the parser are [None] as well: no caller looks at their text. *)

From S2P Require Import Prelude GoStrings.

Record ProcFS := {
  fs_Readlink : string → option string;
  fs_ReadFile : string → option string;
  fs_ReadDir : string → option (list (string * bool));   (* name, [IsDir()] *)
  fs_Lines : string → option (list string);
  fs_Exists : string → bool;
}.

(** ** netstat.go *)

Definition ipv4StrLen : Z := 8.
Definition ipv6StrLen : Z := 32.

(** [net.IP]: 4 or 16 bytes. *)
Definition IP := list Z.

Record SockAddr := { sa_IP : IP; sa_Port : Z }.

Record SockTabEntry := {
  ste_Ino : string;
  ste_LocalAddr : SockAddr;
  ste_RemoteAddr : SockAddr;
}.

(** [net.IP.String]: dotted decimal for IPv4 and IPv4-mapped addresses, else the
    eight groups in hexadecimal without leading zeros, the first longest run of
    at least two zero groups written as two colons. *)
Definition dotted (l : list Z) : string := Join "." (FormatInt <$> l).

Definition hexDigitOf (n : Z) : ascii :=
  ascii_of_N (Z.to_N (if n <? 10 then n + 48 else n + 87)).

Definition hex16 (n : Z) : string :=
  of_byte_list
    (if n <? 16 then [hexDigitOf n]
     else if n <? 256 then [hexDigitOf (n / 16); hexDigitOf (n mod 16)]
     else if n <? 4096 then [hexDigitOf (n / 256); hexDigitOf (n / 16 mod 16); hexDigitOf (n mod 16)]
     else [hexDigitOf (n / 4096); hexDigitOf (n / 256 mod 16); hexDigitOf (n / 16 mod 16);
           hexDigitOf (n mod 16)]).

Fixpoint groups (l : list Z) : list Z :=
  match l with
  | a :: b :: l' => a * 256 + b :: groups l'
  | _ => []
  end.

Fixpoint zero_run (l : list Z) : nat :=
  match l with
  | 0 :: l' => S (zero_run l')
  | _ => O
  end.

(** The start and length of the first longest run of zeros from index [i] on. *)
Fixpoint longest_run (l : list Z) (i : nat) (best : nat * nat) : nat * nat :=
  match l with
  | [] => best
  | _ :: l' => let n := zero_run l in
               longest_run l' (S i) (if (snd best <? n)%nat then (i, n) else best)
  end.

Definition ipv6_string (l : list Z) : string :=
  let gs := groups l in
  let '(i, n) := longest_run gs 0 (O, O) in
  if (2 <=? n)%nat then
    Join ":" (hex16 <$> take i gs) +:+ "::" +:+ Join ":" (hex16 <$> drop (i + n) gs)
  else Join ":" (hex16 <$> gs).

Definition IP_String (ip : IP) : string :=
  if Nat.eqb (length ip) 4 then dotted ip
  else if bool_decide (take 12 ip = [0; 0; 0; 0; 0; 0; 0; 0; 0; 0; 255; 255]) then dotted (drop 12 ip)
  else ipv6_string ip.

(** [SockAddr.String]. *)
Definition SockAddr_String (s : SockAddr) : string :=
  IP_String (sa_IP s) +:+ ":" +:+ FormatInt (sa_Port s).

(** [binary.LittleEndian.PutUint32]: the four bytes it writes. *)
Definition PutUint32 (v : Z) : list Z :=
  [Z.land v 255; Z.land (Z.shiftr v 8) 255; Z.land (Z.shiftr v 16) 255; Z.land (Z.shiftr v 24) 255].

Definition parseIPv4 (s : string) : option IP :=
  match ParseUint16 s 32 with
  | None => None
  | Some v => Some (PutUint32 (u32 v))
  end.

(** The loop of [parseIPv6]: one group of eight digits per round, [fuel] rounds at
    most - the source runs one per group of its 32 characters. *)
Fixpoint parseIPv6_loop (fuel : nat) (s : string) : option IP :=
  match fuel with
  | O => Some []
  | S fuel' =>
      if slen s =? 0 then Some []
      else match ParseUint16 (stake 8 s) 32 with
           | None => None
           | Some u => app (PutUint32 (u32 u)) <$> parseIPv6_loop fuel' (sdrop 8 s)
           end
  end.

Definition parseIPv6 (s : string) : option IP := parseIPv6_loop 4 s.

Definition parseAddr (s : string) : option SockAddr :=
  match Split s ":" with
  | ip :: port :: _ =>
      match (if slen ip =? ipv4StrLen then parseIPv4 ip
             else if slen ip =? ipv6StrLen then parseIPv6 ip
             else None) with
      | None => None
      | Some ip =>
          match ParseUint16 port 16 with
          | None => None
          | Some v => Some {| sa_IP := ip; sa_Port := u16 v |}
          end
      end
  | _ => None
  end.

(** One line of the table; [None] ends [DoNetstat] with an error. *)
Definition netstat_line (peers : gmap string Z) (line : string) (result : gmap string SockTabEntry)
    : option (gmap string SockTabEntry) :=
  let line := if IndexByte line "#" >=? 0 then stake (Z.to_nat (IndexByte line "#")) line else line in
  let fields := Fields line in
  if len fields <? 12 then None
  else match fields !! 1%nat, fields !! 2%nat, fields !! 9%nat with
       | Some f1, Some f2, Some f9 =>
           match parseAddr f1 with
           | None => None
           | Some localAddr =>
               match parseAddr f2 with
               | None => None
               | Some remoteAddr =>
                   let peer := SockAddr_String localAddr in
                   Some (match peers !! peer with
                         | Some matchPort =>
                             if sa_Port remoteAddr =? u16 matchPort then
                               <[peer := {| ste_Ino := f9; ste_LocalAddr := localAddr;
                                            ste_RemoteAddr := remoteAddr |}]> result
                             else result
                         | None => result
                         end)
               end
           end
       | _, _, _ => None
       end.

Fixpoint netstat_lines (peers : gmap string Z) (lines : list string)
    (result : gmap string SockTabEntry) : option (gmap string SockTabEntry) :=
  match lines with
  | [] => Some result
  | l :: ls => match netstat_line peers l result with
               | None => None
               | Some r => netstat_lines peers ls r
               end
  end.

(** The first line of the file is the title. *)
Definition DoNetstat (fs : ProcFS) (path : string) (peers : gmap string Z)
    (result : gmap string SockTabEntry) : option (gmap string SockTabEntry) :=
  match fs_Lines fs path with
  | None => None
  | Some lines => netstat_lines peers (drop 1 lines) result
  end.

(** ** blacklist.go *)

Definition blackCmdList : list string := ["/usr/lib/systemd"; "-bash"; "/bin/sh"; "/bin/bash"].

Definition blackComms : list string :=
  ["sh"; "bash"; "sshd"; "etcd"; "nginx"; "nginx-ingress-c"; "sftp-server"; "NetworkManager";
   "calico-node"; "pause"; "sleep"; "crond"; "openresty"; "coredns"; "kube-apiserver";
   "kube-controller"; "kube-proxy"; "kube-scheduler"; "kubelet"; "kubectl"; "containerd";
   "containerd-shim"; "docker-proxy"; "dockerd"; "odiglet"; "runsvdir"; "runsv"; "tail"; "top";
   "git"; "ssh"; "ps"; "vi"; "vim"; "tmux"].

Definition SkipBlackComm (comm : string) : bool :=
  if bool_decide (comm = "") then true else bool_decide (comm ∈ blackComms).

Definition SkipBlackCmdline (cmdLine : string) : bool :=
  if bool_decide (cmdLine = "") then true else existsb (HasPrefix cmdLine) blackCmdList.

(** ** container.go *)

Definition is_hex (a : ascii) : bool :=
  let n := Z.of_N (N_of_ascii a) in (48 <=? n) && (n <=? 57) || (97 <=? n) && (n <=? 102).

Fixpoint hex_prefix (l : list ascii) : list ascii * list ascii :=
  match l with
  | a :: l' => if is_hex a then let '(p, r) := hex_prefix l' in (a :: p, r) else ([], l)
  | [] => ([], [])
  end.

(** [([0-9a-f]+)(?:\.|\s*$)] at the start of [l]: a shorter run of digits is
    followed by a digit, so only the longest can match. *)
Definition match_id (l : list ascii) : option (list ascii) :=
  let '(p, r) := hex_prefix l in
  match p with
  | [] => None
  | _ => match r with
         | "."%char :: _ => Some p
         | _ => if forallb is_re_space r then Some p else None
         end
  end.

(** The last position of [l] after a byte of [f] from which [m] matches: what a
    greedy [.*] in front of such a byte finds. *)
Fixpoint last_after (f : ascii → bool) (m : list ascii → option (list ascii)) (l : list ascii)
    : option (list ascii) :=
  match l with
  | [] => None
  | a :: l' => match last_after f m l' with
               | Some x => Some x
               | None => if f a then m l' else None
               end
  end.

(** [cgroupContainerIDRe.FindStringSubmatch], the second submatch:
    [^.*/(?:.*[-:])?([0-9a-f]+)(?:\.|\s*$)]. *)
Definition cgroupContainerIDRe (line : string) : option string :=
  of_byte_list <$>
    last_after (λ a, Ascii.eqb a "/")
      (λ l, match last_after (λ a, Ascii.eqb a "-" || Ascii.eqb a ":") match_id l with
            | Some x => Some x
            | None => match_id l
            end) (byte_list line).

Definition getContainerIDFromLine (line : string) : string :=
  match cgroupContainerIDRe line with None => "" | Some id => id end.

Fixpoint getContainerIDFromReader (lines : list string) : string :=
  match lines with
  | [] => ""
  | line :: ls =>
      let id := getContainerIDFromLine line in
      if bool_decide (id ≠ "") then id else getContainerIDFromReader ls
  end.

(** ** proc.go *)

Definition PATH_ROOT : string := "/proc".
Definition PREFIX_SOCKET : string := "socket:[".

(** [path.Join] of components that are clean already. *)
Definition Path (pid : Z) (subpath : list string) : string :=
  Join "/" (PATH_ROOT :: FormatInt pid :: subpath).

Record ProcInfo := {
  pi_ProcessID : Z;
  pi_ExeName : string;
  pi_CmdLine : string;
  pi_Comm : string;
  pi_HostName : string;
  pi_ContainerId : string;
  pi_NetNamespace : string;
  pi_Ignore : bool;
}.

Section proc.
Variable fs : ProcFS.

(** The error is dropped by every caller, which looks at the string alone. *)
Definition or_empty (o : option string) : string := from_option id "" o.

Definition GetContainerIDFromCGroup (pid : Z) : string :=
  let cgroupPath := "/proc/" +:+ FormatInt pid +:+ "/cgroup" in
  if negb (fs_Exists fs cgroupPath) then ""
  else match fs_Lines fs cgroupPath with
       | None => ""
       | Some lines =>
           let containerId := getContainerIDFromReader lines in
           if slen containerId <? 12 then "" else containerId
       end.

Definition GetExeName (pid : Z) : string := or_empty (fs_Readlink fs (Path pid ["exe"])).

Definition GetCommandLine (pid : Z) : string :=
  or_empty ((λ content,
    TrimSpace (of_byte_list ((λ a, if Ascii.eqb a nul then " "%char else a) <$> byte_list content)))
    <$> fs_ReadFile fs (Path pid ["cmdline"])).

Definition newline : string := String "010"%char "".

Definition GetComm (pid : Z) : string :=
  or_empty ((λ content, TrimSuffix content newline) <$> fs_ReadFile fs (Path pid ["comm"])).

Definition GetHostName (pid : Z) : string :=
  or_empty ((λ content, TrimSuffix content newline)
            <$> fs_ReadFile fs (Path pid ["root"; "etc"; "hostname"])).

Definition GetNetNamespace (pid : Z) : string := or_empty (fs_Readlink fs (Path pid ["ns"; "net"])).

Definition ScanProc (pid : Z) : ProcInfo :=
  let info exe ns comm cmd host cid ignore :=
    {| pi_ProcessID := pid; pi_ExeName := exe; pi_CmdLine := cmd; pi_Comm := comm;
       pi_HostName := host; pi_ContainerId := cid; pi_NetNamespace := ns; pi_Ignore := ignore |} in
  let exe := GetExeName pid in
  if bool_decide (exe = "") then info exe "" "" "" "" "" true
  else
    let ns := GetNetNamespace pid in
    if bool_decide (ns = "") then info exe ns "" "" "" "" true
    else
      let comm := GetComm pid in
      if SkipBlackComm comm then info exe ns comm "" "" "" true
      else
        let cmd := GetCommandLine pid in
        if SkipBlackCmdline cmd then info exe ns comm cmd "" "" true
        else
          let host := GetHostName pid in
          if bool_decide (host = "") then info exe ns comm cmd host "" true
          else info exe ns comm cmd host (GetContainerIDFromCGroup pid) false.

Definition ListMatchNetSocks (p : ProcInfo) (peers : gmap string Z)
    : option (gmap string SockTabEntry) :=
  match DoNetstat fs (Path (pi_ProcessID p) ["net"; "tcp"]) peers ∅ with
  | None => None
  | Some result => DoNetstat fs (Path (pi_ProcessID p) ["net"; "tcp6"]) peers result
  end.

Definition ListVMMatchNetSocks (peers : gmap string Z) : option (gmap string SockTabEntry) :=
  match DoNetstat fs "/proc/net/tcp" peers ∅ with
  | None => None
  | Some result => DoNetstat fs "/proc/net/tcp6" peers result
  end.

Definition links_to (socks : gmap string SockTabEntry) (lname peer : string) : bool :=
  match socks !! peer with
  | Some sock => bool_decide (PREFIX_SOCKET +:+ ste_Ino sock +:+ "]" = lname)
  | None => false
  end.

(** [order] is that of the range over [socks], made once per socket link. *)
Definition GetMatchNetSockets (p : ProcInfo) (order : list string) (socks : gmap string SockTabEntry)
    : list string :=
  match fs_ReadDir fs (Path (pi_ProcessID p) ["fd"]) with
  | None => []
  | Some dirs =>
      mjoin ((λ di : string * bool,
        if snd di then []
        else match fs_Readlink fs (Path (pi_ProcessID p) ["fd"; fst di]) with
             | None => []
             | Some lname =>
                 if negb (HasPrefix lname PREFIX_SOCKET) then []
                 else filter (λ peer, links_to socks lname peer = true) order
             end) <$> dirs)
  end.

Definition isDirectoryPid (name : string) : Z :=
  match byte_list name with
  | [] => 0
  | a :: _ => if (nat_of_ascii a <? 48)%nat || (57 <? nat_of_ascii a)%nat then 0
              else AtoiValue name
  end.

Definition FindAllProcesses : option (gset Z) :=
  match fs_ReadDir fs PATH_ROOT with
  | None => None
  | Some dirs =>
      Some (foldS (λ (di : string * bool) result,
              if negb (snd di) then result
              else let pid := isDirectoryPid (fst di) in
                   if pid >? 0 then {[pid]} ∪ result else result) dirs ∅)
  end.
End proc.

(** ** Theorems *)

(** What the kernel prints in /proc/net/tcp: each word of four bytes of the
    address, read in the (little-endian) order of the machine, with eight
    digits, then the port with four. *)
Fixpoint hexDigits (k : nat) (v : Z) : list ascii :=
  match k with
  | O => []
  | S k' => hexDigits k' (v / 16) ++
            [ascii_of_N (Z.to_N (if v mod 16 <? 10 then v mod 16 + 48 else v mod 16 + 55))]
  end.

Fixpoint kernel_hex (ip : list Z) : list ascii :=
  match ip with
  | a :: b :: c :: d :: ip' => hexDigits 8 (a + 256 * b + 65536 * c + 16777216 * d) ++ kernel_hex ip'
  | _ => []
  end.

Definition kernel_addr (ip : IP) (port : Z) : string :=
  of_byte_list (kernel_hex ip ++ ":"%char :: hexDigits 4 port).

Lemma hexDigit_digit n :
  0 <= n < 16 →
  let a := ascii_of_N (Z.to_N (if n <? 10 then n + 48 else n + 55)) in
  hexDigit a = Some n ∧ a ≠ ":"%char.
Proof.
  intros Hn.
  assert (n ∈ [0; 1; 2; 3; 4; 5; 6; 7; 8; 9; 10; 11; 12; 13; 14; 15]) as Hin.
  { rewrite !elem_of_cons. lia. }
  clear Hn. revert n Hin. rewrite <- list.Forall_forall. repeat constructor; done.
Qed.

Lemma digits_value_app dig base l1 l2 acc :
  digits_value dig base (l1 ++ l2) acc =
    digits_value dig base l1 acc ≫= digits_value dig base l2.
Proof. revert acc. induction l1 as [|a l1 IH]; intros acc; simpl; [done|]. by destruct (dig a). Qed.

Lemma digits_value_hexDigits k v acc :
  digits_value hexDigit 16 (hexDigits k v) acc = Some (acc * 16 ^ Z.of_nat k + v mod 16 ^ Z.of_nat k).
Proof.
  revert v acc. induction k as [|k IH]; intros v acc; cbn [hexDigits].
  - simpl. f_equal. rewrite Z.mod_1_r. lia.
  - rewrite digits_value_app, IH. cbn [mbind option_bind digits_value].
    destruct (hexDigit_digit (v mod 16)) as [-> _]; [by apply Z.mod_pos_bound|].
    f_equal. rewrite Nat2Z.inj_succ, Z.pow_succ_r by lia.
    rewrite Z.rem_mul_r; [lia|lia|apply Z.pow_pos_nonneg; lia].
Qed.

Lemma length_hexDigits k v : length (hexDigits k v) = k.
Proof. revert v. induction k as [|k IH]; intros v; simpl; [done|]. rewrite length_app, IH. simpl. lia. Qed.

Lemma hexDigits_no_colon k v : ":"%char ∉ hexDigits k v.
Proof.
  revert v. induction k as [|k IH]; intros v; [apply not_elem_of_nil|]. simpl.
  rewrite elem_of_app, list_elem_of_singleton. intros [Hin|Heq]; [by apply IH in Hin|].
  destruct (hexDigit_digit (v mod 16)) as [_ Hne]; [by apply Z.mod_pos_bound|]. by rewrite <- Heq in Hne.
Qed.

Lemma ParseUint16_hexDigits k v :
  0 <= v < 16 ^ Z.of_nat k → k ≠ O →
  ParseUint16 (of_byte_list (hexDigits k v)) (4 * Z.of_nat k) = Some v.
Proof.
  intros Hv Hk. unfold ParseUint16. rewrite byte_list_inv.
  pose proof (length_hexDigits k v) as Hl. pose proof (digits_value_hexDigits k v 0) as Hd.
  destruct (hexDigits k v) as [|a l]; [by subst k|]. rewrite Hd, Z.mul_0_l, Z.add_0_l, Z.mod_small by done.
  rewrite Z.pow_mul_r by lia. change (2 ^ 4) with 16.
  destruct (Z.ltb_spec v (16 ^ Z.of_nat k)); [done|lia].
Qed.

Lemma PutUint32_bytes a b c d :
  0 <= a < 256 → 0 <= b < 256 → 0 <= c < 256 → 0 <= d < 256 →
  PutUint32 (a + 256 * b + 65536 * c + 16777216 * d) = [a; b; c; d].
Proof.
  intros. unfold PutUint32. change 255 with (Z.ones 8).
  rewrite !Z.land_ones, !Z.shiftr_div_pow2 by lia.
  change (2 ^ 8) with 256. change (2 ^ 16) with 65536. change (2 ^ 24) with 16777216.
  set (v := a + _ + _ + _). assert (v = a + 256 * b + 65536 * c + 16777216 * d) as Hv by done.
  clearbody v. f_equal; [|f_equal; [|f_equal; [|f_equal]]];
    Z.to_euclidean_division_equations; lia.
Qed.

Definition is_byte (b : Z) : Prop := 0 <= b < 256.

Lemma parse_group a b c d rest :
  is_byte a → is_byte b → is_byte c → is_byte d →
  let s := of_byte_list (hexDigits 8 (a + 256 * b + 65536 * c + 16777216 * d) ++ rest) in
  ParseUint16 (stake 8 s) 32 = Some (a + 256 * b + 65536 * c + 16777216 * d) ∧
  u32 (a + 256 * b + 65536 * c + 16777216 * d) = a + 256 * b + 65536 * c + 16777216 * d ∧
  sdrop 8 s = of_byte_list rest ∧ (slen s =? 0) = false.
Proof.
  intros Ha Hb Hc Hd s. unfold is_byte in Ha, Hb, Hc, Hd. unfold stake, sdrop, s. rewrite byte_list_inv.
  rewrite take_app_length' by (symmetry; apply length_hexDigits). rewrite drop_app_length' by (symmetry; apply length_hexDigits).
  split_and!; [|apply u32_small; unfold two32; lia|done|].
  - apply (ParseUint16_hexDigits 8); [|done]. change (16 ^ Z.of_nat 8) with 4294967296. lia.
  - apply Z.eqb_neq. unfold slen. rewrite <- length_byte_list, byte_list_inv, length_app, length_hexDigits. lia.
Qed.

Lemma parseIPv6_loop_kernel ip :
  Forall is_byte ip → ∀ n, length ip = (4 * n)%nat →
  parseIPv6_loop n (of_byte_list (kernel_hex ip)) = Some ip.
Proof.
  intros Hip n. revert ip Hip. induction n as [|n IH]; intros ip Hip Hlen.
  - by destruct ip.
  - destruct ip as [|a [|b [|c [|d ip]]]]; simpl in Hlen; try lia.
    apply Forall_cons_1 in Hip as [Ha Hip]; apply Forall_cons_1 in Hip as [Hb Hip];
      apply Forall_cons_1 in Hip as [Hc Hip]; apply Forall_cons_1 in Hip as [Hd Hip].
    cbn [kernel_hex]. destruct (parse_group a b c d (kernel_hex ip) Ha Hb Hc Hd) as (H1 & H2 & H3 & H4).
    cbn [parseIPv6_loop]. rewrite H4, H1, H2, H3, IH by (done || lia).
    cbn [fmap option_map]. rewrite PutUint32_bytes by done. done.
Qed.

Lemma length_kernel_hex ip n : length ip = (4 * n)%nat → length (kernel_hex ip) = (8 * n)%nat.
Proof.
  revert ip. induction n as [|n IH]; intros ip Hlen.
  - by destruct ip.
  - destruct ip as [|a [|b [|c [|d ip]]]]; simpl in Hlen; try lia. cbn [kernel_hex].
    rewrite length_app, length_hexDigits, (IH ip) by lia. lia.
Qed.

Lemma kernel_hex_no_colon ip n : length ip = (4 * n)%nat → ":"%char ∉ kernel_hex ip.
Proof.
  revert ip. induction n as [|n IH]; intros ip Hlen.
  - destruct ip; [apply not_elem_of_nil|done].
  - destruct ip as [|a [|b [|c [|d ip]]]]; simpl in Hlen; try lia. cbn [kernel_hex].
    rewrite elem_of_app. intros [Hin|Hin]; [by apply hexDigits_no_colon in Hin|].
    by apply IH in Hin; [|lia].
Qed.

(** C30: [parseAddr] reads back exactly what the kernel prints: for every IPv4 or
    IPv6 address and port, the table entry - little-endian words in hexadecimal -
    parses to the same bytes and port. *)
Theorem parseAddr_kernel_addr ip port :
  length ip = 4%nat ∨ length ip = 16%nat → Forall is_byte ip → 0 <= port < 65536 →
  parseAddr (kernel_addr ip port) = Some {| sa_IP := ip; sa_Port := port |}.
Proof.
  intros Hlen Hip Hport. unfold parseAddr, kernel_addr, Split. rewrite byte_list_inv.
  assert (∃ n, length ip = (4 * n)%nat ∧ (n = 1 ∨ n = 4)%nat) as (n & Hn & Hcase).
  { destruct Hlen as [E|E]; [exists 1%nat|exists 4%nat]; rewrite E; lia. }
  rewrite SplitBytes_app by by eapply kernel_hex_no_colon.
  rewrite SplitBytes_single by apply hexDigits_no_colon. cbn [fmap list_fmap].
  unfold slen. rewrite <- length_byte_list, byte_list_inv, (length_kernel_hex ip n) by done.
  assert ((if Z.of_nat (8 * n) =? ipv4StrLen then parseIPv4 (of_byte_list (kernel_hex ip))
           else if Z.of_nat (8 * n) =? ipv6StrLen then parseIPv6 (of_byte_list (kernel_hex ip))
           else None) = Some ip) as ->.
  { destruct Hcase as [-> | ->]; unfold ipv4StrLen, ipv6StrLen; simpl Z.of_nat; cbn [Z.eqb Pos.eqb].
    - destruct ip as [|a [|b [|c [|d [|? ?]]]]]; try done.
      apply Forall_cons_1 in Hip as [Ha Hip]; apply Forall_cons_1 in Hip as [Hb Hip];
      apply Forall_cons_1 in Hip as [Hc Hip]; apply Forall_cons_1 in Hip as [Hd Hip].
      destruct (parse_group a b c d [] Ha Hb Hc Hd) as (H1 & H2 & _).
      unfold parseIPv4. cbn [kernel_hex]. unfold stake in H1. rewrite byte_list_inv in H1.
      rewrite take_app_length' in H1 by (symmetry; apply length_hexDigits). rewrite app_nil_r, H1, H2.
      by rewrite PutUint32_bytes.
    - apply (parseIPv6_loop_kernel ip Hip 4); lia. }
  pose proof (ParseUint16_hexDigits 4 port) as Hpp. change (4 * Z.of_nat 4) with 16 in Hpp.
  rewrite Hpp; [|change (16 ^ Z.of_nat 4) with 65536; lia|done].
  unfold u16. by rewrite Z.mod_small.
Qed.

Lemma parseAddr_kernel_addr_witness :
  kernel_addr [10; 0; 2; 15] 8080 = "0F02000A:1F90" ∧
  parseAddr "0F02000A:1F90" = Some {| sa_IP := [10; 0; 2; 15]; sa_Port := 8080 |}.
Proof.
  split; [vm_compute; reflexivity|].
  apply (parseAddr_kernel_addr [10; 0; 2; 15] 8080); [by left| |lia].
  repeat constructor; vm_compute; discriminate.
Defined.

(** Every entry of a match is a peer that was asked for, whose local address it
    is, and whose remote port is the server's. *)
Definition matched (peers : gmap string Z) (result : gmap string SockTabEntry) : Prop :=
  map_Forall (λ peer e, SockAddr_String (ste_LocalAddr e) = peer ∧
                        ∃ port, peers !! peer = Some port ∧
                                sa_Port (ste_RemoteAddr e) = u16 port) result.

Lemma netstat_lines_matched peers lines result result' :
  matched peers result → netstat_lines peers lines result = Some result' → matched peers result'.
Proof.
  revert result. induction lines as [|l lines IH]; intros result Hm; simpl; [by intros [= <-]|].
  destruct (netstat_line peers l result) as [r|] eqn:E; [|done]. apply IH.
  unfold netstat_line in E. cbv zeta in E. destruct (len _ <? 12); [done|].
  destruct (_ !! 1%nat) as [f1|] in E; [|done]. destruct (_ !! 2%nat) as [f2|] in E; [|done].
  destruct (_ !! 9%nat) as [f9|] in E; [|done].
  destruct (parseAddr f1) as [la|]; [|done]. destruct (parseAddr f2) as [ra|]; [|done].
  injection E as <-. destruct (peers !! SockAddr_String la) as [port|] eqn:Ep; [|done].
  destruct (Z.eqb_spec (sa_Port ra) (u16 port)); [|done].
  apply map_Forall_insert_2; [|done]. simpl. split; [done|]. by exists port.
Qed.

Lemma ListMatch_matched fs peers result path1 path2 :
  match DoNetstat fs path1 peers ∅ with
  | None => None
  | Some r => DoNetstat fs path2 peers r
  end = Some result → matched peers result.
Proof.
  unfold DoNetstat. destruct (fs_Lines fs path1) as [l1|]; [|done].
  destruct (netstat_lines peers (drop 1 l1) ∅) as [r1|] eqn:E1; [|done].
  destruct (fs_Lines fs path2) as [l2|]; [|done]. intros E2.
  eapply netstat_lines_matched; [|exact E2]. eapply netstat_lines_matched; [|exact E1].
  apply map_Forall_empty.
Qed.
