(* ===== verification/FillProc.v ===== *)
(** * FillProc: from the peer of a connection to its process

    Models [pkg/fillproc/resource_attr.go] and the extension
    [pkg/extension/fillprocextension] ([socket_cache.go], [socket_proc.go],
    [config.go], [factory.go]) on top of [ProcNet]. *)

From S2P Require Import Prelude GoStrings PData ProcNet.

(** ** resource_attr.go *)

Section attr.
Context `{PData}.

Definition KEY_PID : string := "apo.pid".
Definition KEY_CONTAINERID : string := "apo.containerId".

(** [conventions.AttributeProcessPID], [conventions.AttributeContainerID]. *)
Definition AttributeProcessPID : string := "process.pid".
Definition AttributeContainerID : string := "container.id".

Definition GetPid (resourceAttr : AMap) : Z :=
  match Map_Get KEY_PID resourceAttr with
  | Some v => Value_Int v
  | None => match Map_Get AttributeProcessPID resourceAttr with
            | Some v => Value_Int v
            | None => 0
            end
  end.

Definition GetContainerId (resourceAttr : AMap) : string :=
  match Map_Get KEY_CONTAINERID resourceAttr with
  | Some v => Value_Str v
  | None => match Map_Get AttributeContainerID resourceAttr with
            | Some v => Value_Str v
            | None => ""
            end
  end.
End attr.

(** ** socket_cache.go *)

Record SocketCache := {
  sk_activeProcNum : Z;
  sk_Procs : gmap Z ProcInfo;
  sk_ToMapSockets : gmap string Z;
  sk_CachedSockets : gmap string ProcInfo;
  sk_HostNetNamespace : string;
}.

Definition newSocketCache : SocketCache :=
  {| sk_activeProcNum := 0; sk_Procs := ∅; sk_ToMapSockets := ∅; sk_CachedSockets := ∅;
     sk_HostNetNamespace := "" |}.

Definition set_procs (n : Z) (procs : gmap Z ProcInfo) (c : SocketCache) : SocketCache :=
  {| sk_activeProcNum := n; sk_Procs := procs; sk_ToMapSockets := sk_ToMapSockets c;
     sk_CachedSockets := sk_CachedSockets c; sk_HostNetNamespace := sk_HostNetNamespace c |}.

Section cache.
Variable fs : ProcFS.

(** The two loops of [scanNewProcs]: over the known processes, over the pids. *)
Definition drop_gone (pids : gset Z) (k : Z) (s : Z * gmap Z ProcInfo) : Z * gmap Z ProcInfo :=
  if decide (k ∈ pids) then s else (s.1 - 1, delete k s.2).

Definition scan_new (pid : Z) (s : Z * gmap Z ProcInfo) : Z * gmap Z ProcInfo :=
  match s.2 !! pid with
  | Some _ => s
  | None => (s.1 + 1, <[pid := ScanProc fs pid]> s.2)
  end.

(** [ks] and [ps] are the orders of the ranges over [Procs] and over the pids. *)
Definition scanNewProcs (ks ps : list Z) (c : SocketCache) : SocketCache :=
  match FindAllProcesses fs with
  | None => c
  | Some pids =>
      let '(n, procs) := foldS scan_new ps
                           (foldS (drop_gone pids) ks (sk_activeProcNum c, sk_Procs c)) in
      set_procs n procs c
  end.

(** The matched peers are taken out of [socks] and [peers]. *)
Definition take_peers (p : ProcInfo) (matchPeers : list string)
    (s : gmap string ProcInfo * gmap string SockTabEntry * gmap string Z)
    : gmap string ProcInfo * gmap string SockTabEntry * gmap string Z :=
  foldS (λ peer s, let '(result, socks, peers) := s in
           (<[peer := p]> result, delete peer socks, delete peer peers)) matchPeers s.

(** [sorder k socks] is the order in which [GetMatchNetSockets] of the process
    [k] ranges over [socks]. *)
Variable sorder : Z → gmap string SockTabEntry → list string.

(** The range over [Procs] for the host's sockets, which stops when none is left. *)
Fixpoint vm_range (procs : gmap Z ProcInfo) (ks : list Z)
    (s : gmap string ProcInfo * gmap string SockTabEntry * gmap string Z)
    : gmap string ProcInfo * gmap string SockTabEntry * gmap string Z :=
  match ks with
  | [] => s
  | k :: ks' =>
      match procs !! k with
      | None => vm_range procs ks' s
      | Some p =>
          if pi_Ignore p then vm_range procs ks' s
          else
            let socks := s.1.2 in
            let s' := take_peers p (GetMatchNetSockets fs p (sorder k socks) socks) s in
            if decide (s'.1.2 = ∅) then s' else vm_range procs ks' s'
      end
  end.

(** The range over [Procs] for the containers, each with its own table. *)
Fixpoint container_range (hostNs : string) (procs : gmap Z ProcInfo) (ks : list Z)
    (s : gmap string ProcInfo * gmap string Z) : gmap string ProcInfo * gmap string Z :=
  match ks with
  | [] => s
  | k :: ks' =>
      match procs !! k with
      | None => container_range hostNs procs ks' s
      | Some p =>
          if pi_Ignore p || bool_decide (pi_NetNamespace p = hostNs)
          then container_range hostNs procs ks' s
          else
            let s' := match ListMatchNetSocks fs p s.2 with
                      | None => s
                      | Some socks =>
                          let '(result, _, peers) :=
                            take_peers p (GetMatchNetSockets fs p (sorder k socks) socks)
                              (s.1, socks, s.2) in (result, peers)
                      end in
            if decide (s'.2 = ∅) then s' else container_range hostNs procs ks' s'
      end
  end.

(** [ks1] and [ks2] are the orders of the two ranges over [Procs]. *)
Definition matchSockets (ks1 ks2 : list Z) (peers : gmap string Z) (c : SocketCache)
    : gmap string ProcInfo :=
  let '(result, peers1) :=
    match ListVMMatchNetSocks fs peers with
    | None => (∅, peers)
    | Some socks =>
        if decide (socks = ∅) then (∅, peers)
        else let '(result, _, peers1) := vm_range (sk_Procs c) ks1 (∅, socks, peers) in
             (result, peers1)
    end in
  if decide (peers1 = ∅) then result
  else if bool_decide (sk_HostNetNamespace c ≠ "") then
    (container_range (sk_HostNetNamespace c) (sk_Procs c) ks2 (result, peers1)).1
  else result.

(** The orders of the ranges of one tick. *)
Record orders := { or_procs : list Z; or_pids : list Z; or_vm : list Z; or_containers : list Z }.

(** The range that takes the peers out of [ToMapSockets]; a request may put new
    ones in before the taken ones are matched. *)
Definition take_sockets (c : SocketCache) : gmap string Z * SocketCache :=
  (sk_ToMapSockets c,
   {| sk_activeProcNum := sk_activeProcNum c; sk_Procs := sk_Procs c; sk_ToMapSockets := ∅;
      sk_CachedSockets := sk_CachedSockets c; sk_HostNetNamespace := sk_HostNetNamespace c |}).

Definition match_taken (o : orders) (toMatchPeers : gmap string Z) (c : SocketCache) : SocketCache :=
  if decide (toMatchPeers = ∅) then c
  else
    let c := scanNewProcs (or_procs o) (or_pids o) c in
    if sk_activeProcNum c =? 0 then c
    else
      let hostNs :=
        if bool_decide (sk_HostNetNamespace c = "") then
          match sk_Procs c !! 1 with
          | Some p => pi_NetNamespace p
          | None => ""
          end
        else sk_HostNetNamespace c in
      let c := {| sk_activeProcNum := sk_activeProcNum c; sk_Procs := sk_Procs c;
                  sk_ToMapSockets := sk_ToMapSockets c; sk_CachedSockets := sk_CachedSockets c;
                  sk_HostNetNamespace := hostNs |} in
      {| sk_activeProcNum := sk_activeProcNum c; sk_Procs := sk_Procs c;
         sk_ToMapSockets := sk_ToMapSockets c;
         sk_CachedSockets :=
           matchSockets (or_vm o) (or_containers o) toMatchPeers c ∪ sk_CachedSockets c;
         sk_HostNetNamespace := hostNs |}.

Definition mapSocketToPids (o : orders) (c : SocketCache) : SocketCache :=
  let '(toMatchPeers, c) := take_sockets c in match_taken o toMatchPeers c.

Definition GetContainerIdByPid (pid : Z) (c : SocketCache) : string :=
  match sk_Procs c !! pid with Some p => pi_ContainerId p | None => "" end.
End cache.

(** ** socket_proc.go, config.go, factory.go *)

Record FillProcConfig := { fc_Enable : bool; fc_Interval : Z }.

Definition defaultSocketProcInterval : Z := 5 * 1000000000.

Definition fillproc_createDefaultConfig : FillProcConfig :=
  {| fc_Enable := true; fc_Interval := defaultSocketProcInterval |}.

(** [None] is the nil cache of an extension that is not enabled. *)
Record SocketProcExtension := {
  sp_cache : option SocketCache;
  sp_enable : bool;
  sp_interval : Z;
}.

(** [AccessProc] is [fs_Exists fs "/proc"]; [Duration.Microseconds] truncates. *)
Definition newSocketProcExtension (fs : ProcFS) (cfg : FillProcConfig) : SocketProcExtension :=
  let enable := fc_Enable cfg && fs_Exists fs PATH_ROOT in
  {| sp_cache := if enable then Some newSocketCache else None;
     sp_enable := enable;
     sp_interval := if Z.quot (fc_Interval cfg) 1000 <? 1000 then defaultSocketProcInterval
                    else fc_Interval cfg |}.

(** The peer as the tables of the kernel are printed, and the server's port. *)
Definition peer_key (peerAddr : string) : string :=
  if HasPrefix peerAddr "[::1]:" then "::1:" +:+ sdrop 6 peerAddr else peerAddr.
Definition server_port (serverAddr : string) : Z :=
  AtoiValue (sdrop (Z.to_nat (LastIndexByte serverAddr ":" + 1)) serverAddr).

(** The look-up of [getMatchPidAndContainerId], on the cache. *)
Definition match_peer (peerAddr serverAddr : string) (c : SocketCache) : Z * string * SocketCache :=
  let peer := peer_key peerAddr in
  match sk_CachedSockets c !! peer with
  | Some p => (pi_ProcessID p, pi_ContainerId p, c)
  | None =>
      (0, "",
       match sk_ToMapSockets c !! peer with
       | Some _ => c
       | None =>
           {| sk_activeProcNum := sk_activeProcNum c; sk_Procs := sk_Procs c;
              sk_ToMapSockets := <[peer := server_port serverAddr]> (sk_ToMapSockets c);
              sk_CachedSockets := sk_CachedSockets c;
              sk_HostNetNamespace := sk_HostNetNamespace c |}
       end)
  end.

(** [None] is the panic of a nil cache. *)
Definition getMatchPidAndContainerId (peerAddr serverAddr : string) (p : SocketProcExtension)
    : option (Z * string * SocketProcExtension) :=
  c ← sp_cache p;
  let '(pid, id, c) := match_peer peerAddr serverAddr c in
  Some (pid, id, {| sp_cache := Some c; sp_enable := sp_enable p; sp_interval := sp_interval p |}).

(** [peer] is [peer.FromContext(ctx)]: the peer's and the local address. *)
Definition GetMatchPidAndContainerId (peer : option (string * string)) (p : SocketProcExtension)
    : option (Z * string * SocketProcExtension) :=
  if negb (sp_enable p) then Some (0, "", p)
  else match peer with
       | None => Some (0, "", p)
       | Some (peerAddr, localAddr) => getMatchPidAndContainerId peerAddr localAddr p
       end.

Definition GetMatchPidAndContainerIdForHttp (peerAddr serverAddr : string) (p : SocketProcExtension)
    : option (Z * string * SocketProcExtension) :=
  if negb (sp_enable p) || (slen peerAddr =? 0) || (slen serverAddr =? 0) then Some (0, "", p)
  else getMatchPidAndContainerId peerAddr serverAddr p.

(** It does not look at [enable]. *)
Definition ext_GetContainerIdByPid (pid : Z) (p : SocketProcExtension) : option string :=
  c ← sp_cache p; Some (GetContainerIdByPid pid c).

(** ** pkg/fillproc/api.go

    The interface through which the receivers see the extension. *)

Class FillProc (E : Type) := {
  fp_GetMatch : option (string * string) → E → option (Z * string * E);
  fp_GetMatchForHttp : string → string → E → option (Z * string * E);
  fp_GetContainerIdByPid : Z → E → option string;
}.

#[global] Instance SocketProc_FillProc : FillProc SocketProcExtension := {|
  fp_GetMatch := GetMatchPidAndContainerId;
  fp_GetMatchForHttp := GetMatchPidAndContainerIdForHttp;
  fp_GetContainerIdByPid := ext_GetContainerIdByPid;
|}.

(** ** Theorems *)

Lemma drop_gone_fold pids ks n procs :
  NoDup ks → (∀ k, k ∈ ks → is_Some (procs !! k)) → n = Z.of_nat (size procs) →
  let s := foldS (drop_gone pids) ks (n, procs) in
  s.1 = Z.of_nat (size s.2) ∧
  ∀ k, s.2 !! k = if decide (k ∈ ks ∧ k ∉ pids) then None else procs !! k.
Proof.
  intros Hnd. revert n procs. induction Hnd as [|k1 ks Hk1 Hnd IH]; intros n procs Hin Hn.
  - split; [done|]. intros k. rewrite decide_False; [done|]. by intros [?%not_elem_of_nil _].
  - cbv zeta in *. cbn [foldS]. destruct (decide (k1 ∈ pids)) as [Hp|Hp].
    + assert (drop_gone pids k1 (n, procs) = (n, procs)) as ->
        by (unfold drop_gone; by rewrite decide_True).
      destruct (IH n procs) as [H1 H2]; [intros; apply Hin; by right|done|]. split; [done|].
      intros k. rewrite H2. apply decide_ext. rewrite elem_of_cons. set_solver.
    + destruct (Hin k1) as [p Hpk]; [by left|].
      assert (drop_gone pids k1 (n, procs) = (n - 1, delete k1 procs)) as ->
        by (unfold drop_gone; by rewrite decide_False).
      destruct (IH (n - 1) (delete k1 procs)) as [H1 H2].
      * intros k Hk. rewrite lookup_delete_ne by (by intros ->). apply Hin. by right.
      * rewrite map_size_delete, Hpk, Hn. simpl.
        assert (size procs ≠ 0%nat) by (intros ?%map_size_empty_inv; by simplify_map_eq). lia.
      * split; [done|]. intros k. rewrite H2. destruct (decide (k = k1)) as [->|Hne].
        -- rewrite lookup_delete_eq. rewrite (decide_True (P := k1 ∈ k1 :: ks ∧ k1 ∉ pids));
             [by case_decide|]. split; [by left|done].
        -- rewrite lookup_delete_ne by done. apply decide_ext. rewrite elem_of_cons. set_solver.
Qed.

Lemma scan_new_fold fs ps n procs :
  n = Z.of_nat (size procs) →
  let s := foldS (scan_new fs) ps (n, procs) in
  s.1 = Z.of_nat (size s.2) ∧
  ∀ k, s.2 !! k = match procs !! k with
                  | Some p => Some p
                  | None => if decide (k ∈ ps) then Some (ScanProc fs k) else None
                  end.
Proof.
  revert n procs. induction ps as [|p ps IH]; intros n procs Hn.
  - split; [done|]. intros k. simpl. by destruct (procs !! k).
  - cbv zeta in *. cbn [foldS]. destruct (procs !! p) as [pi|] eqn:E.
    + assert (scan_new fs p (n, procs) = (n, procs)) as -> by (unfold scan_new; simpl; by rewrite E).
      destruct (IH n procs Hn) as [H1 H2]. split; [done|]. intros k. rewrite H2.
      destruct (procs !! k) eqn:Ek; [done|]. apply decide_ext. rewrite elem_of_cons.
      split; [by right|]. intros [->|?]; [congruence|done].
    + assert (scan_new fs p (n, procs) = (n + 1, <[p := ScanProc fs p]> procs)) as ->
        by (unfold scan_new; simpl; by rewrite E).
      destruct (IH (n + 1) (<[p := ScanProc fs p]> procs)) as [H1 H2].
      { rewrite map_size_insert_None by done. lia. }
      split; [done|]. intros k. rewrite H2. destruct (decide (k = p)) as [->|Hne].
      * rewrite lookup_insert_eq, E. rewrite decide_True by (by left). done.
      * rewrite lookup_insert_ne by done. destruct (procs !! k); [done|].
        apply decide_ext. rewrite elem_of_cons. naive_solver.
Qed.

(** A scan leaves exactly the processes that run, keeps what is known of the
    ones that still do, reads the others from /proc, and [activeProcNum] stays the
    number of known processes, whatever order the two maps are ranged over. *)
Theorem scanNewProcs_spec fs ks ps c pids :
  FindAllProcesses fs = Some pids →
  range_order (sk_Procs c) ks → (∀ p, p ∈ ps ↔ p ∈ pids) →
  sk_activeProcNum c = Z.of_nat (size (sk_Procs c)) →
  let c' := scanNewProcs fs ks ps c in
  sk_activeProcNum c' = Z.of_nat (size (sk_Procs c')) ∧
  ∀ k, sk_Procs c' !! k =
    if decide (k ∈ pids) then Some (default (ScanProc fs k) (sk_Procs c !! k)) else None.
Proof.
  intros Hp Hks Hps Hn c'. unfold c', scanNewProcs. rewrite Hp.
  destruct (drop_gone_fold pids ks (sk_activeProcNum c) (sk_Procs c)) as [H1 H2];
    [by eapply range_order_NoDup|intros k; by apply range_order_elem|done|].
  destruct (foldS (drop_gone pids) ks _) as [n1 m1]. simpl in H1, H2.
  destruct (scan_new_fold fs ps n1 m1 H1) as [H3 H4].
  destruct (foldS (scan_new fs) ps (n1, m1)) as [n2 m2]. simpl in *. split; [done|].
  intros k. rewrite H4, H2. assert (k ∈ ks ↔ is_Some (sk_Procs c !! k)) as Hk by by apply range_order_elem.
  destruct (decide (k ∈ pids)) as [Hin|Hin].
  - rewrite decide_False by tauto. destruct (sk_Procs c !! k); [done|]. simpl.
    by rewrite decide_True by by apply Hps.
  - destruct (sk_Procs c !! k) as [p|] eqn:E.
    + rewrite decide_True by (split; [apply Hk; by eexists|done]).
      by rewrite decide_False by by rewrite Hps.
    + rewrite decide_False by (rewrite Hk; by intros [[? ?] _]).
      by rewrite decide_False by by rewrite Hps.
Qed.

Definition ex_fs : ProcFS :=
  {| fs_Readlink p := if bool_decide (p = "/proc/12/exe") then Some "/usr/bin/java"
                      else if bool_decide (p = "/proc/12/ns/net") then Some "net:[1]"
                      else if bool_decide (p = "/proc/12/fd/3") then Some "socket:[77]" else None;
     fs_ReadFile p := if bool_decide (p = "/proc/12/comm") then Some "java"
                      else if bool_decide (p = "/proc/12/cmdline") then Some "java -jar a.jar"
                      else if bool_decide (p = "/proc/12/root/etc/hostname") then Some "h1" else None;
     fs_ReadDir p := if bool_decide (p = "/proc") then Some [("12", true); ("net", true)]
                     else if bool_decide (p = "/proc/12/fd") then Some [("3", false)] else None;
     fs_Lines p := if bool_decide (p = "/proc/net/tcp") then
                     Some ["title";
                       "0: 0F02000A:9C40 0100007F:10DD 01 0:0 00:0 0 0 0 77 1 0 20 4 30 10 -1"]
                   else if bool_decide (p = "/proc/net/tcp6") then Some [] else None;
     fs_Exists _ := true |}.

Lemma scanNewProcs_spec_witness :
  let c := scanNewProcs ex_fs [] [12] newSocketCache in
  sk_activeProcNum c = Z.of_nat (size (sk_Procs c)) ∧
  sk_Procs c !! 12 = Some (ScanProc ex_fs 12).
Proof.
  intros c. destruct (scanNewProcs_spec ex_fs [] [12] newSocketCache {[12]}) as [H1 H2].
  - reflexivity.
  - exact (range_order_canon _).
  - intros p. rewrite list_elem_of_singleton. by rewrite elem_of_singleton.
  - reflexivity.
  - split; [exact H1|]. etrans; [exact (H2 12)|]. reflexivity.
Defined.

(** *** Soundness of the match *)

(** A descriptor of the process is the socket of the table entry. *)
Definition holds_socket (fs : ProcFS) (p : ProcInfo) (e : SockTabEntry) : Prop :=
  ∃ dirs name, fs_ReadDir fs (Path (pi_ProcessID p) ["fd"]) = Some dirs ∧ (name, false) ∈ dirs ∧
    fs_Readlink fs (Path (pi_ProcessID p) ["fd"; name]) =
      Some (PREFIX_SOCKET +:+ ste_Ino e +:+ "]").

(** What the result may say of a peer. *)
Definition sound_match (fs : ProcFS) (procs : gmap Z ProcInfo) (peers : gmap string Z)
    (peer : string) (p : ProcInfo) : Prop :=
  (∃ k, procs !! k = Some p) ∧ pi_Ignore p = false ∧
  ∃ e port, SockAddr_String (ste_LocalAddr e) = peer ∧ peers !! peer = Some port ∧
            sa_Port (ste_RemoteAddr e) = u16 port ∧ holds_socket fs p e.

Lemma GetMatchNetSockets_sound fs p order socks peer :
  peer ∈ GetMatchNetSockets fs p order socks →
  ∃ e, socks !! peer = Some e ∧ holds_socket fs p e.
Proof.
  unfold GetMatchNetSockets. destruct (fs_ReadDir fs _) as [dirs|] eqn:Ed;
    [|by intros ?%not_elem_of_nil].
  intros (l & Hin & ([name isdir] & -> & Hdi)%list_elem_of_fmap)%list_elem_of_join. simpl in Hin.
  destruct isdir; [by apply not_elem_of_nil in Hin|].
  destruct (fs_Readlink fs _) as [lname|] eqn:El; [|by apply not_elem_of_nil in Hin].
  destruct (negb _); [by apply not_elem_of_nil in Hin|].
  apply list_elem_of_filter in Hin as [Hl _]. unfold links_to in Hl.
  destruct (socks !! peer) as [e|]; [|done]. apply bool_decide_eq_true in Hl.
  exists e. split; [done|]. exists dirs, name. by rewrite Hl.
Qed.

(** The invariant of the loops: sound results; the peers and sockets left are
    among the ones asked for. *)
Definition match_inv (fs : ProcFS) (procs : gmap Z ProcInfo) (peers0 : gmap string Z)
    (result : gmap string ProcInfo) (peers : gmap string Z) : Prop :=
  map_Forall (sound_match fs procs peers0) result ∧ peers ⊆ peers0.

Lemma take_peers_inv fs procs peers0 p ms result socks peers :
  match_inv fs procs peers0 result peers →
  (∀ peer, peer ∈ ms → sound_match fs procs peers0 peer p) →
  let '(result', socks', peers') := take_peers p ms (result, socks, peers) in
  match_inv fs procs peers0 result' peers' ∧ socks' ⊆ socks.
Proof.
  revert result socks peers. induction ms as [|peer ms IH]; intros result socks peers [Hr Hp] Hms.
  - simpl. done.
  - unfold take_peers. cbn [foldS]. specialize (IH (<[peer := p]> result) (delete peer socks) (delete peer peers)).
    unfold take_peers in IH. destruct (foldS _ ms _) as [[r' s'] p']. destruct IH as [IH1 IH2].
    + split; [apply map_Forall_insert_2; [apply Hms; by left|done]|].
      etrans; [apply delete_subseteq|done].
    + intros peer' Hin. apply Hms. by right.
    + split; [done|]. etrans; [exact IH2|]. apply delete_subseteq.
Qed.

Lemma matched_sound fs procs peers0 peers k p socks peer order :
  procs !! k = Some p → pi_Ignore p = false → peers ⊆ peers0 → matched peers socks →
  peer ∈ GetMatchNetSockets fs p order socks → sound_match fs procs peers0 peer p.
Proof.
  intros Hk Hi Hsub Hm (e & He & Hh)%GetMatchNetSockets_sound.
  destruct (Hm _ _ He) as (H1 & port & H2 & H3). split; [by exists k|]. split; [done|].
  exists e, port. split_and!; try done. by eapply lookup_weaken.
Qed.

Lemma vm_range_inv fs sorder procs peers0 ks result socks peers :
  match_inv fs procs peers0 result peers → matched peers0 socks →
  let '(result', _, peers') := vm_range fs sorder procs ks (result, socks, peers) in
  match_inv fs procs peers0 result' peers'.
Proof.
  revert result socks peers. induction ks as [|k ks IH]; intros result socks peers Hinv Hm; [done|].
  cbn [vm_range]. destruct (procs !! k) as [p|] eqn:Ep; [|by apply IH].
  destruct (pi_Ignore p) eqn:Ei; [by apply IH|]. cbn [fst snd].
  pose proof (take_peers_inv fs procs peers0 p (GetMatchNetSockets fs p (sorder k socks) socks)
                result socks peers Hinv) as Ht.
  destruct (take_peers p _ (result, socks, peers)) as [[r' s'] p']. destruct Ht as [Ht1 Ht2].
  { intros peer Hin. eapply matched_sound; [done..|exact Hm|done]. }
  cbn [fst snd]. case_decide; [done|]. apply IH; [done|]. intros i x Hx. apply Hm.
  by eapply lookup_weaken.
Qed.

Lemma container_range_inv fs sorder hostNs procs peers0 ks result peers :
  match_inv fs procs peers0 result peers →
  let '(result', peers') := container_range fs sorder hostNs procs ks (result, peers) in
  match_inv fs procs peers0 result' peers'.
Proof.
  revert result peers. induction ks as [|k ks IH]; intros result peers Hinv; [done|].
  cbn [container_range]. destruct (procs !! k) as [p|] eqn:Ep; [|by apply IH].
  destruct (pi_Ignore p) eqn:Ei; [by apply IH|]. destruct (bool_decide _); simpl; [by apply IH|].
  destruct (ListMatchNetSocks fs p peers) as [socks|] eqn:El; simpl.
  - pose proof (take_peers_inv fs procs peers0 p (GetMatchNetSockets fs p (sorder k socks) socks)
                  result socks peers Hinv) as Ht.
    destruct (take_peers p _ (result, socks, peers)) as [[r' s'] p']. destruct Ht as [Ht1 _].
    { intros peer Hin. apply (matched_sound _ _ _ peers k _ socks _ (sorder k socks)); [done..|apply Hinv| |done].
      by eapply ListMatch_matched. }
    simpl. case_decide; [done|]. by apply IH.
  - case_decide; [done|]. by apply IH.
Qed.

(** A peer is attributed only to a process that holds its connection: the
    process is known and not ignored, one of its descriptors is the socket of a
    table entry whose local address is the peer, and the entry's remote port is
    the server port the peer was asked with. *)
Theorem matchSockets_sound fs sorder ks1 ks2 peers c peer p :
  matchSockets fs sorder ks1 ks2 peers c !! peer = Some p →
  sound_match fs (sk_Procs c) peers peer p.
Proof.
  unfold matchSockets. intros Hlook.
  assert (match_inv fs (sk_Procs c) peers ∅ peers) as H0 by (split; [apply map_Forall_empty|done]).
  assert (∃ result peers1, match_inv fs (sk_Procs c) peers result peers1 ∧
    match ListVMMatchNetSocks fs peers with
    | None => (∅, peers)
    | Some socks =>
        if decide (socks = ∅) then (∅, peers)
        else let '(result, _, peers1) := vm_range fs sorder (sk_Procs c) ks1 (∅, socks, peers) in
             (result, peers1)
    end = (result, peers1)) as (result & peers1 & Hinv & E).
  { destruct (ListVMMatchNetSocks fs peers) as [socks|] eqn:El; [|by eauto].
    case_decide; [by eauto|].
    pose proof (vm_range_inv fs sorder (sk_Procs c) peers ks1 ∅ socks peers H0) as Hv.
    destruct (vm_range _ _ _ _ _) as [[r s] p1]. exists r, p1. split; [|done]. apply Hv.
    by eapply ListMatch_matched. }
  rewrite E in Hlook.
  assert (∃ r ps, match_inv fs (sk_Procs c) peers r ps ∧ r !! peer = Some p) as (r & ps & [Hr _] & Hp).
  { case_decide; [by eauto|]. destruct (bool_decide _); [|by eauto].
    pose proof (container_range_inv fs sorder (sk_HostNetNamespace c) (sk_Procs c) peers ks2 result peers1
                  Hinv) as Hc.
    destruct (container_range _ _ _ _ _ _) as [r ps]. by eauto. }
  by apply Hr in Hp.
Qed.

Example matchSockets_sound_example :
  sound_match ex_fs (sk_Procs (scanNewProcs ex_fs [] [12] newSocketCache))
    {["10.0.2.15:40000" := 4317]} "10.0.2.15:40000" (ScanProc ex_fs 12).
Proof.
  apply (matchSockets_sound ex_fs (λ _ m, (map_to_list m).*1) [12] [12] _
           (scanNewProcs ex_fs [] [12] newSocketCache)).
  vm_compute. reflexivity.
Defined.
