(* ===== verification/FillRuns.v ===== *)
(** * FillRuns: the runs of the fillproc extension

    The tick of [mapSocketToPids] and the requests that ask for a peer, in any
    order, over a /proc that changes between the ticks; and what an answer then
    says of the process it names. *)

From S2P Require Import Prelude GoStrings PData ProcNet FillProc.

(** A tick takes the peers and then matches them; requests come in between. *)
Inductive fill_event :=
  | EvTake
  | EvMatch (fs : ProcFS) (sorder : Z → gmap string SockTabEntry → list string) (o : orders)
  | EvQuery (peerAddr serverAddr : string).

(** The cache, and the peers a tick holds. *)
Record fill_state := { fl_cache : SocketCache; fl_taken : option (gmap string Z) }.

Definition fill_init : fill_state := {| fl_cache := newSocketCache; fl_taken := None |}.

Definition fill_step (ev : fill_event) (s : fill_state) : fill_state :=
  match ev, fl_taken s with
  | EvTake, None =>
      let '(peers, c) := take_sockets (fl_cache s) in {| fl_cache := c; fl_taken := Some peers |}
  | EvMatch fs sorder o, Some peers =>
      {| fl_cache := match_taken fs sorder o peers (fl_cache s); fl_taken := None |}
  | EvQuery peerAddr serverAddr, w =>
      {| fl_cache := (match_peer peerAddr serverAddr (fl_cache s)).2; fl_taken := w |}
  | _, _ => s
  end.

Definition fill_run (evs : list fill_event) : fill_state → fill_state := foldS fill_step evs.

(** A tick without a request in between is [mapSocketToPids]. *)
Lemma tick_is_mapSocketToPids fs sorder o c :
  fill_run [EvTake; EvMatch fs sorder o] {| fl_cache := c; fl_taken := None |} =
  {| fl_cache := mapSocketToPids fs sorder o c; fl_taken := None |}.
Proof. done. Qed.

(** ** What is known of the cache after some events *)

Definition scanned (evs : list fill_event) (p : ProcInfo) : Prop :=
  ∃ fs sorder o k, EvMatch fs sorder o ∈ evs ∧ p = ScanProc fs k.

Definition asked (evs : list fill_event) (peer : string) (port : Z) : Prop :=
  ∃ peerAddr serverAddr, EvQuery peerAddr serverAddr ∈ evs ∧
    peer = peer_key peerAddr ∧ port = server_port serverAddr.

(** The process held, at a tick, the connection of the peer to the port. *)
Definition held (evs : list fill_event) (peer : string) (p : ProcInfo) : Prop :=
  ∃ fs sorder o e port, EvMatch fs sorder o ∈ evs ∧ asked evs peer port ∧
    SockAddr_String (ste_LocalAddr e) = peer ∧ sa_Port (ste_RemoteAddr e) = u16 port ∧
    holds_socket fs p e.

Record fill_inv (evs : list fill_event) (s : fill_state) : Prop := {
  fi_procs : map_Forall (λ _ p, scanned evs p) (sk_Procs (fl_cache s));
  fi_waiting : map_Forall (asked evs) (sk_ToMapSockets (fl_cache s));
  fi_taken : from_option (map_Forall (asked evs)) True (fl_taken s);
  fi_cached : map_Forall (λ peer p, pi_Ignore p = false ∧ scanned evs p ∧ held evs peer p)
                (sk_CachedSockets (fl_cache s));
}.

Lemma scanned_mono evs evs' p : evs ⊆ evs' → scanned evs p → scanned evs' p.
Proof. unfold scanned. set_solver. Qed.

Lemma asked_mono evs evs' peer port : evs ⊆ evs' → asked evs peer port → asked evs' peer port.
Proof. unfold asked. set_solver. Qed.

Lemma held_mono evs evs' peer p : evs ⊆ evs' → held evs peer p → held evs' peer p.
Proof.
  intros Hsub (fs & so & o & e & port & Hin & Ha & H). exists fs, so, o, e, port.
  split; [by apply Hsub|]. split; [by eapply asked_mono|done].
Qed.

#[local] Hint Resolve scanned_mono asked_mono held_mono : core.

Lemma fill_inv_mono evs evs' s : evs ⊆ evs' → fill_inv evs s → fill_inv evs' s.
Proof.
  intros Hsub [H1 H2 H3 H4]. split.
  - eapply map_Forall_impl; [exact H1|]. eauto.
  - eapply map_Forall_impl; [exact H2|]. eauto.
  - destruct (fl_taken s); [|done]. eapply map_Forall_impl; [exact H3|]. eauto.
  - eapply map_Forall_impl; [exact H4|]. naive_solver.
Qed.

(** A scan keeps or reads. *)
Lemma scan_new_scanned fs ps n procs (P : ProcInfo → Prop) :
  (∀ k, P (ScanProc fs k)) → map_Forall (λ _ p, P p) procs →
  map_Forall (λ _ p, P p) (foldS (scan_new fs) ps (n, procs)).2.
Proof.
  intros HP. revert n procs. induction ps as [|k ps IH]; intros n procs Hall; [done|]. cbn [foldS].
  unfold scan_new at 2. simpl. destruct (procs !! k); [by apply IH|]. apply IH. by apply map_Forall_insert_2.
Qed.

Lemma drop_gone_forall pids ks n procs (P : ProcInfo → Prop) :
  map_Forall (λ _ p, P p) procs → map_Forall (λ _ p, P p) (foldS (drop_gone pids) ks (n, procs)).2.
Proof.
  revert n procs. induction ks as [|k ks IH]; intros n procs Hall; [done|]. cbn [foldS].
  unfold drop_gone at 2. case_decide; [by apply IH|]. apply IH. by apply map_Forall_delete.
Qed.

Lemma scanNewProcs_frame fs ks ps c (P : ProcInfo → Prop) :
  (∀ k, P (ScanProc fs k)) → map_Forall (λ _ p, P p) (sk_Procs c) →
  let c' := scanNewProcs fs ks ps c in
  map_Forall (λ _ p, P p) (sk_Procs c') ∧ sk_ToMapSockets c' = sk_ToMapSockets c ∧
  sk_CachedSockets c' = sk_CachedSockets c.
Proof.
  intros HP Hall. unfold scanNewProcs. destruct (FindAllProcesses fs) as [pids|]; [|done].
  pose proof (drop_gone_forall pids ks (sk_activeProcNum c) _ P Hall) as H1.
  destruct (foldS (drop_gone pids) ks _) as [n1 m1].
  pose proof (scan_new_scanned fs ps n1 m1 P HP H1) as H2. by destruct (foldS (scan_new fs) ps _) as [n2 m2].
Qed.

(** ** The invariant *)

Lemma match_taken_inv evs fs sorder o peers c :
  EvMatch fs sorder o ∈ evs → map_Forall (asked evs) peers →
  fill_inv evs {| fl_cache := c; fl_taken := Some peers |} →
  fill_inv evs {| fl_cache := match_taken fs sorder o peers c; fl_taken := None |}.
Proof.
  intros Hin Hasked [H1 H2 _ H4]. simpl in *. unfold match_taken. case_decide; [by split|].
  destruct (scanNewProcs_frame fs (or_procs o) (or_pids o) c (scanned evs)) as (Hp & Hw & Hc);
    [intros k; by exists fs, sorder, o, k|done|].
  destruct (scanNewProcs fs _ _ c) as [n procs waiting cached ns]. cbn [sk_Procs sk_ToMapSockets sk_CachedSockets
    sk_activeProcNum sk_HostNetNamespace] in *. subst waiting cached.
  destruct (n =? 0); [by split|]. split; cbn [fl_cache fl_taken sk_Procs sk_ToMapSockets sk_CachedSockets]; [done..|].
  apply map_Forall_union_2; [|done]. intros peer p Hm.
  apply matchSockets_sound in Hm as ((k & Hk) & Hi & e & port & He1 & He2 & He3 & He4).
  cbn [sk_Procs] in Hk. split; [done|]. split; [exact (Hp _ _ Hk)|].
  exists fs, sorder, o, e, port. split_and!; try done. by apply Hasked.
Qed.

Lemma match_peer_inv evs peerAddr serverAddr c w :
  EvQuery peerAddr serverAddr ∈ evs → fill_inv evs {| fl_cache := c; fl_taken := w |} →
  fill_inv evs {| fl_cache := (match_peer peerAddr serverAddr c).2; fl_taken := w |}.
Proof.
  intros Hin [H1 H2 H3 H4]. unfold match_peer. destruct (sk_CachedSockets c !! _); [by split|].
  destruct (sk_ToMapSockets c !! _); [by split|]. split; try done. simpl.
  apply map_Forall_insert_2; [|done]. by exists peerAddr, serverAddr.
Qed.

Lemma fill_step_inv evs ev s : ev ∈ evs → fill_inv evs s → fill_inv evs (fill_step ev s).
Proof.
  destruct s as [c [peers|]], ev as [|fs sorder o|peerAddr serverAddr]; intros Hin Hinv; cbn [fill_step fl_taken fl_cache];
    try done; try by apply match_peer_inv.
  - apply match_taken_inv; [done| |done]. exact (fi_taken _ _ Hinv).
  - destruct Hinv as [H1 H2 H3 H4]. split; simpl; [done|apply map_Forall_empty|done..].
Qed.

Lemma fill_init_inv evs : fill_inv evs fill_init.
Proof. split; simpl; try done; apply map_Forall_empty. Qed.

Lemma fill_run_inv evs : fill_inv evs (fill_run evs fill_init).
Proof.
  assert (∀ evs' s, evs' ⊆ evs → fill_inv evs s → fill_inv evs (fill_run evs' s)) as H.
  { induction evs' as [|ev evs' IH]; intros s Hsub Hs; [done|]. apply IH; [set_solver|].
    apply fill_step_inv; [set_solver|done]. }
  apply H; [done|apply fill_init_inv].
Qed.

Lemma ScanProc_ProcessID fs k : pi_ProcessID (ScanProc fs k) = k.
Proof. unfold ScanProc. by repeat (case_match; try done). Qed.

(** Whatever the order of ticks and requests and however /proc changes, an
    answer that names a process is true of the past: at an earlier tick a process
    of that id held a socket whose local address is the peer and whose remote port
    is the one of a server address the peer was asked with before, and the
    container id of the answer is the one read for that process id at an earlier
    tick, when the process was not ignored. *)
Lemma answer_names_holder evs peerAddr serverAddr :
  let '(pid, containerId, _) := match_peer peerAddr serverAddr (fl_cache (fill_run evs fill_init)) in
  (pid = 0 ∧ containerId = "") ∨
  ∃ fs0 so0 o0 fs so o e serverAddr0 peerAddr0,
    EvMatch fs0 so0 o0 ∈ evs ∧ containerId = pi_ContainerId (ScanProc fs0 pid) ∧
    pi_Ignore (ScanProc fs0 pid) = false ∧
    EvQuery peerAddr0 serverAddr0 ∈ evs ∧ peer_key peerAddr0 = peer_key peerAddr ∧
    EvMatch fs so o ∈ evs ∧ SockAddr_String (ste_LocalAddr e) = peer_key peerAddr ∧
    sa_Port (ste_RemoteAddr e) = u16 (server_port serverAddr0) ∧
    holds_socket fs (ScanProc fs0 pid) e.
Proof.
  pose proof (fi_cached _ _ (fill_run_inv evs)) as Hinv. unfold match_peer.
  destruct (sk_CachedSockets _ !! peer_key peerAddr) as [p|] eqn:E; [right|by left].
  apply Hinv in E as (Hi & (fs0 & so0 & o0 & k & Hin0 & ->) & fs & so & o & e & port & Hin &
                     (peerAddr0 & serverAddr0 & Hq & Hk & ->) & He1 & He2 & He3).
  rewrite ScanProc_ProcessID. exists fs0, so0, o0, fs, so, o, e, serverAddr0, peerAddr0. split_and!; done.
Qed.

(** ** What is known is never looked up again *)

(** A peer that is known and not being matched keeps its process, however long
    ago the process gave the connection up. *)
Definition settled (peer : string) (p : ProcInfo) (s : fill_state) : Prop :=
  sk_CachedSockets (fl_cache s) !! peer = Some p ∧ sk_ToMapSockets (fl_cache s) !! peer = None ∧
  from_option (λ peers, peers !! peer = None) True (fl_taken s).

Lemma fill_step_settled ev peer p s : settled peer p s → settled peer p (fill_step ev s).
Proof.
  destruct s as [c w]. unfold settled. intros (Hc & Hw & Ht). simpl in *.
  destruct ev as [|fs sorder o|peerAddr serverAddr], w as [peers|]; cbn [fill_step fl_taken fl_cache]; try (by split).
  - unfold match_taken. case_decide; [by split|].
    destruct (scanNewProcs_frame fs (or_procs o) (or_pids o) c (λ _, True)) as (_ & Ew & Ec); [done|done|].
    destruct (scanNewProcs fs _ _ c) as [n procs waiting cached ns]. cbn [sk_Procs sk_ToMapSockets sk_CachedSockets
      sk_activeProcNum sk_HostNetNamespace] in *. subst waiting cached.
    destruct (n =? 0); [by split|]. split_and!; simpl; [|done..]. apply lookup_union_Some_raw. right. split; [|done].
    destruct (matchSockets _ _ _ _ _ _ !! peer) as [q|] eqn:E; [|done].
    apply matchSockets_sound in E as (_ & _ & e & port & _ & E & _). by rewrite Ht in E.
  - unfold match_peer. cbn [fl_cache fl_taken].
    destruct (sk_CachedSockets c !! peer_key peerAddr) as [q|] eqn:E; [by split|].
    destruct (sk_ToMapSockets c !! peer_key peerAddr); [by split|]. simpl. split_and!; [done| |done].
    rewrite lookup_insert_ne; [done|congruence].
  - unfold match_peer. cbn [fl_cache fl_taken].
    destruct (sk_CachedSockets c !! peer_key peerAddr) as [q|] eqn:E; [by split|].
    destruct (sk_ToMapSockets c !! peer_key peerAddr); [by split|]. simpl. split_and!; [done| |done].
    rewrite lookup_insert_ne; [done|congruence].
Qed.

Lemma answer_sticks evs peerAddr serverAddr p s :
  settled (peer_key peerAddr) p s →
  (match_peer peerAddr serverAddr (fl_cache (fill_run evs s))).1 = (pi_ProcessID p, pi_ContainerId p).
Proof.
  intros Hs. assert (settled (peer_key peerAddr) p (fill_run evs s)) as (Hc & _).
  { revert s Hs. induction evs as [|ev evs IH]; intros s Hs; [done|]. apply IH. by apply fill_step_settled. }
  unfold match_peer. by rewrite Hc.
Qed.

(** A request, a tick and the same request again. *)
Definition ex_orders : orders := {| or_procs := []; or_pids := [12]; or_vm := [12]; or_containers := [12] |}.

Example ex_answer :
  (match_peer "10.0.2.15:40000" "10.0.2.15:4317"
     (fl_cache (fill_run [EvQuery "10.0.2.15:40000" "10.0.2.15:4317"; EvTake;
                          EvMatch ex_fs (λ _ m, (map_to_list m).*1) ex_orders] fill_init))).1 =
  (12, pi_ContainerId (ScanProc ex_fs 12)).
Proof. vm_compute. reflexivity. Qed.
