(* ===== verification/OtlpTraces.v ===== *)
(** * OtlpTraces: the OTLP receiver of traces

    Models [otlpreceiver/internal/trace/otlp.go], which writes the process and the
    container of a request into its resources, over the interface [FillProc], and
    [internal/errors/errors.go] and [internal/httphelper/helper.go], which turn
    errors into grpc and http codes.  The grpc status package and the errors of the
    collector are the class [GrpcErrors].  The metrics and logs receivers
    ([internal/metrics/otlp.go], [internal/logs/otlp.go]) are the same handler
    without the fill. *)

From S2P Require Import Prelude GoStrings PData ProcNet FillProc FillRuns.

(** ** google.golang.org/grpc/codes, grpc/status, consumererror *)

Inductive Code :=
  | OK | Canceled | Unknown | InvalidArgument | DeadlineExceeded | NotFound | AlreadyExists
  | PermissionDenied | ResourceExhausted | FailedPrecondition | Aborted | OutOfRange
  | Unimplemented | Internal | Unavailable | DataLoss | Unauthenticated.

#[global] Instance Code_eq_dec : EqDecision Code.
Proof. solve_decision. Defined.

Class GrpcErrors := {
  GoErr : Type;
  Err_Error : GoErr → string;
  IsPermanent : GoErr → bool;
  Status : Type;
  status_New : Code → string → Status;
  Status_Code : Status → Code;
  (** the status, and whether the error carries it *)
  status_FromError : GoErr → Status * bool;
  (** [None] is the nil error of a status that is OK *)
  Status_Err : Status → option GoErr;
}.

Class GrpcErrorsLaws (G : GrpcErrors) : Prop := {
  Status_Code_New : ∀ c msg, Status_Code (status_New c msg) = c;
  Status_Err_OK : ∀ s, Status_Code s = OK → Status_Err s = None;
  Status_Err_FromError : ∀ s, Status_Code s ≠ OK →
    ∃ err, Status_Err s = Some err ∧ status_FromError err = (s, true);
}.

Section errors.
Context `{GrpcErrors}.

Definition GetStatusFromError (err : GoErr) : option GoErr :=
  let '(s, ok) := status_FromError err in
  let s := if negb ok then status_New (if IsPermanent err then Internal else Unavailable) (Err_Error err) else s in
  Status_Err s.

Definition GetHTTPStatusCodeFromStatus (s : Status) : Z :=
  match Status_Code s with
  | Canceled | DeadlineExceeded | Aborted | OutOfRange | Unavailable | DataLoss => 503
  | ResourceExhausted => 429
  | _ => 500
  end.

Definition NewStatusFromMsgAndHTTPCode (errMsg : string) (statusCode : Z) : Status :=
  let c :=
    if statusCode =? 400 then InvalidArgument
    else if statusCode =? 401 then Unauthenticated
    else if statusCode =? 403 then PermissionDenied
    else if statusCode =? 404 then Unimplemented
    else if statusCode =? 429 then ResourceExhausted
    else if (statusCode =? 502) || (statusCode =? 503) || (statusCode =? 504) then Unavailable
    else Unknown in
  status_New c errMsg.
End errors.

(** ** trace/otlp.go *)

(** [conventions.AttributeTelemetrySDKName], [AttributeServiceInstanceID]. *)
Definition AttributeTelemetrySDKName : string := "telemetry.sdk.name".
Definition otlp_AttributeServiceInstanceID : string := "service.instance.id".

Section attributes.
Context `{PData}.

Definition getBeylaPid (attributes : AMap) : Z :=
  if match Map_Get AttributeTelemetrySDKName attributes with
     | Some sdkName => bool_decide (Value_Str sdkName ≠ "beyla")
     | None => false
     end then 0
  else match Map_Get otlp_AttributeServiceInstanceID attributes with
       | Some serviceInstanceId =>
           let instanceId := Value_Str serviceInstanceId in
           match Atoi (sdrop (Z.to_nat (LastIndexByte instanceId "-" + 1)) instanceId) with
           | Some pid => pid
           | None => 0
           end
       | None => 0
       end.

Definition getContainerId (attributes : AMap) : string :=
  match Map_Get AttributeContainerID attributes with Some v => Value_Str v | None => "" end.

Definition put_pid (pid : Z) (attrs : AMap) : AMap := if pid >? 0 then Map_PutInt KEY_PID pid attrs else attrs.
Definition put_container (containerId : string) (attrs : AMap) : AMap :=
  if bool_decide (containerId ≠ "") then Map_PutStr KEY_CONTAINERID containerId attrs else attrs.
End attributes.

Section receiver.
Context `{PData} `{GrpcErrors} {E : Type} `{!FillProc E}.

(** The consumer that follows is the error it answers a message with; the
    extension is nil or a value. *)
Record otlp_Receiver := { or_fillProcExtension : option E }.

(** [None] is a panic of the extension. *)
Definition fillPidAndContainerId (r : otlp_Receiver) (pid : Z) (containerId : string) (resourceAttr : AMap)
    : option AMap :=
  let beylaPid := getBeylaPid resourceAttr in
  if beylaPid >? 0 then
    containerId ← match or_fillProcExtension r with
                  | Some ext => fp_GetContainerIdByPid beylaPid ext
                  | None => Some containerId
                  end;
    Some (put_container containerId (put_pid beylaPid resourceAttr))
  else
    let resContainerId := getContainerId resourceAttr in
    Some (if bool_decide (resContainerId ≠ "") then
            if bool_decide (containerId ≠ "") && bool_decide (resContainerId = containerId) && (pid >? 0)
            then Map_PutStr KEY_CONTAINERID containerId (Map_PutInt KEY_PID pid resourceAttr)
            else resourceAttr
          else put_container containerId (put_pid pid resourceAttr)).

(** The loop over the resources. *)
Definition fill_resources (r : otlp_Receiver) (pid : Z) (containerId : string) (td : Traces) : option Traces :=
  mapM (λ rs, attrs ← fillPidAndContainerId r pid containerId (ResourceSpans_Resource rs);
              Some {| ResourceSpans_Resource := attrs; ResourceSpans_ScopeSpans := ResourceSpans_ScopeSpans rs |}) td.

(** What follows the look-up of the peer, common to [Export] and [ExportHttp]: the
    message that is forwarded, the error that is answered, the receiver. *)
Definition export_found (nextConsumer : Traces → option GoErr) (td : Traces)
    (found : option (Z * string * option E)) : option (option Traces * option GoErr * otlp_Receiver) :=
  '(pid, containerId, ext) ← found;
  let r := {| or_fillProcExtension := ext |} in
  td ← fill_resources r pid containerId td;
  Some (Some td, nextConsumer td ≫= GetStatusFromError, r).

Definition otlp_Export (peer : option (string * string)) (nextConsumer : Traces → option GoErr) (td : Traces)
    (r : otlp_Receiver) : option (option Traces * option GoErr * otlp_Receiver) :=
  if SpanCount td =? 0 then Some (None, None, r)
  else export_found nextConsumer td
         match or_fillProcExtension r with
         | Some ext => '(pid, containerId, ext) ← fp_GetMatch peer ext; Some (pid, containerId, Some ext)
         | None => Some (0, "", None)
         end.

Definition ExportHttp (remoteAddr host : string) (nextConsumer : Traces → option GoErr) (td : Traces)
    (r : otlp_Receiver) : option (option Traces * option GoErr * otlp_Receiver) :=
  if SpanCount td =? 0 then Some (None, None, r)
  else export_found nextConsumer td
         match or_fillProcExtension r with
         | Some ext => '(pid, containerId, ext) ← fp_GetMatchForHttp remoteAddr host ext; Some (pid, containerId, Some ext)
         | None => Some (0, "", None)
         end.
End receiver.
Arguments otlp_Receiver : clear implicits.

(** [Export] of the metrics and of the logs receiver: the count of the message and
    the consumer that follows. *)
Definition plain_Export `{GrpcErrors} {M : Type} (count : M → Z) (nextConsumer : M → option GoErr) (md : M)
    : option M * option GoErr :=
  if count md =? 0 then (None, None) else (Some md, nextConsumer md ≫= GetStatusFromError).

(** ** What a resource is given *)

Section fill.
Context `{PD : PData, !PDataLaws PD} `{G : GrpcErrors} {E : Type} `{!FillProc E}.
Implicit Types (attrs : AMap) (pid : Z) (containerId : string).

Lemma KEY_ne : KEY_PID ≠ KEY_CONTAINERID.
Proof. done. Qed.

Lemma get_put_container k containerId attrs :
  Map_Get k (put_container containerId attrs) =
  if decide (k = KEY_CONTAINERID ∧ containerId ≠ "") then Some (ValueStr containerId) else Map_Get k attrs.
Proof.
  unfold put_container, Map_PutStr. case_bool_decide as Hc.
  - rewrite Map_Get_Put_dec. repeat case_decide; naive_solver.
  - by rewrite decide_False by tauto.
Qed.

Lemma get_put_pid k pid attrs :
  Map_Get k (put_pid pid attrs) =
  if decide (k = KEY_PID ∧ pid > 0) then Some (ValueInt pid) else Map_Get k attrs.
Proof.
  unfold put_pid, Map_PutInt. rewrite Z.gtb_ltb. destruct (Z.ltb_spec 0 pid).
  - rewrite Map_Get_Put_dec. repeat case_decide; try done; naive_solver lia.
  - by rewrite decide_False by lia.
Qed.

(** The process and the container a resource is given, from the ones of its
    connection; 0 and the empty string are none.  [cidOf] is what the extension
    knows of the containers of processes. *)
Definition attributed (cidOf : Z → string) pid containerId attrs : Z * string :=
  if decide (getBeylaPid attrs > 0) then (getBeylaPid attrs, cidOf (getBeylaPid attrs))
  else if decide (getContainerId attrs = "") then (pid, containerId)
  else if decide (getContainerId attrs = containerId ∧ pid > 0) then (pid, containerId)
  else (0, "").

(** The attributes [attrs'] are [attrs] with the process and the container. *)
Definition carries (given : Z * string) attrs attrs' : Prop :=
  ∀ k, Map_Get k attrs' =
    if decide (k = KEY_CONTAINERID ∧ given.2 ≠ "") then Some (ValueStr given.2)
    else if decide (k = KEY_PID ∧ given.1 > 0) then Some (ValueInt given.1)
    else Map_Get k attrs.

Lemma carries_put pid containerId attrs :
  carries (pid, containerId) attrs (put_container containerId (put_pid pid attrs)).
Proof. intros k. by rewrite get_put_container, get_put_pid. Qed.

Lemma carries_nothing attrs : carries (0, "") attrs attrs.
Proof. intros k. simpl. rewrite !decide_False; [done|lia|naive_solver]. Qed.

Lemma fillPidAndContainerId_carries (r : otlp_Receiver E) (cidOf : Z → string) pid containerId attrs :
  (getBeylaPid attrs > 0 →
   from_option (fp_GetContainerIdByPid (getBeylaPid attrs)) (Some containerId) (or_fillProcExtension r) =
   Some (cidOf (getBeylaPid attrs))) →
  ∃ attrs', fillPidAndContainerId r pid containerId attrs = Some attrs' ∧
            carries (attributed cidOf pid containerId attrs) attrs attrs'.
Proof.
  intros Hc. unfold fillPidAndContainerId, attributed. rewrite Z.gtb_ltb.
  destruct (Z.ltb_spec 0 (getBeylaPid attrs)) as [Hb|Hb].
  - rewrite decide_True by lia. specialize (Hc ltac:(lia)).
    assert (match or_fillProcExtension r with Some ext => fp_GetContainerIdByPid (getBeylaPid attrs) ext
            | None => Some containerId end = Some (cidOf (getBeylaPid attrs))) as ->
      by (by destruct (or_fillProcExtension r)).
    simpl. eexists. split; [done|]. apply carries_put.
  - rewrite decide_False by lia. eexists. split; [done|]. case_bool_decide as Hne.
    + rewrite decide_False by done. rewrite Z.gtb_ltb.
      destruct (decide (getContainerId attrs = containerId ∧ pid > 0)) as [[Heq Hp]|Hno].
      * rewrite bool_decide_true by congruence. rewrite bool_decide_true by done. rewrite (proj2 (Z.ltb_lt 0 pid)) by lia.
        assert (Map_PutStr KEY_CONTAINERID containerId (Map_PutInt KEY_PID pid attrs) =
                put_container containerId (put_pid pid attrs)) as ->; [|apply carries_put].
        unfold put_container, put_pid. rewrite bool_decide_true by congruence.
        by rewrite Z.gtb_ltb, (proj2 (Z.ltb_lt 0 pid)) by lia.
      * assert (bool_decide (containerId ≠ "") && bool_decide (getContainerId attrs = containerId) && (0 <? pid) = false)
          as ->; [|apply carries_nothing].
        apply not_true_iff_false. rewrite !andb_true_iff, !bool_decide_eq_true, Z.ltb_lt. intros [[_ ?] ?]. apply Hno. split; [done|lia].
    + destruct (decide (getContainerId attrs = "")); [apply carries_put|done].
Qed.

(** All resources of a message. *)
Lemma fill_resources_carries (r : otlp_Receiver E) (cidOf : Z → string) pid containerId (td : Traces) :
  (∀ rs, rs ∈ td → getBeylaPid (ResourceSpans_Resource rs) > 0 →
     from_option (fp_GetContainerIdByPid (getBeylaPid (ResourceSpans_Resource rs))) (Some containerId)
       (or_fillProcExtension r) = Some (cidOf (getBeylaPid (ResourceSpans_Resource rs)))) →
  ∃ td', fill_resources r pid containerId td = Some td' ∧
    Forall2 (λ rs rs', ResourceSpans_ScopeSpans rs' = ResourceSpans_ScopeSpans rs ∧
      carries (attributed cidOf pid containerId (ResourceSpans_Resource rs))
        (ResourceSpans_Resource rs) (ResourceSpans_Resource rs')) td td'.
Proof.
  unfold fill_resources. induction td as [|rs td IH]; intros Hc; [by eexists|]. cbn [mapM].
  destruct (fillPidAndContainerId_carries r cidOf pid containerId (ResourceSpans_Resource rs)) as (attrs' & -> & Hput);
    [apply Hc; by left|].
  destruct IH as (td' & -> & Htd); [intros; apply Hc; [by right|done]|]. simpl. eexists. split; [done|]. by constructor.
Qed.
End fill.

(** ** The receiver with the socket extension *)

Section attribution.
Context `{PD : PData, !PDataLaws PD} `{G : GrpcErrors}.

(** The extension after some ticks and requests. *)
Definition ext_after (interval : Z) (evs : list fill_event) : SocketProcExtension :=
  {| sp_cache := Some (fl_cache (fill_run evs fill_init)); sp_enable := true; sp_interval := interval |}.

(** At a tick a process of this id held the connection of the peer, and the
    container id is the one read for this process id. *)
Definition holder (evs : list fill_event) (peerAddr : string) (pid : Z) (containerId : string) : Prop :=
  ∃ fs0 so0 o0 fs so o e serverAddr0 peerAddr0,
    EvMatch fs0 so0 o0 ∈ evs ∧ containerId = pi_ContainerId (ScanProc fs0 pid) ∧
    pi_Ignore (ScanProc fs0 pid) = false ∧
    EvQuery peerAddr0 serverAddr0 ∈ evs ∧ peer_key peerAddr0 = peer_key peerAddr ∧
    EvMatch fs so o ∈ evs ∧ SockAddr_String (ste_LocalAddr e) = peer_key peerAddr ∧
    sa_Port (ste_RemoteAddr e) = u16 (server_port serverAddr0) ∧
    holds_socket fs (ScanProc fs0 pid) e.

(** A process id a resource is given is the one it names itself as one of Beyla, or that
    of a holder of the connection, whose container is not another one. *)
Definition sourced (evs : list fill_event) (peerAddr : string) (attrs : AMap) (pid : Z) (containerId : string) : Prop :=
  pid > 0 → pid = getBeylaPid attrs ∨
    (holder evs peerAddr pid containerId ∧ (getContainerId attrs = "" ∨ getContainerId attrs = containerId)).

Lemma export_sourced interval evs peerAddr serverAddr (nextConsumer : Traces → option GoErr) td :
  SpanCount td ≠ 0 →
  let r := {| or_fillProcExtension := Some (ext_after interval evs) |} in
  let r' := {| or_fillProcExtension := Some (ext_after interval (evs ++ [EvQuery peerAddr serverAddr])) |} in
  ∃ td',
    otlp_Export (Some (peerAddr, serverAddr)) nextConsumer td r =
      Some (Some td', nextConsumer td' ≫= GetStatusFromError, r') ∧
    Forall2 (λ rs rs', ResourceSpans_ScopeSpans rs' = ResourceSpans_ScopeSpans rs ∧
      ∃ pid containerId, carries (pid, containerId) (ResourceSpans_Resource rs) (ResourceSpans_Resource rs') ∧
        sourced evs peerAddr (ResourceSpans_Resource rs) pid containerId) td td'.
Proof.
  intros Hn r r'. unfold otlp_Export. rewrite (proj2 (Z.eqb_neq _ 0)) by done.
  cbn [or_fillProcExtension r fp_GetMatch SocketProc_FillProc]. unfold GetMatchPidAndContainerId, getMatchPidAndContainerId.
  cbn [sp_enable sp_cache sp_interval ext_after negb mbind option_bind].
  set (c := fl_cache (fill_run evs fill_init)).
  assert (fl_cache (fill_run (evs ++ [EvQuery peerAddr serverAddr]) fill_init) = (match_peer peerAddr serverAddr c).2) as Hc.
  { unfold fill_run. rewrite foldS_app. fold (fill_run evs fill_init). cbn [foldS fill_step]. by destruct (fl_taken _). }
  pose proof (answer_names_holder evs peerAddr serverAddr) as Hans. fold c in Hans.
  destruct (match_peer peerAddr serverAddr c) as [[pid containerId] c'] eqn:E. simpl in Hc.
  unfold export_found. cbn [mbind option_bind].
  assert ({| or_fillProcExtension := Some {| sp_cache := Some c'; sp_enable := true; sp_interval := interval |} |} = r')
    as -> by (unfold r', ext_after; by rewrite Hc).
  destruct (fill_resources_carries r' (λ pid, GetContainerIdByPid pid c') pid containerId td) as (td' & -> & Htd).
  { intros rs Hin Hb. unfold r', ext_after. simpl. by rewrite Hc. }
  exists td'. split; [done|]. eapply list.Forall2_impl; [exact Htd|]. intros rs rs' [Hs Hput]. split; [done|].
  unfold attributed in Hput; unfold sourced. repeat case_decide; (eexists _, _; split; [exact Hput|]); intros Hpos;
    [by left|right..|lia]; (destruct Hans as [[-> ->]|Hans]; [lia|]); (split; [exact Hans|]); tauto.
Qed.

(** C31: The receiver and the extension together: whatever ticks and requests came
    before and however /proc changed, [Export] with an enabled extension does not
    panic and forwards every resource with its spans and attributes untouched, but
    for [apo.pid] and [apo.containerId]; and a process id it writes is the one a
    Beyla resource names itself, or that of a process which held the connection of
    the request's peer at an earlier tick, in which case the resource names no
    other container. *)
Theorem exported_pid_source interval evs peerAddr serverAddr (nextConsumer : Traces → option GoErr) td :
  SpanCount td ≠ 0 →
  let r := {| or_fillProcExtension := Some (ext_after interval evs) |} in
  let r' := {| or_fillProcExtension := Some (ext_after interval (evs ++ [EvQuery peerAddr serverAddr])) |} in
  ∃ td',
    otlp_Export (Some (peerAddr, serverAddr)) nextConsumer td r =
      Some (Some td', nextConsumer td' ≫= GetStatusFromError, r') ∧
    Forall2 (λ rs rs',
      let attrs := ResourceSpans_Resource rs in
      ResourceSpans_ScopeSpans rs' = ResourceSpans_ScopeSpans rs ∧
      ∃ pid containerId, carries (pid, containerId) attrs (ResourceSpans_Resource rs') ∧
        (pid > 0 → pid = getBeylaPid attrs ∨
           (holder evs peerAddr pid containerId ∧ (getContainerId attrs = "" ∨ getContainerId attrs = containerId))))
      td td'.
Proof. intros Hn. by apply export_sourced. Qed.

(** An extension that is configured but not enabled has no cache: [Export]
    panics as soon as a resource looks like one of Beyla's, and only then. *)
Theorem disabled_extension_panics fs cfg peer (nextConsumer : Traces → option GoErr) td :
  fc_Enable cfg && fs_Exists fs PATH_ROOT = false →
  let r := {| or_fillProcExtension := Some (newSocketProcExtension fs cfg) |} in
  otlp_Export peer nextConsumer td r = None ↔
  SpanCount td ≠ 0 ∧ ∃ rs, rs ∈ td ∧ getBeylaPid (ResourceSpans_Resource rs) > 0.
Proof.
  intros He r. unfold otlp_Export. destruct (Z.eqb_spec (SpanCount td) 0) as [Hz|Hz]; [naive_solver|].
  cbn [or_fillProcExtension r fp_GetMatch SocketProc_FillProc]. unfold GetMatchPidAndContainerId, newSocketProcExtension.
  rewrite He. cbn [sp_enable negb mbind option_bind]. unfold export_found. cbn [mbind option_bind].
  set (r' := {| or_fillProcExtension := _ |}).
  destruct (decide (Exists (λ rs, getBeylaPid (ResourceSpans_Resource rs) > 0) td)) as [Hex|Hno].
  - rewrite list.Exists_exists in Hex. split; [done|]. intros _.
    destruct Hex as (rs & Hin & Hb). assert (fill_resources r' 0 "" td = None) as ->; [|done].
    apply mapM_None, list.Exists_exists. exists rs. split; [done|]. unfold fillPidAndContainerId.
    by rewrite Z.gtb_ltb, (proj2 (Z.ltb_lt _ _)) by lia.
  - rewrite list.Exists_exists in Hno. split; [|naive_solver].
    destruct (fill_resources_carries r' (λ _, "") 0 "" td) as (td' & -> & _); [|done].
    intros rs Hin Hb. destruct Hno. by exists rs.
Qed.
End attribution.

(** ** A reference for the errors *)

Module RefErrors.
(** A plain error, permanent or not, or one that carries a status. *)
Inductive err := Plain (msg : string) (permanent : bool) | OfStatus (c : Code) (msg : string).

Definition from_error (e : err) : (Code * string) * bool :=
  match e with Plain msg _ => ((Unknown, msg), false) | OfStatus c msg => ((c, msg), true) end.

#[export] Instance errors : GrpcErrors := {|
  GoErr := err;
  Err_Error e := match e with Plain msg _ | OfStatus _ msg => msg end;
  IsPermanent e := match e with Plain _ permanent => permanent | OfStatus _ _ => false end;
  Status := Code * string;
  status_New c msg := (c, msg);
  Status_Code := fst;
  status_FromError := from_error;
  Status_Err s := match s.1 with OK => None | c => Some (OfStatus c s.2) end;
|}.

#[export] Instance errors_laws : GrpcErrorsLaws errors.
Proof.
  split; [done|by intros [[] ?]|]. intros [c msg] Hc. destruct c; [done|..]; (eexists; split; [reflexivity|done]).
Qed.
End RefErrors.

Import RefPData RefErrors.

Definition ex_otlp_span : Span :=
  {| Span_TraceID := "tttttttttttttttt"; Span_SpanID := "ssssssss"; Span_ParentSpanID := ""; Span_Name := "/a";
     Span_Kind := SpanKindServer; Span_StartTimestamp := 0; Span_EndTimestamp := 10;
     Span_Attributes := ∅; Span_Status := StatusCodeOk |}.

Definition ex_full : GoErr := Plain "full" false.

(** A plain resource and one of Beyla. *)
Definition ex_otlp_td : Traces :=
  [{| ResourceSpans_Resource := ∅; ResourceSpans_ScopeSpans := [{| ScopeSpans_Spans := [ex_otlp_span] |}] |};
   {| ResourceSpans_Resource := {["service.instance.id" := VStr "host-77"]};
      ResourceSpans_ScopeSpans := [{| ScopeSpans_Spans := [ex_otlp_span] |}] |}].

Definition ex_events : list fill_event :=
  [EvQuery "10.0.2.15:40000" "10.0.2.15:4317"; EvTake; EvMatch ex_fs (λ _ m, (map_to_list m).*1) ex_orders].

Definition ex_pids (result : option (option Traces * option GoErr * otlp_Receiver SocketProcExtension)) : list (option Value) :=
  match result with
  | Some (Some td, _, _) => (λ rs, Map_Get KEY_PID (ResourceSpans_Resource rs)) <$> td
  | _ => []
  end.

Lemma exported_pid_source_witness :
  ∃ td' r', otlp_Export (Some ("10.0.2.15:40000", "10.0.2.15:4317")) (λ _, Some ex_full) ex_otlp_td
              {| or_fillProcExtension := Some (ext_after 5 ex_events) |} =
            Some (Some td', Some (OfStatus Unavailable "full" : GoErr), r') ∧
  ex_pids (Some (Some td', None, r')) = [Some (VInt 12); Some (VInt 77)].
Proof.
  destruct (exported_pid_source 5 ex_events "10.0.2.15:40000" "10.0.2.15:4317" (λ _, Some ex_full) ex_otlp_td)
    as (td' & E & _); [done|].
  eexists td', _. split; [exact E|]. apply (f_equal ex_pids) in E. cbn [ex_pids] in E. cbn [ex_pids]. rewrite <- E.
  vm_compute. reflexivity.
Defined.

Lemma disabled_extension_panics_witness :
  otlp_Export None (λ _, None) ex_otlp_td
    {| or_fillProcExtension := Some (newSocketProcExtension ex_fs {| fc_Enable := false; fc_Interval := 5 |}) |} = None.
Proof.
  apply (disabled_extension_panics ex_fs {| fc_Enable := false; fc_Interval := 5 |} None (λ _, None) ex_otlp_td); [done|].
  split; [done|]. eexists. split; [right; left|]. vm_compute. reflexivity.
Defined.
