(* ===== verification/OtlpHttp.v ===== *)
(** * OtlpHttp: the HTTP handlers of the OTLP receiver

    Models [otlpreceiver/otlphttp.go] and [otlpreceiver/encoder.go] over
    [OtlpTraces].  The encoding of the messages is the class [OtlpCodec]; the media
    type is read as [mime.ParseMediaType] of Go's library does, on bytes. *)

From S2P Require Import Prelude GoStrings PData ProcNet FillProc OtlpTraces.

(** ** mime.ParseMediaType *)

Definition is_tspecial (a : ascii) : bool :=
  existsb (Ascii.eqb a) (byte_list "()<>@,;:\/[]?=") || Nat.eqb (nat_of_ascii a) 34.

Definition is_token_char (a : ascii) : bool :=
  let n := nat_of_ascii a in Nat.ltb 32 n && Nat.ltb n 127 && negb (is_tspecial a).

Fixpoint consumeToken (v : list ascii) : list ascii * list ascii :=
  match v with
  | a :: v' => if is_token_char a then let '(token, rest) := consumeToken v' in (a :: token, rest) else ([], v)
  | [] => ([], [])
  end.

(** [None]: the error. *)
Definition checkMediaTypeDisposition (s : list ascii) : option unit :=
  let '(typ, rest) := consumeToken s in
  match typ, rest with
  | [], _ => None
  | _, [] => Some tt
  | _, a :: rest' =>
      if Ascii.eqb a "/" then
        let '(subtype, rest) := consumeToken rest' in
        match subtype, rest with [], _ => None | _, [] => Some tt | _, _ => None end
      else None
  end.

(** The rest of a quoted string; [None] when the quote does not end. *)
Fixpoint consumeQuoted (v buffer : list ascii) : option (list ascii * list ascii) :=
  match v with
  | [] => None
  | r :: v' =>
      if Nat.eqb (nat_of_ascii r) 34 then Some (buffer, v')
      else
        match v' with
        | b :: v'' =>
            if Ascii.eqb r "\" && is_tspecial b then consumeQuoted v'' (buffer ++ [b])
            else if Nat.eqb (nat_of_ascii r) 13 || Nat.eqb (nat_of_ascii r) 10 then None
            else consumeQuoted v' (buffer ++ [r])
        | [] =>
            if Nat.eqb (nat_of_ascii r) 13 || Nat.eqb (nat_of_ascii r) 10 then None
            else consumeQuoted v' (buffer ++ [r])
        end
  end.

Definition consumeValue (v : list ascii) : list ascii * list ascii :=
  match v with
  | [] => ([], [])
  | a :: v' => if Nat.eqb (nat_of_ascii a) 34 then default ([], v) (consumeQuoted v' []) else consumeToken v
  end.

(** [None]: no parameter. *)
Definition consumeMediaParam (v : list ascii) : option (list ascii * list ascii * list ascii) :=
  match trim_left is_space v with
  | a :: rest =>
      if Ascii.eqb a ";" then
        let '(param, rest) := consumeToken (trim_left is_space rest) in
        match param, trim_left is_space rest with
        | [], _ => None
        | _, b :: rest =>
            if Ascii.eqb b "=" then
              let rest := trim_left is_space rest in
              let '(value, rest2) := consumeValue rest in
              if bool_decide (value = [] ∧ rest2 = rest) then None
              else Some (lower_ascii <$> param, value, rest2)
            else None
        | _, [] => None
        end
      else None
  | [] => None
  end.

(** The loop over the parameters: whether they are well-formed and none is given
    twice with two values.  [None]: out of fuel. *)
Fixpoint params_loop (fuel : nat) (v : list ascii) (params : gmap string string) : option bool :=
  match fuel with
  | O => None
  | S fuel' =>
      match trim_left is_space v with
      | [] => Some true
      | v =>
          match consumeMediaParam v with
          | None => Some (String.eqb (TrimSpace (of_byte_list v)) ";")
          | Some (key, value, rest) =>
              let key := of_byte_list key in
              match params !! key with
              | Some value' =>
                  if bool_decide (value' ≠ of_byte_list value) then Some false else params_loop fuel' rest params
              | None => params_loop fuel' rest (<[key := of_byte_list value]> params)
              end
          end
      end
  end.

(** What is before the first semicolon, and the rest with it. *)
Fixpoint cut_params (v : list ascii) : list ascii * list ascii :=
  match v with
  | [] => ([], [])
  | a :: v' => if Ascii.eqb a ";" then ([], v) else let '(base, rest) := cut_params v' in (a :: base, rest)
  end.

(** The media type; [None] is the error. *)
Definition ParseMediaType (v : string) : option string :=
  let '(base, rest) := cut_params (byte_list v) in
  let mediatype := TrimSpace (ToLower (of_byte_list base)) in
  _ ← checkMediaTypeDisposition (byte_list mediatype);
  if default false (params_loop (S (length rest)) rest ∅) then Some mediatype else None.

Lemma trim_left_length f v : (length (trim_left f v) <= length v)%nat.
Proof. induction v as [|a v IH]; simpl; [done|]. destruct (f a); simpl; lia. Qed.

Lemma consumeToken_length v : (length (consumeToken v).1 + length (consumeToken v).2 = length v)%nat.
Proof.
  induction v as [|a v IH]; [done|]. cbn [consumeToken]. destruct (is_token_char a); [|done].
  destruct (consumeToken v). simpl in *. lia.
Qed.

Lemma consumeQuoted_length v buffer value rest :
  consumeQuoted v buffer = Some (value, rest) → (length rest < length v)%nat.
Proof.
  remember (length v) as n eqn:En. revert v buffer En. induction n as [n IH] using lt_wf_ind. intros [|r v] buffer ->; [done|].
  cbn [consumeQuoted]. case_match; [intros [= _ ->]; simpl; lia|]. destruct v as [|b v].
  - case_match; [done|]. intros E. simpl in E. done.
  - case_match; [|case_match; [done|]]; intros E.
    + apply (IH (length v)) in E; [simpl; lia|simpl; lia|done].
    + apply (IH (length (b :: v))) in E; [simpl in *; lia|simpl; lia|done].
Qed.

Lemma consumeValue_length v : (length (consumeValue v).2 <= length v)%nat.
Proof.
  destruct v as [|a v]; [done|]. unfold consumeValue. case_match.
  - destruct (consumeQuoted v []) as [[value rest]|] eqn:E; simpl; [|lia]. apply consumeQuoted_length in E. lia.
  - pose proof (consumeToken_length (a :: v)). lia.
Qed.

Lemma consumeMediaParam_shorter v key value rest :
  consumeMediaParam v = Some (key, value, rest) → (length rest < length v)%nat.
Proof.
  unfold consumeMediaParam. pose proof (trim_left_length is_space v) as H1.
  destruct (trim_left is_space v) as [|a r1]; [done|]. case_match; [|done].
  pose proof (trim_left_length is_space r1) as H2. pose proof (consumeToken_length (trim_left is_space r1)) as H3.
  destruct (consumeToken _) as [param r2]. pose proof (trim_left_length is_space r2) as H4.
  destruct param as [|x param]; [done|]. destruct (trim_left is_space r2) as [|b r3]; [done|]. case_match; [|done].
  pose proof (trim_left_length is_space r3) as H5. pose proof (consumeValue_length (trim_left is_space r3)) as H6.
  destruct (consumeValue _) as [val r4]. case_match; [done|]. intros [= _ _ <-]. simpl in *. lia.
Qed.

(** The fuel is enough: every round is shorter. *)
Lemma params_loop_total fuel v params :
  (length v < fuel)%nat → ∃ ok, params_loop fuel v params = Some ok.
Proof.
  revert v params. induction fuel as [|fuel IH]; intros v params Hlen; [lia|]. cbn [params_loop].
  pose proof (trim_left_length is_space v) as H1. destruct (trim_left is_space v) as [|a v'] eqn:E; [by eexists|].
  destruct (consumeMediaParam (a :: v')) as [[[key value] rest]|] eqn:Ep; [|by eexists].
  apply consumeMediaParam_shorter in Ep. destruct (params !! _); [case_match; [by eexists|]|]; apply IH; lia.
Qed.

Example ParseMediaType_examples :
  ParseMediaType "Application/JSON; charset=utf-8" = Some "application/json" ∧
  ParseMediaType "application/x-protobuf;" = Some "application/x-protobuf" ∧
  ParseMediaType "application/json; a=1; a=2" = None ∧ ParseMediaType "" = None ∧
  ParseMediaType "application/json; q" = None.
Proof. vm_compute. done. Qed.

(** ** encoder.go *)

Definition pbContentType : string := "application/x-protobuf".
Definition jsonContentType : string := "application/json".

(** The encodings of the requests, the (empty) responses and the status, by the
    pdata and protobuf packages; an [inr] is the error. *)
Class OtlpCodec `{PData} `{GrpcErrors} := {
  Metrics : Type;
  DataPointCount : Metrics → Z;
  Logs : Type;
  LogRecordCount : Logs → Z;
  traces_UnmarshalProto : string → Traces + GoErr;
  traces_UnmarshalJSON : string → Traces + GoErr;
  metrics_UnmarshalProto : string → Metrics + GoErr;
  metrics_UnmarshalJSON : string → Metrics + GoErr;
  logs_UnmarshalProto : string → Logs + GoErr;
  logs_UnmarshalJSON : string → Logs + GoErr;
  traces_MarshalProto : string + GoErr;
  traces_MarshalJSON : string + GoErr;
  metrics_MarshalProto : string + GoErr;
  metrics_MarshalJSON : string + GoErr;
  logs_MarshalProto : string + GoErr;
  logs_MarshalJSON : string + GoErr;
  status_Marshal : Status → string + GoErr;
  status_jsonpb : Status → string + GoErr;
}.

Section http.
Context `{PD : PData} `{G : GrpcErrors} `{!OtlpCodec} {E : Type} `{!FillProc E}.

Record encoder := {
  unmarshalTracesRequest : string → Traces + GoErr;
  unmarshalMetricsRequest : string → Metrics + GoErr;
  unmarshalLogsRequest : string → Logs + GoErr;
  marshalTracesResponse : string + GoErr;
  marshalMetricsResponse : string + GoErr;
  marshalLogsResponse : string + GoErr;
  marshalStatus : Status → string + GoErr;
  contentType : string;
}.

Definition pbEncoder : encoder := {|
  unmarshalTracesRequest := traces_UnmarshalProto;
  unmarshalMetricsRequest := metrics_UnmarshalProto;
  unmarshalLogsRequest := logs_UnmarshalProto;
  marshalTracesResponse := traces_MarshalProto;
  marshalMetricsResponse := metrics_MarshalProto;
  marshalLogsResponse := logs_MarshalProto;
  marshalStatus := status_Marshal;
  contentType := pbContentType;
|}.

Definition jsEncoder : encoder := {|
  unmarshalTracesRequest := traces_UnmarshalJSON;
  unmarshalMetricsRequest := metrics_UnmarshalJSON;
  unmarshalLogsRequest := logs_UnmarshalJSON;
  marshalTracesResponse := traces_MarshalJSON;
  marshalMetricsResponse := metrics_MarshalJSON;
  marshalLogsResponse := logs_MarshalJSON;
  marshalStatus := status_jsonpb;
  contentType := jsonContentType;
|}.

(** ** otlphttp.go *)

(** What the handlers read of a request; the body is what [io.ReadAll] answers. *)
Record HttpRequest := {
  hr_Method : string;
  hr_ContentType : string;
  hr_Body : string + GoErr;
  hr_Close : option GoErr;
  hr_RemoteAddr : string;
  hr_Host : string;
}.

Record Response := { rp_ContentType : string; rp_StatusCode : Z; rp_Body : string }.

Definition quoted (s : string) : string := String "034" (s +:+ String "034" "").

Definition fallbackMsg : string :=
  "{" +:+ quoted "code" +:+ ": 13, " +:+ quoted "message" +:+ ": " +:+ quoted "failed to marshal error message" +:+ "}".
Definition fallbackContentType : string := "application/json".

Definition writeResponse (contentType : string) (statusCode : Z) (msg : string) : Response :=
  {| rp_ContentType := contentType; rp_StatusCode := statusCode; rp_Body := msg |}.

Definition writeStatusResponse (enc : encoder) (statusCode : Z) (rsp : Status) : Response :=
  match marshalStatus enc rsp with
  | inr _ => writeResponse fallbackContentType 500 fallbackMsg
  | inl msg => writeResponse (contentType enc) statusCode msg
  end.

Definition writeError (enc : encoder) (err : GoErr) (statusCode : Z) : Response :=
  let '(s, ok) := status_FromError err in
  if ok then writeStatusResponse enc (GetHTTPStatusCodeFromStatus s) s
  else writeStatusResponse enc statusCode (NewStatusFromMsgAndHTTPCode (Err_Error err) statusCode).

Definition getMimeTypeFromContentType (contentType : string) : string := default "" (ParseMediaType contentType).

Definition errorHandler (r : HttpRequest) (errMsg : string) (statusCode : Z) : Response :=
  let s := NewStatusFromMsgAndHTTPCode errMsg statusCode in
  let mime := getMimeTypeFromContentType (hr_ContentType r) in
  if bool_decide (mime = pbContentType) then writeStatusResponse pbEncoder statusCode s
  else if bool_decide (mime = jsonContentType) then writeStatusResponse jsEncoder statusCode s
  else writeResponse fallbackContentType 500 fallbackMsg.

Definition handleUnmatchedMethod : Response :=
  writeResponse "text/plain" 405 (FormatInt 405 +:+ " method not allowed, supported: [POST]").

Definition handleUnmatchedContentType : Response :=
  writeResponse "text/plain" 415
    (FormatInt 415 +:+ " unsupported media type, supported: [" +:+ jsonContentType +:+ ", " +:+ pbContentType +:+ "]").

(** An [inr] is the response that was written. *)
Definition readContentType (req : HttpRequest) : encoder + Response :=
  if bool_decide (hr_Method req ≠ "POST") then inr handleUnmatchedMethod
  else
    let mime := getMimeTypeFromContentType (hr_ContentType req) in
    if bool_decide (mime = pbContentType) then inl pbEncoder
    else if bool_decide (mime = jsonContentType) then inl jsEncoder
    else inr handleUnmatchedContentType.

Definition readAndCloseBody (req : HttpRequest) (enc : encoder) : string + Response :=
  match hr_Body req with
  | inr err => inr (writeError enc err 400)
  | inl body =>
      match hr_Close req with
      | Some err => inr (writeError enc err 400)
      | None => inl body
      end
  end.

(** What is written once the receiver answered. *)
Definition write_answer (enc : encoder) (marshal : string + GoErr) (err : option GoErr) : Response :=
  match err with
  | Some err => writeError enc err 500
  | None =>
      match marshal with
      | inr err => writeError enc err 500
      | inl msg => writeResponse (contentType enc) 200 msg
      end
  end.


(** [Export] of the metrics and of the logs receiver. *)
Definition metrics_Export : (Metrics → option GoErr) → Metrics → option Metrics * option GoErr := plain_Export DataPointCount.
Definition logs_Export : (Logs → option GoErr) → Logs → option Logs * option GoErr := plain_Export LogRecordCount.

Definition handle_plain {M : Type} (unmarshal : encoder → string → M + GoErr) (marshal : encoder → string + GoErr)
    (export : (M → option GoErr) → M → option M * option GoErr) (req : HttpRequest) (nextConsumer : M → option GoErr)
    : Response * option M :=
  match readContentType req with
  | inr resp => (resp, None)
  | inl enc =>
      match readAndCloseBody req enc with
      | inr resp => (resp, None)
      | inl body =>
          match unmarshal enc body with
          | inr err => (writeError enc err 400, None)
          | inl otlpReq =>
              let '(sent, err) := export nextConsumer otlpReq in
              (write_answer enc (marshal enc) err, sent)
          end
      end
  end.

Definition handleMetrics : HttpRequest → (Metrics → option GoErr) → Response * option Metrics :=
  handle_plain unmarshalMetricsRequest marshalMetricsResponse metrics_Export.
Definition handleLogs : HttpRequest → (Logs → option GoErr) → Response * option Logs :=
  handle_plain unmarshalLogsRequest marshalLogsResponse logs_Export.

(** ** The answers *)




(** The encodings of the answers do not fail. *)
Class CodecTotal : Prop := {
  status_encodes : ∀ enc s, enc ∈ [pbEncoder; jsEncoder] → ∃ msg, marshalStatus enc s = inl msg;
  response_encodes : ∀ enc, enc ∈ [pbEncoder; jsEncoder] →
    (∃ msg, marshalTracesResponse enc = inl msg) ∧ (∃ msg, marshalMetricsResponse enc = inl msg) ∧
    (∃ msg, marshalLogsResponse enc = inl msg);
}.

Context `{!GrpcErrorsLaws G} `{!CodecTotal}.

Lemma readContentType_encoder req enc : readContentType req = inl enc → enc ∈ [pbEncoder; jsEncoder].
Proof. unfold readContentType. repeat case_bool_decide; intros [= <-]; set_solver. Qed.
















End http.

(** A reference for the encodings: one message, and the text of a status. *)
Module RefCodec.
Import RefPData RefErrors.
#[export] Instance codec : @OtlpCodec pdata errors := {|
  Metrics := Z; DataPointCount := id; Logs := Z; LogRecordCount := id;
  traces_UnmarshalProto _ := inl ex_otlp_td;
  traces_UnmarshalJSON s := if bool_decide (s = "{}") then inl [] else inr (Plain "json" true : GoErr);
  metrics_UnmarshalProto s := inl (slen s); metrics_UnmarshalJSON s := inl (slen s);
  logs_UnmarshalProto s := inl (slen s); logs_UnmarshalJSON s := inl (slen s);
  traces_MarshalProto := inl ""; traces_MarshalJSON := inl "{}";
  metrics_MarshalProto := inl ""; metrics_MarshalJSON := inl "{}";
  logs_MarshalProto := inl ""; logs_MarshalJSON := inl "{}";
  status_Marshal s := inl (s.2); status_jsonpb s := inl (s.2);
|}.

#[export] Instance codec_total : CodecTotal.
Proof.
  assert (∀ enc : encoder, enc ∈ [pbEncoder; jsEncoder] → enc = pbEncoder ∨ enc = jsEncoder) as H
    by (intros enc Hin; set_solver).
  split.
  - intros enc s [-> | ->]%H; by eexists.
  - intros enc [-> | ->]%H; split_and!; by eexists.
Qed.
End RefCodec.

Import RefPData RefErrors RefCodec.



