(* ===== verification/Sharing.v ===== *)
(** * Sharing: one receiver for several signals

    Models [pkg/common/sharedcomponent] (the Skywalking receiver) and
    [otlpreceiver/internal/common/sharedcomponent] (the OTLP receiver): a component
    that is asked for once per signal is created, started and shut down once.  The
    components live in a list, and a position in it is the pointer the callers hold;
    what the wrapped component answers is an argument.  [calls] records the calls of
    the wrapped components, and [reports] the status events that reach the settings
    of the instances. *)

From S2P Require Import Prelude GoStrings OtlpTraces.

(** The calls of the wrapped components, by pointer. *)
Inductive call := CallStart (c : nat) | CallShutdown (c : nat).

#[global] Instance call_eq_dec : EqDecision call.
Proof. solve_decision. Defined.

(** ** pkg/common/sharedcomponent *)

Section shared.
Context {K : Type} `{Countable K} `{GrpcErrors}.

(** [startOnce] and [stopOnce] are whether they ran; [removeFunc] is the key. *)
Record SharedComponent := { sc_key : K; sc_startOnce : bool; sc_stopOnce : bool }.

Record SharedComponents := {
  ss_comps : gmap K nat;
  ss_heap : list SharedComponent;
  ss_calls : list call;
}.

Definition NewSharedComponents : SharedComponents := {| ss_comps := ∅; ss_heap := []; ss_calls := [] |}.

Definition GetOrAdd (key : K) (s : SharedComponents) : nat * SharedComponents :=
  match ss_comps s !! key with
  | Some c => (c, s)
  | None =>
      let c := length (ss_heap s) in
      (c, {| ss_comps := <[key := c]> (ss_comps s);
             ss_heap := ss_heap s ++ [{| sc_key := key; sc_startOnce := false; sc_stopOnce := false |}];
             ss_calls := ss_calls s |})
  end.

(** [answer] is the error the wrapped component answers; [None] is a nil pointer. *)
Definition shared_Start (c : nat) (answer : option GoErr) (s : SharedComponents)
    : option (option GoErr * SharedComponents) :=
  r ← ss_heap s !! c;
  Some (if sc_startOnce r then (None, s)
        else (answer,
              {| ss_comps := ss_comps s;
                 ss_heap := <[c := {| sc_key := sc_key r; sc_startOnce := true; sc_stopOnce := sc_stopOnce r |}]> (ss_heap s);
                 ss_calls := ss_calls s ++ [CallStart c] |})).

Definition shared_Shutdown (c : nat) (answer : option GoErr) (s : SharedComponents)
    : option (option GoErr * SharedComponents) :=
  r ← ss_heap s !! c;
  Some (if sc_stopOnce r then (None, s)
        else (answer,
              {| ss_comps := delete (sc_key r) (ss_comps s);
                 ss_heap := <[c := {| sc_key := sc_key r; sc_startOnce := sc_startOnce r; sc_stopOnce := true |}]> (ss_heap s);
                 ss_calls := ss_calls s ++ [CallShutdown c] |})).

(** The states the factories reach: any calls, in any order. *)
Inductive shared_reach : SharedComponents → Prop :=
  | shared_new : shared_reach NewSharedComponents
  | shared_get key s : shared_reach s → shared_reach (GetOrAdd key s).2
  | shared_start c answer s o s' : shared_reach s → shared_Start c answer s = Some (o, s') → shared_reach s'
  | shared_stop c answer s o s' : shared_reach s → shared_Shutdown c answer s = Some (o, s') → shared_reach s'.

(** Exactly the components that were not shut down are in the map, under their
    keys, and the calls are the ones the flags say. *)
Record shared_inv (s : SharedComponents) : Prop := {
  sh_map : ∀ key c, ss_comps s !! key = Some c ↔ ∃ r, ss_heap s !! c = Some r ∧ sc_key r = key ∧ sc_stopOnce r = false;
  sh_once : NoDup (ss_calls s);
  sh_started : ∀ c, CallStart c ∈ ss_calls s ↔ ∃ r, ss_heap s !! c = Some r ∧ sc_startOnce r = true;
  sh_stopped : ∀ c, CallShutdown c ∈ ss_calls s ↔ ∃ r, ss_heap s !! c = Some r ∧ sc_stopOnce r = true;
}.

Lemma GetOrAdd_inv key s : shared_inv s → shared_inv (GetOrAdd key s).2.
Proof.
  intros [Hm Ho Hs Ht]. unfold GetOrAdd. destruct (ss_comps s !! key) as [c|] eqn:E; [by split|].
  split; cbn [snd ss_comps ss_heap ss_calls].
  - intros key' c. destruct (decide (key' = key)) as [->|Hne].
    + rewrite lookup_insert_eq. split.
      * intros [= <-]. eexists. by rewrite lookup_app_r, Nat.sub_diag by lia.
      * intros (r & Hr & Hk & Hf). apply lookup_app_Some in Hr as [Hr|[Hl Hr]].
        -- assert (ss_comps s !! key = Some c) by (apply Hm; eauto). congruence.
        -- apply list_lookup_singleton_Some in Hr as [Hz _]. f_equal. lia.
    + rewrite lookup_insert_ne, Hm by done. split; intros (r & Hr & Hk & Hf); exists r; split_and!; try done.
      * by apply lookup_app_l_Some.
      * apply lookup_app_Some in Hr as [Hr|[Hl Hr]]; [done|]. apply list_lookup_singleton_Some in Hr as [_ <-]. done.
  - done.
  - intros c. rewrite Hs. split; intros (r & Hr & Hf); exists r; split; try done.
    + by apply lookup_app_l_Some.
    + apply lookup_app_Some in Hr as [Hr|[Hl Hr]]; [done|]. by apply list_lookup_singleton_Some in Hr as [_ <-].
  - intros c. rewrite Ht. split; intros (r & Hr & Hf); exists r; split; try done.
    + by apply lookup_app_l_Some.
    + apply lookup_app_Some in Hr as [Hr|[Hl Hr]]; [done|]. by apply list_lookup_singleton_Some in Hr as [_ <-].
Qed.

(** A step that changes one component. *)
Lemma heap_insert (heap : list SharedComponent) c r r' (P : SharedComponent → Prop) :
  heap !! c = Some r → (P r' ↔ P r) → ∀ c', (∃ r, <[c := r']> heap !! c' = Some r ∧ P r) ↔ (∃ r, heap !! c' = Some r ∧ P r).
Proof.
  intros Hr HP c'. destruct (decide (c' = c)) as [->|Hne].
  - rewrite list_lookup_insert_eq by by eapply lookup_lt_Some. naive_solver.
  - by rewrite list_lookup_insert_ne by done.
Qed.

Lemma heap_insert_new (heap : list SharedComponent) c r r' (P : SharedComponent → Prop) :
  heap !! c = Some r → P r' → ∀ c', (∃ r, <[c := r']> heap !! c' = Some r ∧ P r) ↔ c' = c ∨ (∃ r, heap !! c' = Some r ∧ P r).
Proof.
  intros Hr HP c'. destruct (decide (c' = c)) as [->|Hne].
  - rewrite list_lookup_insert_eq by by eapply lookup_lt_Some. naive_solver.
  - rewrite list_lookup_insert_ne by done. naive_solver.
Qed.

Lemma shared_Start_inv c answer s o s' : shared_inv s → shared_Start c answer s = Some (o, s') → shared_inv s'.
Proof.
  intros [Hm Ho Hs Ht]. unfold shared_Start. destruct (ss_heap s !! c) as [r|] eqn:Er; [|done]. cbn [mbind option_bind].
  destruct (sc_startOnce r) eqn:Ef; intros [= <- <-]; [by split|]. split; cbn [ss_comps ss_heap ss_calls].
  - intros key c'. rewrite Hm. symmetry. by apply (heap_insert _ _ _ _ (λ r, sc_key r = key ∧ sc_stopOnce r = false) Er).
  - apply list.NoDup_app. split_and!; [done| |apply list.NoDup_singleton]. intros x Hx ->%list_elem_of_singleton.
    apply Hs in Hx as (r' & E & Hr'). congruence.
  - intros c'. rewrite elem_of_app, list_elem_of_singleton, Hs.
    rewrite (heap_insert_new _ _ _ _ (λ r, sc_startOnce r = true) Er) by done. split; [intros [?|[= ->]]; auto | intros [->|?]; auto].
  - intros c'. rewrite elem_of_app, list_elem_of_singleton, Ht.
    rewrite (heap_insert _ _ _ _ (λ r, sc_stopOnce r = true) Er) by done. split; [intros [?|[=]]; auto | auto].
Qed.

Lemma shared_Shutdown_inv c answer s o s' : shared_inv s → shared_Shutdown c answer s = Some (o, s') → shared_inv s'.
Proof.
  intros [Hm Ho Hs Ht]. unfold shared_Shutdown. destruct (ss_heap s !! c) as [r|] eqn:Er; [|done]. cbn [mbind option_bind].
  destruct (sc_stopOnce r) eqn:Ef; intros [= <- <-]; [by split|]. split; cbn [ss_comps ss_heap ss_calls].
  - assert (ss_comps s !! sc_key r = Some c) as Hc by (apply Hm; eauto).
    intros key c'. destruct (decide (key = sc_key r)) as [->|Hk].
    + rewrite lookup_delete_eq. split; [done|]. intros (r' & Hr' & Hk' & Hf'). destruct (decide (c' = c)) as [->|Hne].
      * rewrite list_lookup_insert_eq in Hr' by by eapply lookup_lt_Some. naive_solver.
      * rewrite list_lookup_insert_ne in Hr' by done. assert (ss_comps s !! sc_key r = Some c') by (apply Hm; eauto). congruence.
    + rewrite lookup_delete_ne, Hm by done. destruct (decide (c' = c)) as [->|Hne].
      * rewrite list_lookup_insert_eq by by eapply lookup_lt_Some. naive_solver.
      * by rewrite list_lookup_insert_ne by done.
  - apply list.NoDup_app. split_and!; [done| |apply list.NoDup_singleton]. intros x Hx ->%list_elem_of_singleton.
    apply Ht in Hx as (r' & E & Hr'). congruence.
  - intros c'. rewrite elem_of_app, list_elem_of_singleton, Hs.
    rewrite (heap_insert _ _ _ _ (λ r, sc_startOnce r = true) Er) by done. split; [intros [?|[=]]; auto | auto].
  - intros c'. rewrite elem_of_app, list_elem_of_singleton, Ht.
    rewrite (heap_insert_new _ _ _ _ (λ r, sc_stopOnce r = true) Er) by done. split; [intros [?|[= ->]]; auto | intros [->|?]; auto].
Qed.

Lemma shared_reach_inv s : shared_reach s → shared_inv s.
Proof.
  induction 1 as [|key s _ IH|c answer s o s' _ IH E|c answer s o s' _ IH E].
  - split; cbn [NewSharedComponents ss_comps ss_heap ss_calls].
    + intros key c. rewrite lookup_empty. split; [done|]. by intros (r & ? & _).
    + constructor.
    + intros c. split; [by intros ?%elem_of_nil|]. by intros (r & ? & _).
    + intros c. split; [by intros ?%elem_of_nil|]. by intros (r & ? & _).
  - by apply GetOrAdd_inv.
  - by eapply shared_Start_inv.
  - by eapply shared_Shutdown_inv.
Qed.
Lemma shared_Start_length c answer s o s' : shared_Start c answer s = Some (o, s') → length (ss_heap s') = length (ss_heap s).
Proof.
  unfold shared_Start. destruct (ss_heap s !! c) as [r|]; [|done]. cbn [mbind option_bind].
  destruct (sc_startOnce r); intros [= <- <-]; [done|]. simpl. by rewrite length_insert.
Qed.

Lemma shared_Shutdown_length c answer s o s' : shared_Shutdown c answer s = Some (o, s') → length (ss_heap s') = length (ss_heap s).
Proof.
  unfold shared_Shutdown. destruct (ss_heap s !! c) as [r|]; [|done]. cbn [mbind option_bind].
  destruct (sc_stopOnce r); intros [= <- <-]; [done|]. simpl. by rewrite length_insert.
Qed.

End shared.

(** ** otlpreceiver/internal/common/sharedcomponent

    The same with status reports: settings are pointers, and the [ReportStatus]
    field of the settings of the first instance is overwritten by a closure that
    reports to one more instance and then calls what was there before. *)

Inductive StatusEvent := StatusStarting | StatusPermanentError | StatusStopping | StatusStopped.

Inductive ReportFn :=
  | ROwn (t : nat)                           (* the function the settings came with *)
  | RWrap (t : nat) (prev : ReportFn).       (* report to [t], then [prev] *)

Definition fn_of (settings : gmap nat ReportFn) (t : nat) : ReportFn := default (ROwn t) (settings !! t).

(** The settings a report reaches, in order; a wrapper reads the field of its
    settings when it runs.  The fuel counts the fields that were read: [None] is a
    recursion without end. *)
Fixpoint run_report (fuel : nat) (settings : gmap nat ReportFn) : ReportFn → option (list nat) :=
  match fuel with
  | O => λ _, None
  | S fuel' =>
      fix go (fn : ReportFn) : option (list nat) :=
        match fn with
        | ROwn t => Some [t]
        | RWrap t prev =>
            l1 ← run_report fuel' settings (fn_of settings t);
            l2 ← go prev;
            Some (l1 ++ l2)
        end
  end.

Section shared_map.
Context {K : Type} `{Countable K} `{GrpcErrors}.

(** [m_telemetry] has the [telemetry] and the [seenSettings] of each component. *)
Record Map := {
  m_components : SharedComponents (K := K);
  m_telemetry : list (nat * gset nat);
  m_ReportStatus : gmap nat ReportFn;
  m_reports : list (nat * StatusEvent);
}.

Definition NewMap : Map :=
  {| m_components := NewSharedComponents; m_telemetry := []; m_ReportStatus := ∅; m_reports := [] |}.

(** [create] is the error of the constructor. *)
Definition LoadOrStore (key : K) (create : option GoErr) (telemetrySettings : nat) (m : Map)
    : option ((nat + GoErr) * Map) :=
  match ss_comps (m_components m) !! key with
  | Some c =>
      '(telemetry, seenSettings) ← m_telemetry m !! c;
      Some (inl c,
            if decide (telemetrySettings ∈ (seenSettings : gset nat)) then m
            else {| m_components := m_components m;
                    m_telemetry := <[c := (telemetry, {[telemetrySettings]} ∪ seenSettings)]> (m_telemetry m);
                    m_ReportStatus :=
                      <[telemetry := RWrap telemetrySettings (fn_of (m_ReportStatus m) telemetry)]> (m_ReportStatus m);
                    m_reports := m_reports m |})
  | None =>
      match create with
      | Some err => Some (inr err, m)
      | None =>
          let '(c, comps) := GetOrAdd key (m_components m) in
          Some (inl c,
                {| m_components := comps;
                   m_telemetry := m_telemetry m ++ [(telemetrySettings, {[telemetrySettings]})];
                   m_ReportStatus := m_ReportStatus m; m_reports := m_reports m |})
      end
  end.

(** As many fields as were overwritten, and two, are enough without a cycle. *)
Definition report_fuel (settings : gmap nat ReportFn) : nat := S (S (size settings)).

Definition ReportStatus (c : nat) (ev : StatusEvent) (m : Map) : option Map :=
  '(telemetry, _) ← m_telemetry m !! c;
  l ← run_report (report_fuel (m_ReportStatus m)) (m_ReportStatus m) (fn_of (m_ReportStatus m) telemetry);
  Some {| m_components := m_components m; m_telemetry := m_telemetry m; m_ReportStatus := m_ReportStatus m;
          m_reports := m_reports m ++ ((λ t, (t, ev)) <$> l) |}.

Definition with_components (comps : SharedComponents) (m : Map) : Map :=
  {| m_components := comps; m_telemetry := m_telemetry m; m_ReportStatus := m_ReportStatus m; m_reports := m_reports m |}.

Definition map_Start (c : nat) (answer : option GoErr) (m : Map) : option (option GoErr * Map) :=
  r ← ss_heap (m_components m) !! c;
  if sc_startOnce r then Some (None, m)
  else
    m ← ReportStatus c StatusStarting m;
    '(err, comps) ← shared_Start c answer (m_components m);
    let m := with_components comps m in
    match err with
    | None => Some (None, m)
    | Some err => m ← ReportStatus c StatusPermanentError m; Some (Some err, m)
    end.

Definition map_Shutdown (c : nat) (answer : option GoErr) (m : Map) : option (option GoErr * Map) :=
  r ← ss_heap (m_components m) !! c;
  if sc_stopOnce r then Some (None, m)
  else
    m ← ReportStatus c StatusStopping m;
    '(err, comps) ← shared_Shutdown c answer (m_components m);
    m ← ReportStatus c (if err is Some _ then StatusPermanentError else StatusStopped) m;
    Some (err, with_components comps m).

(** Settings belong to one component: the factories pass the address of a copy. *)
Definition own_settings (key : K) (t : nat) (m : Map) : Prop :=
  ∀ c telemetry seen, m_telemetry m !! c = Some (telemetry, seen) → t ∈ seen →
    ss_comps (m_components m) !! key = Some c.

Inductive map_reach : Map → Prop :=
  | map_new : map_reach NewMap
  | map_load key create t m o m' : map_reach m → own_settings key t m → LoadOrStore key create t m = Some (o, m') → map_reach m'
  | map_start c answer m o m' : map_reach m → map_Start c answer m = Some (o, m') → map_reach m'
  | map_stop c answer m o m' : map_reach m → map_Shutdown c answer m = Some (o, m') → map_reach m'.

(** ** The telemetry of the components *)

(** The reports of a component go to [ts] and then to its own settings. *)
Definition reports_to (settings : gmap nat ReportFn) (telemetry : nat) (ts : list nat) : Prop :=
  fn_of settings telemetry = foldr RWrap (ROwn telemetry) ts ∧ ∀ t, t ∈ ts → fn_of settings t = ROwn t.

Lemma run_report_all fuel settings telemetry ts :
  reports_to settings telemetry ts →
  run_report (S (S fuel)) settings (fn_of settings telemetry) = Some (ts ++ [telemetry]).
Proof.
  intros [-> Hts]. induction ts as [|t ts IH]; [done|]. cbn [foldr].
  change (run_report (S (S fuel)) settings (RWrap t (foldr RWrap (ROwn telemetry) ts))) with
    (l1 ← run_report (S fuel) settings (fn_of settings t);
     l2 ← run_report (S (S fuel)) settings (foldr RWrap (ROwn telemetry) ts); Some (l1 ++ l2)).
  rewrite IH by (intros; apply Hts; by right). by rewrite Hts by by left.
Qed.

Record map_inv (m : Map) : Prop := {
  mi_shared : shared_inv (m_components m);
  mi_length : length (m_telemetry m) = length (ss_heap (m_components m));
  mi_reports : ∀ c telemetry seen, m_telemetry m !! c = Some (telemetry, seen) →
    ∃ ts, reports_to (m_ReportStatus m) telemetry ts ∧ NoDup (ts ++ [telemetry]) ∧ seen = list_to_set (ts ++ [telemetry]);
  mi_disjoint : ∀ c1 c2 t1 t2 seen1 seen2 t, m_telemetry m !! c1 = Some (t1, seen1) →
    m_telemetry m !! c2 = Some (t2, seen2) → t ∈ seen1 → t ∈ seen2 → c1 = c2;
  mi_written : ∀ t, is_Some (m_ReportStatus m !! t) → ∃ c seen, m_telemetry m !! c = Some (t, seen);
}.

Lemma mi_own m c telemetry seen : map_inv m → m_telemetry m !! c = Some (telemetry, seen) → telemetry ∈ seen.
Proof. intros Hm E. destruct (mi_reports _ Hm _ _ _ E) as (ts & _ & _ & ->). set_solver. Qed.

(** Settings that no component has were not overwritten. *)
Lemma fresh_fn_of m t :
  map_inv m → (∀ c telemetry seen, m_telemetry m !! c = Some (telemetry, seen) → t ∉ seen) → fn_of (m_ReportStatus m) t = ROwn t.
Proof.
  intros Hm Hf. unfold fn_of. destruct (m_ReportStatus m !! t) as [fn|] eqn:E; [|done].
  destruct (mi_written _ Hm t) as (c & seen & Ec); [by eexists|]. destruct (Hf _ _ _ Ec). by eapply mi_own.
Qed.

Lemma load_new_inv key t m :
  map_inv m → own_settings key t m → ss_comps (m_components m) !! key = None →
  map_inv {| m_components := (GetOrAdd key (m_components m)).2; m_telemetry := m_telemetry m ++ [(t, {[t]})];
             m_ReportStatus := m_ReportStatus m; m_reports := m_reports m |}.
Proof.
  intros Hm Hown E.
  assert (∀ c telemetry seen, m_telemetry m !! c = Some (telemetry, seen) → t ∉ seen) as Hfresh.
  { intros c telemetry seen Hc Ht. by rewrite (Hown _ _ _ Hc Ht) in E. }
  assert (∀ c x, (m_telemetry m ++ [(t, {[t]})]) !! c = Some x →
                 m_telemetry m !! c = Some x ∨ c = length (m_telemetry m) ∧ x = (t, {[t]})) as Hlook.
  { intros c x [?|[Hl Hx]]%lookup_app_Some; [by left|]. right.
    apply list_lookup_singleton_Some in Hx as [? <-]. split; [lia|done]. }
  split; cbn [m_components m_telemetry m_ReportStatus].
  - by apply GetOrAdd_inv, mi_shared.
  - unfold GetOrAdd. rewrite E. simpl. rewrite !length_app, (mi_length _ Hm). done.
  - intros c telemetry seen [Hc|[_ [= -> ->]]]%Hlook; [by eapply mi_reports|]. exists [].
    split; [split; [by apply fresh_fn_of|by intros ? ?%elem_of_nil]|]. split; [apply list.NoDup_singleton|set_solver].
  - intros c1 c2 t1 t2 seen1 seen2 x [H1|[-> [= -> ->]]]%Hlook [H2|[-> [= -> ->]]]%Hlook Hx1 Hx2; [by eapply mi_disjoint| | |done].
    + apply elem_of_singleton in Hx2 as ->. by destruct (Hfresh _ _ _ H1).
    + apply elem_of_singleton in Hx1 as ->. by destruct (Hfresh _ _ _ H2).
  - intros x (c & seen & Hc)%(mi_written _ Hm). exists c, seen. by apply lookup_app_l_Some.
Qed.

Lemma load_old_inv key t c telemetry seen m :
  map_inv m → own_settings key t m → ss_comps (m_components m) !! key = Some c →
  m_telemetry m !! c = Some (telemetry, seen) → t ∉ seen →
  map_inv {| m_components := m_components m; m_telemetry := <[c := (telemetry, {[t]} ∪ seen)]> (m_telemetry m);
             m_ReportStatus := <[telemetry := RWrap t (fn_of (m_ReportStatus m) telemetry)]> (m_ReportStatus m);
             m_reports := m_reports m |}.
Proof.
  intros Hm Hown E Ec Hnew. pose proof (mi_own _ _ _ _ Hm Ec) as Htel.
  assert (∀ c telemetry seen, m_telemetry m !! c = Some (telemetry, seen) → t ∉ seen) as Hfresh.
  { intros c' telemetry' seen' Hc' Ht. pose proof (Hown _ _ _ Hc' Ht). congruence. }
  assert (t ≠ telemetry) as Hne by (intros ->; contradiction).
  assert (∀ x, x ≠ telemetry → fn_of (<[telemetry := RWrap t (fn_of (m_ReportStatus m) telemetry)]> (m_ReportStatus m)) x =
                               fn_of (m_ReportStatus m) x) as Hfn by (intros x Hx; unfold fn_of; by rewrite lookup_insert_ne).
  assert (∀ c' x, <[c := (telemetry, {[t]} ∪ seen)]> (m_telemetry m) !! c' = Some x →
            c' = c ∧ x = (telemetry, {[t]} ∪ seen) ∨ c' ≠ c ∧ m_telemetry m !! c' = Some x) as Hlook.
  { intros c' x [[? [? _]]|[? ?]]%list_lookup_insert_Some; [by left|by right]. }
  split; cbn [m_components m_telemetry m_ReportStatus].
  - by apply mi_shared.
  - by rewrite length_insert, (mi_length _ Hm).
  - intros c' telemetry' seen' [[-> [= -> ->]]|[Hc' H']]%Hlook.
    + destruct (mi_reports _ Hm _ _ _ Ec) as (ts & [Hfnt Hts] & Hnd & ->). exists (t :: ts). rewrite <- app_comm_cons.
      split; [|split; [apply list.NoDup_cons; split; [set_solver|done]|set_solver]]. split.
      * unfold fn_of at 1. rewrite lookup_insert_eq. simpl. by rewrite Hfnt.
      * intros x Hx. apply elem_of_cons in Hx as [->|Hx]; rewrite Hfn; [by apply fresh_fn_of|done|by apply Hts|].
        intros ->. apply list.NoDup_app in Hnd as (_ & Hnd & _). apply (Hnd _ Hx). by left.
    + destruct (mi_reports _ Hm _ _ _ H') as (ts & [Hfnt Hts] & Hnd & ->). exists ts.
      assert (∀ x, x ∈ ts ++ [telemetry'] → x ≠ telemetry) as Hother.
      { intros x Hx ->. apply Hc'. eapply mi_disjoint; [done|exact H'|exact Ec| |done]. by apply elem_of_list_to_set. }
      split; [|done]. split; [rewrite Hfn; [done|apply Hother; set_solver]|]. intros x Hx. rewrite Hfn; [by apply Hts|].
      apply Hother. set_solver.
  - intros c1 c2 t1 t2 seen1 seen2 x [[-> [= -> ->]]|[Hc1 H1]]%Hlook [[-> [= -> ->]]|[Hc2 H2]]%Hlook Hx1 Hx2; [done| | |by eapply mi_disjoint].
    + apply elem_of_union in Hx1 as [->%elem_of_singleton|Hx1]; [by destruct (Hfresh _ _ _ H2)|].
      by eapply (mi_disjoint _ Hm c c2).
    + apply elem_of_union in Hx2 as [->%elem_of_singleton|Hx2]; [by destruct (Hfresh _ _ _ H1)|].
      by eapply (mi_disjoint _ Hm c1 c).
  - intros x Hx. destruct (decide (x = telemetry)) as [->|Hx'].
    + exists c. eexists. apply list_lookup_insert_eq. by eapply lookup_lt_Some.
    + rewrite lookup_insert_ne in Hx by done. destruct (mi_written _ Hm _ Hx) as (c' & seen' & Hc'). exists c', seen'.
      rewrite list_lookup_insert_ne; [done|]. intros ->. congruence.
Qed.

(** A state with other components and more reports. *)
Definition moved (comps : SharedComponents) (reports : list (nat * StatusEvent)) (m : Map) : Map :=
  {| m_components := comps; m_telemetry := m_telemetry m; m_ReportStatus := m_ReportStatus m;
     m_reports := m_reports m ++ reports |}.

Lemma moved_inv comps reports m :
  map_inv m → shared_inv comps → length (ss_heap comps) = length (ss_heap (m_components m)) → map_inv (moved comps reports m).
Proof. intros [H1 H2 H3 H4 H5] Hs Hl. split; simpl; [done|congruence|done..]. Qed.

Lemma ReportStatus_moved c ev comps reports m telemetry seen ts :
  m_telemetry m !! c = Some (telemetry, seen) → reports_to (m_ReportStatus m) telemetry ts →
  ReportStatus c ev (moved comps reports m) =
    Some (moved comps (reports ++ ((λ t, (t, ev)) <$> ts ++ [telemetry])) m).
Proof.
  intros Hc Hr. unfold ReportStatus, report_fuel. cbn [moved m_telemetry m_ReportStatus m_components m_reports]. rewrite Hc.
  cbn [mbind option_bind]. rewrite (run_report_all _ _ _ ts Hr). cbn [mbind option_bind]. unfold moved. by rewrite app_assoc.
Qed.

Lemma moved_id m : moved (m_components m) [] m = m.
Proof. destruct m. unfold moved. simpl. by rewrite app_nil_r. Qed.

(** The settings that the reports of a component reach. *)
Definition instances (m : Map) (c : nat) : list nat :=
  match m_telemetry m !! c with
  | Some (telemetry, _) =>
      default [] (run_report (report_fuel (m_ReportStatus m)) (m_ReportStatus m) (fn_of (m_ReportStatus m) telemetry))
  | None => []
  end.

(** They are each of its settings once, and a report does reach them. *)
Lemma instances_ok c m :
  map_inv m → (c < length (ss_heap (m_components m)))%nat →
  (∃ telemetry seen, m_telemetry m !! c = Some (telemetry, seen) ∧ instances m c ≡ₚ elements seen) ∧
  ∀ ev comps reports, ReportStatus c ev (moved comps reports m) =
    Some (moved comps (reports ++ ((λ t, (t, ev)) <$> instances m c)) m).
Proof.
  intros Hm Hc. rewrite <- (mi_length _ Hm) in Hc. apply lookup_lt_is_Some in Hc as [[telemetry seen] Hc].
  destruct (mi_reports _ Hm _ _ _ Hc) as (ts & Hr & Hnd & ->).
  assert (instances m c = ts ++ [telemetry]) as ->.
  { unfold instances, report_fuel. by rewrite Hc, (run_report_all _ _ _ ts Hr). }
  split; [exists telemetry, (list_to_set (ts ++ [telemetry])); split; [done|]; symmetry; by apply elements_list_to_set|].
  intros ev comps reports. by eapply ReportStatus_moved.
Qed.

Definition to_all (l : list nat) (ev : StatusEvent) : list (nat * StatusEvent) := (λ t, (t, ev)) <$> l.

Lemma map_Start_ok c answer m r :
  map_inv m → ss_heap (m_components m) !! c = Some r →
  if sc_startOnce r then map_Start c answer m = Some (None, m)
  else ∃ comps, shared_Start c answer (m_components m) = Some (answer, comps) ∧
    map_Start c answer m =
      Some (answer, moved comps (to_all (instances m c) StatusStarting ++
                      (if answer is Some _ then to_all (instances m c) StatusPermanentError else [])) m).
Proof.
  intros Hm Hr. unfold map_Start. rewrite Hr. cbn [mbind option_bind]. destruct (sc_startOnce r) eqn:Ef; [done|].
  destruct (instances_ok c m Hm) as [_ Hrep]; [by eapply lookup_lt_Some|].
  unfold shared_Start. rewrite Hr. cbn [mbind option_bind]. rewrite Ef. eexists. split; [reflexivity|].
  rewrite <- (moved_id m) at 1. rewrite Hrep. cbn [mbind option_bind moved m_components]. rewrite Hr.
  cbn [mbind option_bind]. rewrite Ef. unfold with_components. cbn [moved m_telemetry m_ReportStatus m_reports].
  destruct answer as [err|]; [|by rewrite app_nil_r].
  match goal with |- context [ReportStatus c _ ?m'] =>
    change m' with (moved (m_components m') ([] ++ to_all (instances m c) StatusStarting) m) end.
  rewrite Hrep. done.
Qed.

Lemma map_Shutdown_ok c answer m r :
  map_inv m → ss_heap (m_components m) !! c = Some r →
  if sc_stopOnce r then map_Shutdown c answer m = Some (None, m)
  else ∃ comps, shared_Shutdown c answer (m_components m) = Some (answer, comps) ∧
    map_Shutdown c answer m =
      Some (answer, moved comps (to_all (instances m c) StatusStopping ++
                      to_all (instances m c) (if answer is Some _ then StatusPermanentError else StatusStopped)) m).
Proof.
  intros Hm Hr. unfold map_Shutdown. rewrite Hr. cbn [mbind option_bind]. destruct (sc_stopOnce r) eqn:Ef; [done|].
  destruct (instances_ok c m Hm) as [_ Hrep]; [by eapply lookup_lt_Some|].
  unfold shared_Shutdown. rewrite Hr. cbn [mbind option_bind]. rewrite Ef. eexists. split; [reflexivity|].
  rewrite <- (moved_id m) at 1. rewrite Hrep. cbn [mbind option_bind moved m_components]. rewrite Hr.
  cbn [mbind option_bind]. rewrite Ef.
  match goal with |- context [ReportStatus c _ ?m'] =>
    change m' with (moved (m_components m) ([] ++ to_all (instances m c) StatusStopping) m) end.
  rewrite Hrep. done.
Qed.

Lemma map_reach_inv m : map_reach m → map_inv m.
Proof.
  induction 1 as [|key create t m o m' _ Hm Hown E|c answer m o m' _ Hm E|c answer m o m' _ Hm E].
  - split; cbn [NewMap m_components m_telemetry m_ReportStatus]; try done.
    + apply shared_reach_inv. constructor.
    + intros t [? E]. by rewrite lookup_empty in E.
  - unfold LoadOrStore in E. destruct (ss_comps (m_components m) !! key) as [c|] eqn:Ec.
    + destruct (m_telemetry m !! c) as [[telemetry seen]|] eqn:Et; [|done]. cbn [mbind option_bind] in E.
      case_decide; injection E as <- <-; [done|]. by apply (load_old_inv key).
    + destruct create; [by injection E as <- <-|]. pose proof (load_new_inv key t m Hm Hown Ec) as Hnew.
      destruct (GetOrAdd key (m_components m)) as [c comps]. by injection E as <- <-.
  - destruct (ss_heap (m_components m) !! c) as [r|] eqn:Er; [|unfold map_Start in E; by rewrite Er in E].
    pose proof (map_Start_ok c answer m r Hm Er) as Hok. destruct (sc_startOnce r); [congruence|].
    destruct Hok as (comps & Hs & E'). rewrite E' in E. injection E as <- <-.
    apply moved_inv; [done|by eapply shared_Start_inv, Hs; apply mi_shared|by eapply shared_Start_length].
  - destruct (ss_heap (m_components m) !! c) as [r|] eqn:Er; [|unfold map_Shutdown in E; by rewrite Er in E].
    pose proof (map_Shutdown_ok c answer m r Hm Er) as Hok. destruct (sc_stopOnce r); [congruence|].
    destruct Hok as (comps & Hs & E'). rewrite E' in E. injection E as <- <-.
    apply moved_inv; [done|by eapply shared_Shutdown_inv, Hs; apply mi_shared|by eapply shared_Shutdown_length].
Qed.

(** C37: However the factories create, start and shut the receivers down, a shared
    component is started and shut down at most once, the map holds exactly the
    components that were not shut down, each under its key, and a call that does
    reach the component reports every status once to each of the instances the
    component stands for, and to no others. *)
Theorem shared_component_lifecycle m c r answer :
  map_reach m → ss_heap (m_components m) !! c = Some r →
  NoDup (ss_calls (m_components m)) ∧
  (ss_comps (m_components m) !! sc_key r = Some c ↔ sc_stopOnce r = false) ∧
  ∃ telemetry seen l, m_telemetry m !! c = Some (telemetry, seen) ∧ l ≡ₚ elements seen ∧
    (∃ m', map_Start c answer m = Some (if sc_startOnce r then None else answer, m') ∧
       ss_calls (m_components m') = ss_calls (m_components m) ++ (if sc_startOnce r then [] else [CallStart c]) ∧
       m_reports m' = m_reports m ++
         if sc_startOnce r then [] else to_all l StatusStarting ++ (if answer is Some _ then to_all l StatusPermanentError else [])) ∧
    (∃ m', map_Shutdown c answer m = Some (if sc_stopOnce r then None else answer, m') ∧
       ss_calls (m_components m') = ss_calls (m_components m) ++ (if sc_stopOnce r then [] else [CallShutdown c]) ∧
       m_reports m' = m_reports m ++
         if sc_stopOnce r then [] else to_all l StatusStopping ++ to_all l (if answer is Some _ then StatusPermanentError else StatusStopped)).
Proof.
  intros Hm%map_reach_inv Hr. pose proof (mi_shared _ Hm) as Hs. split; [apply Hs|].
  split. { rewrite (sh_map _ Hs). split; [intros (r' & E & _ & ?); congruence|]. intros Hf. by exists r. }
  destruct (instances_ok c m Hm) as [(telemetry & seen & Hc & Hp) _]; [by eapply lookup_lt_Some|].
  exists telemetry, seen, (instances m c). split; [done|]. split; [done|].
  pose proof (map_Start_ok c answer m r Hm Hr) as H1. pose proof (map_Shutdown_ok c answer m r Hm Hr) as H2. split.
  - destruct (sc_startOnce r) eqn:Ef; [exists m; by rewrite !app_nil_r|]. destruct H1 as (comps & Hst & ->).
    unfold shared_Start in Hst. rewrite Hr in Hst. cbn [mbind option_bind] in Hst. rewrite Ef in Hst. injection Hst as <-.
    by eexists.
  - destruct (sc_stopOnce r) eqn:Ef; [exists m; by rewrite !app_nil_r|]. destruct H2 as (comps & Hst & ->).
    unfold shared_Shutdown in Hst. rewrite Hr in Hst. cbn [mbind option_bind] in Hst. rewrite Ef in Hst. injection Hst as <-.
    by eexists.
Qed.
End shared_map.

(** ** Two signals of one configuration *)

Import RefErrors.

Definition ex_in_use : GoErr := Plain "port in use" true.

Definition ex_map0 : Map (K := string) :=
  {| m_components := (GetOrAdd "cfg" NewSharedComponents).2; m_telemetry := [(1%nat, {[1%nat]})]; m_ReportStatus := ∅;
     m_reports := [] |}.

Definition ex_map : Map (K := string) :=
  {| m_components := m_components ex_map0; m_telemetry := [(1%nat, {[2%nat]} ∪ {[1%nat]})];
     m_ReportStatus := <[1%nat := RWrap 2 (ROwn 1)]> ∅; m_reports := [] |}.

Lemma ex_map_reach : map_reach ex_map.
Proof.
  assert (map_reach ex_map0) as H0.
  { apply (map_load "cfg" None 1 NewMap (inl 0%nat) _ map_new); [by intros c telemetry seen ?|done]. }
  apply (map_load "cfg" None 2 _ (inl 0%nat) _ H0); [|done].
  intros [|c] telemetry seen E; [|done]. injection E as <- <-. by intros ?%elem_of_singleton.
Qed.

Lemma shared_component_lifecycle_witness :
  ∃ m', map_Start 0 (Some ex_in_use) ex_map = Some (Some ex_in_use, m') ∧
    length (m_reports m') = 4%nat ∧ ss_calls (m_components m') = [CallStart 0].
Proof.
  destruct (shared_component_lifecycle ex_map 0 {| sc_key := "cfg"; sc_startOnce := false; sc_stopOnce := false |}
              (Some ex_in_use) ex_map_reach) as (_ & _ & telemetry & seen & l & Hc & Hl & (m' & E & Hcalls & Hrep) & _);
    [done|].
  exists m'. split; [exact E|]. split; [|exact Hcalls]. rewrite Hrep. injection Hc as <- <-.
  unfold to_all. cbn [m_reports ex_map sc_startOnce app]. rewrite length_app, !length_fmap, (Permutation_length Hl). reflexivity.
Defined.
