(* ===== verification/Endpoints.v ===== *)
(** * Endpoints: the ports of the Skywalking receiver

    Models [localhostgate.EndpointForPort] and the endpoints of
    [skywalkingreceiver/factory.go] and [config.go]; [net.SplitHostPort] is written
    out as Go's library has it. *)

From S2P Require Import Prelude GoStrings.

(** ** net.SplitHostPort; [None] is the error *)

Definition at_byte (l : list ascii) (i : Z) : option ascii := if i <? 0 then None else l !! Z.to_nat i.

Definition SplitHostPort (hostport : string) : option (string * string) :=
  let l := byte_list hostport in
  let n := Z.of_nat (length l) in
  let i := LastIndexByte hostport ":" in
  if i <? 0 then None
  else
    '(host, j, k) ←
      match l with
      | "["%char :: _ =>
          let e := IndexByte hostport "]" in
          if e <? 0 then None
          else if e + 1 =? n then None
          else if e + 1 =? i then Some (of_byte_list (take (Z.to_nat e - 1) (drop 1 l)), 1%nat, Z.to_nat (e + 1))
          else None
      | _ =>
          let host := take (Z.to_nat i) l in
          if IndexByte (of_byte_list host) ":" >=? 0 then None else Some (of_byte_list host, 0%nat, 0%nat)
      end;
    if IndexByte (sdrop j hostport) "[" >=? 0 then None
    else if IndexByte (sdrop k hostport) "]" >=? 0 then None
    else Some (host, sdrop (Z.to_nat (i + 1)) hostport).

(** ** factory.go, config.go *)

(** [ParseInt(portStr, 10, 0)] is [Atoi]. *)
Definition extractPortFromEndpoint (endpoint : string) : option Z :=
  '(_, portStr) ← SplitHostPort endpoint;
  port ← Atoi portStr;
  if (port <? 1) || (port >? 65535) then None else Some port.

(** [localhost] is whether the feature gate is enabled. *)
Definition EndpointForPort (localhost : bool) (port : Z) : string :=
  (if localhost then "localhost" else "0.0.0.0") +:+ ":" +:+ FormatInt port.

(** The endpoints of the protocols that are configured, and the extension. *)
Record SwConfig := { sw_GRPC : option string; sw_HTTP : option string; sw_ExtensionID : option string }.

Definition defaultGRPCPort : Z := 11800.
Definition defaultHTTPPort : Z := 12800.

Definition sw_createDefaultConfig (localhost : bool) : SwConfig :=
  {| sw_GRPC := Some (EndpointForPort localhost defaultGRPCPort);
     sw_HTTP := Some (EndpointForPort localhost defaultHTTPPort); sw_ExtensionID := None |}.

(** Whether there is no error. *)
Definition sw_Validate (cfg : SwConfig) : bool :=
  match sw_GRPC cfg, sw_HTTP cfg with
  | None, None => false
  | grpc, http =>
      let ok e := match e with Some e => bool_decide (is_Some (extractPortFromEndpoint e)) | None => true end in
      ok grpc && ok http
  end.

(** The ports and endpoints of the configuration; 0 and the empty endpoint are the
    values of a protocol that is not there. *)
Record configuration := {
  CollectorHTTPPort : Z;
  CollectorHTTPSettings : string;
  CollectorGRPCPort : Z;
  CollectorGRPCServerSettings : string;
  ComponmentIdFillProc : option string;
}.

Definition createConfiguration (cfg : SwConfig) : option configuration :=
  grpc ← match sw_GRPC cfg with Some e => extractPortFromEndpoint e | None => Some 0 end;
  http ← match sw_HTTP cfg with Some e => extractPortFromEndpoint e | None => Some 0 end;
  Some {| CollectorHTTPPort := http; CollectorHTTPSettings := default "" (sw_HTTP cfg); CollectorGRPCPort := grpc;
          CollectorGRPCServerSettings := default "" (sw_GRPC cfg); ComponmentIdFillProc := sw_ExtensionID cfg |}.

(** ** Theorems *)

Lemma extractPort_bounds endpoint port : extractPortFromEndpoint endpoint = Some port → 1 <= port <= 65535.
Proof.
  unfold extractPortFromEndpoint. destruct (SplitHostPort endpoint) as [[host portStr]|]; [|done]. cbn [mbind option_bind].
  destruct (Atoi portStr) as [p|]; [|done]. cbn [mbind option_bind].
  destruct (Z.ltb_spec p 1), (Z.gtb_spec p 65535); simpl; try done. intros [= <-]. lia.
Qed.

Lemma IndexByte_from_free c l i : c ∉ l → IndexByte_from c l i = -1.
Proof.
  revert i. induction l as [|a l IH]; intros i; [done|]. rewrite not_elem_of_cons. intros [Hne Hl]. cbn [IndexByte_from].
  destruct (Ascii.eqb_spec a c); [congruence|]. by apply IH.
Qed.

Lemma IndexByte_free c s : c ∉ byte_list s → IndexByte s c = -1.
Proof. apply IndexByte_from_free. Qed.

(** A plain host and a port come back. *)
Lemma SplitHostPort_plain host port :
  Forall (λ c, free_of c host ∧ free_of c port) [":"; "["; "]"]%char →
  SplitHostPort (host +:+ ":" +:+ port) = Some (host, port).
Proof.
  rewrite !list.Forall_cons. intros ([Hc Hc'] & [Ho Ho'] & [He He'] & _). unfold free_of in *.
  assert (byte_list (host +:+ ":" +:+ port) = byte_list host ++ ":"%char :: byte_list port) as El by by rewrite !byte_list_app.
  assert (∀ c, c ≠ ":"%char → c ∉ byte_list host → c ∉ byte_list port → c ∉ byte_list (host +:+ ":" +:+ port)) as Hfree.
  { intros c Hne H1 H2. rewrite El. set_solver. }
  assert (LastIndexByte (host +:+ ":" +:+ port) ":" = Z.of_nat (length (byte_list host))) as Ei.
  { unfold LastIndexByte. rewrite El, LastIndexByte_from_app by done. unfold len. lia. }
  unfold SplitHostPort. rewrite Ei. rewrite (proj2 (Z.ltb_ge _ 0)) by lia.
  assert (take (Z.to_nat (Z.of_nat (length (byte_list host)))) (byte_list (host +:+ ":" +:+ port)) = byte_list host) as Eh.
  { rewrite Nat2Z.id, El. by rewrite take_app_length. }
  assert (sdrop (Z.to_nat (Z.of_nat (length (byte_list host)) + 1)) (host +:+ ":" +:+ port) = port) as Ep.
  { unfold sdrop. rewrite El. replace (Z.to_nat _) with (S (length (byte_list host))) by lia.
    rewrite <- (of_byte_list_inv port) at 2. f_equal. rewrite cons_middle, app_assoc.
    rewrite drop_app_length'; [done|]. rewrite length_app. simpl. lia. }
  rewrite Eh, Ep.
  assert (∀ A (x y : A), match byte_list (host +:+ ":" +:+ port) with "["%char :: _ => x | _ => y end = y) as Hm.
  { intros A x y. pose proof (Hfree "["%char ltac:(done) Ho Ho') as Hno. revert Hno.
    generalize (byte_list (host +:+ ":" +:+ port)). intros [|a l] Hno; [done|].
    apply not_elem_of_cons in Hno as [Hne _]. destruct a as [[] [] [] [] [] [] [] []]; try done. }
  rewrite Hm, of_byte_list_inv, (IndexByte_free ":" host) by done. cbn [Z.geb Z.compare mbind option_bind].
  assert (sdrop 0 (host +:+ ":" +:+ port) = host +:+ ":" +:+ port) as -> by (unfold sdrop; by rewrite drop_0, of_byte_list_inv).
  rewrite !IndexByte_free by by apply Hfree. done.
Qed.

(** The configuration is valid just when a protocol is there and the ports can be
    taken from the endpoints; they are then in range. *)
Theorem Validate_createConfiguration cfg :
  sw_Validate cfg = true ↔
  (sw_GRPC cfg ≠ None ∨ sw_HTTP cfg ≠ None) ∧
  ∃ c, createConfiguration cfg = Some c ∧
    (sw_GRPC cfg ≠ None → 1 <= CollectorGRPCPort c <= 65535) ∧ (sw_HTTP cfg ≠ None → 1 <= CollectorHTTPPort c <= 65535).
Proof.
  unfold sw_Validate, createConfiguration. destruct cfg as [[grpc|] [http|] ext]; cbn [sw_GRPC sw_HTTP].
  - destruct (extractPortFromEndpoint grpc) eqn:E1, (extractPortFromEndpoint http) eqn:E2; simpl; try (split; [done|naive_solver]).
    apply extractPort_bounds in E1, E2. split; [|done]. intros _. split; [by left|]. by eexists.
  - destruct (extractPortFromEndpoint grpc) eqn:E1; simpl; try (split; [done|naive_solver]).
    apply extractPort_bounds in E1. split; [|done]. intros _. split; [by left|]. eexists. split; [done|]. split; [done|]. by intros [].
  - destruct (extractPortFromEndpoint http) eqn:E2; simpl; try (split; [done|naive_solver]).
    apply extractPort_bounds in E2. split; [|done]. intros _. split; [by right|]. eexists. split; [done|]. split; [by intros []|done].
  - naive_solver.
Qed.

Example default_ports localhost :
  (λ c, (CollectorGRPCPort c, CollectorHTTPPort c)) <$> createConfiguration (sw_createDefaultConfig localhost) =
    Some (11800, 12800).
Proof. destruct localhost; vm_compute; reflexivity. Qed.

Example SplitHostPort_examples :
  SplitHostPort "[::1]:80" = Some ("::1", "80") ∧ SplitHostPort "::1:80" = None ∧ SplitHostPort "host" = None ∧
  SplitHostPort "[::1]" = None ∧ SplitHostPort "a]:80" = None.
Proof. vm_compute. done. Qed.
