(* ===== verification/OtlpServer.v ===== *)
(** * OtlpServer: the life of the OTLP receiver

    Models [otlpreceiver/otlp.go] and the factory that fills it ([factory.go]): the
    consumers that are registered, the servers that are created for them, and the
    goroutines that serve, which [shutdownWG] counts.  What creating a server and
    listening answer is an argument; serving until it is stopped is all a goroutine
    does.  [None] is a panic. *)

From S2P Require Import Prelude GoStrings PData FillProc OtlpTraces Endpoints.

Inductive Signal := SignalTraces | SignalMetrics | SignalLogs.
Inductive Protocol := ProtoGRPC | ProtoHTTP.

#[global] Instance Protocol_eq_dec : EqDecision Protocol.
Proof. solve_decision. Defined.

(** [HTTPConfig] and [Protocols] but for the settings of the servers; the extension
    the configuration names. *)
Record HTTPConfig := { TracesURLPath : string; MetricsURLPath : string; LogsURLPath : string }.
Record OtlpConfig := { oc_GRPC : bool; oc_HTTP : option HTTPConfig; oc_ExtensionID : option string }.

Definition otlp_grpcPort : Z := 4317.
Definition otlp_httpPort : Z := 4318.

(** The default configuration and its endpoints. *)
Definition otlp_createDefaultConfig (localhost : bool) : OtlpConfig * (string * string) :=
  ({| oc_GRPC := true;
      oc_HTTP := Some {| TracesURLPath := "/v1/traces"; MetricsURLPath := "/v1/metrics"; LogsURLPath := "/v1/logs" |};
      oc_ExtensionID := None |},
   (EndpointForPort localhost otlp_grpcPort, EndpointForPort localhost otlp_httpPort)).

(** Whether there is no error. *)
Definition otlp_Validate (cfg : OtlpConfig) : bool := oc_GRPC cfg || (if oc_HTTP cfg is Some _ then true else false).

Section server.
Context `{GrpcErrors} {E : Type} `{!FillProc E}.

(** [host.GetExtensions()]: [None] is an extension that is not a [FillProc]. *)
Definition Extensions := gmap string (option E).

(** What creating the servers, listening and stopping answer; [nil] is [None]. *)
Record ServerEnv := {
  se_extensions : Extensions;
  se_grpcToServer : option GoErr;
  se_grpcListen : option GoErr;
  se_httpToServer : option GoErr;
  se_httpListen : option GoErr;
  se_httpShutdown : option GoErr;
}.

(** The services of a grpc server and the routes of an http server; those of the
    traces carry the extension. *)
Inductive Service := TracesService (ext : option E) | MetricsService | LogsService.

Record otlpReceiver := {
  ot_cfg : OtlpConfig;
  ot_serverGRPC : option (list Service);
  ot_serverHTTP : option (gmap string Service);
  ot_nextTraces : bool;
  ot_nextMetrics : bool;
  ot_nextLogs : bool;
  ot_serving : list Protocol;      (* the goroutines of [shutdownWG] *)
}.

Definition newOtlpReceiver (cfg : OtlpConfig) : otlpReceiver :=
  {| ot_cfg := cfg; ot_serverGRPC := None; ot_serverHTTP := None; ot_nextTraces := false; ot_nextMetrics := false;
     ot_nextLogs := false; ot_serving := [] |}.

Definition register (s : Signal) (r : otlpReceiver) : otlpReceiver :=
  {| ot_cfg := ot_cfg r; ot_serverGRPC := ot_serverGRPC r; ot_serverHTTP := ot_serverHTTP r;
     ot_nextTraces := if s is SignalTraces then true else ot_nextTraces r;
     ot_nextMetrics := if s is SignalMetrics then true else ot_nextMetrics r;
     ot_nextLogs := if s is SignalLogs then true else ot_nextLogs r; ot_serving := ot_serving r |}.

Definition registerTraceConsumer : otlpReceiver → otlpReceiver := register SignalTraces.
Definition registerMetricsConsumer : otlpReceiver → otlpReceiver := register SignalMetrics.
Definition registerLogsConsumer : otlpReceiver → otlpReceiver := register SignalLogs.

Definition set_servers (grpc : option (list Service)) (http : option (gmap string Service)) (serving : list Protocol)
    (r : otlpReceiver) : otlpReceiver :=
  {| ot_cfg := ot_cfg r; ot_serverGRPC := grpc; ot_serverHTTP := http; ot_nextTraces := ot_nextTraces r;
     ot_nextMetrics := ot_nextMetrics r; ot_nextLogs := ot_nextLogs r; ot_serving := serving |}.

(** An unknown extension is logged and left out; one of another type panics. *)
Definition getFillProc (env : ServerEnv) (r : otlpReceiver) : option (option E) :=
  match oc_ExtensionID (ot_cfg r) with
  | None => Some None
  | Some id =>
      match se_extensions env !! id with
      | None => Some None
      | Some None => None
      | Some (Some ext) => Some (Some ext)
      end
  end.

(** The service of each consumer that is registered. *)
Definition services (env : ServerEnv) (r : otlpReceiver) : option (list (Signal * Service)) :=
  traces ← (if ot_nextTraces r then ext ← getFillProc env r; Some [(SignalTraces, TracesService ext)] else Some []);
  Some (traces ++ (if ot_nextMetrics r then [(SignalMetrics, MetricsService)] else []) ++
        (if ot_nextLogs r then [(SignalLogs, LogsService)] else [])).

Definition startGRPCServer (env : ServerEnv) (r : otlpReceiver) : option (option GoErr * otlpReceiver) :=
  if negb (oc_GRPC (ot_cfg r)) then Some (None, r)
  else
    match se_grpcToServer env with
    | Some err => Some (Some err, set_servers None (ot_serverHTTP r) (ot_serving r) r)
    | None =>
        l ← services env r;
        let r := set_servers (Some l.*2) (ot_serverHTTP r) (ot_serving r) r in
        match se_grpcListen env with
        | Some err => Some (Some err, r)
        | None => Some (None, set_servers (ot_serverGRPC r) (ot_serverHTTP r) (ot_serving r ++ [ProtoGRPC]) r)
        end
    end.

Definition route (cfg : HTTPConfig) (s : Signal) : string :=
  match s with
  | SignalTraces => TracesURLPath cfg
  | SignalMetrics => MetricsURLPath cfg
  | SignalLogs => LogsURLPath cfg
  end.

(** [ServeMux.HandleFunc] panics on a pattern that is registered or empty (the
    paths are taken to have no wildcards). *)
Definition HandleFunc (path : string) (s : Service) (mux : gmap string Service) : option (gmap string Service) :=
  if bool_decide (path = "") then None
  else match mux !! path with Some _ => None | None => Some (<[path := s]> mux) end.

Fixpoint mux_of (cfg : HTTPConfig) (l : list (Signal * Service)) (mux : gmap string Service) : option (gmap string Service) :=
  match l with
  | [] => Some mux
  | (s, service) :: l' => mux ← HandleFunc (route cfg s) service mux; mux_of cfg l' mux
  end.

Definition startHTTPServer (env : ServerEnv) (r : otlpReceiver) : option (option GoErr * otlpReceiver) :=
  match oc_HTTP (ot_cfg r) with
  | None => Some (None, r)
  | Some cfg =>
      l ← services env r;
      mux ← mux_of cfg l ∅;
      match se_httpToServer env with
      | Some err => Some (Some err, set_servers (ot_serverGRPC r) None (ot_serving r) r)
      | None =>
          let r := set_servers (ot_serverGRPC r) (Some mux) (ot_serving r) r in
          match se_httpListen env with
          | Some err => Some (Some err, r)
          | None => Some (None, set_servers (ot_serverGRPC r) (ot_serverHTTP r) (ot_serving r ++ [ProtoHTTP]) r)
          end
      end
  end.

(** A stopped server lets its goroutine end; [Wait] waits for both. *)
Definition otlp_Shutdown (env : ServerEnv) (r : otlpReceiver) : option GoErr * otlpReceiver :=
  let '(err, serving) :=
    match ot_serverHTTP r with
    | Some _ => (se_httpShutdown env, filter (λ p, p ≠ ProtoHTTP) (ot_serving r))
    | None => (None, ot_serving r)
    end in
  let serving := match ot_serverGRPC r with Some _ => filter (λ p, p ≠ ProtoGRPC) serving | None => serving end in
  (err, set_servers (ot_serverGRPC r) (ot_serverHTTP r) serving r).

(** The errors that [errors.Join] joins, in order. *)
Definition otlp_Start (env : ServerEnv) (r : otlpReceiver) : option (list GoErr * otlpReceiver) :=
  '(err, r) ← startGRPCServer env r;
  match err with
  | Some err => Some ([err], r)
  | None =>
      '(err, r) ← startHTTPServer env r;
      match err with
      | Some err =>
          let '(err', r) := otlp_Shutdown env r in
          Some (err :: (if err' is Some e then [e] else []), r)
      | None => Some ([], r)
      end
  end.

(** ** Theorems *)

(** The signals with a consumer. *)
Definition signals (r : otlpReceiver) : list Signal :=
  (if ot_nextTraces r then [SignalTraces] else []) ++ (if ot_nextMetrics r then [SignalMetrics] else []) ++
  (if ot_nextLogs r then [SignalLogs] else []).

(** The traces are wanted and the configuration names something that is not a
    [FillProc]. *)
Definition bad_extension (env : ServerEnv) (r : otlpReceiver) : Prop :=
  ot_nextTraces r = true ∧ ∃ id, oc_ExtensionID (ot_cfg r) = Some id ∧ se_extensions env !! id = Some None.

Lemma getFillProc_spec env r :
  getFillProc env r = None ↔ ∃ id, oc_ExtensionID (ot_cfg r) = Some id ∧ se_extensions env !! id = Some None.
Proof.
  unfold getFillProc. destruct (oc_ExtensionID (ot_cfg r)) as [id|]; [|naive_solver].
  destruct (se_extensions env !! id) as [[ext|]|] eqn:E1; naive_solver.
Qed.

Lemma services_spec env r :
  (services env r = None ↔ bad_extension env r) ∧ ∀ l, services env r = Some l → l.*1 = signals r.
Proof.
  unfold services, bad_extension, signals. pose proof (getFillProc_spec env r) as Hf.
  destruct (ot_nextTraces r); cbn [mbind option_bind].
  - destruct (getFillProc env r) as [ext|]; cbn [mbind option_bind].
    + split; [naive_solver|]. intros l [= <-]. by destruct (ot_nextMetrics r), (ot_nextLogs r).
    + split; [naive_solver|done].
  - split; [naive_solver|]. intros l [= <-]. by destruct (ot_nextMetrics r), (ot_nextLogs r).
Qed.

(** The paths of the signals are there and differ. *)
Definition good_paths (paths : list string) : Prop := NoDup paths ∧ "" ∉ paths.

Lemma mux_of_spec cfg l mux :
  let paths := route cfg <$> l.*1 in
  (∃ mux', mux_of cfg l mux = Some mux') ↔ good_paths paths ∧ ∀ p, p ∈ paths → mux !! p = None.
Proof.
  unfold good_paths. revert mux. induction l as [|[s service] l IH]; intros mux; cbn [mux_of].
  - split; [|by eexists]. intros _. split_and!; [constructor|by intros ?%elem_of_nil|by intros p ?%elem_of_nil].
  - cbn [fmap list_fmap fst]. rewrite list.NoDup_cons, not_elem_of_cons. setoid_rewrite elem_of_cons.
    unfold HandleFunc. case_bool_decide as He; cbn [mbind option_bind].
    { split; [intros [? ?]; done|naive_solver]. }
    destruct (mux !! route cfg s) as [x|] eqn:Em; cbn [mbind option_bind].
    { split; [intros [? ?]; done|]. intros [_ Hn]. rewrite Hn in Em by by left. done. }
    rewrite IH. split.
    + intros [[Hnd Hne] Hn]. assert (route cfg s ∉ route cfg <$> l.*1) as Hni.
      { intros Hin. specialize (Hn _ Hin). by rewrite lookup_insert_eq in Hn. }
      split_and!; [done..|by intros ?|done|]. intros p [->|Hp]; [done|].
      specialize (Hn p Hp). by apply lookup_insert_None in Hn as [? _].
    + intros [[[Hni Hnd] [_ Hne]] Hn]. split; [done|]. intros p Hp. rewrite lookup_insert_ne; [apply Hn; by right|].
      intros <-. contradiction.
Qed.

Definition fresh (r : otlpReceiver) : Prop := ot_serving r = [] ∧ ot_serverGRPC r = None ∧ ot_serverHTTP r = None.

(** The grpc server is not wanted or comes up. *)
Definition grpc_up (env : ServerEnv) (r : otlpReceiver) : Prop :=
  oc_GRPC (ot_cfg r) = false ∨ se_grpcToServer env = None ∧ se_grpcListen env = None.

Lemma startGRPCServer_spec env r :
  fresh r →
  match startGRPCServer env r with
  | None => oc_GRPC (ot_cfg r) = true ∧ se_grpcToServer env = None ∧ bad_extension env r
  | Some (Some _, r') => ¬ grpc_up env r ∧ ot_serving r' = [] ∧
      ¬ (oc_GRPC (ot_cfg r) = true ∧ se_grpcToServer env = None ∧ bad_extension env r) ∧ ot_serverHTTP r' = None
  | Some (None, r') => grpc_up env r ∧
      ¬ (oc_GRPC (ot_cfg r) = true ∧ se_grpcToServer env = None ∧ bad_extension env r) ∧
      ∃ grpc serving, r' = set_servers grpc None serving r ∧
        serving = (if oc_GRPC (ot_cfg r) then [ProtoGRPC] else []) ∧ (is_Some grpc ↔ oc_GRPC (ot_cfg r) = true)
  end.
Proof.
  intros (Hs & Hg & Hh). unfold startGRPCServer, grpc_up. destruct (oc_GRPC (ot_cfg r)) eqn:Eg; cbn [negb].
  2: { split; [by left|]. split; [naive_solver|]. exists None, []. split; [|split; [done|by split; [intros [? ?]|]]].
       destruct r. simpl in *. by subst. }
  destruct (se_grpcToServer env) as [err|] eqn:Et.
  { cbn [set_servers ot_serving ot_serverHTTP]. split_and!; [naive_solver|done|naive_solver|done]. }
  destruct (services_spec env r) as [Hb _]. destruct (services env r) as [l|]; cbn [mbind option_bind]; [|tauto].
  assert (¬ bad_extension env r) as Hnb by (intros ?%Hb; done).
  destruct (se_grpcListen env) as [err|] eqn:El; cbn [set_servers ot_serving ot_serverHTTP ot_serverGRPC].
  { split_and!; [naive_solver|done|tauto|done]. }
  split; [by right|]. split; [tauto|]. exists (Some l.*2), [ProtoGRPC]. split; [|split; [done|split; [done|by eexists]]].
  by rewrite Hs, Hh.
Qed.

Lemma startHTTPServer_spec env r grpc serving :
  let r1 := set_servers grpc None serving r in
  match startHTTPServer env r1 with
  | None => ∃ cfg, oc_HTTP (ot_cfg r) = Some cfg ∧ (bad_extension env r ∨ ¬ good_paths (route cfg <$> signals r))
  | Some (err, r') => (∃ http, r' = set_servers grpc http (serving ++ (if err is Some _ then [] else
                        if oc_HTTP (ot_cfg r) is Some _ then [ProtoHTTP] else [])) r ∧
                        (err = None → (is_Some http ↔ is_Some (oc_HTTP (ot_cfg r))))) ∧
      ∀ cfg, oc_HTTP (ot_cfg r) = Some cfg → ¬ bad_extension env r ∧ good_paths (route cfg <$> signals r)
  end.
Proof.
  intros r1. unfold startHTTPServer. change (ot_cfg r1) with (ot_cfg r). destruct (oc_HTTP (ot_cfg r)) as [cfg|] eqn:Ec.
  2: { split; [|done]. exists None. split; [by rewrite app_nil_r|]. intros _. by split; intros [? ?]. }
  destruct (services_spec env r1) as [Hb Hl]. change (bad_extension env r1) with (bad_extension env r) in Hb.
  change (signals r1) with (signals r) in Hl.
  destruct (services env r1) as [l|]; cbn [mbind option_bind]; [|exists cfg; tauto].
  assert (¬ bad_extension env r) as Hnb by (intros ?%Hb; done).
  pose proof (mux_of_spec cfg l ∅) as Hm. cbv zeta in Hm. rewrite (Hl l eq_refl) in Hm.
  destruct (mux_of cfg l ∅) as [mux|]; cbn [mbind option_bind].
  2: { exists cfg. split; [done|]. right. intros Hp. destruct (proj2 Hm) as [? ?]; [|done]. split; [done|]. intros. apply lookup_empty. }
  assert (good_paths (route cfg <$> signals r)) as Hp by (apply Hm; by eexists).
  destruct (se_httpToServer env) as [err|]; [|destruct (se_httpListen env) as [err|]];
    (split; [|intros cfg' [= <-]; done]); cbn [set_servers ot_cfg ot_serving ot_serverGRPC ot_serverHTTP r1].
  - exists None. by rewrite app_nil_r.
  - exists (Some mux). by rewrite app_nil_r.
  - exists (Some mux). split; [done|]. intros _. split; by eexists.
Qed.

(** What serves has a server, and then [Shutdown] stops it. *)
Lemma Shutdown_stops env r :
  (ProtoHTTP ∈ ot_serving r → is_Some (ot_serverHTTP r)) → (ProtoGRPC ∈ ot_serving r → is_Some (ot_serverGRPC r)) →
  ot_serving (otlp_Shutdown env r).2 = [].
Proof.
  intros Hh Hg. apply elem_of_nil_inv. intros p Hp. unfold otlp_Shutdown in Hp.
  destruct (ot_serverHTTP r), (ot_serverGRPC r); cbn [snd set_servers ot_serving] in Hp;
    rewrite ?list_elem_of_filter in Hp; destruct p; try tauto.
  - destruct Hp as [_ Hp]. by destruct (Hg Hp).
  - destruct Hp as [_ Hp]. by destruct (Hh Hp).
  - by destruct (Hg Hp).
  - by destruct (Hh Hp).
Qed.

(** C34: [Start] panics just when the traces are wanted and the extension is of
    another type, or when two of the routes of the http server are the same path;
    otherwise it either reports no error, and the servers of all protocols of the
    configuration serve, or reports an error, and none does: a grpc server that was
    up when the http server failed is stopped again.  After a [Shutdown] nothing
    serves. *)
Theorem Start_all_or_nothing env r :
  fresh r →
  (otlp_Start env r = None ↔
     (oc_GRPC (ot_cfg r) = true ∧ se_grpcToServer env = None ∧ bad_extension env r) ∨
     (grpc_up env r ∧ ∃ cfg, oc_HTTP (ot_cfg r) = Some cfg ∧
        (bad_extension env r ∨ ¬ good_paths (route cfg <$> signals r)))) ∧
  ∀ errs r', otlp_Start env r = Some (errs, r') →
    ot_serving r' = (match errs with
                     | [] => (if oc_GRPC (ot_cfg r) then [ProtoGRPC] else []) ++
                             (if oc_HTTP (ot_cfg r) is Some _ then [ProtoHTTP] else [])
                     | _ => []
                     end) ∧
    ∀ env', ot_serving (otlp_Shutdown env' r').2 = [].
Proof.
  intros Hf. pose proof (startGRPCServer_spec env r Hf) as Hg. unfold otlp_Start.
  destruct (startGRPCServer env r) as [[[err|] r1]|]; cbn [mbind option_bind].
  - destruct Hg as (Hnup & Hs & Hnp & Hh). split; [split; [done|naive_solver]|]. intros errs r' [= <- <-]. split; [done|].
    intros env'. unfold otlp_Shutdown. rewrite Hh, Hs. by destruct (ot_serverGRPC r1).
  - destruct Hg as (Hup & Hnp & grpc & serving & -> & Hserv & Hgr). pose proof (startHTTPServer_spec env r grpc serving) as Hh.
    cbv zeta in Hh. destruct (startHTTPServer env _) as [[err r2]|]; cbn [mbind option_bind]; [|naive_solver].
    destruct Hh as [(http & -> & Hhttp) Hok].
    assert (ProtoGRPC ∈ serving → is_Some grpc) as Hg.
    { rewrite Hgr, Hserv. destruct (oc_GRPC (ot_cfg r)); [done|]. by intros ?%elem_of_nil. }
    assert (ProtoHTTP ∉ serving) as Hnh.
    { rewrite Hserv. destruct (oc_GRPC (ot_cfg r)); [|by intros ?%elem_of_nil]. by intros ?%list_elem_of_singleton. }
    match goal with |- (_ ↔ ?P) ∧ _ => assert (¬ P) as Hno end.
    { intros [?|(_ & cfg & Hc & Hbad)]; [contradiction|]. destruct (Hok cfg Hc). tauto. }
    destruct err as [err|].
    + pose proof (Shutdown_stops env (set_servers grpc http (serving ++ []) r)) as Hd. rewrite app_nil_r in *.
      specialize (Hd ltac:(done) Hg). destruct (otlp_Shutdown env _) as [err' r3] eqn:E3. cbn [snd] in Hd.
      split; [split; [done|contradiction]|]. intros errs r' [= <- <-]. split; [done|]. intros env'.
      apply Shutdown_stops; rewrite Hd; by intros ?%elem_of_nil.
    + split; [split; [done|contradiction]|]. intros errs r' [= <- <-]. split; [simpl; by subst serving|].
      intros env'. apply Shutdown_stops; cbn [set_servers ot_serving ot_serverHTTP ot_serverGRPC]; rewrite elem_of_app.
      * intros [?|Hin]; [done|]. apply (Hhttp eq_refl). destruct (oc_HTTP (ot_cfg r)); [by eexists|by apply elem_of_nil in Hin].
      * intros [?|Hin]; [by apply Hg|]. destruct (oc_HTTP (ot_cfg r)); [|by apply elem_of_nil in Hin].
        by apply list_elem_of_singleton in Hin.
  - split; [|done]. tauto.
Qed.
End server.

(** ** An example: the http port is taken *)

Import RefErrors.

Definition ex_port_taken : GoErr := Plain "address already in use" false.

Definition ex_server_env : ServerEnv (E := SocketProcExtension) :=
  {| se_extensions := ∅; se_grpcToServer := None; se_grpcListen := None; se_httpToServer := None;
     se_httpListen := Some ex_port_taken; se_httpShutdown := None |}.

Definition ex_server : otlpReceiver (E := SocketProcExtension) :=
  registerMetricsConsumer (registerTraceConsumer (newOtlpReceiver (otlp_createDefaultConfig true).1)).

Lemma Start_all_or_nothing_witness :
  ∃ r', otlp_Start ex_server_env ex_server = Some ([ex_port_taken], r') ∧ ot_serving r' = [].
Proof.
  destruct (Start_all_or_nothing ex_server_env ex_server) as [_ H]; [by vm_compute|].
  eexists. split; [reflexivity|]. destruct (H [ex_port_taken] _ eq_refl) as [Hs _]. exact Hs.
Defined.
