(* ===== verification/Url.v ===== *)
(** * Url: the path of a URL

    [url.Parse] of Go 1.21's standard library as far as a caller sees it that reads
    the path only: [None] is any of its errors.  Its caller is [sanitizeURLPath] of
    [otlpreceiver/config.go]. *)

From S2P Require Import Prelude GoStrings.

(** The bytes before the first [c], and those after it when it is there. *)
Fixpoint cut_bytes (c : ascii) (l : list ascii) : list ascii * option (list ascii) :=
  match l with
  | [] => ([], None)
  | a :: l' => if Ascii.eqb a c then ([], Some l') else let '(b, r) := cut_bytes c l' in (a :: b, r)
  end.

(** The bytes before the last [c] and those after it. *)
Definition cut_last (c : ascii) (l : list ascii) : option (list ascii * list ascii) :=
  match cut_bytes c (rev l) with
  | (after, Some before) => Some (rev before, rev after)
  | (_, None) => None
  end.

Definition one_of (s : string) (c : ascii) : bool := existsb (Ascii.eqb c) (byte_list s).
Definition is_digit (c : ascii) : bool := one_of "0123456789" c.
Definition is_alpha (c : ascii) : bool := one_of "abcdefghijklmnopqrstuvwxyz" (lower_ascii c).
Definition is_alnum (c : ascii) : bool := is_alpha c || is_digit c.
Definition byte_value (c : ascii) : Z := Z.of_nat (nat_of_ascii c).
Definition is_ctl (c : ascii) : bool := (byte_value c <? 32) || (byte_value c =? 127).

Inductive encoding := encodePath | encodeHost | encodeZone | encodeUserPassword | encodeFragment.
Definition of_host (mode : encoding) : bool := match mode with encodeHost | encodeZone => true | _ => false end.

(** [shouldEscape], for the two modes of a host. *)
Definition shouldEscape (c : ascii) : bool :=
  negb (is_alnum c || one_of "!$&'()*+,;=:[]<>-_.~" c || (byte_value c =? 34)).

(** A [%] with its two digits, in the part of the URL that [mode] stands for. *)
Definition unescape_byte (mode : encoding) (a b : ascii) : option ascii :=
  match hexDigit a, hexDigit b with
  | Some x, Some y =>
      let v := ascii_of_nat (Z.to_nat (16 * x + y)) in
      let percent := (x =? 2) && (y =? 5) in
      match mode with
      | encodeHost => if (x <? 8) && negb percent then None else Some v
      | encodeZone => if negb percent && negb (byte_value v =? 32) && shouldEscape v then None else Some v
      | _ => Some v
      end
  | _, _ => None
  end.

Fixpoint unescape (mode : encoding) (l : list ascii) : option (list ascii) :=
  match l with
  | [] => Some []
  | c :: l' =>
      if Ascii.eqb c "%" then
        match l' with
        | a :: b :: l'' => v ← unescape_byte mode a b; r ← unescape mode l''; Some (v :: r)
        | _ => None
        end
      else if of_host mode && (byte_value c <? 128) && shouldEscape c then None
      else r ← unescape mode l'; Some (c :: r)
  end.

(** Whether there is an error in what is not the path. *)
Definition escapes (mode : encoding) (l : list ascii) : bool := if unescape mode l is Some _ then true else false.

Definition validOptionalPort (port : list ascii) : bool :=
  match port with
  | [] => true
  | c :: digits => Ascii.eqb c ":" && forallb is_digit digits
  end.

(** The first place of [%25]. *)
Fixpoint cut_zone (l : list ascii) : option (list ascii * list ascii) :=
  match l with
  | [] => None
  | c :: l' => if prefix_of (byte_list "%25") l then Some ([], l) else (λ p, (c :: p.1, p.2)) <$> cut_zone l'
  end.

Definition parseHost (host : list ascii) : bool :=
  match host with
  | c :: _ =>
      if Ascii.eqb c "[" then
        match cut_last "]" host with
        | None => false
        | Some (before, colonPort) =>
            validOptionalPort colonPort &&
            match cut_zone before with
            | Some (h1, h2) => escapes encodeHost h1 && escapes encodeZone h2 && escapes encodeHost ("]"%char :: colonPort)
            | None => escapes encodeHost host
            end
        end
      else
        (if cut_last ":" host is Some (_, port) then validOptionalPort (":"%char :: port) else true) && escapes encodeHost host
  | [] => true
  end.

Definition validUserinfo (l : list ascii) : bool := forallb (λ c, is_alnum c || one_of "-._:~!$&'()*+,;=%@" c) l.

Definition parseAuthority (authority : list ascii) : bool :=
  match cut_last "@" authority with
  | None => parseHost authority
  | Some (userinfo, host) =>
      parseHost host && validUserinfo userinfo &&
      let '(username, password) := cut_bytes ":" userinfo in
      escapes encodeUserPassword username && escapes encodeUserPassword (default [] password)
  end.

(** [getScheme]: whether there is a scheme, and the rest. *)
Fixpoint getScheme (first : bool) (whole l : list ascii) : option (bool * list ascii) :=
  match l with
  | [] => Some (false, whole)
  | c :: l' =>
      if is_alpha c then getScheme false whole l'
      else if is_digit c || one_of "+-." c then if first then Some (false, whole) else getScheme false whole l'
      else if Ascii.eqb c ":" then if first then None else Some (true, l')
      else Some (false, whole)
  end.

(** The query goes; one [?] at the end goes with it. *)
Definition parse (rawURL : list ascii) : option (list ascii) :=
  if existsb is_ctl rawURL then None
  else if bool_decide (rawURL = byte_list "*") then Some rawURL
  else
    '(scheme, rest) ← getScheme true rawURL rawURL;
    let rest := (cut_bytes "?" rest).1 in
    if negb (prefix_of (byte_list "/") rest) then
      if (scheme : bool) then Some []     (* opaque *)
      else if existsb (Ascii.eqb ":") (cut_bytes "/" rest).1 then None
      else unescape encodePath rest
    else if (scheme || negb (prefix_of (byte_list "///") rest)) && prefix_of (byte_list "//") rest then
      let '(authority, path) := cut_bytes "/" (drop 2 rest) in
      if parseAuthority authority then
        unescape encodePath (match path with Some p => "/"%char :: p | None => [] end)
      else None
    else unescape encodePath rest.

(** [url.Parse], the field [Path]. *)
Definition url_Parse (rawURL : string) : option string :=
  let '(u, frag) := cut_bytes "#" (byte_list rawURL) in
  path ← parse u;
  match frag with
  | Some f => if escapes encodeFragment f then Some (of_byte_list path) else None
  | None => Some (of_byte_list path)
  end.

(** [path.IsAbs] *)
Definition IsAbs (p : string) : bool := HasPrefix p "/".

(** The answer and the error. *)
Definition sanitizeURLPath (urlPath : string) : string * bool :=
  match url_Parse urlPath with
  | None => ("", false)
  | Some p => (if IsAbs p then p else "/" +:+ p, true)
  end.

Example sanitize_examples :
  sanitizeURLPath <$> ["/v1/traces"; ""; "v1/traces"; "http://localhost:4318/v1/%74races?x=1#y"; "traces:v1"; "a b"; "/%zz"; "//[::1%25eth0]:80";
                       "///x"; "*"; "1:2"; "http://a:b/c"] =
    [("/v1/traces", true); ("/", true); ("/v1/traces", true); ("/v1/traces", true); ("/", true); ("/a b", true); ("", false); ("/", true);
     ("///x", true); ("/*", true); ("", false); ("", false)].
Proof. vm_compute. done. Qed.

(** ** Theorems *)

Lemma sanitize_absolute urlPath p : sanitizeURLPath urlPath = (p, true) → IsAbs p = true.
Proof.
  unfold sanitizeURLPath. destruct (url_Parse urlPath) as [q|]; [|done]. destruct (IsAbs q) eqn:E1; intros [= <-]; [done|].
  unfold IsAbs, HasPrefix. cbn. by destruct q.
Qed.

(** A byte of a path that stands for itself. *)
Definition plain_byte (c : ascii) : bool := negb (is_ctl c || one_of "%?#" c).

Lemma cut_bytes_free c l : Forall (λ a, Ascii.eqb a c = false) l → cut_bytes c l = (l, None).
Proof. induction 1 as [|a l Ha _ IH]; cbn [cut_bytes]; [done|]. by rewrite Ha, IH. Qed.

Lemma plain_not c l : one_of "%?#" c = true → Forall (λ a, plain_byte a = true) l → Forall (λ a, Ascii.eqb a c = false) l.
Proof.
  intros Hc Hl. eapply list.Forall_impl; [exact Hl|]. intros a Ha. destruct (Ascii.eqb_spec a c) as [->|]; [|done].
  unfold plain_byte in Ha. by rewrite Hc, orb_true_r in Ha.
Qed.

Lemma unescape_plain l : Forall (λ a, plain_byte a = true) l → unescape encodePath l = Some l.
Proof.
  intros Hl. pose proof (plain_not "%" l eq_refl Hl) as Hp. induction Hp as [|a l Ha Hp IH]; cbn [unescape]; [done|].
  rewrite Ha. cbn [of_host andb]. apply list.Forall_cons in Hl as [_ Hl]. by rewrite IH.
Qed.

(** A path without escapes, query and fragment that is not the start of an
    authority is taken as it is. *)
Lemma sanitize_plain c l :
  c ≠ "/"%char → Forall (λ a, plain_byte a = true) (c :: l) →
  let p := of_byte_list ("/"%char :: c :: l) in sanitizeURLPath p = (p, true).
Proof.
  intros Hc Hl p. assert (Forall (λ a, plain_byte a = true) ("/"%char :: c :: l)) as Hp by by constructor.
  unfold sanitizeURLPath, url_Parse, p. rewrite byte_list_inv, (cut_bytes_free "#") by by apply plain_not.
  assert (parse ("/"%char :: c :: l) = Some ("/"%char :: c :: l)) as ->; [|done].
  unfold parse. assert (existsb is_ctl ("/"%char :: c :: l) = false) as ->.
  { apply not_true_iff_false. intros (a & Ha & Hctl)%existsb_exists. rewrite <- list_elem_of_In in Ha.
    pose proof (proj1 (list.Forall_forall _ _) Hp a Ha) as Hpl. cbn in Hpl. unfold plain_byte in Hpl. by rewrite Hctl in Hpl. }
  rewrite bool_decide_eq_false_2 by done. cbn [getScheme]. change (is_alpha "/") with false. change (is_digit "/" || one_of "+-." "/") with false.
  change (Ascii.eqb "/" ":") with false. cbn match. cbn [mbind option_bind]. rewrite (cut_bytes_free "?") by by apply plain_not.
  cbn [fst]. assert (prefix_of (byte_list "//") ("/"%char :: c :: l) = false) as ->.
  { change (Ascii.eqb "/" c && true = false). destruct (Ascii.eqb_spec "/" c); [by subst|done]. }
  rewrite andb_false_r. change (negb (prefix_of (byte_list "/") ("/"%char :: c :: l))) with false. cbn match. by apply unescape_plain.
Qed.
