(* ===== verification/Loading.v ===== *)
(** * Loading: from the configuration file to a component

    Models [Unmarshal] of [otlpreceiver/config.go] and [skywalkingreceiver/config.go]
    and the feature gate of [localhostgate/featuregate.go].  A [confmap.Conf] is what
    it answers; the registry of the gates is the class [GateRegistry].  [None] is a
    panic. *)

From S2P Require Import Prelude GoStrings PData FillProc OtlpTraces Endpoints OtlpServer Url.

(** ** otlpreceiver/config.go *)

Definition protoGRPC : string := "protocols::grpc".
Definition protoHTTP : string := "protocols::http".

(** [conf.Unmarshal] and [conf.IsSet]. *)
Record OtlpConf `{GrpcErrors} := {
  cf_Unmarshal : OtlpConfig → option GoErr * OtlpConfig;
  cf_IsSet : string → bool;
}.

Section otlp.
Context `{GrpcErrors}.

Inductive LoadErr := LoadFailed (err : GoErr) | InvalidURLPath.

Definition set_http (http : option HTTPConfig) (cfg : OtlpConfig) : OtlpConfig :=
  {| oc_GRPC := oc_GRPC cfg; oc_HTTP := http; oc_ExtensionID := oc_ExtensionID cfg |}.

(** The three assignments, each of which also stores what comes with an error. *)
Definition sanitize_paths (h : HTTPConfig) : bool * HTTPConfig :=
  let '(traces, ok) := sanitizeURLPath (TracesURLPath h) in
  let h := {| TracesURLPath := traces; MetricsURLPath := MetricsURLPath h; LogsURLPath := LogsURLPath h |} in
  if negb ok then (false, h)
  else
    let '(metrics, ok) := sanitizeURLPath (MetricsURLPath h) in
    let h := {| TracesURLPath := TracesURLPath h; MetricsURLPath := metrics; LogsURLPath := LogsURLPath h |} in
    if negb ok then (false, h)
    else
      let '(logs, ok) := sanitizeURLPath (LogsURLPath h) in
      (ok, {| TracesURLPath := TracesURLPath h; MetricsURLPath := MetricsURLPath h; LogsURLPath := logs |}).

(** [cfg.HTTP] is a pointer that the last branch follows. *)
Definition otlp_Unmarshal (conf : OtlpConf) (cfg : OtlpConfig) : option (option LoadErr * OtlpConfig) :=
  match cf_Unmarshal conf cfg with
  | (Some err, cfg) => Some (Some (LoadFailed err), cfg)
  | (None, cfg) =>
      let cfg := {| oc_GRPC := oc_GRPC cfg && cf_IsSet conf protoGRPC; oc_HTTP := oc_HTTP cfg; oc_ExtensionID := oc_ExtensionID cfg |} in
      if negb (cf_IsSet conf protoHTTP) then Some (None, set_http None cfg)
      else
        h ← oc_HTTP cfg;
        let '(ok, h) := sanitize_paths h in
        Some (if ok then None else Some InvalidURLPath, set_http (Some h) cfg)
  end.

Lemma sanitize_paths_ok h h' :
  sanitize_paths h = (true, h') ↔ ∀ s, sanitizeURLPath (route h s) = (route h' s, true).
Proof.
  unfold sanitize_paths. destruct h as [t m l], h' as [t' m' l']. cbn [TracesURLPath MetricsURLPath LogsURLPath].
  destruct (sanitizeURLPath t) as [st okt] eqn:Et, (sanitizeURLPath m) as [sm okm] eqn:Em, (sanitizeURLPath l) as [sl okl] eqn:El.
  split.
  - destruct okt, okm; cbn; try done. intros [= -> -> -> ->]. by intros [].
  - intros Hs. pose proof (Hs SignalTraces) as E1. pose proof (Hs SignalMetrics) as E2. pose proof (Hs SignalLogs) as E3.
    cbn in E1, E2, E3. rewrite E1 in Et. rewrite E2 in Em. rewrite E3 in El. by simplify_eq.
Qed.

Context {E : Type} `{!FillProc E}.

Lemma fresh_servers (r : otlpReceiver (E := E)) : fresh r → set_servers None None [] r = r.
Proof. intros (Hs & Hg & Hh). destruct r. cbn in *. by subst. Qed.

(** C35: a configuration that was loaded without an error has a protocol just when
    the file sets it (and the defaults give grpc its settings); the paths of its http
    protocol are the paths of the URLs in the file, made absolute, so that none is
    empty: starting the http server for it panics just when the extension is of
    another type, or two of the signals have the same path. *)
Theorem loaded_config_starts conf cfg cfg' :
  otlp_Unmarshal conf cfg = Some (None, cfg') →
  let file := (cf_Unmarshal conf cfg).2 in
  oc_GRPC cfg' = oc_GRPC file && cf_IsSet conf protoGRPC ∧
  (is_Some (oc_HTTP cfg') ↔ cf_IsSet conf protoHTTP = true) ∧
  otlp_Validate cfg' = (oc_GRPC file && cf_IsSet conf protoGRPC || cf_IsSet conf protoHTTP) ∧
  ∀ http, oc_HTTP cfg' = Some http →
    (∃ raw, oc_HTTP file = Some raw ∧ ∀ s, sanitizeURLPath (route raw s) = (route http s, true) ∧ IsAbs (route http s) = true) ∧
    ∀ env (r : otlpReceiver (E := E)), fresh r → ot_cfg r = cfg' →
      (startHTTPServer env r = None ↔ bad_extension env r ∨ ¬ NoDup (route http <$> signals r)).
Proof.
  unfold otlp_Unmarshal. destruct (cf_Unmarshal conf cfg) as [[err|] file]; [done|]. cbn [snd].
  destruct (cf_IsSet conf protoHTTP) eqn:Eh; cbn [negb].
  2: { intros [= <-]. cbn. split; [done|]. split; [by split; [intros [? ?]|]|]. split; [|done]. unfold otlp_Validate. cbn. done. }
  cbn [oc_HTTP]. destruct (oc_HTTP file) as [raw|] eqn:Er; [|done]. cbn [mbind option_bind].
  destruct (sanitize_paths raw) as [[] h] eqn:Es; [|done]. intros [= <-]. cbn. split; [done|]. split; [by split|].
  split; [unfold otlp_Validate; cbn; by rewrite !orb_true_r|]. intros http [= <-]. pose proof (proj1 (sanitize_paths_ok raw h) Es) as Hok.
  assert (∀ s, IsAbs (route h s) = true) as Habs by (intros s; eapply sanitize_absolute, Hok).
  split; [exists raw; split; [done|]; intros s; by split|].
  intros env r Hf Hc. pose proof (startHTTPServer_spec env r None []) as Hstart. cbv zeta in Hstart.
  rewrite (fresh_servers r Hf) in Hstart. rewrite Hc in Hstart. cbn [set_http oc_HTTP] in Hstart.
  assert ("" ∉ route h <$> signals r) as Hne.
  { intros (s & Hs & _)%list_elem_of_fmap. specialize (Habs s). by rewrite <- Hs in Habs. }
  unfold good_paths in Hstart. destruct (startHTTPServer env r) as [[err r']|].
  - destruct Hstart as [_ Hg]. destruct (Hg _ eq_refl) as [Hnb [Hnd _]]. split; [done|]. by intros [|].
  - destruct Hstart as (c & [= <-] & Hcase). split; [|done]. intros _. destruct Hcase as [|Hn]; [by left|right; tauto].
Qed.
End otlp.

(** ** skywalkingreceiver/config.go *)

Definition sw_protoGRPC : string := "grpc".
Definition sw_protoHTTP : string := "http".
Definition protocolsFieldName : string := "protocols".

(** [AllKeys], [Unmarshal] and [Sub], which answers what [IsSet] of the part answers. *)
Record SwConf `{GrpcErrors} := {
  cs_AllKeys : list string;
  cs_Unmarshal : SwConfig → option GoErr * SwConfig;
  cs_Sub : string → (string → bool) + GoErr;
}.

Section skywalking.
Context `{GrpcErrors}.

Inductive SwLoadErr := EmptyConfig | SwLoadFailed (err : GoErr).

Definition sw_Unmarshal (componentParser : option SwConf) (cfg : SwConfig) : option SwLoadErr * SwConfig :=
  match componentParser with
  | None => (Some EmptyConfig, cfg)
  | Some conf =>
      if len (cs_AllKeys conf) =? 0 then (Some EmptyConfig, cfg)
      else
        match cs_Unmarshal conf cfg with
        | (Some err, cfg) => (Some (SwLoadFailed err), cfg)
        | (None, cfg) =>
            match cs_Sub conf protocolsFieldName with
            | inr err => (Some (SwLoadFailed err), cfg)
            | inl IsSet =>
                (None, {| sw_GRPC := if IsSet sw_protoGRPC then sw_GRPC cfg else None;
                          sw_HTTP := if IsSet sw_protoHTTP then sw_HTTP cfg else None;
                          sw_ExtensionID := sw_ExtensionID cfg |})
            end
        end
  end.

(** A protocol that the file does not set has no port, so that no server is started for it. *)
Theorem sw_loaded_ports conf cfg cfg' c IsSet :
  sw_Unmarshal (Some conf) cfg = (None, cfg') → cs_Sub conf protocolsFieldName = inl IsSet → createConfiguration cfg' = Some c →
  (0 < CollectorGRPCPort c → IsSet sw_protoGRPC = true) ∧ (0 < CollectorHTTPPort c → IsSet sw_protoHTTP = true) ∧
  ComponmentIdFillProc c = sw_ExtensionID (cs_Unmarshal conf cfg).2.
Proof.
  unfold sw_Unmarshal. destruct (len _ =? 0); [done|]. destruct (cs_Unmarshal conf cfg) as [[err|] file]; [done|].
  intros Hu Hs. rewrite Hs in Hu. injection Hu as <-. unfold createConfiguration. cbn [sw_GRPC sw_HTTP sw_ExtensionID snd].
  intros Hc. assert (∃ g h, c = {| CollectorHTTPPort := h; CollectorHTTPSettings := CollectorHTTPSettings c; CollectorGRPCPort := g;
    CollectorGRPCServerSettings := CollectorGRPCServerSettings c; ComponmentIdFillProc := sw_ExtensionID file |} ∧
    (IsSet sw_protoGRPC = false → g = 0) ∧ (IsSet sw_protoHTTP = false → h = 0)) as (g & h & -> & Hg & Hh).
  { destruct (match (if IsSet sw_protoGRPC then _ else _) with Some e => _ | None => _ end) as [g|] eqn:Eg; [|done].
    destruct (match (if IsSet sw_protoHTTP then _ else _) with Some e => _ | None => _ end) as [h|] eqn:Eh; [|done].
    cbn in Hc. injection Hc as <-. exists g, h. cbn. split_and!; [done|intros E; rewrite E in Eg; congruence|intros E; rewrite E in Eh; congruence]. }
  cbn. split_and!; [intros Hp|intros Hp|done]; apply not_false_iff_true; intros E; [rewrite Hg in Hp by done|rewrite Hh in Hp by done]; lia.
Qed.
End skywalking.

(** ** localhostgate/featuregate.go *)

Definition UseLocalHostAsDefaultHostID : string := "component.UseLocalHostAsDefaultHost".

(** [featuregate.Registry]: what is registered, and the gate it answers or whether the
    error is [ErrAlreadyRegistered]. *)
Class GateRegistry (R Gate : Type) := {
  reg_Register : string → R → (Gate + bool) * R;
  reg_VisitAll : R → list Gate;
  gate_ID : Gate → string;
  gate_IsEnabled : Gate → bool;
}.

(** A registered gate is visited, at most one of each name; a name that is taken is
    reported as such and nothing else changes the gates. *)
Class GateRegistryLaws (R Gate : Type) `{GateRegistry R Gate} : Prop := {
  reg_new : ∀ id r g r', reg_Register id r = (inl g, r') → gate_ID g = id ∧ g ∈ reg_VisitAll r';
  reg_failed : ∀ id r b r', reg_Register id r = (inr b, r') → r' = r;
  reg_taken : ∀ id r, id ∈ gate_ID <$> reg_VisitAll r ↔ (reg_Register id r).1 = inr true;
  reg_one : ∀ r g g', g ∈ reg_VisitAll r → g' ∈ reg_VisitAll r → gate_ID g = gate_ID g' → g = g';
}.

Section gate.
Context {R Gate : Type} `{!GateRegistry R Gate}.

(** The closure of [VisitAll] cannot end the visit: the last match stays. *)
Definition visited (id : string) (r : R) : option Gate :=
  foldl (λ gate g, if bool_decide (gate_ID g = id) then Some g else gate) None (reg_VisitAll r).

(** [None] is the panic on another error; the gate may be nil. *)
Definition mustRegisterOrLoad (id : string) (r : R) : option (option Gate * R) :=
  match reg_Register id r with
  | (inl g, r) => Some (Some g, r)
  | (inr true, r) => Some (visited id r, r)
  | (inr false, _) => None
  end.

(** The endpoint of a port, and the lines that are logged about it. *)
Definition gate_EndpointForPort (gate : Gate) (port : Z) : string := EndpointForPort (gate_IsEnabled gate) port.
Definition LogAboutUseLocalHostAsDefault (gate : Gate) : list string :=
  if gate_IsEnabled gate then [] else [UseLocalHostAsDefaultHostID].

Lemma visited_one id r g :
  (∀ g', g' ∈ reg_VisitAll r → gate_ID g' = id → g' = g) → g ∈ reg_VisitAll r → gate_ID g = id → visited id r = Some g.
Proof.
  intros Hone Hin Hid. unfold visited.
  assert (∀ l acc, (∀ g', g' ∈ l → gate_ID g' = id → g' = g) → (g ∈ l ∨ acc = Some g) → acc = None ∨ acc = Some g →
    foldl (λ gate g, if bool_decide (gate_ID g = id) then Some g else gate) acc l = Some g) as Hf; [|by apply Hf; [|left|left]].
  induction l as [|a l IH]; intros acc Hl Hg Hacc; cbn [foldl].
  - by destruct Hg as [Hg%elem_of_nil|].
  - assert (∀ g', g' ∈ l → gate_ID g' = id → g' = g) as Hl' by (intros g' Hg'; apply Hl; by right).
    case_bool_decide as Ha.
    + rewrite (Hl a) by (done || by left). apply IH; [done|by right|by right].
    + apply IH; [done| |done]. destruct Hg as [Hg|]; [|by right]. apply elem_of_cons in Hg as [->|]; [done|by left].
Qed.

(** Whichever of the modules that share the gate comes first registers it; the
    others load that same gate, which is never nil. *)
Theorem gate_is_shared `{!GateRegistryLaws R Gate} id r g r' :
  mustRegisterOrLoad id r = Some (g, r') →
  mustRegisterOrLoad id r' = Some (g, r') ∧ ∃ gate, g = Some gate ∧ gate_ID gate = id ∧ gate ∈ reg_VisitAll r'.
Proof.
  unfold mustRegisterOrLoad. destruct (reg_Register id r) as [[g0|[]] r0] eqn:E1; [| |done]; intros [= <- <-].
  - apply reg_new in E1 as [Hid Hin]. assert ((reg_Register id r0).1 = inr true) as E2
      by (apply reg_taken; rewrite list_elem_of_fmap; by exists g0).
    destruct (reg_Register id r0) as [x r2] eqn:E3. cbn in E2. subst x. rewrite (reg_failed _ _ _ _ E3).
    split; [|by exists g0]. rewrite (visited_one id r0 g0); [done| |done..].
    intros g' Hg' Hid'. apply (reg_one r0); [done..|]. congruence.
  - pose proof (reg_failed _ _ _ _ E1) as ->. rewrite E1.
    assert (id ∈ gate_ID <$> reg_VisitAll r) as (g & -> & Hin)%list_elem_of_fmap by (apply reg_taken; by rewrite E1).
    rewrite (visited_one (gate_ID g) r g); [|intros g' Hg' Hid'; by apply (reg_one r)|done|done].
    split; [done|]. by exists g.
Qed.
End gate.

(** ** A file whose paths coincide once they are sanitized *)

Import RefErrors.

Definition ex_file : OtlpConfig :=
  {| oc_GRPC := true; oc_ExtensionID := None;
     oc_HTTP := Some {| TracesURLPath := "v1/traces"; MetricsURLPath := "/v1/traces?signal=metrics"; LogsURLPath := "" |} |}.
Definition ex_conf : OtlpConf := {| cf_Unmarshal _ := (None, ex_file); cf_IsSet p := bool_decide (p = protoHTTP) |}.

Definition ex_loaded (m : bool) : otlpReceiver (E := SocketProcExtension) :=
  let r := registerTraceConsumer (newOtlpReceiver
    (default ex_file (snd <$> otlp_Unmarshal ex_conf (otlp_createDefaultConfig true).1))) in
  if m then registerMetricsConsumer r else registerLogsConsumer r.

Definition ex_load_env : ServerEnv (E := SocketProcExtension) :=
  {| se_extensions := ∅; se_grpcToServer := None; se_grpcListen := None; se_httpToServer := None; se_httpListen := None;
     se_httpShutdown := None |}.

Lemma loaded_config_starts_witness :
  startHTTPServer ex_load_env (ex_loaded true) = None ∧ startHTTPServer ex_load_env (ex_loaded false) ≠ None.
Proof.
  destruct (loaded_config_starts (E := SocketProcExtension) ex_conf (otlp_createDefaultConfig true).1 (ot_cfg (ex_loaded true)))
    as (_ & _ & _ & Hh); [reflexivity|].
  destruct (Hh _ eq_refl) as [_ Hs]. split.
  - apply Hs; [by split_and!|done|]. right. apply (bool_decide_unpack (¬ NoDup _)). vm_compute. done.
  - intros [(_ & id & Hid & _)|Hn]%Hs; [by vm_compute in Hid| |by split_and!|done].
    apply Hn. apply (bool_decide_unpack (NoDup _)). vm_compute. done.
Defined.
