(* ===== verification/BackSampling.v ===== *)
(** * BackSampling: the processor that decides what happens to every span

    Models [pkg/processor/backsamplingprocessor/processor.go], [config.go] and
    the default configuration of [factory.go] on top of the samplers, caches and
    queues of the other files.  The tickers' goroutines are in [Tickers]: here
    every [...OnTick] is one operation.  The answers of the receiver are arguments
    ([None]: the error), the clock is a sequence of readings [clk], the orders of
    ranges over Go maps are arguments, and the telemetry counters are part of the
    state. *)

From S2P Require Import Prelude GoStrings PData Float64 Labels Silent Samplers Cache TraceCache Tailbase SampleCache Adaptive Notify FillProc.

(** ** config.go, factory.go *)

Record AdaptiveConfig := {
  ac_Enable : bool;
  ac_SlowThreshold : Z;            (* durations in ns *)
  ac_ServiceSampleWindow : Z;
  ac_ServiceSampleCount : Z;
  ac_MemoryCheckInterval : Z;
  ac_MemoryLimitMib : Z;
  ac_TraceIdHoldTime : Z;
}.

Record SamplerConfig := {
  sc_LogEnable : bool;
  sc_NormalTopSample : bool;
  sc_NormalSampleWaitTime : Z;
  sc_OpenSlowSampling : bool;
  sc_OpenErrorSampling : bool;
  sc_EnableTailbaseProfiling : bool;
  sc_SampleRetryNum : Z;
  sc_SampleWaitTime : Z;
  sc_SampleIgnoreThreshold : Z;    (* uint64, ms *)
  sc_SampleSlowThreshold : Z;      (* uint64, ms *)
  sc_SilentPeriod : Z;
  sc_SilentCount : Z;
  sc_SilentMode : string;
}.

Record ControllerCfg := {
  cc_Host : string;
  cc_Port : Z;
  cc_IntervalQuerySlow : Z;
  cc_IntervalQuerySample : Z;
  cc_IntervalSendTrace : Z;
}.

Record BspConfig := {
  bc_EbpfPort : Z;
  bc_Adaptive : AdaptiveConfig;
  bc_Sampler : SamplerConfig;
  bc_Controller : ControllerCfg;
  bc_NotifyEnabled : bool;
}.

(** [createDefaultConfig]: the parts it does not name are zero values. *)
Definition bsp_createDefaultConfig : BspConfig :=
  {| bc_EbpfPort := 0;
     bc_Adaptive := {| ac_Enable := false; ac_SlowThreshold := 0; ac_ServiceSampleWindow := 0;
                       ac_ServiceSampleCount := 0; ac_MemoryCheckInterval := 0;
                       ac_MemoryLimitMib := 0; ac_TraceIdHoldTime := 0 |};
     bc_Sampler := {| sc_LogEnable := false; sc_NormalTopSample := false;
                      sc_NormalSampleWaitTime := 60; sc_OpenSlowSampling := true;
                      sc_OpenErrorSampling := true; sc_EnableTailbaseProfiling := false;
                      sc_SampleRetryNum := 3; sc_SampleWaitTime := 60;
                      sc_SampleIgnoreThreshold := 0; sc_SampleSlowThreshold := 100;
                      sc_SilentPeriod := 5; sc_SilentCount := 1; sc_SilentMode := "window" |};
     bc_Controller := {| cc_Host := ""; cc_Port := 0; cc_IntervalQuerySlow := 0;
                         cc_IntervalQuerySample := 0; cc_IntervalSendTrace := 0 |};
     bc_NotifyEnabled := false |}.

(** ** The state *)

(** [measureSampleReceived], [...Drop], [...Single], [measureAdaptiveSampled],
    [measureTraceSampled]: the span counter by its attribute. *)
Record Telemetry := {
  tm_received : Z;
  tm_drop : Z;
  tm_single : Z;
  tm_adaptive : Z;
  tm_sampled : Z;
}.

(** The interface [Notify]. *)
Inductive Notify := NoopNotify | UdsNotify (s : UdsRegistryServer).

Definition Notify_SendSignal (trace : TraceLabels) (n : Notify) : Notify :=
  match n with NoopNotify => NoopNotify | UdsNotify s => UdsNotify (SendSignal trace s) end.

Definition Notify_BatchSendSignals (post : nat → bool) (n0 : nat) (n : Notify)
    : list (list Request) * Notify :=
  match n with
  | NoopNotify => ([], NoopNotify)
  | UdsNotify s => let '(reqs, s') := BatchSendSignals post n0 s in (reqs, UdsNotify s')
  end.

Definition apmTypeOtel : string := "otel".
Definition AttributeServiceName : string := "service.name".
Definition AttributeThreadID : string := "thread.id".

Section processor.
Context `{PData} `{GoPlatform} (P90ThresholdType : string).

(** The parts that exist when adaptive sampling is enabled: [newTracesProcessor]
    sets the four pointers together, so one option stands for their nil checks. *)
Record AdaptiveParts := {
  ap_memoryCheck : MemoryCheck;
  ap_adaptiveSampler : AdaptiveSampler;
  ap_singleSampler : SingleSampler;
  ap_otelTraceSampler : OtelTraceSampler;
}.

Record backSamplingProcessor := {
  bsp_cfg : BspConfig;
  bsp_telemetry : Telemetry;
  bsp_nodeIp : string;
  bsp_nodeName : string;
  bsp_profileQueryTime : Z;
  bsp_tailbaseCache : ReadableCache TraceLabels;
  bsp_sampleApi : SampleApi;
  bsp_sampleCache : SampleCache;
  bsp_notifyApi : Notify;
  bsp_profileApi : ProfileApi;
  bsp_adaptive : option AdaptiveParts;
  bsp_reads : nat;                 (* clock readings so far *)
}.

(** [None]: the panic of a negative cache size. *)
Definition newTracesProcessor (now : Z) (nodeIp nodeName : string) (cfg : BspConfig)
    : option backSamplingProcessor :=
  let s := bc_Sampler cfg in
  let a := bc_Adaptive cfg in
  let ignore := u64 (sc_SampleIgnoreThreshold s * 1000000) in
  match NewReadableCache "SpanTrace" (sc_SampleWaitTime s),
        NewOtelTraceSampler (Z.quot (ac_TraceIdHoldTime a) 1000000000) (sc_SampleWaitTime s) with
  | Some tailbase, Some otel =>
      Some {| bsp_cfg := cfg;
              bsp_telemetry := {| tm_received := 0; tm_drop := 0; tm_single := 0; tm_adaptive := 0;
                                  tm_sampled := 0 |};
              bsp_nodeIp := nodeIp;
              bsp_nodeName := nodeName;
              bsp_profileQueryTime := 0;
              bsp_tailbaseCache := tailbase;
              bsp_sampleApi := {| sa_cachedTraces := [] |};
              bsp_sampleCache :=
                NewSampleCache now (sc_OpenSlowSampling s) (sc_OpenErrorSampling s) ignore
                  (u64 (sc_SampleSlowThreshold s * 1000000)) (sc_NormalTopSample s)
                  (sc_NormalSampleWaitTime s) (sc_LogEnable s) (sc_SampleRetryNum s)
                  (sc_SampleWaitTime s) (sc_SilentCount s) (sc_SilentPeriod s) (sc_SilentMode s);
              bsp_notifyApi := if bc_NotifyEnabled cfg
                               then UdsNotify {| ur_signals := []; ur_udsClients := [] |}
                               else NoopNotify;
              bsp_profileApi := NewProfileApi nodeIp (bc_EbpfPort cfg);
              bsp_adaptive :=
                if ac_Enable a then
                  Some {| ap_memoryCheck := NewMemoryCheck (ac_MemoryLimitMib a);
                          ap_adaptiveSampler :=
                            NewAdaptiveSampler (ac_SlowThreshold a)
                              (Z.quot (ac_ServiceSampleWindow a) 1000000000)
                              (ac_ServiceSampleCount a)
                              (Z.quot (ac_TraceIdHoldTime a) 1000000000);
                          ap_singleSampler :=
                            NewSingleSampler (sc_OpenSlowSampling s) (sc_OpenErrorSampling s) ignore
                              (sc_NormalSampleWaitTime s) (sc_SilentCount s) (sc_SilentPeriod s)
                              (sc_SilentMode s);
                          ap_otelTraceSampler := otel |}
                else None;
              bsp_reads := 0 |}
  | _, _ => None
  end.

(** The assignments. *)
Definition set_queues (api : SampleApi) (n : Notify) (pr : ProfileApi) (b : backSamplingProcessor)
    : backSamplingProcessor :=
  {| bsp_cfg := bsp_cfg b; bsp_telemetry := bsp_telemetry b; bsp_nodeIp := bsp_nodeIp b;
     bsp_nodeName := bsp_nodeName b; bsp_profileQueryTime := bsp_profileQueryTime b;
     bsp_tailbaseCache := bsp_tailbaseCache b; bsp_sampleApi := api;
     bsp_sampleCache := bsp_sampleCache b; bsp_notifyApi := n; bsp_profileApi := pr;
     bsp_adaptive := bsp_adaptive b; bsp_reads := bsp_reads b |}.

Definition set_sampling (queryTime : Z) (tail : ReadableCache TraceLabels) (c : SampleCache)
    (a : option AdaptiveParts) (reads : nat) (b : backSamplingProcessor) : backSamplingProcessor :=
  {| bsp_cfg := bsp_cfg b; bsp_telemetry := bsp_telemetry b; bsp_nodeIp := bsp_nodeIp b;
     bsp_nodeName := bsp_nodeName b; bsp_profileQueryTime := queryTime;
     bsp_tailbaseCache := tail; bsp_sampleApi := bsp_sampleApi b; bsp_sampleCache := c;
     bsp_notifyApi := bsp_notifyApi b; bsp_profileApi := bsp_profileApi b;
     bsp_adaptive := a; bsp_reads := reads |}.

Definition set_sampleCache (c : SampleCache) (b : backSamplingProcessor) : backSamplingProcessor :=
  set_sampling (bsp_profileQueryTime b) (bsp_tailbaseCache b) c (bsp_adaptive b) (bsp_reads b) b.
Definition set_adaptiveParts (a : option AdaptiveParts) (b : backSamplingProcessor)
    : backSamplingProcessor :=
  set_sampling (bsp_profileQueryTime b) (bsp_tailbaseCache b) (bsp_sampleCache b) a (bsp_reads b) b.
Definition tick_clock (b : backSamplingProcessor) : backSamplingProcessor :=
  set_sampling (bsp_profileQueryTime b) (bsp_tailbaseCache b) (bsp_sampleCache b) (bsp_adaptive b)
    (bsp_reads b + 2) b.

Definition count_spans (f : Telemetry → Telemetry) (b : backSamplingProcessor)
    : backSamplingProcessor :=
  {| bsp_cfg := bsp_cfg b; bsp_telemetry := f (bsp_telemetry b); bsp_nodeIp := bsp_nodeIp b;
     bsp_nodeName := bsp_nodeName b; bsp_profileQueryTime := bsp_profileQueryTime b;
     bsp_tailbaseCache := bsp_tailbaseCache b; bsp_sampleApi := bsp_sampleApi b;
     bsp_sampleCache := bsp_sampleCache b; bsp_notifyApi := bsp_notifyApi b;
     bsp_profileApi := bsp_profileApi b; bsp_adaptive := bsp_adaptive b; bsp_reads := bsp_reads b |}.

Definition add_received (n : Z) (t : Telemetry) : Telemetry :=
  {| tm_received := tm_received t + n; tm_drop := tm_drop t; tm_single := tm_single t;
     tm_adaptive := tm_adaptive t; tm_sampled := tm_sampled t |}.
Definition add_drop (n : Z) (t : Telemetry) : Telemetry :=
  {| tm_received := tm_received t; tm_drop := tm_drop t + n; tm_single := tm_single t;
     tm_adaptive := tm_adaptive t; tm_sampled := tm_sampled t |}.
Definition add_single (n : Z) (t : Telemetry) : Telemetry :=
  {| tm_received := tm_received t; tm_drop := tm_drop t; tm_single := tm_single t + n;
     tm_adaptive := tm_adaptive t; tm_sampled := tm_sampled t |}.
Definition add_adaptive (n : Z) (t : Telemetry) : Telemetry :=
  {| tm_received := tm_received t; tm_drop := tm_drop t; tm_single := tm_single t;
     tm_adaptive := tm_adaptive t + n; tm_sampled := tm_sampled t |}.
Definition add_sampled (n : Z) (t : Telemetry) : Telemetry :=
  {| tm_received := tm_received t; tm_drop := tm_drop t; tm_single := tm_single t;
     tm_adaptive := tm_adaptive t; tm_sampled := tm_sampled t + n |}.

(** ** Storing a trace *)

Definition storeTrace (trace : TraceLabels) (b : backSamplingProcessor) : backSamplingProcessor :=
  let api := StoreTrace trace (bsp_sampleApi b) in
  let n := if tl_IsError trace || tl_IsSlow trace || tl_IsProfiled trace
           then Notify_SendSignal trace (bsp_notifyApi b) else bsp_notifyApi b in
  set_queues api n (bsp_profileApi b) b.

Definition storeProfile (flag : Z) (trace : TraceLabels) (b : backSamplingProcessor)
    : backSamplingProcessor :=
  set_queues (bsp_sampleApi b) (bsp_notifyApi b) (AddProfileSignal trace flag (bsp_profileApi b)) b.
Definition storeSlowProfile : TraceLabels → backSamplingProcessor → backSamplingProcessor :=
  storeProfile 3.
Definition storeNormalProfile : TraceLabels → backSamplingProcessor → backSamplingProcessor :=
  storeProfile 1.

(** ** buildSpanTrace *)

Definition buildLabels (pid : Z) (containerId serviceName : string) (span : Span)
    (reportType sampleValue : Z) (clusterID : string) (b : backSamplingProcessor) : TraceLabels :=
  {| tl_Pid := pid;
     tl_Tid := match Map_Get AttributeThreadID (Span_Attributes span) with
               | Some v => u32 (Value_Int v)
               | None => 0
               end;
     tl_TopSpan := SpanID_IsEmpty (Span_ParentSpanID span);
     tl_Protocol := "http";
     tl_ServiceName := serviceName;
     tl_Url := Span_Name span;
     tl_HttpUrl := Span_Name span;
     tl_IsSampled := true;
     tl_IsSlow := false;
     tl_IsServer := true;
     tl_IsError := isError (Span_Status span);
     tl_IsProfiled := false;
     tl_ReportType := reportType;
     tl_SampleValue := sampleValue;
     tl_TraceId := TraceID_String (Span_TraceID span);
     tl_ApmType := apmTypeOtel;
     tl_ApmSpanId := SpanID_String (Span_SpanID span);
     tl_ContainerId := containerId;
     tl_StartTime := Span_StartTimestamp span;
     tl_Duration := u64 (Span_EndTimestamp span - Span_StartTimestamp span);
     tl_EndTime := Span_EndTimestamp span;
     tl_NodeName := bsp_nodeName b;
     tl_NodeIp := bsp_nodeIp b;
     tl_ClusterID := clusterID;
     tl_ThresholdType := "";
     tl_ThresholdRange := "";
     tl_ThresholdValue := F_zero;
     tl_ThresholdMultiple := F_zero |}.

Variable clk : nat → Z.

(** The last step of [buildSpanTrace]: a profiled trace is a sampled trace. *)
Definition markSampled (trace : TraceLabels) (b : backSamplingProcessor) : backSamplingProcessor :=
  match bsp_adaptive b with
  | Some a =>
      if tl_IsProfiled trace then
        set_adaptiveParts
          (Some {| ap_memoryCheck := ap_memoryCheck a;
                   ap_adaptiveSampler := ap_adaptiveSampler a;
                   ap_singleSampler := ap_singleSampler a;
                   ap_otelTraceSampler :=
                     SetSampledTraceId (tl_TraceId trace) (ap_otelTraceSampler a) |}) b
      else b
  | None => b
  end.

(** What [buildSpanTrace] does with the record of an entry span: the record as
    the samplers leave it, and the processor. *)
Definition sampleTrace (reportType : Z) (trace : TraceLabels) (b : backSamplingProcessor)
    : TraceLabels * backSamplingProcessor :=
  let now1 := clk (bsp_reads b) in
  let now2 := clk (S (bsp_reads b)) in
  let b := tick_clock b in
  let '(trace, b) :=
    if reportType =? 0 then
      let '(result, trace, c) := GetSampleResult P90ThresholdType now1 now2 trace (bsp_sampleCache b) in
      let b := set_sampleCache c b in
      (trace,
       match result with
       | SampleResultTrace | SampleResultTraceLog => storeTrace trace b
       | SampleResultTraceProfile => storeSlowProfile trace (storeTrace trace b)
       | SampleResultNormal => storeNormalProfile trace (storeTrace trace b)
       | SampleResultCache => set_sampleCache (CacheTrace trace (bsp_sampleCache b)) b
       | SampleResultNoOp => b
       end)
    else match bsp_adaptive b with
         | None => (trace, b)
         | Some a =>
             let '(sampled, trace, single) := Single_Sample now1 trace (ap_singleSampler a) in
             let b := set_adaptiveParts
                        (Some {| ap_memoryCheck := ap_memoryCheck a;
                                 ap_adaptiveSampler := ap_adaptiveSampler a;
                                 ap_singleSampler := single;
                                 ap_otelTraceSampler := ap_otelTraceSampler a |}) b in
             (trace,
              if sampled then
                let b := storeTrace trace b in
                if tl_IsSlow trace then storeSlowProfile trace b else storeNormalProfile trace b
              else b)
         end in
  (trace, markSampled trace b).

Definition buildSpanTrace (pid : Z) (containerId serviceName : string) (span : Span)
    (reportType sampleValue : Z) (clusterID : string) (b : backSamplingProcessor)
    : backSamplingProcessor :=
  if Span_EndTimestamp span <=? Span_StartTimestamp span then b
  else if negb (SpanKind_eqb (Span_Kind span) SpanKindServer
                || SpanKind_eqb (Span_Kind span) SpanKindConsumer) then b
  else match Map_Get AttributeSkywalkingComponmentId (Span_Attributes span) with
       | Some id =>
           if Value_Int id =? ComponentUndertow then b
           else (sampleTrace reportType
                   (buildLabels pid containerId serviceName span reportType sampleValue clusterID b) b).2
       | None =>
           (sampleTrace reportType
              (buildLabels pid containerId serviceName span reportType sampleValue clusterID b) b).2
       end.

(** ** ConsumeTraces *)

Definition getAppInfo (resourceAttr : AMap) : Z * string * string :=
  let pidIntValue := GetPid resourceAttr in
  if pidIntValue <=? 0 then (0, "", "")
  else match Map_Get AttributeServiceName resourceAttr with
       | None => (0, "", "")
       | Some serviceAttr =>
           let containerId := GetContainerId resourceAttr in
           (u32 pidIntValue, Value_Str serviceAttr,
            if slen containerId >? 12 then stake 12 containerId else containerId)
       end.

Definition getSkywalkingTraceId (resourceAttr : AMap) : string :=
  match Map_Get "sw8.trace_id" resourceAttr with Some v => Value_Str v | None => "" end.

Definition getClusterID (resourceAttr : AMap) : string :=
  match Map_Get "cluster_id" resourceAttr with Some v => Value_Str v | None => "" end.

Definition groupSpansByTraceId (rs : ResourceSpans) : gmap TraceID (list Span) :=
  foldS (λ ss m, foldS (λ span m, let key := Span_TraceID span in
                                  <[key := default [] (m !! key) ++ [span]]> m)
                   (ScopeSpans_Spans ss) m) (ResourceSpans_ScopeSpans rs) ∅.

Definition len_spans (spans : list Span) : Z := Z.of_nat (length spans).

(** The body of the loop over the groups of a resource. *)
Definition consumeGroup (pid : Z) (containerId serviceName swTraceId clusterID : string)
    (resource : AMap) (groups : gmap TraceID (list Span)) (traceId : TraceID)
    (b : backSamplingProcessor) : list Traces * backSamplingProcessor :=
  match groups !! traceId, bsp_adaptive b with
  | Some spans, Some a =>
      let b := count_spans (add_received (len_spans spans)) b in
      let '(result, ad) := Adaptive_Sample traceId swTraceId serviceName spans (ap_adaptiveSampler a) in
      let b := set_adaptiveParts
                 (Some {| ap_memoryCheck := ap_memoryCheck a; ap_adaptiveSampler := ad;
                          ap_singleSampler := ap_singleSampler a;
                          ap_otelTraceSampler := ap_otelTraceSampler a |}) b in
      if IsDrop result then ([], count_spans (add_drop (len_spans spans)) b)
      else
        let reportType := GetReportType result in
        let b := foldS (λ span b, buildSpanTrace pid containerId serviceName span reportType
                                    (GetSampleValue ad) clusterID b) spans b in
        if IsSingleStore result then
          ([BuildTraces resource spans], count_spans (add_single (len_spans spans)) b)
        else
          match bsp_adaptive b with
          | None => ([], b)
          | Some a =>
              ([], count_spans (add_adaptive (len_spans spans))
                     (set_adaptiveParts
                        (Some {| ap_memoryCheck := ap_memoryCheck a;
                                 ap_adaptiveSampler := ap_adaptiveSampler a;
                                 ap_singleSampler := ap_singleSampler a;
                                 ap_otelTraceSampler :=
                                   CacheOtelTrace traceId (NewOtelTrace resource spans)
                                     (ap_otelTraceSampler a) |}) b))
          end
  | _, _ => ([], b)
  end.

(** The order of the range over the groups of a resource. *)
Variable gorder : gmap TraceID (list Span) → list TraceID.

Definition consumeResource (rs : ResourceSpans) (b : backSamplingProcessor)
    : list Traces * backSamplingProcessor :=
  let resource := ResourceSpans_Resource rs in
  let '(pid, serviceName, containerId) := getAppInfo resource in
  if bool_decide (serviceName = "") then ([], b)
  else
    let groups := groupSpansByTraceId rs in
    foldOut (consumeGroup pid containerId serviceName (getSkywalkingTraceId resource)
               (getClusterID resource) resource groups) (gorder groups) b.

Definition consumeScope (pid : Z) (containerId serviceName clusterID : string) (ss : ScopeSpans)
    (b : backSamplingProcessor) : backSamplingProcessor :=
  foldS (λ span b, buildSpanTrace pid containerId serviceName span 0 0 clusterID b)
    (ScopeSpans_Spans ss) (count_spans (add_received (len_spans (ScopeSpans_Spans ss))) b).

Definition consumePlain (rs : ResourceSpans) (b : backSamplingProcessor) : backSamplingProcessor :=
  let resource := ResourceSpans_Resource rs in
  let '(pid, serviceName, containerId) := getAppInfo resource in
  if bool_decide (serviceName = "") then b
  else foldS (consumeScope pid containerId serviceName (getClusterID resource))
         (ResourceSpans_ScopeSpans rs) b.

(** [ConsumeTraces]: the messages given to [nextConsumer]. *)
Definition bsp_ConsumeTraces (td : Traces) (b : backSamplingProcessor)
    : list Traces * backSamplingProcessor :=
  match bsp_adaptive b with
  | Some _ => foldOut consumeResource td b
  | None => ([td], foldS consumePlain td b)
  end.

(** ** The ticks *)

Definition slowThresholdOnTick (now : Z) (resp : option (list SlowThresholdData))
    (b : backSamplingProcessor) : backSamplingProcessor :=
  match resp with
  | None => b
  | Some datas => set_sampleCache (UpdateSlowThreshold now datas (bsp_sampleCache b)) b
  end.

(** [resp] is the receiver's answer to the query that carries the pending ids;
    [None] as result is the panic of a slice bound. *)
Definition samplingOnTick (resp : option ProfileResult) (b : backSamplingProcessor)
    : option backSamplingProcessor :=
  let '(slowIds, errorIds, normalIds) := GetSampledTraceIds (bsp_sampleCache b) in
  match resp with
  | Some r =>
      match UpdateSampledTraceIds r (len slowIds) (len errorIds) (len normalIds) (bsp_sampleCache b) with
      | None => None
      | Some c =>
          let adaptive :=
            (λ a, {| ap_memoryCheck := ap_memoryCheck a; ap_adaptiveSampler := ap_adaptiveSampler a;
                     ap_singleSampler := ap_singleSampler a;
                     ap_otelTraceSampler :=
                       foldS SetSampledTraceId
                         (pr_SlowTraceIds r ++ pr_ErrorTraceIds r ++ pr_NormalTraceIds r)
                         (ap_otelTraceSampler a) |}) <$> bsp_adaptive b in
          Some (set_sampling (pr_QueryTime r) (bsp_tailbaseCache b) c adaptive (bsp_reads b) b)
      end
  | None =>
      (λ c, set_sampleCache c b) <$>
        UpdateUnSentCount (len slowIds) (len errorIds) (len normalIds) (bsp_sampleCache b)
  end.

Definition sendTraceOnTick (b : backSamplingProcessor)
    : option (string * list TraceGroup) * backSamplingProcessor :=
  let '(out, api) := SendTraces (bsp_sampleApi b) in
  (out, set_queues api (bsp_notifyApi b) (bsp_profileApi b) b).

(** Storing what the tail picked: [profile] when its profile is wanted as well. *)
Definition storeTail (now : Z) (profile : bool) (trace : TraceLabels) (b : backSamplingProcessor)
    : backSamplingProcessor :=
  let b := storeTrace trace b in
  let b := if profile then storeSlowProfile trace b else b in
  set_sampleCache (UpdateNoramlTime now trace (bsp_sampleCache b)) b.

(** The orders of the ranges of [cleanCacheOnTick]: the sampled ids of the three
    samplers, the cached traces. *)
Record clean_orders := {
  co_errors : list string;
  co_slows : list string;
  co_normals : list string;
  co_traces : list string;
}.

(** [nowU] is what the calls of [UpdateTime] read. *)
Definition cleanCacheOnTick (now nowU : Z) (o : clean_orders) (b : backSamplingProcessor)
    : option backSamplingProcessor :=
  let logEnable := sc_LogEnable (bc_Sampler (bsp_cfg b)) in
  let '(sampledIds, c) :=
    GetAndCleanTailbaseTraces (co_errors o) (co_slows o) (co_normals o) (bsp_sampleCache b) in
  match Copy (co_traces o) (sti_TraceCache sampledIds) (bsp_tailbaseCache b) with
  | None => None
  | Some tail =>
      let '(errorTraces, tail) := PickMatchDatas (sti_ErrorIds sampledIds) tail in
      let '(slowTraces, tail) := PickMatchDatas (sti_SlowIds sampledIds) tail in
      let '(normalTraces, tail) := PickMatchDatas (sti_NormalIds sampledIds) tail in
      match CleanExpireDatas logEnable tail with
      | None => None
      | Some tail =>
          let b := set_sampling (bsp_profileQueryTime b) tail c (bsp_adaptive b) (bsp_reads b) b in
          let b := foldS (storeTail nowU false) errorTraces b in
          let b := foldS (storeTail nowU (sc_EnableTailbaseProfiling (bc_Sampler (bsp_cfg b))))
                     slowTraces b in
          let b := foldS (storeTail nowU false) normalTraces b in
          Some (set_sampleCache (CheckWindow now (bsp_sampleCache b)) b)
      end
  end.

(** [ws] and [ids] are the orders of [PickSampledTraces], [single] that of
    [Reset]: the messages for [nextConsumer]. *)
Definition cleanOtelTraceOnTick (now : Z) (ws ids single : list string) (b : backSamplingProcessor)
    : option (list Traces * backSamplingProcessor) :=
  match bsp_adaptive b with
  | None => Some ([], b)
  | Some a =>
      match PickSampledTraces (sc_LogEnable (bc_Sampler (bsp_cfg b))) ws ids (ap_otelTraceSampler a) with
      | None => None
      | Some (traces, otel) =>
          let b := foldS (λ t, count_spans (add_sampled (len_spans (ot_Spans t)))) traces b in
          Some (ConvertToTraces <$> traces,
                set_adaptiveParts
                  (Some {| ap_memoryCheck := ap_memoryCheck a;
                           ap_adaptiveSampler := Adaptive_Reset single (ap_adaptiveSampler a);
                           ap_singleSampler := Single_CheckWindow now (ap_singleSampler a);
                           ap_otelTraceSampler := otel |}) b)
      end
  end.

(** [result] is the receiver's sample value, if it answers. *)
Definition querySampleValueOnTick (result : option Z) (b : backSamplingProcessor)
    : backSamplingProcessor :=
  match bsp_adaptive b, result with
  | Some a, Some value =>
      let old := GetSampleValue (ap_adaptiveSampler a) in
      if (value >=? 0) && (value <? 20) && negb (old =? value) then
        set_adaptiveParts
          (Some {| ap_memoryCheck := ap_memoryCheck a;
                   ap_adaptiveSampler := SetSampleValue value (ap_adaptiveSampler a);
                   ap_singleSampler := ap_singleSampler a;
                   ap_otelTraceSampler := ap_otelTraceSampler a |}) b
      else b
  | _, _ => b
  end.

Definition notifyProfileOnTicker (b : backSamplingProcessor)
    : option (string * list ProfileSignal) * backSamplingProcessor :=
  let '(out, pr) := ConsumeProfileSignals (bsp_profileApi b) in
  (out, set_queues (bsp_sampleApi b) (bsp_notifyApi b) pr b).

Definition notifyOnTick (post : nat → bool) (n : nat) (b : backSamplingProcessor)
    : list (list Request) * backSamplingProcessor :=
  let '(out, nt) := Notify_BatchSendSignals post n (bsp_notifyApi b) in
  (out, set_queues (bsp_sampleApi b) nt (bsp_profileApi b) b).
End processor.

(** ** Theorems *)

Section theorems.
Context `{PData} `{GoPlatform} (P90ThresholdType : string) (clk : nat → Z)
  (gorder : gmap TraceID (list Span) → list TraceID).
Hypothesis gorder_ok : ∀ m, range_order m (gorder m).

(** The spans waiting in the write cache of the sampled-trace cache. *)
Definition cached_spans (b : backSamplingProcessor) : Z :=
  match bsp_adaptive b with
  | None => 0
  | Some a => map_total (λ l, sumZ ((λ t, len_spans (ot_Spans t)) <$> l))
                (wc_cache (ots_traceWriteCache (ap_otelTraceSampler a)))
  end.

(** The spans of the resources that have a pid and a service name. *)
Definition named (rs : ResourceSpans) : bool :=
  negb (bool_decide ((getAppInfo (ResourceSpans_Resource rs)).1.2 = "")).
Definition named_spans (td : Traces) : Z :=
  sumZ ((λ rs, if named rs then len_spans (spansOf rs) else 0) <$> td).

(** What buildSpanTrace leaves alone: the counters and the waiting spans. *)
Definition same_ledger (b b' : backSamplingProcessor) : Prop :=
  bsp_telemetry b' = bsp_telemetry b ∧ cached_spans b' = cached_spans b ∧
  (is_Some (bsp_adaptive b) ↔ is_Some (bsp_adaptive b')).

#[local] Instance same_ledger_preorder : PreOrder same_ledger.
Proof.
  split; [intros b; by split_and!|]. intros b1 b2 b3 (H1 & H2 & H3) (H4 & H5 & H6).
  split_and!; [congruence|congruence|tauto].
Qed.

Lemma markSampled_ledger t b : same_ledger b (markSampled t b).
Proof.
  unfold markSampled. destruct (bsp_adaptive b) as [a|] eqn:E; [destruct (tl_IsProfiled t)|];
    unfold same_ledger, cached_spans; simpl; rewrite ?E; split_and!; done.
Qed.

Lemma same_ledger_eq b b' :
  bsp_telemetry b' = bsp_telemetry b → bsp_adaptive b' = bsp_adaptive b → same_ledger b b'.
Proof. intros Ht Ha. unfold same_ledger, cached_spans. by rewrite Ht, Ha. Qed.

Lemma sampleTrace_ledger reportType trace b :
  same_ledger b (sampleTrace P90ThresholdType clk reportType trace b).2.
Proof.
  unfold sampleTrace. destruct (reportType =? 0).
  - destruct (GetSampleResult _ _ _ _ _) as [[r t] c]. cbn [snd].
    etrans; [|apply markSampled_ledger]. by destruct r; apply same_ledger_eq.
  - simpl bsp_adaptive. destruct (bsp_adaptive b) as [a|] eqn:E.
    + destruct (Single_Sample _ trace _) as [[s t] single]. cbn [snd].
      etrans; [|apply markSampled_ledger].
      destruct s; [destruct (tl_IsSlow t)|]; unfold same_ledger, cached_spans; simpl;
        rewrite E; split_and!; done.
    + cbn [snd]. etrans; [|apply markSampled_ledger]. by apply same_ledger_eq.
Qed.

Lemma buildSpanTrace_ledger pid cid svc span rt sv cl b :
  same_ledger b (buildSpanTrace P90ThresholdType clk pid cid svc span rt sv cl b).
Proof.
  unfold buildSpanTrace. repeat case_match; reflexivity || apply sampleTrace_ledger.
Qed.

Lemma foldS_ledger {A} (f : A → backSamplingProcessor → backSamplingProcessor) l b :
  (∀ a b, same_ledger b (f a b)) → same_ledger b (foldS f l b).
Proof.
  intros Hf. revert b. induction l as [|a l IH]; intros b; simpl; [reflexivity|].
  etrans; [apply Hf|apply IH].
Qed.












Lemma consumePlain_received td b :
  bsp_telemetry (foldS (consumePlain P90ThresholdType clk) td b) =
    add_received (named_spans td) (bsp_telemetry b).
Proof.
  assert (∀ n m t, add_received n (add_received m t) = add_received (m + n) t) as Hadd.
  { intros. unfold add_received. simpl. f_equal. lia. }
  assert (∀ pid cid svc cl ss b, bsp_telemetry (consumeScope P90ThresholdType clk pid cid svc cl ss b) =
    add_received (len_spans (ScopeSpans_Spans ss)) (bsp_telemetry b)) as Hscope.
  { intros. unfold consumeScope.
    edestruct (foldS_ledger (λ span b, buildSpanTrace P90ThresholdType clk pid cid svc span 0 0 cl b)
      (ScopeSpans_Spans ss)) as (-> & _); [intros; apply buildSpanTrace_ledger|]. done. }
  revert b. induction td as [|rs td IH]; intros b; simpl.
  - unfold named_spans, add_received. simpl. rewrite Z.add_0_r. by destruct (bsp_telemetry b).
  - rewrite IH. unfold named_spans. rewrite fmap_cons.
    assert (bsp_telemetry (consumePlain P90ThresholdType clk rs b) =
      add_received (if named rs then len_spans (spansOf rs) else 0) (bsp_telemetry b)) as ->;
      [|by rewrite Hadd].
    unfold consumePlain, named. destruct (getAppInfo _) as [[pid svc] cid]. simpl.
    case_bool_decide; simpl.
    + unfold add_received. rewrite Z.add_0_r. by destruct (bsp_telemetry b).
    + unfold spansOf. generalize (ResourceSpans_ScopeSpans rs) as l. intros l. clear IH. revert b.
      induction l as [|ss l IHl]; intros b.
      * simpl. unfold add_received, len_spans. simpl. rewrite Z.add_0_r. by destruct (bsp_telemetry b).
      * cbn [foldS]. rewrite IHl, Hscope, Hadd, mjoin_fmap_cons. unfold len_spans. rewrite length_app.
        by rewrite Nat2Z.inj_add.
Qed.

(** Storing appends; a profiled trace's id is set in the sampled-trace cache. *)
Definition new_traces (b b' : backSamplingProcessor) (new : list TraceGroup) : Prop :=
  sa_cachedTraces (bsp_sampleApi b') = sa_cachedTraces (bsp_sampleApi b) ++ new.

Lemma markSampled_new t b b' :
  (∃ new, new_traces b b' new ∧ Forall (λ g, tg_Labels g = t) new) →
  (∃ new, new_traces b (markSampled t b') new ∧ Forall (λ g, tg_Labels g = t) new) ∧
  (tl_IsProfiled t = true → ∀ a', bsp_adaptive (markSampled t b') = Some a' →
     ots_sampledIds (ap_otelTraceSampler a') !! tl_TraceId t = Some 0).
Proof.
  intros (new & Hn & Hall). unfold markSampled.
  destruct (bsp_adaptive b') as [a|] eqn:E; [destruct (tl_IsProfiled t)|].
  - split; [by exists new|]. intros _ a' [= <-]. simpl. by rewrite lookup_insert_eq.
  - split; [by exists new|done].
  - split; [by exists new|]. intros _ a'. congruence.
Qed.

Lemma sampleTrace_new rt trace b :
  let '(t, b') := sampleTrace P90ThresholdType clk rt trace b in
  (∃ new, new_traces b b' new ∧ Forall (λ g, tg_Labels g = t) new) ∧
  (tl_IsProfiled t = true → ∀ a', bsp_adaptive b' = Some a' →
     ots_sampledIds (ap_otelTraceSampler a') !! tl_TraceId t = Some 0).
Proof.
  unfold sampleTrace, new_traces. destruct (rt =? 0).
  - destruct (GetSampleResult _ _ _ _ _) as [[r t] c]. apply markSampled_new. unfold new_traces.
    destruct r; simpl; ((eexists; split; [reflexivity|by repeat constructor]) ||
      (exists []; rewrite app_nil_r; by split)).
  - simpl bsp_adaptive. destruct (bsp_adaptive b) as [a|] eqn:E.
    + destruct (Single_Sample _ trace _) as [[s t] single]. apply markSampled_new. unfold new_traces.
      destruct s; [destruct (tl_IsSlow t)|]; simpl;
        ((eexists; split; [reflexivity|by repeat constructor]) ||
         (exists []; rewrite app_nil_r; by split)).
    + apply markSampled_new. exists []. unfold new_traces. simpl. rewrite app_nil_r. by split.
Qed.
End theorems.


(** Without adaptive sampling the message is forwarded once and unchanged,
    whatever the samplers decide, and the received counter grows by the spans of
    the resources that carry a pid and a service name. *)
Lemma ConsumeTraces_plain `{PData} `{GoPlatform} P90 clk gorder td b :
  bsp_adaptive b = None →
  let '(out, b') := bsp_ConsumeTraces P90 clk gorder td b in
  out = [td] ∧ bsp_telemetry b' = add_received (named_spans td) (bsp_telemetry b).
Proof.
  intros Ha. unfold bsp_ConsumeTraces. rewrite Ha. split; [done|]. apply consumePlain_received.
Qed.

(** The traces one span adds to the queue for the receiver and the cache of
    sampled ids agree: a trace that is queued as profiled has its id among the
    sampled ids, so that the spans of the trace waiting in the cache will be
    forwarded. *)
Theorem profiled_trace_is_sampled `{PData} `{GoPlatform} P90 clk pid cid svc span rt sv cl b :
  let b' := buildSpanTrace P90 clk pid cid svc span rt sv cl b in
  ∃ new, new_traces b b' new ∧
    Forall (λ g, tl_IsProfiled (tg_Labels g) = true → ∀ a', bsp_adaptive b' = Some a' →
      ots_sampledIds (ap_otelTraceSampler a') !! tl_TraceId (tg_Labels g) = Some 0) new.
Proof.
  cbv zeta.
  assert (∃ new, new_traces b b new ∧ Forall (λ g, tl_IsProfiled (tg_Labels g) = true → ∀ a',
      bsp_adaptive b = Some a' →
      ots_sampledIds (ap_otelTraceSampler a') !! tl_TraceId (tg_Labels g) = Some 0) new) as Hnil.
  { exists []. unfold new_traces. rewrite app_nil_r. split; [done|constructor]. }
  assert (∀ t, let b' := (sampleTrace P90 clk rt t b).2 in
    ∃ new, new_traces b b' new ∧ Forall (λ g, tl_IsProfiled (tg_Labels g) = true → ∀ a',
      bsp_adaptive b' = Some a' →
      ots_sampledIds (ap_otelTraceSampler a') !! tl_TraceId (tg_Labels g) = Some 0) new) as Hst.
  { intros t. pose proof (sampleTrace_new P90 clk rt t b) as Hs.
    destruct (sampleTrace P90 clk rt t b) as [t' b']. destruct Hs as [(new & Hn & Hall) Hp].
    exists new. split; [done|]. revert Hall. apply Forall_impl. intros g ->. exact Hp. }
  unfold buildSpanTrace. repeat case_match; (exact Hnil || apply Hst).
Qed.

(** *** An example *)


Definition ex_resource (spans : list (Span (H := RefPData.pdata)))
    : ResourceSpans (H := RefPData.pdata) :=
  {| ResourceSpans_Resource :=
       Map_PutInt (H := RefPData.pdata) "process.pid" 7
         (Map_PutStr (H := RefPData.pdata) "service.name" "svc" (@Map_New RefPData.pdata));
     ResourceSpans_ScopeSpans := [{| ScopeSpans_Spans := spans |}] |}.

Definition ex_td : Traces (H := RefPData.pdata) :=
  [ex_resource [ex_span 1 5 SpanKindServer; ex_span 2 4 SpanKindInternal]].


Lemma ConsumeTraces_plain_witness :
  ∃ b, newTracesProcessor (H := RefPData.pdata) 0 "10.0.0.1" "n1" bsp_createDefaultConfig = Some b ∧
  let '(out, b') := bsp_ConsumeTraces (H0 := AMD64.platform) "p90" (λ _, 10)
                      (λ m, (map_to_list m).*1) ex_td b in
  out = [ex_td] ∧ bsp_telemetry b' = add_received 2 (bsp_telemetry b).
Proof.
  eexists. split; [reflexivity|].
  match goal with |- context [bsp_ConsumeTraces _ _ ?g ex_td ?b0] => set (b := b0); set (go := g) end.
  pose proof (ConsumeTraces_plain (H0 := AMD64.platform) "p90" (λ _, 10) go ex_td b eq_refl) as Hc.
  destruct (bsp_ConsumeTraces "p90" (λ _, 10) go ex_td b) as [out b']. exact Hc.
Defined.
