(* ===== verification/EntryUrl.v ===== *)
(** * EntryUrl: which entry url an exit span belongs to

    Models [internal/cache/bucket.go] and [internal/cache/entry_url_mapping.go]
    of the RED-metrics connector.  [time.Now().Unix()] is an argument, the orders
    of ranges over Go maps too; [None] is a run-time panic or, for
    [GetEntrySpanName], a recursion that does not end. *)

From S2P Require Import Prelude GoStrings PData Cache FillProc.

(** ** bucket.go *)

(** [nil] and the empty batch are both the empty list. *)
Definition IdBatch := list TraceID.

Record WriteableBatch := { wb_batch : IdBatch }.

Definition NewWriteableBatch : WriteableBatch := {| wb_batch := [] |}.
Definition AddToBatch (data : TraceID) (b : WriteableBatch) : WriteableBatch :=
  {| wb_batch := wb_batch b ++ [data] |}.
Definition PickBatch (b : WriteableBatch) : IdBatch * WriteableBatch :=
  (wb_batch b, {| wb_batch := [] |}).

Record Buckets := { bk_buckets : list IdBatch; bk_writeIndex : Z }.

(** For a size that is not negative, which [NewEntryUrlCache] checks. *)
Definition NewBuckets (size : Z) : Buckets :=
  {| bk_buckets := replicate (Z.to_nat (size + 1)) []; bk_writeIndex := size |}.

Definition CopyAndGetBatch (batch : IdBatch) (b : Buckets) : option (IdBatch * Buckets) :=
  match slice_set (bk_buckets b) (bk_writeIndex b) batch with
  | None => None
  | Some buckets =>
      let w := bk_writeIndex b + 1 in
      let w := if w >=? len buckets then 0 else w in
      match slice_get buckets w, slice_set buckets w [] with
      | Some result, Some buckets' => Some (result, {| bk_buckets := buckets'; bk_writeIndex := w |})
      | _, _ => None
      end
  end.

(** ** entry_url_mapping.go *)

Section entryurl.
Context `{PData}.

Record entryUrlMapping := {
  em_entrySpanNames : gmap SpanID string;
  em_pspanIds : gmap SpanID SpanID;
}.

Definition newEntryUrlMapping : entryUrlMapping := {| em_entrySpanNames := ∅; em_pspanIds := ∅ |}.

Definition addSpan (span : Span) (m : entryUrlMapping) : entryUrlMapping :=
  match Span_Kind span with
  | SpanKindServer | SpanKindConsumer =>
      {| em_entrySpanNames := <[Span_SpanID span := Span_Name span]> (em_entrySpanNames m);
         em_pspanIds := em_pspanIds m |}
  | SpanKindClient | SpanKindProducer => m
  | _ =>
      {| em_entrySpanNames := em_entrySpanNames m;
         em_pspanIds := <[Span_SpanID span := Span_ParentSpanID span]> (em_pspanIds m) |}
  end.

Definition AddMapping (spans : list Span) (m : entryUrlMapping) : entryUrlMapping :=
  foldS addSpan spans m.

(** The recursion, cut after [fuel] calls. *)
Fixpoint GetEntrySpanName_fuel (fuel : nat) (m : entryUrlMapping) (spanId : SpanID) : option string :=
  match fuel with
  | O => None
  | S fuel' =>
      match em_entrySpanNames m !! spanId with
      | Some url => Some url
      | None => match em_pspanIds m !! spanId with
                | Some parent => GetEntrySpanName_fuel fuel' m parent
                | None => Some ""
                end
      end
  end.

(** One call per stored parent and one more: when these do not end the recursion
    nothing does ([GetEntrySpanName_fuel_enough]). *)
Definition GetEntrySpanName (m : entryUrlMapping) (spanId : SpanID) : option string :=
  GetEntrySpanName_fuel (S (size (em_pspanIds m))) m spanId.

Record ResourceSpan := {
  rsp_ExpireTime : Z;
  rsp_Pid : string;
  rsp_ContainerId : string;
  rsp_ServiceName : string;
  rsp_EntryUrl : string;
  rsp_Span : Span;
}.

Definition NewResourceSpan (time : Z) (pid containerId serviceName entryUrl : string) (span : Span)
    : ResourceSpan :=
  {| rsp_ExpireTime := time; rsp_Pid := pid; rsp_ContainerId := containerId;
     rsp_ServiceName := serviceName; rsp_EntryUrl := entryUrl; rsp_Span := span |}.

Definition SetEntryUrl (entryUrl : string) (s : ResourceSpan) : ResourceSpan :=
  {| rsp_ExpireTime := rsp_ExpireTime s; rsp_Pid := rsp_Pid s; rsp_ContainerId := rsp_ContainerId s;
     rsp_ServiceName := rsp_ServiceName s; rsp_EntryUrl := entryUrl; rsp_Span := rsp_Span s |}.

Record EntryUrlCache := {
  ec_entryUrlMap : gmap TraceID entryUrlMapping;
  ec_unMatchedSpans : list ResourceSpan;
  ec_idBatch : WriteableBatch;
  ec_idBuckets : Buckets;
  ec_expireUnMatcheTime : Z;
}.

Inductive EntryUrlError := ErrCacheEntryUrlTime | ErrUnmatchUrlExpireTime.

Definition NewEntryUrlCache (cacheUrlTime expireTime : Z) : EntryUrlCache + EntryUrlError :=
  if cacheUrlTime <? 0 then inr ErrCacheEntryUrlTime
  else if expireTime <? 0 then inr ErrUnmatchUrlExpireTime
  else inl {| ec_entryUrlMap := ∅; ec_unMatchedSpans := []; ec_idBatch := NewWriteableBatch;
              ec_idBuckets := NewBuckets cacheUrlTime; ec_expireUnMatcheTime := expireTime |}.

Definition red_groupSpansByTraceId (rs : ResourceSpans) : gmap TraceID (list Span) :=
  foldS (λ ss m, foldS (λ span m, let key := Span_TraceID span in
                                  <[key := default [] (m !! key) ++ [span]]> m)
                   (ScopeSpans_Spans ss) m) (ResourceSpans_ScopeSpans rs) ∅.

Definition AttributeServiceName_red : string := "service.name".

Definition GetResourceAttribute (rs : ResourceSpans) : string * string * string :=
  let resourceAttr := ResourceSpans_Resource rs in
  let pidIntValue := GetPid resourceAttr in
  if pidIntValue <=? 0 then ("", "", "")
  else match Map_Get AttributeServiceName_red resourceAttr with
       | None => ("", "", "")
       | Some serviceAttr =>
           let containerId := GetContainerId resourceAttr in
           (FormatInt pidIntValue, Value_Str serviceAttr,
            if slen containerId >? 12 then stake 12 containerId else containerId)
       end.

(** The order of the range over the groups of a resource. *)
Variable gorder : gmap TraceID (list Span) → list TraceID.

(** The first loop: the mappings, the batch of new ids, and [cachedTraces] - the
    traces of the message.  A mapping is shared by [entryUrlMap] and
    [cachedTraces]: the set of ids stands for the second map. *)
Definition mapState := (gmap TraceID entryUrlMapping * WriteableBatch * gset TraceID)%type.

Definition map_group (groups : gmap TraceID (list Span)) (id : TraceID) (s : mapState) : mapState :=
  let '(m, batch, cached) := s in
  match groups !! id with
  | None => s
  | Some spans =>
      let '(mapping, batch) := match m !! id with
                               | Some mapping => (mapping, batch)
                               | None => (newEntryUrlMapping, AddToBatch id batch)
                               end in
      (<[id := AddMapping spans mapping]> m, batch, {[id]} ∪ cached)
  end.

Definition map_resource (rs : ResourceSpans) (s : mapState) : mapState :=
  let groups := red_groupSpansByTraceId rs in foldS (map_group groups) (gorder groups) s.

(** The second loop: the unmatched spans whose trace is in the message, in order;
    the ones that match now, and the ones left. *)
Fixpoint rematch (m : gmap TraceID entryUrlMapping) (cached : gset TraceID) (l : list ResourceSpan)
    : option (list ResourceSpan * list ResourceSpan) :=
  match l with
  | [] => Some ([], [])
  | u :: l' =>
      let keep := match rematch m cached l' with
                  | None => None
                  | Some (out, rest) => Some (out, u :: rest)
                  end in
      let tid := Span_TraceID (rsp_Span u) in
      if decide (tid ∈ cached) then
        match m !! tid with
        | None => keep
        | Some mapping =>
            match GetEntrySpanName mapping (Span_ParentSpanID (rsp_Span u)) with
            | None => None
            | Some entryUrl =>
                if bool_decide (entryUrl = "") then keep
                else match rematch m cached l' with
                     | None => None
                     | Some (out, rest) => Some (SetEntryUrl entryUrl u :: out, rest)
                     end
            end
        end
      else keep
  end.

(** The third loop, for one span: matched spans, new unmatched ones. *)
Definition match_span (m : gmap TraceID entryUrlMapping) (expireTime : Z)
    (pid serviceName containerId : string) (span : Span)
    : option (list ResourceSpan * list ResourceSpan) :=
  let new url := NewResourceSpan expireTime pid containerId serviceName url span in
  match Span_Kind span with
  | SpanKindClient | SpanKindProducer =>
      match m !! Span_TraceID span with
      | None => Some ([], [])
      | Some mapping =>
          if SpanID_IsEmpty (Span_ParentSpanID span) then Some ([new (Span_Name span)], [])
          else match GetEntrySpanName mapping (Span_ParentSpanID span) with
               | None => None
               | Some entryUrl =>
                   if bool_decide (entryUrl = "") then Some ([], [new ""])
                   else Some ([new entryUrl], [])
               end
      end
  | SpanKindConsumer | SpanKindServer => Some ([new (Span_Name span)], [])
  | _ => Some ([], [])
  end.

Fixpoint match_spans (m : gmap TraceID entryUrlMapping) (expireTime : Z)
    (pid serviceName containerId : string) (spans : list Span)
    : option (list ResourceSpan * list ResourceSpan) :=
  match spans with
  | [] => Some ([], [])
  | span :: spans' =>
      match match_span m expireTime pid serviceName containerId span,
            match_spans m expireTime pid serviceName containerId spans' with
      | Some (o1, u1), Some (o2, u2) => Some (o1 ++ o2, u1 ++ u2)
      | _, _ => None
      end
  end.

Fixpoint match_resources (m : gmap TraceID entryUrlMapping) (expireTime : Z) (td : Traces)
    : option (list ResourceSpan * list ResourceSpan) :=
  match td with
  | [] => Some ([], [])
  | rs :: td' =>
      let '(pid, serviceName, containerId) := GetResourceAttribute rs in
      match (if bool_decide (pid = "") || bool_decide (serviceName = "") then Some ([], [])
             else match_spans m expireTime pid serviceName containerId (spansOf rs)),
            match_resources m expireTime td' with
      | Some (o1, u1), Some (o2, u2) => Some (o1 ++ o2, u1 ++ u2)
      | _, _ => None
      end
  end.

Definition GetMatchedResourceSpans (now : Z) (td : Traces) (c : EntryUrlCache)
    : option (list ResourceSpan * EntryUrlCache) :=
  let '(m, batch, cached) := foldS map_resource td (ec_entryUrlMap c, ec_idBatch c, ∅) in
  match rematch m cached (ec_unMatchedSpans c) with
  | None => None
  | Some (result, rest) =>
      match match_resources m (i64 (now + ec_expireUnMatcheTime c)) td with
      | None => None
      | Some (o, u) =>
          Some (result ++ o,
                {| ec_entryUrlMap := m; ec_unMatchedSpans := rest ++ u; ec_idBatch := batch;
                   ec_idBuckets := ec_idBuckets c;
                   ec_expireUnMatcheTime := ec_expireUnMatcheTime c |})
      end
  end.

Definition CleanExpireBuckets (c : EntryUrlCache) : option EntryUrlCache :=
  let '(batch, wb) := PickBatch (ec_idBatch c) in
  match CopyAndGetBatch batch (ec_idBuckets c) with
  | None => None
  | Some (toCleanIds, buckets) =>
      Some {| ec_entryUrlMap := foldS (λ id m, delete id m) toCleanIds (ec_entryUrlMap c);
              ec_unMatchedSpans := ec_unMatchedSpans c; ec_idBatch := wb; ec_idBuckets := buckets;
              ec_expireUnMatcheTime := ec_expireUnMatcheTime c |}
  end.

(** How many spans at the head have expired. *)
Fixpoint expireIndex (now : Z) (l : list ResourceSpan) : nat :=
  match l with
  | [] => O
  | u :: l' => if rsp_ExpireTime u <? now then S (expireIndex now l') else O
  end.

Definition CleanUnMatchedSpans (now : Z) (c : EntryUrlCache) : list ResourceSpan * EntryUrlCache :=
  let n := expireIndex now (ec_unMatchedSpans c) in
  (take n (ec_unMatchedSpans c),
   {| ec_entryUrlMap := ec_entryUrlMap c; ec_unMatchedSpans := drop n (ec_unMatchedSpans c);
      ec_idBatch := ec_idBatch c; ec_idBuckets := ec_idBuckets c;
      ec_expireUnMatcheTime := ec_expireUnMatcheTime c |}).
End entryurl.

(** ** The buckets are a delay line *)

Fixpoint bk_run (batches : list IdBatch) (b : Buckets) : option (list IdBatch * Buckets) :=
  match batches with
  | [] => Some ([], b)
  | x :: xs =>
      match CopyAndGetBatch x b with
      | None => None
      | Some (out, b1) =>
          match bk_run xs b1 with
          | None => None
          | Some (outs, b2) => Some (out :: outs, b2)
          end
      end
  end.

(** [hist t] is the batch of call number [t], empty before the first. *)
Definition delay_inv (size t : Z) (hist : Z → IdBatch) (b : Buckets) : Prop :=
  len (bk_buckets b) = size + 1 ∧ bk_writeIndex b = slot size t ∧
  ∀ j, t - size <= j < t → slice_get (bk_buckets b) (slot size j) = Some (hist j).

Lemma CopyAndGetBatch_delay size t hist b :
  0 <= size → delay_inv size t hist b →
  ∃ b', CopyAndGetBatch (hist t) b = Some (hist (t - size), b') ∧ delay_inv size (t + 1) hist b'.
Proof.
  intros Hs (Hl & Hw & Hb). unfold CopyAndGetBatch.
  pose proof (slot_bound size t Hs). pose proof (slot_bound size (t + 1) Hs).
  destruct (slice_set (bk_buckets b) (bk_writeIndex b) (hist t)) as [l1|] eqn:E1;
    [|by rewrite slice_set_Some in E1 by lia].
  assert (len l1 = size + 1) as Hl1 by (destruct (slice_set_get _ _ _ 0 _ E1); lia).
  assert ((if bk_writeIndex b + 1 >=? len l1 then 0 else bk_writeIndex b + 1) = slot size (t + 1)) as ->.
  { rewrite Hl1, Hw. unfold slot. rewrite ring_next by lia. f_equal. lia. }
  assert (slot size (t + 1) = slot size (t - size)) as Hwrap.
  { unfold slot. replace (t + 1 + size) with (t - size + size + 1 * (size + 1)) by lia.
    by rewrite Z.mod_add by lia. }
  assert (∀ j, t - size <= j <= t → slice_get l1 (slot size j) = Some (hist j)) as Hget.
  { intros j Hj. destruct (slice_set_get _ _ _ (slot size j) _ E1) as [_ ->]. rewrite Hw.
    destruct (Z.eqb_spec (slot size t) (slot size j)) as [E|E].
    - destruct (decide (j = t)) as [->|]; [done|]. symmetry in E. by apply slot_inj in E; [|lia..].
    - apply Hb. destruct (decide (j = t)) as [->|]; [done|lia]. }
  rewrite Hwrap, Hget by lia.
  destruct (slice_set l1 (slot size (t - size)) []) as [l2|] eqn:E2;
    [|rewrite slice_set_Some in E2 by (rewrite <- Hwrap; lia); done].
  eexists. split; [done|]. destruct (slice_set_get _ _ _ 0 _ E2) as [Hl2 _].
  split_and!; simpl; [lia|done|]. intros j Hj.
  destruct (slice_set_get _ _ _ (slot size j) _ E2) as [_ ->].
  destruct (Z.eqb_spec (slot size (t - size)) (slot size j)) as [E|E]; [|apply Hget; lia].
  by apply slot_inj in E; [|lia..].
Qed.

Lemma bk_run_delay size t hist b n :
  0 <= size → delay_inv size t hist b →
  ∃ b', bk_run ((λ i, hist (t + Z.of_nat i)) <$> seq 0 n) b =
          Some ((λ i, hist (t + Z.of_nat i - size)) <$> seq 0 n, b').
Proof.
  intros Hs. revert t b. induction n as [|n IH]; intros t b Hinv; [by eexists|].
  simpl seq. rewrite !fmap_cons, <- seq_shift. cbn [bk_run]. rewrite Z.add_0_r.
  destruct (CopyAndGetBatch_delay size t hist b Hs Hinv) as (b1 & -> & Hinv1).
  destruct (IH _ _ Hinv1) as (b2 & E).
  assert (∀ d, (λ i, hist (t + Z.of_nat i - d)) <$> (S <$> seq 0 n) =
               (λ i, hist (t + 1 + Z.of_nat i - d)) <$> seq 0 n) as Hsh.
  { intros d. rewrite <- list_fmap_compose. apply list_fmap_ext. intros i x _. simpl. f_equal. lia. }
  pose proof (Hsh 0) as Hsh0. setoid_rewrite Z.sub_0_r in Hsh0.
  change (List.map S (seq 0 n)) with (S <$> seq 0 n).
  rewrite Hsh0, E, Hsh. by eexists.
Qed.

(** The buckets are a delay line: from [NewBuckets size] the batch given to
    one call comes back, whole, from the call [size] later - the first [size] calls
    return nothing - and no call leaves the ring. *)
Theorem CopyAndGetBatch_delays size batches :
  0 <= size →
  ∃ b, bk_run batches (NewBuckets size) =
         Some (take (length batches) (replicate (Z.to_nat size) [] ++ batches), b).
Proof.
  intros Hs.
  set (hist := λ j : Z, if 0 <=? j then default [] (batches !! Z.to_nat j) else []).
  destruct (bk_run_delay size 0 hist (NewBuckets size) (length batches)) as [b E]; [done| |].
  { split_and!; simpl.
    - unfold len. rewrite length_replicate. lia.
    - unfold slot. rewrite Z.mod_small; lia.
    - intros j Hj. unfold hist. destruct (Z.leb_spec 0 j); [lia|].
      pose proof (slot_bound size j Hs). unfold slice_get.
      destruct (Z.leb_spec 0 (slot size j)); [|lia]. apply lookup_replicate_2. lia. }
  exists b. etrans; [|etrans; [exact E|]].
  - f_equal. apply list_eq. intros i. rewrite list_lookup_fmap.
    destruct (decide (i < length batches)%nat) as [Hi|Hi].
    + rewrite lookup_seq_lt by done. cbn [fmap option_fmap option_map]. unfold hist.
      rewrite Z.add_0_l, Nat.add_0_l. destruct (Z.leb_spec 0 (Z.of_nat i)); [|lia]. rewrite Nat2Z.id.
      destruct (lookup_lt_is_Some_2 batches i Hi) as [x Hx]. rewrite Hx. f_equal. symmetry. exact (f_equal (default []) Hx).
    + rewrite lookup_seq_ge by lia. simpl. apply lookup_ge_None. lia.
  - do 2 f_equal. apply list_eq. intros i. rewrite list_lookup_fmap.
    destruct (decide (i < length batches)%nat) as [Hi|Hi].
    + rewrite lookup_seq_lt, lookup_take_lt by done. cbn [fmap option_fmap option_map]. unfold hist.
      rewrite Z.add_0_l, Nat.add_0_l. destruct (Z.leb_spec 0 (Z.of_nat i - size)).
      * rewrite lookup_app_r by (rewrite length_replicate; lia). rewrite length_replicate.
        replace (Z.to_nat (Z.of_nat i - size)) with (i - Z.to_nat size)%nat by lia.
        destruct (lookup_lt_is_Some_2 batches (i - Z.to_nat size)) as [x Hx]; [lia|]. 
        transitivity (Some x); [f_equal; exact (f_equal (default []) Hx)|symmetry; exact Hx].
      * rewrite lookup_app_l by (rewrite length_replicate; lia).
        rewrite lookup_replicate_2 by lia. done.
    + rewrite lookup_seq_ge by lia. simpl. symmetry. apply lookup_ge_None. rewrite length_take. lia.
Qed.

Lemma CopyAndGetBatch_delays_witness :
  ∃ b, bk_run [["a"]; ["b"]; []; ["c"]] (NewBuckets 2) = Some ([[]; []; ["a"]; ["b"]], b).
Proof. apply (CopyAndGetBatch_delays 2 [["a"]; ["b"]; []; ["c"]]). lia. Defined.

(** ** The walk to the entry span *)

Lemma fuel_mono n k m x r :
  GetEntrySpanName_fuel n m x = Some r → (n <= k)%nat → GetEntrySpanName_fuel k m x = Some r.
Proof.
  revert k x. induction n as [|n IH]; intros k x E Hk; [done|]. destruct k as [|k]; [lia|].
  cbn [GetEntrySpanName_fuel] in *. destruct (em_entrySpanNames m !! x); [done|].
  destruct (em_pspanIds m !! x); [|done]. apply IH; [done|lia].
Qed.

(** A walk that never comes back to [x] does not use its parent. *)
Lemma fuel_delete n m x p r :
  (∀ k, (k <= n)%nat → GetEntrySpanName_fuel k m x = None) →
  GetEntrySpanName_fuel n m p = Some r →
  GetEntrySpanName_fuel n {| em_entrySpanNames := em_entrySpanNames m;
                             em_pspanIds := delete x (em_pspanIds m) |} p = Some r.
Proof.
  revert p. induction n as [|n IH]; intros p Hx E; [done|].
  assert (p ≠ x) as Hne by (intros ->; rewrite Hx in E by lia; done).
  cbn [GetEntrySpanName_fuel em_entrySpanNames em_pspanIds] in *.
  destruct (em_entrySpanNames m !! p); [done|]. rewrite lookup_delete_ne by done.
  destruct (em_pspanIds m !! p); [|done]. apply IH; [|done]. intros k Hk. apply Hx. lia.
Qed.

Lemma fuel_minimal n m x r :
  GetEntrySpanName_fuel n m x = Some r →
  ∃ k, GetEntrySpanName_fuel (S k) m x = Some r ∧ ∀ j, (j <= k)%nat → GetEntrySpanName_fuel j m x = None.
Proof.
  induction n as [|n IH]; intros E; [done|].
  destruct (GetEntrySpanName_fuel n m x) as [r'|] eqn:En.
  - assert (r' = r) as -> by (apply (fuel_mono n (S n)) in En; [congruence|lia]). by apply IH.
  - exists n. split; [done|]. intros j Hj. destruct (GetEntrySpanName_fuel j m x) eqn:Ej; [|done].
    apply (fuel_mono j n) in Ej; [congruence|done].
Qed.

Lemma fuel_undelete j k m x p r r' :
  (∀ i, (i <= k)%nat → GetEntrySpanName_fuel i m x = None) →
  GetEntrySpanName_fuel k m p = Some r →
  GetEntrySpanName_fuel j {| em_entrySpanNames := em_entrySpanNames m;
                             em_pspanIds := delete x (em_pspanIds m) |} p = Some r' →
  GetEntrySpanName_fuel j m p = Some r'.
Proof.
  revert k p. induction j as [|j IH]; intros k p Hx Ek Ej; [done|].
  assert (p ≠ x) as Hne by (intros ->; rewrite Hx in Ek by lia; done).
  destruct k as [|k]; [done|]. cbn [GetEntrySpanName_fuel em_entrySpanNames em_pspanIds] in *.
  destruct (em_entrySpanNames m !! p); [done|]. rewrite lookup_delete_ne in Ej by done.
  destruct (em_pspanIds m !! p); [|done]. apply (IH k); [|done..]. intros i Hi. apply Hx. lia.
Qed.

Lemma fuel_size_enough N n m x r :
  size (em_pspanIds m) = N → GetEntrySpanName_fuel n m x = Some r →
  GetEntrySpanName_fuel (S N) m x = Some r.
Proof.
  revert n m x. induction N as [|N IH]; intros n m x HN E.
  - apply map_size_empty_inv in HN. destruct n as [|n]; [done|]. cbn [GetEntrySpanName_fuel] in *.
    rewrite HN, lookup_empty in *. done.
  - destruct (fuel_minimal n m x r E) as (k & Ek & Hmin).
    change (GetEntrySpanName_fuel (S (S N)) m x) with
      (match em_entrySpanNames m !! x with
       | Some url => Some url
       | None => match em_pspanIds m !! x with
                 | Some parent => GetEntrySpanName_fuel (S N) m parent
                 | None => Some ""
                 end
       end).
    cbn [GetEntrySpanName_fuel] in Ek. destruct (em_entrySpanNames m !! x); [done|].
    destruct (em_pspanIds m !! x) as [p|] eqn:Ep; [|done].
    apply (fuel_undelete _ k m x p r); [done..|]. apply (IH k); [|by apply fuel_delete].
    simpl. rewrite map_size_delete, Ep, HN. simpl. lia.
Qed.

(** A chain of parents from [x] that never meets an entry span and comes back. *)
Inductive walk (m : entryUrlMapping) : SpanID → nat → SpanID → Prop :=
  | walk_0 x : walk m x 0 x
  | walk_S x p n y :
      em_entrySpanNames m !! x = None → em_pspanIds m !! x = Some p → walk m p n y →
      walk m x (S n) y.

Lemma walk_fuel m x n y k : walk m x n y → GetEntrySpanName_fuel (n + k) m x = GetEntrySpanName_fuel k m y.
Proof. induction 1 as [|x p n y He Hp Hw IH]; [done|]. simpl. by rewrite He, Hp. Qed.

Lemma walk_short m x n y k : walk m x n y → (k <= n)%nat → GetEntrySpanName_fuel k m x = None.
Proof.
  intros Hw. revert k. induction Hw as [|x p n y He Hp Hw IH]; intros k Hk; [by destruct k; [|lia]|].
  destruct k as [|k]; [done|]. simpl. rewrite He, Hp. apply IH. lia.
Qed.

Lemma cycle_diverges m x n y c :
  walk m x n y → walk m y (S c) y → ∀ k, GetEntrySpanName_fuel k m x = None.
Proof.
  intros Hw Hc.
  assert (∀ k, GetEntrySpanName_fuel k m y = None) as Hy.
  { intros k. induction (Nat.lt_wf_0 k) as [k _ IH]. destruct (le_lt_dec k (S c)) as [Hle|Hlt].
    - by eapply walk_short.
    - replace k with (S c + (k - S c))%nat by lia. rewrite (walk_fuel m y (S c) y) by done.
      apply IH. lia. }
  intros k. destruct (le_lt_dec n k) as [Hle|Hlt].
  - replace k with (n + (k - n))%nat by lia. by rewrite (walk_fuel m x n y).
  - by eapply walk_short; [|apply Nat.lt_le_incl].
Qed.

(** A list with a repetition has two places with the same element. *)
Lemma not_NoDup_lookup {A} `{EqDecision A} (l : list A) :
  ¬ NoDup l → ∃ i j a, (i < j)%nat ∧ l !! i = Some a ∧ l !! j = Some a.
Proof.
  induction l as [|a l IH]; intros Hn; [by destruct Hn; constructor|].
  destruct (decide (a ∈ l)) as [[j Hj]%list_elem_of_lookup|Ha].
  - exists 0%nat, (S j), a. split; [lia|done].
  - destruct IH as (i & j & b & Hij & Hi & Hj); [contradict Hn; by constructor|].
    exists (S i), (S j), b. split; [lia|done].
Qed.

(** The spans a walk of [n] steps leaves, in order. *)
Fixpoint trail (n : nat) (m : entryUrlMapping) (x : SpanID) : list SpanID :=
  match n with
  | O => []
  | S n' => x :: match em_pspanIds m !! x with Some p => trail n' m p | None => [] end
  end.

Lemma trail_walk m x n y :
  walk m x n y →
  length (trail n m x) = n ∧
  (∀ i a, trail n m x !! i = Some a → a ∈ dom (em_pspanIds m) ∧ walk m x i a) ∧
  (∀ i j a b, (i < j)%nat → trail n m x !! i = Some a → trail n m x !! j = Some b → walk m a (j - i) b).
Proof.
  induction 1 as [|x p n y He Hp Hw (Hlen & Hdom & Hsub)]; [done|]. cbn [trail]. rewrite Hp.
  split_and!; [by rewrite <- Hlen at 2| |].
  - intros [|i] a; simpl; [intros [= <-]; split; [by apply elem_of_dom_2 in Hp|constructor]|].
    intros Ha. apply Hdom in Ha as [Hd Ha]. split; [done|]. by eapply walk_S.
  - intros [|i] [|j] a b Hij; simpl; try lia.
    + intros [= <-] Hb. eapply walk_S; [done..|]. replace j with (j - 0)%nat by lia. rewrite Nat.sub_0_r. by apply Hdom in Hb as [_ ?].
    + apply Hsub. lia.
Qed.

(** A walk longer than there are recorded parents comes back to a span. *)
Lemma long_walk_cycle m x n y :
  walk m x n y → (size (em_pspanIds m) < n)%nat →
  ∃ i a c, walk m x i a ∧ walk m a (S c) a.
Proof.
  intros (Hlen & Hdom & Hsub)%trail_walk Hn.
  destruct (decide (NoDup (trail n m x))) as [Hnd|(i & j & a & Hij & Ha & Hb)%not_NoDup_lookup].
  - exfalso. assert (list_to_set (trail n m x) ⊆ dom (em_pspanIds m)) as Hs%subseteq_size.
    { intros a. rewrite elem_of_list_to_set, list_elem_of_lookup. intros [i Hi]. by apply (Hdom i). }
    rewrite size_list_to_set, size_dom in Hs by done. lia.
  - exists i, a, (j - i - 1)%nat. split; [by apply (Hdom i)|].
    replace (S (j - i - 1)) with (j - i)%nat by lia. by eapply Hsub.
Qed.

(** What has ended has walked to its answer. *)
Lemma fuel_ends n m x url :
  GetEntrySpanName_fuel n m x = Some url →
  ∃ k y, walk m x k y ∧
    (em_entrySpanNames m !! y = Some url ∨
     em_entrySpanNames m !! y = None ∧ em_pspanIds m !! y = None ∧ url = "").
Proof.
  revert x. induction n as [|n IH]; intros x; [done|]. cbn [GetEntrySpanName_fuel].
  destruct (em_entrySpanNames m !! x) as [u|] eqn:He; [intros [= ->]|destruct (em_pspanIds m !! x) as [p|] eqn:Hp].
  - exists 0%nat, x. split; [constructor|by left].
  - intros (k & y & Hw & Hy)%IH. exists (S k), y. split; [by eapply walk_S|done].
  - intros [= <-]. exists 0%nat, x. split; [constructor|by right].
Qed.

(** What has not ended has walked. *)
Lemma fuel_walk n m x : GetEntrySpanName_fuel n m x = None → ∃ y, walk m x n y.
Proof.
  revert x. induction n as [|n IH]; intros x; [by eexists; constructor|]. cbn [GetEntrySpanName_fuel].
  destruct (em_entrySpanNames m !! x) eqn:He; [done|].
  destruct (em_pspanIds m !! x) as [p|] eqn:Hp; [|done]. intros [y Hy]%IH.
  exists y. by eapply walk_S.
Qed.

(** C18: The recursion of [GetEntrySpanName] does not end exactly when the walk over
    the recorded parents runs into a cycle of spans none of which is an entry span -
    the collector then overflows its stack.  Otherwise it ends, with the name of the
    first entry span on the walk or, where the walk leaves the recorded spans, with
    the empty name; and it ends within one call per recorded parent and one more, so
    the bounded walk of the model is the recursion of the code. *)
Theorem GetEntrySpanName_terminates m x :
  (GetEntrySpanName m x = None ↔ ∃ n y c, walk m x n y ∧ walk m y (S c) y) ∧
  (∀ url, GetEntrySpanName m x = Some url ↔
     ∃ n y, walk m x n y ∧
       (em_entrySpanNames m !! y = Some url ∨
        em_entrySpanNames m !! y = None ∧ em_pspanIds m !! y = None ∧ url = "")) ∧
  (∀ n r, GetEntrySpanName_fuel n m x = Some r → GetEntrySpanName m x = Some r) ∧
  (GetEntrySpanName m x = None ↔ ∀ n, GetEntrySpanName_fuel n m x = None).
Proof.
  assert (∀ n r, GetEntrySpanName_fuel n m x = Some r → GetEntrySpanName m x = Some r) as H1
    by (intros n r; by apply fuel_size_enough).
  split_and!; [split| |done|].
  - intros [y Hw]%fuel_walk. destruct (long_walk_cycle _ _ _ _ Hw) as (i & a & c & ? & ?); [lia|].
    by exists i, a, c.
  - intros (n & y & c & Hw & Hc). by eapply cycle_diverges.
  - intros url. split; [by apply fuel_ends|]. intros (n & y & Hw & Hy). apply (H1 (n + 1)%nat).
    rewrite (walk_fuel m x n y 1 Hw). simpl. destruct Hy as [->|(-> & -> & ->)]; done.
  - split; [|intros Hn; apply Hn]. intros Hn n.
    destruct (GetEntrySpanName_fuel n m x) as [r|] eqn:E; [|done]. apply H1 in E. congruence.
Qed.

(** ** No span is lost *)

Section conservation.
Context `{PData} (gorder : gmap TraceID (list Span) → list TraceID).
Hypothesis gorder_ok : ∀ m, range_order m (gorder m).

Definition acyclic (m : entryUrlMapping) : Prop := ∀ x, is_Some (GetEntrySpanName m x).

(** The spans the cache is about: exit and entry spans of named resources. *)
Definition counted (span : Span) : bool :=
  match Span_Kind span with
  | SpanKindClient | SpanKindProducer | SpanKindConsumer | SpanKindServer => true
  | _ => false
  end.
Definition named_resource (rs : ResourceSpans) : bool :=
  let '(pid, serviceName, _) := GetResourceAttribute rs in
  negb (bool_decide (pid = "") || bool_decide (serviceName = "")).
Definition counted_spans (td : Traces) : list Span :=
  mjoin ((λ rs, if named_resource rs then filter (λ sp, counted sp = true) (spansOf rs) else []) <$> td).

(** After the first loop every trace id of the message has a mapping. *)
Definition mapped (m : gmap TraceID entryUrlMapping) (span : Span) : Prop :=
  is_Some (m !! Span_TraceID span).

Lemma map_group_mono groups id s k :
  is_Some (s.1.1 !! k) → is_Some ((map_group groups id s).1.1 !! k).
Proof.
  destruct s as [[m batch] cached]. unfold map_group. simpl. intros Hk.
  destruct (groups !! id) as [spans|]; [|done].
  destruct (m !! id) as [mapping|]; simpl;
    (destruct (decide (k = id)) as [->|]; [rewrite lookup_insert_eq; by eexists|by rewrite lookup_insert_ne]).
Qed.

Lemma map_group_here groups id s :
  is_Some (groups !! id) → is_Some ((map_group groups id s).1.1 !! id).
Proof.
  destruct s as [[m batch] cached]. unfold map_group. intros [spans ->].
  destruct (m !! id) as [mapping|]; simpl; rewrite lookup_insert_eq; by eexists.
Qed.

Lemma foldS_mono {A} (f : A → mapState → mapState) l s k :
  (∀ a s, is_Some (s.1.1 !! k) → is_Some ((f a s).1.1 !! k)) →
  is_Some (s.1.1 !! k) → is_Some ((foldS f l s).1.1 !! k).
Proof. intros Hf. apply (foldS_inv (λ s, is_Some (s.1.1 !! k))). auto. Qed.

Lemma map_groups_all groups ids s k :
  k ∈ ids → is_Some (groups !! k) → is_Some ((foldS (map_group groups) ids s).1.1 !! k).
Proof.
  revert s. induction ids as [|id ids IH]; intros s; [by intros ?%not_elem_of_nil|].
  cbn [foldS]. rewrite elem_of_cons. intros [->|Hin] Hk; [|by apply IH].
  apply foldS_mono; [intros; by apply map_group_mono|by apply map_group_here].
Qed.

Lemma groupSpans_keys rs span :
  span ∈ spansOf rs → is_Some (red_groupSpansByTraceId rs !! Span_TraceID span).
Proof.
  unfold red_groupSpansByTraceId, spansOf.
  assert (∀ spans (m : gmap TraceID (list Span)),
    let m' := foldS (λ span m, let key := Span_TraceID span in
                      <[key := default [] (m !! key) ++ [span]]> m) spans m in
    (∀ k, is_Some (m !! k) → is_Some (m' !! k)) ∧
    (∀ sp, sp ∈ spans → is_Some (m' !! Span_TraceID sp))) as Hin.
  { induction spans as [|sp spans IH]; intros m; simpl.
    - split; [done|]. by intros sp ?%not_elem_of_nil.
    - destruct (IH (<[Span_TraceID sp := default [] (m !! Span_TraceID sp) ++ [sp]]> m)) as [I1 I2].
      split.
      + intros k Hk. apply I1. destruct (decide (k = Span_TraceID sp)) as [->|].
        * rewrite lookup_insert_eq. by eexists.
        * by rewrite lookup_insert_ne.
      + intros sp'. rewrite elem_of_cons. intros [->|Hs]; [|by apply I2].
        apply I1. rewrite lookup_insert_eq. by eexists. }
  assert (∀ l (m : gmap TraceID (list Span)),
    let m' := foldS (λ ss m, foldS (λ span m, let key := Span_TraceID span in
                      <[key := default [] (m !! key) ++ [span]]> m) (ScopeSpans_Spans ss) m) l m in
    (∀ k, is_Some (m !! k) → is_Some (m' !! k)) ∧
    (∀ sp, sp ∈ mjoin (ScopeSpans_Spans <$> l) → is_Some (m' !! Span_TraceID sp))) as Hout.
  { induction l as [|ss l IH]; intros m; cbn [foldS].
    - split; [done|]. by intros sp ?%not_elem_of_nil.
    - destruct (Hin (ScopeSpans_Spans ss) m) as [J1 J2].
      destruct (IH (foldS (λ span m, let key := Span_TraceID span in
                      <[key := default [] (m !! key) ++ [span]]> m) (ScopeSpans_Spans ss) m)) as [I1 I2].
      split; [intros k Hk; by apply I1, J1|]. intros sp. rewrite mjoin_fmap_cons, elem_of_app.
      intros [Hs|Hs]; [by apply I1, J2|by apply I2]. }
  apply Hout.
Qed.

Lemma map_resources_mapped td s span rs :
  rs ∈ td → span ∈ spansOf rs → mapped (foldS (map_resource gorder) td s).1.1 span.
Proof.
  revert s. induction td as [|rs' td IH]; intros s; [by intros ?%not_elem_of_nil|].
  cbn [foldS]. rewrite elem_of_cons. intros [->|Hin] Hspan; [|by apply IH].
  unfold mapped. apply foldS_mono.
  - intros rs s'. unfold map_resource. apply foldS_mono. intros. by apply map_group_mono.
  - unfold map_resource. apply groupSpans_keys in Hspan. apply map_groups_all; [|done].
    by eapply range_order_elem.
Qed.

(** Without a cycle no recursion is endless. *)
Lemma rematch_total m cached l :
  map_Forall (λ _ e, acyclic e) m → is_Some (rematch m cached l).
Proof.
  intros Ha. induction l as [|u l [[out rest] E]]; [by eexists|]. cbn [rematch]. rewrite E.
  case_decide; [|by eexists]. destruct (m !! Span_TraceID (rsp_Span u)) as [mapping|] eqn:Em; [|by eexists].
  destruct (Ha _ _ Em (Span_ParentSpanID (rsp_Span u))) as [url ->]. case_bool_decide; by eexists.
Qed.

Lemma match_spans_total m t pid svc cid spans :
  map_Forall (λ _ e, acyclic e) m → is_Some (match_spans m t pid svc cid spans).
Proof.
  intros Ha. induction spans as [|sp spans [[o u] E]]; [by eexists|]. cbn [match_spans]. rewrite E.
  assert (is_Some (match_span m t pid svc cid sp)) as [[o1 u1] ->]; [|by eexists]. unfold match_span.
  destruct (m !! Span_TraceID sp) as [mapping|] eqn:Em; [|destruct (Span_Kind sp); by eexists].
  destruct (Ha _ _ Em (Span_ParentSpanID sp)) as [url ->].
  destruct (Span_Kind sp), (SpanID_IsEmpty (Span_ParentSpanID sp)), (bool_decide (url = "")); by eexists.
Qed.

Lemma match_resources_total m t td : map_Forall (λ _ e, acyclic e) m → is_Some (match_resources m t td).
Proof.
  intros Ha. induction td as [|rs td [[o u] E]]; [by eexists|]. cbn [match_resources]. rewrite E.
  destruct (GetResourceAttribute rs) as [[pid svc] cid]. destruct (_ || _); [by eexists|].
  destruct (match_spans_total m t pid svc cid (spansOf rs) Ha) as [[o1 u1] ->]. by eexists.
Qed.

(** Four groups, the first and the third of which belong together. *)
Lemma perm_four {A} (a b c d : list A) : (a ++ c) ++ (b ++ d) ≡ₚ (a ++ b) ++ (c ++ d).
Proof. rewrite <- !app_assoc. apply Permutation_app_head. rewrite !app_assoc. apply Permutation_app_tail, Permutation_app_comm. Qed.

(** What matches and what waits is what there was. *)
Lemma rematch_perm m cached l out rest :
  rematch m cached l = Some (out, rest) → (rsp_Span <$> out) ++ (rsp_Span <$> rest) ≡ₚ rsp_Span <$> l.
Proof.
  revert out rest. induction l as [|u l IH]; intros out rest; cbn [rematch]; [by intros [= <- <-]|].
  destruct (rematch m cached l) as [[o r]|]; [|by repeat case_match].
  specialize (IH o r eq_refl).
  assert (Some (o, u :: r) = Some (out, rest) → (rsp_Span <$> out) ++ (rsp_Span <$> rest) ≡ₚ rsp_Span <$> u :: l) as Hkeep.
  { intros [= <- <-]. rewrite !fmap_cons, <- Permutation_middle. by rewrite IH. }
  case_decide; [|done]. destruct (m !! Span_TraceID (rsp_Span u)) as [mapping|]; [|done].
  destruct (GetEntrySpanName mapping _) as [url|]; [|done]. case_bool_decide; [done|].
  intros [= <- <-]. rewrite !fmap_cons. cbn [rsp_Span SetEntryUrl app]. by rewrite IH.
Qed.

Lemma match_span_spans m t pid svc cid sp o u :
  mapped m sp → match_span m t pid svc cid sp = Some (o, u) →
  (rsp_Span <$> o) ++ (rsp_Span <$> u) = if counted sp then [sp] else [].
Proof.
  intros [mapping Em]. unfold match_span, counted. rewrite Em.
  destruct (Span_Kind sp), (SpanID_IsEmpty (Span_ParentSpanID sp)), (GetEntrySpanName mapping (Span_ParentSpanID sp)) as [url|];
    try done; try (by intros [= <- <-]); by case_bool_decide; intros [= <- <-].
Qed.

Lemma match_spans_perm m t pid svc cid spans o u :
  (∀ sp, sp ∈ spans → mapped m sp) → match_spans m t pid svc cid spans = Some (o, u) →
  (rsp_Span <$> o) ++ (rsp_Span <$> u) ≡ₚ filter (λ sp, counted sp = true) spans.
Proof.
  revert o u. induction spans as [|sp spans IH]; intros o u Hm; cbn [match_spans]; [by intros [= <- <-]|].
  destruct (match_span m t pid svc cid sp) as [[o1 u1]|] eqn:E1; [|done].
  destruct (match_spans m t pid svc cid spans) as [[o2 u2]|]; [|done]. intros [= <- <-].
  rewrite !fmap_app, filter_cons, perm_four, (match_span_spans _ _ _ _ _ _ _ _ (Hm sp (list_elem_of_here _ _)) E1).
  rewrite (IH o2 u2) by (done || (intros; apply Hm; by right)). by destruct (counted sp).
Qed.

Lemma match_resources_perm m t td o u :
  (∀ rs sp, rs ∈ td → sp ∈ spansOf rs → mapped m sp) → match_resources m t td = Some (o, u) →
  (rsp_Span <$> o) ++ (rsp_Span <$> u) ≡ₚ counted_spans td.
Proof.
  revert o u. induction td as [|rs td IH]; intros o u Hm; cbn [match_resources]; [by intros [= <- <-]|].
  unfold counted_spans. rewrite mjoin_fmap_cons. unfold named_resource at 1.
  destruct (GetResourceAttribute rs) as [[pid svc] cid].
  destruct (bool_decide (pid = "") || bool_decide (svc = "")) eqn:En.
  - destruct (match_resources m t td) as [[o2 u2]|]; [|done]. intros [= <- <-]. cbn [app].
    rewrite (IH o2 u2) by (done || (intros r sp Hr; apply Hm; by right)). done.
  - destruct (match_spans m t pid svc cid (spansOf rs)) as [[o1 u1]|] eqn:E1; [|done].
    destruct (match_resources m t td) as [[o2 u2]|]; [|done]. intros [= <- <-].
    rewrite !fmap_app, perm_four, (match_spans_perm _ _ _ _ _ _ _ _ (λ sp, Hm rs sp (list_elem_of_here _ _)) E1).
    rewrite (IH o2 u2) by (done || (intros r sp Hr; apply Hm; by right)). done.
Qed.

Lemma GetMatched_perm now td c result c' :
  GetMatchedResourceSpans gorder now td c = Some (result, c') →
  (rsp_Span <$> result) ++ (rsp_Span <$> ec_unMatchedSpans c') ≡ₚ (rsp_Span <$> ec_unMatchedSpans c) ++ counted_spans td.
Proof.
  unfold GetMatchedResourceSpans. pose proof (map_resources_mapped td) as Hm.
  destruct (foldS (map_resource gorder) td _) as [[m batch] cached] eqn:Ef.
  destruct (rematch m cached (ec_unMatchedSpans c)) as [[out rest]|] eqn:E1; [|done].
  destruct (match_resources m _ td) as [[o u]|] eqn:E2; [|done]. intros [= <- <-]. cbn [ec_unMatchedSpans].
  assert (∀ rs sp, rs ∈ td → sp ∈ spansOf rs → mapped m sp) as Hmapped.
  { intros rs sp Hr Hs. specialize (Hm (ec_entryUrlMap c, ec_idBatch c, ∅) sp rs Hr Hs). by rewrite Ef in Hm. }
  by rewrite !fmap_app, perm_four, (rematch_perm _ _ _ _ _ E1), (match_resources_perm _ _ _ _ _ Hmapped E2).
Qed.
End conservation.

(** Matching loses no span and invents none: when no recorded parents form a
    cycle, the spans handed on together with the ones that still wait are, up to
    order, the ones that waited before together with every entry and exit span of
    the message whose resource has a pid and a service name. *)
Theorem GetMatchedResourceSpans_conserves `{PData} gorder now td c :
  (∀ m, range_order m (gorder m)) →
  map_Forall (λ _ e, acyclic e)
    (foldS (map_resource gorder) td (ec_entryUrlMap c, ec_idBatch c, ∅)).1.1 →
  ∃ result c', GetMatchedResourceSpans gorder now td c = Some (result, c') ∧
    (rsp_Span <$> result) ++ (rsp_Span <$> ec_unMatchedSpans c') ≡ₚ
    (rsp_Span <$> ec_unMatchedSpans c) ++ counted_spans td.
Proof.
  intros Ho Ha. assert (is_Some (GetMatchedResourceSpans gorder now td c)) as [[result c'] E].
  { unfold GetMatchedResourceSpans. destruct (foldS (map_resource gorder) td _) as [[m batch] cached]. cbn [fst] in Ha.
    destruct (rematch_total m cached (ec_unMatchedSpans c) Ha) as [[out rest] ->].
    destruct (match_resources_total m (i64 (now + ec_expireUnMatcheTime c)) td Ha) as [[o u] ->]. by eexists. }
  exists result, c'. split; [done|]. by eapply GetMatched_perm.
Qed.

Definition ex_exit : Span (H := RefPData.pdata) :=
  {| Span_TraceID := "t1"; Span_SpanID := "s2"; Span_ParentSpanID := "s1"; Span_Name := "GET";
     Span_Kind := SpanKindClient; Span_StartTimestamp := 1; Span_EndTimestamp := 2;
     Span_Attributes := @Map_New RefPData.pdata; Span_Status := StatusCodeOk |}.

Definition ex_exit_td : Traces (H := RefPData.pdata) :=
  [{| ResourceSpans_Resource :=
        Map_PutInt (H := RefPData.pdata) "process.pid" 7
          (Map_PutStr (H := RefPData.pdata) "service.name" "svc" (@Map_New RefPData.pdata));
      ResourceSpans_ScopeSpans := [{| ScopeSpans_Spans := [ex_exit] |}] |}].

Lemma GetMatchedResourceSpans_conserves_witness :
  ∃ c, NewEntryUrlCache (H := RefPData.pdata) 5 10 = inl c ∧
  ∃ result c', GetMatchedResourceSpans (λ m, (map_to_list m).*1) 100 ex_exit_td c = Some (result, c') ∧
    (rsp_Span <$> result) ++ (rsp_Span <$> ec_unMatchedSpans c') ≡ₚ [ex_exit].
Proof.
  eexists. split; [reflexivity|].
  match goal with |- context [GetMatchedResourceSpans ?g 100 ex_exit_td ?c] =>
    destruct (GetMatchedResourceSpans_conserves g 100 ex_exit_td c) as (result & c' & E & Hp) end.
  - exact range_order_canon.
  - intros k e He. apply (lookup_singleton_Some "t1" k newEntryUrlMapping) in He as [_ <-].
    intros x. by eexists.
  - by exists result, c'.
Defined.
