(* ===== verification/UnmatchedRuns.v ===== *)
(** * UnmatchedRuns: every span is measured once, and soon

    The spans of calls that wait for their entry url, over any sequence of messages and
    ticks of the RED connector's cache: [GetMatchedResourceSpans], and
    [CleanExpireBuckets] with [CleanUnMatchedSpans], each as a whole.  What a tick and a
    message that meet can do to each other is in the file UnmatchedRace. *)

From Stdlib Require Import Sorted.
From S2P Require Import Prelude GoStrings PData Cache FillProc EntryUrl.

Section runs.
Context `{PD : PData}.
Implicit Types (c : EntryUrlCache).

(** A message, at a time in seconds and with the order of a range, or a tick. *)
Inductive url_event :=
  | Ev_message (gorder : gmap TraceID (list Span) → list TraceID) (now : Z) (td : Traces)
  | Ev_tick (now : Z).

Definition ev_time (e : url_event) : Z := match e with Ev_message _ now _ => now | Ev_tick now => now end.
Definition ev_spans (e : url_event) : list Span := match e with Ev_message _ _ td => counted_spans td | Ev_tick _ => [] end.
Definition ev_ok (e : url_event) : Prop := match e with Ev_message gorder _ _ => ∀ m, range_order m (gorder m) | Ev_tick _ => True end.

(** What is measured, and the cache. *)
Definition url_step (e : url_event) (c : EntryUrlCache) : option (list ResourceSpan * EntryUrlCache) :=
  match e with
  | Ev_message gorder now td => GetMatchedResourceSpans gorder now td c
  | Ev_tick now => c ← CleanExpireBuckets c; Some (CleanUnMatchedSpans now c)
  end.

Fixpoint url_run (events : list url_event) (c : EntryUrlCache) : option (list ResourceSpan * EntryUrlCache) :=
  match events with
  | [] => Some ([], c)
  | e :: events' => '(out, c) ← url_step e c; '(outs, c) ← url_run events' c; Some (out ++ outs, c)
  end.

Lemma CleanExpireBuckets_held c c' :
  CleanExpireBuckets c = Some c' → ec_unMatchedSpans c' = ec_unMatchedSpans c ∧ ec_expireUnMatcheTime c' = ec_expireUnMatcheTime c.
Proof.
  unfold CleanExpireBuckets. destruct (PickBatch _) as [batch wb]. destruct (CopyAndGetBatch _ _) as [[ids bs]|]; [|done]. by intros [= <-].
Qed.

(** ** Once *)

Lemma url_step_once e c out c' :
  ev_ok e → url_step e c = Some (out, c') →
  (rsp_Span <$> out) ++ (rsp_Span <$> ec_unMatchedSpans c') ≡ₚ (rsp_Span <$> ec_unMatchedSpans c) ++ ev_spans e.
Proof.
  destruct e as [gorder now td|now]; cbn [url_step ev_ok ev_spans]; [intros Ho; by apply GetMatched_perm|intros _].
  destruct (CleanExpireBuckets c) as [c1|] eqn:E; [|done]. cbn [mbind option_bind]. intros [= <- <-].
  apply CleanExpireBuckets_held in E as [<- _]. cbn [ec_unMatchedSpans]. by rewrite app_nil_r, <- fmap_app, take_drop.
Qed.

Lemma url_run_once events c out c' :
  Forall ev_ok events → url_run events c = Some (out, c') →
  (rsp_Span <$> out) ++ (rsp_Span <$> ec_unMatchedSpans c') ≡ₚ (rsp_Span <$> ec_unMatchedSpans c) ++ (events ≫= ev_spans).
Proof.
  intros Ho. revert c out. induction Ho as [|e events He _ IH]; intros c out; cbn [url_run mbind list_bind]; [intros [= <- <-]; by rewrite app_nil_r|].
  destruct (url_step e c) as [[out1 c1]|] eqn:E1; [|done]. cbn [mbind option_bind].
  destruct (url_run events c1) as [[outs c2]|] eqn:E2; [|done]. cbn [mbind option_bind]. intros [= <- <-].
  rewrite fmap_app, <- app_assoc, (IH _ _ E2), !app_assoc. apply Permutation_app_tail. by apply url_step_once.
Qed.

(** ** Soon *)

(** The spans wait in the order of their times, and none longer than from the last. *)
Definition queued (last : Z) (c : EntryUrlCache) : Prop :=
  StronglySorted Z.le (rsp_ExpireTime <$> ec_unMatchedSpans c) ∧
  Forall (λ u, rsp_ExpireTime u <= last + ec_expireUnMatcheTime c) (ec_unMatchedSpans c).

Lemma rematch_sublist m cached l out rest : rematch m cached l = Some (out, rest) → rest `sublist_of` l.
Proof.
  revert out rest. induction l as [|u l IH]; intros out rest; cbn [rematch]; [by intros [= <- <-]|].
  destruct (rematch m cached l) as [[o r]|]; [|by repeat case_match]. specialize (IH o r eq_refl).
  assert (Some (o, u :: r) = Some (out, rest) → rest `sublist_of` u :: l) as Hkeep by (intros [= <- <-]; by apply sublist_skip).
  case_decide; [|done]. destruct (m !! _); [|done]. destruct (GetEntrySpanName _ _); [|done]. case_bool_decide; [done|].
  intros [= <- <-]. by apply sublist_cons.
Qed.

Lemma match_spans_time m t pid svc cid spans o u :
  match_spans m t pid svc cid spans = Some (o, u) → Forall (λ x, rsp_ExpireTime x = t) u.
Proof.
  revert o u. induction spans as [|sp spans IH]; intros o u; cbn [match_spans]; [by intros [= <- <-]|].
  destruct (match_span m t pid svc cid sp) as [[o1 u1]|] eqn:E1; [|done].
  destruct (match_spans m t pid svc cid spans) as [[o2 u2]|]; [|done]. intros [= <- <-].
  apply Forall_app. split; [|by eapply IH]. unfold match_span in E1.
  repeat case_match; simplify_eq; by repeat constructor.
Qed.

Lemma match_resources_time m t td o u :
  match_resources m t td = Some (o, u) → Forall (λ x, rsp_ExpireTime x = t) u.
Proof.
  revert o u. induction td as [|rs td IH]; intros o u; cbn [match_resources]; [by intros [= <- <-]|].
  destruct (GetResourceAttribute rs) as [[pid svc] cid].
  match goal with |- context [if ?b then ?x else ?y] => destruct (if b then x else y) as [[o1 u1]|] eqn:E1 end; [|done].
  destruct (match_resources m t td) as [[o2 u2]|]; [|done]. intros [= <- <-]. apply Forall_app. split; [|by eapply IH].
  destruct (_ || _); [by injection E1 as <- <-|by eapply match_spans_time].
Qed.

Lemma sorted_sublist (l k : list Z) : k `sublist_of` l → StronglySorted Z.le l → StronglySorted Z.le k.
Proof.
  induction 1 as [|x k l Hs IH|x k l Hs IH]; [done| |]; intros Hl; apply StronglySorted_inv in Hl as [Hl Hx]; [|by apply IH].
  constructor; [by apply IH|]. by eapply Forall_sublist.
Qed.

Lemma sorted_snoc (l k : list Z) (x : Z) :
  StronglySorted Z.le l → Forall (λ y, y <= x) l → Forall (λ y, y = x) k → StronglySorted Z.le (l ++ k).
Proof.
  intros Hl Hx Hk. induction Hl as [|y l Hl IH Hy]; cbn [app].
  - clear Hx. induction Hk as [|z k -> Hk IH]; constructor; [done|]. eapply list.Forall_impl; [exact Hk|]. intros z ->. done.
  - apply list.Forall_cons in Hx as [Hyx Hx]. constructor; [by apply IH|]. apply Forall_app. split; [done|].
    eapply list.Forall_impl; [exact Hk|]. by intros z ->.
Qed.

Lemma message_queued gorder now td c last out c' :
  last <= now → minInt64 <= now + ec_expireUnMatcheTime c <= maxInt64 → queued last c →
  GetMatchedResourceSpans gorder now td c = Some (out, c') → queued now c' ∧ ec_expireUnMatcheTime c' = ec_expireUnMatcheTime c.
Proof.
  intros Hle Hr [Hs Hb]. unfold GetMatchedResourceSpans. destruct (foldS (map_resource gorder) td _) as [[m batch] cached].
  destruct (rematch m cached (ec_unMatchedSpans c)) as [[o1 rest]|] eqn:E1; [|done].
  destruct (match_resources m _ td) as [[o u]|] eqn:E2; [|done]. intros [= <- <-]. split; [|done]. unfold queued. cbn [ec_unMatchedSpans ec_expireUnMatcheTime].
  apply rematch_sublist in E1. apply match_resources_time in E2. rewrite i64_small in E2 by done. rewrite fmap_app.
  assert (Forall (λ x, rsp_ExpireTime x <= now + ec_expireUnMatcheTime c) rest) as Hrest.
  { eapply Forall_sublist; [exact E1|]. eapply list.Forall_impl; [exact Hb|]. cbn. lia. }
  split.
  - apply (sorted_snoc _ _ (now + ec_expireUnMatcheTime c)); [|by apply Forall_fmap|by apply Forall_fmap].
    eapply sorted_sublist; [|exact Hs]. by apply sublist_fmap.
  - apply Forall_app. split; [done|]. eapply list.Forall_impl; [exact E2|]. cbn. lia.
Qed.

Lemma expireIndex_waits now (l : list ResourceSpan) :
  StronglySorted Z.le (rsp_ExpireTime <$> l) → Forall (λ u, now <= rsp_ExpireTime u) (drop (expireIndex now l) l).
Proof.
  induction l as [|u l IH]; [constructor|]. cbn [expireIndex fmap list_fmap]. intros Hs. apply StronglySorted_inv in Hs as [Hs Hu].
  destruct (Z.ltb_spec (rsp_ExpireTime u) now) as [Hlt|Hge]; [by apply IH|]. cbn [drop]. constructor; [done|].
  rewrite list.Forall_fmap in Hu. eapply list.Forall_impl; [exact Hu|]. cbn. lia.
Qed.

Lemma tick_queued now c last :
  last <= now → queued last c → queued now (CleanUnMatchedSpans now c).2 ∧
  Forall (λ u, now <= rsp_ExpireTime u) (ec_unMatchedSpans (CleanUnMatchedSpans now c).2).
Proof.
  intros Hle [Hs Hb]. unfold CleanUnMatchedSpans, queued. cbn [snd ec_unMatchedSpans ec_expireUnMatcheTime]. split; [split|].
  - eapply sorted_sublist; [|exact Hs]. apply sublist_fmap, sublist_drop.
  - eapply Forall_sublist; [apply sublist_drop|]. eapply list.Forall_impl; [exact Hb|]. cbn. lia.
  - by apply expireIndex_waits.
Qed.
(** What a message leaves waiting has waited before or is one of its spans, with its time. *)
Lemma message_waits gorder now td c out c' :
  (∀ m, range_order m (gorder m)) → GetMatchedResourceSpans gorder now td c = Some (out, c') →
  ∀ u, u ∈ ec_unMatchedSpans c' → u ∈ ec_unMatchedSpans c ∨
    rsp_Span u ∈ counted_spans td ∧ rsp_ExpireTime u = i64 (now + ec_expireUnMatcheTime c).
Proof.
  intros Ho. unfold GetMatchedResourceSpans. pose proof (λ s sp rs, map_resources_mapped gorder Ho td s sp rs) as Hm.
  destruct (foldS (map_resource gorder) td _) as [[m batch] cached] eqn:Ef.
  destruct (rematch m cached (ec_unMatchedSpans c)) as [[o1 rest]|] eqn:E1; [|done].
  destruct (match_resources m _ td) as [[o u]|] eqn:E2; [|done]. intros [= <- <-]. cbn [ec_unMatchedSpans].
  intros x [Hx|Hx]%elem_of_app; [left; by eapply elem_of_sublist, rematch_sublist|right]. split.
  - rewrite <- (match_resources_perm m (i64 (now + ec_expireUnMatcheTime c)) td o u); [| |done].
    + apply elem_of_app. right. by apply list_elem_of_fmap_2.
    + intros rs sp Hr Hs. specialize (Hm (ec_entryUrlMap c, ec_idBatch c, ∅) sp rs Hr Hs). by rewrite Ef in Hm.
  - apply match_resources_time in E2. rewrite list.Forall_forall in E2. by apply E2.
Qed.

(** ** Whose

    A span keeps the process of the resource it came with. *)

Definition pid_of_resource (td : Traces) (pid : string) : Prop :=
  ∃ rss, rss ∈ td ∧ 0 < GetPid (ResourceSpans_Resource rss) ∧ pid = FormatInt (GetPid (ResourceSpans_Resource rss)).

Lemma rematch_pid m cached l out rest :
  rematch m cached l = Some (out, rest) → Forall (λ x, rsp_Pid x ∈ (rsp_Pid <$> l)) (out ++ rest).
Proof.
  revert out rest. induction l as [|u l IH]; intros out rest; cbn [rematch]; [intros [= <- <-]; constructor|].
  destruct (rematch m cached l) as [[o r]|]; [|by repeat case_match]. specialize (IH o r eq_refl).
  assert (Forall (λ x, rsp_Pid x ∈ (rsp_Pid <$> u :: l)) (o ++ r)) as Hall
    by (eapply list.Forall_impl; [exact IH|]; intros x Hx; rewrite fmap_cons; by right).
  assert (∀ y, rsp_Pid y = rsp_Pid u → rsp_Pid y ∈ (rsp_Pid <$> u :: l)) as Hu by (intros y ->; rewrite fmap_cons; by left).
  apply Forall_app in Hall as [Ho Hr].
  assert (Some (o, u :: r) = Some (out, rest) → Forall (λ x, rsp_Pid x ∈ (rsp_Pid <$> u :: l)) (out ++ rest)) as Hkeep.
  { intros [= <- <-]. apply Forall_app. split; [done|]. constructor; [by apply Hu|done]. }
  case_decide; [|done]. destruct (m !! _); [|done]. destruct (GetEntrySpanName _ _); [|done]. case_bool_decide; [done|].
  intros [= <- <-]. apply Forall_app. split; [|done]. constructor; [by apply Hu|done].
Qed.

Lemma match_spans_pid m t pid svc cid spans o u :
  match_spans m t pid svc cid spans = Some (o, u) → Forall (λ x, rsp_Pid x = pid) (o ++ u).
Proof.
  revert o u. induction spans as [|sp spans IH]; intros o u; cbn [match_spans]; [intros [= <- <-]; constructor|].
  destruct (match_span m t pid svc cid sp) as [[o1 u1]|] eqn:E1; [|done].
  destruct (match_spans m t pid svc cid spans) as [[o2 u2]|]; [|done]. intros [= <- <-]. rewrite perm_four.
  apply Forall_app. split; [|by apply IH]. unfold match_span in E1. repeat case_match; simplify_eq; by repeat constructor.
Qed.

Lemma GetResourceAttribute_pid rss pid svc cid :
  GetResourceAttribute rss = (pid, svc, cid) → pid ≠ "" →
  0 < GetPid (ResourceSpans_Resource rss) ∧ pid = FormatInt (GetPid (ResourceSpans_Resource rss)).
Proof.
  unfold GetResourceAttribute. destruct (Z.leb_spec (GetPid (ResourceSpans_Resource rss)) 0); [intros [= <- _ _]; done|].
  destruct (Map_Get _ _); [by intros [= <- _ _]|intros [= <- _ _]; done].
Qed.

Lemma match_resources_pid m t td o u :
  match_resources m t td = Some (o, u) → Forall (λ x, pid_of_resource td (rsp_Pid x)) (o ++ u).
Proof.
  revert o u. induction td as [|rs td IH]; intros o u; cbn [match_resources]; [intros [= <- <-]; constructor|].
  destruct (GetResourceAttribute rs) as [[pid svc] cid] eqn:Ea.
  match goal with |- context [if ?b then ?x else ?y] => destruct (if b then x else y) as [[o1 u1]|] eqn:E1 end; [|done].
  destruct (match_resources m t td) as [[o2 u2]|]; [|done]. intros [= <- <-]. rewrite perm_four. apply Forall_app. split.
  - destruct (bool_decide_reflect (pid = "")) as [|Hne]; [injection E1 as <- <-; constructor|].
    destruct (bool_decide (svc = "")); [injection E1 as <- <-; constructor|]. cbn [orb] in E1.
    apply match_spans_pid in E1. eapply list.Forall_impl; [exact E1|]. intros x ->. exists rs. split; [by left|].
    by eapply GetResourceAttribute_pid.
  - eapply list.Forall_impl; [by apply IH|]. intros x (rss & Hin & ?). exists rss. split; [by right|done].
Qed.

Lemma message_pid gorder now td c out c' :
  GetMatchedResourceSpans gorder now td c = Some (out, c') →
  Forall (λ x, rsp_Pid x ∈ (rsp_Pid <$> ec_unMatchedSpans c) ∨ pid_of_resource td (rsp_Pid x)) (out ++ ec_unMatchedSpans c').
Proof.
  unfold GetMatchedResourceSpans. destruct (foldS (map_resource gorder) td _) as [[m batch] cached].
  destruct (rematch m cached (ec_unMatchedSpans c)) as [[o1 rest]|] eqn:E1; [|done].
  destruct (match_resources m _ td) as [[o u]|] eqn:E2; [|done]. intros [= <- <-]. cbn [ec_unMatchedSpans]. rewrite perm_four.
  apply Forall_app. split.
  - eapply list.Forall_impl; [by eapply rematch_pid|]. by left.
  - eapply list.Forall_impl; [by eapply match_resources_pid|]. by right.
Qed.

(** ** Always

    When no span is its own ancestor, no walk is endless and every step ends. *)
Section ranked.
Variable rank : TraceID → SpanID → nat.

Definition ranked_span (sp : Span) : Prop :=
  (rank (Span_TraceID sp) (Span_ParentSpanID sp) < rank (Span_TraceID sp) (Span_SpanID sp))%nat.
Definition ranked_mapping (tid : TraceID) (e : entryUrlMapping) : Prop :=
  ∀ x p, em_pspanIds e !! x = Some p → (rank tid p < rank tid x)%nat.
Definition ranked_traces (td : Traces) : Prop := Forall (λ rs, Forall ranked_span (spansOf rs)) td.

Lemma ranked_acyclic tid e : ranked_mapping tid e → acyclic e.
Proof.
  intros Hr x. assert (∀ n y, (rank tid y < n)%nat → is_Some (GetEntrySpanName_fuel n e y)) as Hn.
  { induction n as [|n IH]; intros y Hy; [lia|]. cbn [GetEntrySpanName_fuel].
    destruct (em_entrySpanNames e !! y); [by eexists|]. destruct (em_pspanIds e !! y) as [p|] eqn:E; [|by eexists].
    apply IH. apply Hr in E. lia. }
  destruct (Hn (S (rank tid x)) x ltac:(lia)) as [r E]. exists r. by eapply fuel_size_enough.
Qed.

Lemma ranked_AddMapping tid spans e :
  Forall (λ sp, ranked_span sp ∧ Span_TraceID sp = tid) spans → ranked_mapping tid e → ranked_mapping tid (AddMapping spans e).
Proof.
  intros Hs. apply foldS_inv. intros sp e' Hin He. rewrite list.Forall_forall in Hs. destruct (Hs sp Hin) as [Hr Ht].
  unfold addSpan, ranked_mapping. intros x p. destruct (Span_Kind sp); cbn [em_pspanIds]; try apply He.
  all: destruct (decide (x = Span_SpanID sp)) as [->|Hne];
    [rewrite lookup_insert_eq; intros [= <-]; by rewrite <- Ht|rewrite lookup_insert_ne by done; apply He].
Qed.

(** The groups of a resource hold spans of their own trace. *)
Lemma groupSpans_spans rs :
  map_Forall (λ tid, Forall (λ sp, sp ∈ spansOf rs ∧ Span_TraceID sp = tid)) (red_groupSpansByTraceId rs).
Proof.
  unfold red_groupSpansByTraceId, spansOf. apply foldS_inv; [|apply map_Forall_empty].
  intros ss m Hss. apply foldS_inv. intros sp m' Hsp Hm. cbn zeta. apply map_Forall_insert_2; [|done].
  apply Forall_app. split.
  - destruct (m' !! _) as [l|] eqn:E; [|constructor]. by apply (Hm _ _ E).
  - constructor; [|constructor]. split; [|done]. apply list_elem_of_join. exists (ScopeSpans_Spans ss).
    split; [done|by apply list_elem_of_fmap_2].
Qed.

Lemma ranked_map_resources gorder td s :
  ranked_traces td → map_Forall ranked_mapping s.1.1 → map_Forall ranked_mapping (foldS (map_resource gorder) td s).1.1.
Proof.
  intros Ht. apply (foldS_inv (λ s, map_Forall ranked_mapping s.1.1)). intros rs s' Hrs. unfold map_resource.
  unfold ranked_traces in Ht. rewrite list.Forall_forall in Ht. specialize (Ht rs Hrs). rewrite list.Forall_forall in Ht.
  apply (foldS_inv (λ s, map_Forall ranked_mapping s.1.1)). intros id [[m batch] cached] _ Hm. cbn [fst] in Hm. unfold map_group.
  destruct (red_groupSpansByTraceId rs !! id) as [spans|] eqn:E; [|done].
  pose proof (groupSpans_spans rs _ _ E) as Hsp. cbn beta in Hsp.
  assert (Forall (λ sp, ranked_span sp ∧ Span_TraceID sp = id) spans) as Hr
    by (eapply list.Forall_impl; [exact Hsp|]; intros sp [Hin ?]; split; [by apply Ht|done]).
  destruct (m !! id) as [e|] eqn:Em; cbn [fst]; apply map_Forall_insert_2; try done; apply ranked_AddMapping; try done.
  by apply (Hm _ _ Em).
Qed.

(** The write index is one of the ring. *)
Definition ring_ok (b : Buckets) : Prop := 0 <= bk_writeIndex b < len (bk_buckets b).
Definition ready (c : EntryUrlCache) : Prop := map_Forall ranked_mapping (ec_entryUrlMap c) ∧ ring_ok (ec_idBuckets c).

Lemma CopyAndGetBatch_ring batch b :
  ring_ok b → ∃ out b', CopyAndGetBatch batch b = Some (out, b') ∧ ring_ok b'.
Proof.
  unfold ring_ok. intros Hb. unfold CopyAndGetBatch.
  destruct (slice_set (bk_buckets b) (bk_writeIndex b) batch) as [l1|] eqn:E1; [|by rewrite slice_set_Some in E1].
  destruct (slice_set_get _ _ _ 0 _ E1) as [Hl _]. set (w := if _ >=? _ then 0 else _).
  assert (0 <= w < len l1) as Hw by (unfold w; rewrite Z.geb_leb; destruct (Z.leb_spec (len l1) (bk_writeIndex b + 1)); lia).
  destruct (slice_get_Some l1 w Hw) as [out ->]. rewrite slice_set_Some by done. eexists _, _. split; [done|].
  unfold len. cbn [bk_writeIndex bk_buckets]. rewrite length_insert. done.
Qed.

Lemma tick_ready c : ready c → ∃ c', CleanExpireBuckets c = Some c' ∧ ready c'.
Proof.
  intros [Hm Hr]. unfold CleanExpireBuckets, PickBatch. destruct (CopyAndGetBatch_ring (wb_batch (ec_idBatch c)) _ Hr) as (ids & b & -> & Hb).
  eexists. split; [done|]. split; [|done]. cbn [ec_entryUrlMap]. apply (foldS_inv (map_Forall ranked_mapping)); [|done].
  intros id m _ Hm'. by apply map_Forall_delete.
Qed.

Lemma message_ready gorder now td c :
  ranked_traces td → ready c → ∃ out c', GetMatchedResourceSpans gorder now td c = Some (out, c') ∧ ready c'.
Proof.
  intros Ht [Hm Hr]. unfold GetMatchedResourceSpans.
  pose proof (ranked_map_resources gorder td (ec_entryUrlMap c, ec_idBatch c, ∅) Ht Hm) as Hm'.
  destruct (foldS (map_resource gorder) td _) as [[m batch] cached]. cbn [fst] in Hm'.
  assert (map_Forall (λ _ e, acyclic e) m) as Ha by (eapply map_Forall_impl; [exact Hm'|]; intros ??; apply ranked_acyclic).
  destruct (rematch_total m cached (ec_unMatchedSpans c) Ha) as [[o1 rest] ->].
  destruct (match_resources_total m (i64 (now + ec_expireUnMatcheTime c)) td Ha) as [[o u] ->]. by do 2 eexists.
Qed.

Definition ev_ranked (e : url_event) : Prop := match e with Ev_message _ _ td => ranked_traces td | Ev_tick _ => True end.

Lemma url_run_ready events c :
  Forall ev_ranked events → ready c → ∃ out c', url_run events c = Some (out, c').
Proof.
  intros He. revert c. induction He as [|e events He _ IH]; intros c Hc; cbn [url_run]; [by do 2 eexists|].
  assert (∃ out c', url_step e c = Some (out, c') ∧ ready c') as (o1 & c1 & -> & Hc1).
  { destruct e as [gorder now td|now]; cbn [url_step]; [by apply message_ready|].
    destruct (tick_ready c Hc) as (c1 & -> & Hc1). do 2 eexists. by split. }
  cbn [mbind option_bind]. destruct (IH c1 Hc1) as (o2 & c2 & ->). by do 2 eexists.
Qed.
End ranked.

(** ** A run *)

(** The clock of the run does not go back, and its times are far from the ends of an int64. *)
Fixpoint clock_from (last : Z) (events : list url_event) : Prop :=
  match events with [] => True | e :: events' => last <= ev_time e ∧ clock_from (ev_time e) events' end.
Fixpoint clock_end (last : Z) (events : list url_event) : Z :=
  match events with [] => last | e :: events' => clock_end (ev_time e) events' end.
Definition in_i64 (expireTime : Z) (e : url_event) : Prop := minInt64 <= ev_time e + expireTime <= maxInt64.

(** A span that waits has come with a message of the run, [expireTime] before it expires. *)
Definition received (expireTime : Z) (events : list url_event) (u : ResourceSpan) : Prop :=
  ∃ gorder now td, Ev_message gorder now td ∈ events ∧ rsp_Span u ∈ counted_spans td ∧ rsp_ExpireTime u = now + expireTime.

Lemma url_step_queued e last c out c' :
  last <= ev_time e → in_i64 (ec_expireUnMatcheTime c) e → queued last c → url_step e c = Some (out, c') →
  queued (ev_time e) c' ∧ ec_expireUnMatcheTime c' = ec_expireUnMatcheTime c.
Proof.
  destruct e as [gorder now td|now]; cbn [url_step ev_time]; unfold in_i64; cbn [ev_time]; intros Hl Hi Hq; [by apply (message_queued _ _ _ _ last)|].
  destruct (CleanExpireBuckets c) as [c1|] eqn:E; [|done]. cbn [mbind option_bind]. intros [= <- <-].
  apply CleanExpireBuckets_held in E as [E1 E2]. split; [|done]. apply (tick_queued now c1 last Hl).
  unfold queued in *. by rewrite E1, E2.
Qed.

Lemma url_run_queued events last c out c' :
  clock_from last events → Forall (in_i64 (ec_expireUnMatcheTime c)) events → queued last c →
  url_run events c = Some (out, c') → queued (clock_end last events) c'.
Proof.
  revert last c out. induction events as [|e events IH]; intros last c out; cbn [url_run clock_from clock_end]; [by intros _ _ ? [= <- <-]|].
  intros [Hl Hc] Hi Hq. apply list.Forall_cons in Hi as [Hi1 Hi].
  destruct (url_step e c) as [[o1 c1]|] eqn:E1; [|done]. cbn [mbind option_bind].
  destruct (url_run events c1) as [[o2 c2]|] eqn:E2; [|done]. cbn [mbind option_bind]. intros [= <- <-].
  destruct (url_step_queued _ _ _ _ _ Hl Hi1 Hq E1) as [Hq1 Ee]. rewrite <- Ee in Hi. by eapply IH.
Qed.

Lemma url_run_received events c out c' :
  Forall ev_ok events → Forall (in_i64 (ec_expireUnMatcheTime c)) events → url_run events c = Some (out, c') →
  ∀ u, u ∈ ec_unMatchedSpans c' → u ∈ ec_unMatchedSpans c ∨ received (ec_expireUnMatcheTime c) events u.
Proof.
  intros Ho. revert c out. induction Ho as [|e events He _ IH]; intros c out Hi; cbn [url_run]; [intros [= <- <-]; by left|].
  apply list.Forall_cons in Hi as [Hi1 Hi]. destruct (url_step e c) as [[o1 c1]|] eqn:E1; [|done]. cbn [mbind option_bind].
  destruct (url_run events c1) as [[o2 c2]|] eqn:E2; [|done]. cbn [mbind option_bind]. intros [= <- <-] u Hu.
  assert (ec_expireUnMatcheTime c1 = ec_expireUnMatcheTime c ∧
    (u ∈ ec_unMatchedSpans c1 → u ∈ ec_unMatchedSpans c ∨ received (ec_expireUnMatcheTime c) (e :: events) u)) as [Ee H1].
  { destruct e as [gorder now td|now]; cbn [url_step] in E1.
    - split; [unfold GetMatchedResourceSpans in E1; repeat case_match; by simplify_eq|].
      intros Hu1. destruct (message_waits _ _ _ _ _ _ He E1 u Hu1) as [?|[Hs Ht]]; [by left|right].
      unfold in_i64 in Hi1. cbn [ev_time] in Hi1. rewrite i64_small in Ht by done. do 3 eexists. split; [by left|done].
    - destruct (CleanExpireBuckets c) as [c2'|] eqn:E; [|done]. cbn [mbind option_bind] in E1. injection E1 as <- <-.
      apply CleanExpireBuckets_held in E as [E E']. split; [done|]. unfold CleanUnMatchedSpans. cbn [snd ec_unMatchedSpans].
      rewrite E. intros Hu1. left. by eapply elem_of_sublist, sublist_drop. }
  rewrite <- Ee in Hi. destruct (IH _ _ Hi E2 u Hu) as [Hu1|(go & t & td & Hin & ? & ?)]; [by apply H1|right].
  rewrite Ee in *. do 3 eexists. split; [by right|done].
Qed.
End runs.

(** C16: Every entry and exit span of a named resource is measured exactly once, and an
    exit span waits for its entry url at most as long as configured: from a new cache any
    sequence of messages and ticks ends - when no span is its own ancestor - and what it
    has measured together with what still waits is, up to order, what came in; and when
    the clock does not go back, a tick at [now] leaves waiting only spans that came with a
    message no longer than [unmatch_url_expire_time] before. *)
Theorem run_measures_once `{PData} cacheUrlTime expireTime c rank events :
  NewEntryUrlCache cacheUrlTime expireTime = inl c → Forall ev_ok events → Forall (ev_ranked rank) events →
  ∃ out c', url_run events c = Some (out, c') ∧
    (rsp_Span <$> out) ++ (rsp_Span <$> ec_unMatchedSpans c') ≡ₚ events ≫= ev_spans ∧
    ∀ start now, clock_from start events → clock_end start events <= now → Forall (in_i64 expireTime) events →
      Forall (λ u, now <= rsp_ExpireTime u ∧ received expireTime events u) (ec_unMatchedSpans (CleanUnMatchedSpans now c').2).
Proof.
  unfold NewEntryUrlCache. destruct (Z.ltb_spec cacheUrlTime 0) as [|Hs]; [done|]. case_match; [done|]. intros [= <-] Ho Hr.
  set (c := Build_EntryUrlCache _ _ _ _ _). assert (ready rank c) as Hready.
  { split; [apply map_Forall_empty|]. unfold ring_ok, c, NewBuckets, len. cbn [ec_idBuckets bk_writeIndex bk_buckets]. rewrite length_replicate. lia. }
  destruct (url_run_ready rank events c Hr Hready) as (out & c' & E). exists out, c'. split; [done|].
  split; [by apply (url_run_once _ c)|]. intros start now Hc Hn Hi.
  assert (queued (clock_end start events) c') as Hq.
  { apply (url_run_queued _ start c out); [done..| |done]. split; [apply SSorted_nil|apply Forall_nil_2]. }
  destruct (tick_queued now c' _ Hn Hq) as [_ Hw]. rewrite list.Forall_forall in Hw |- *. intros u Hu. split; [by apply Hw|].
  assert (u ∈ ec_unMatchedSpans c') as Hu' by (eapply elem_of_sublist; [exact Hu|apply sublist_drop]).
  by destruct (url_run_received events c out c' Ho Hi E u Hu') as [Hin%not_elem_of_nil|?].
Qed.

Definition ex_run : list (url_event (PD := RefPData.pdata)) :=
  [Ev_message (λ m, (map_to_list m).*1) 100 ex_exit_td; Ev_tick 105; Ev_tick 111].

Lemma run_measures_once_witness :
  ∃ c, NewEntryUrlCache (H := RefPData.pdata) 5 10 = inl c ∧
  ∃ out c', url_run ex_run c = Some (out, c') ∧
    (rsp_Span <$> out) ++ (rsp_Span <$> ec_unMatchedSpans c') ≡ₚ [ex_exit] ∧
    Forall (λ u, 111 <= rsp_ExpireTime u ∧ received 10 ex_run u) (ec_unMatchedSpans (CleanUnMatchedSpans 111 c').2).
Proof.
  eexists. split; [reflexivity|].
  match goal with |- context [url_run _ ?c] =>
    destruct (run_measures_once (H := RefPData.pdata) 5 10 c (λ _ x, if decide (x = "s2") then 1%nat else 0%nat) ex_run) as (out & c' & E & Hp & Hq) end.
  - reflexivity.
  - repeat apply Forall_cons_2; [exact range_order_canon|exact I..|apply Forall_nil_2].
  - apply Forall_cons_2; [|apply Forall_cons_2; [exact I|apply Forall_cons_2; [exact I|apply Forall_nil_2]]].
    apply Forall_cons_2; [|apply Forall_nil_2]. apply Forall_cons_2; [|apply Forall_nil_2]. vm_compute. lia.
  - exists out, c'. split; [exact E|]. split; [exact Hp|].
    apply (Hq 100 111); [cbn; lia|cbn; lia|]. repeat apply Forall_cons_2; try apply Forall_nil_2; unfold in_i64; vm_compute; split; congruence.
Defined.
