(* ===== verification/UnmatchedRace.v ===== *)
(** * UnmatchedRace: a tick and the messages that meet it

    [CleanUnMatchedSpans] of [entry_url_mapping.go] takes the lock of the cache only to
    cut what waits: it looks for the expired spans, and takes the slice it hands on,
    without it, while messages - which hold the lock - remove spans in place and append
    others.  Here what waits is a Go slice over an array of a heap, a step of the tick is
    one statement (or one turn of its loop), and a message is one step between two of
    them.  Seen through its slice a message is the one of EntryUrl, and so is a tick that
    meets no message; a tick that does meet some is another matter. *)

From S2P Require Import Prelude GoStrings PData Cache FillProc EntryUrl.

Section slices.
Context `{PD : PData}.
Implicit Types (c : EntryUrlCache) (l : list ResourceSpan).

(** An array: its capacity is the number of its cells, an unused one is [nil]. *)
Abbreviation cells := (list (option ResourceSpan)).
Record slice := { sl_arr : nat; sl_off : nat; sl_len : nat }.
Implicit Types (h : list cells) (s : slice) (a : cells).

Definition array h s : cells := default [] (h !! sl_arr s).
Definition view h s : cells := take (sl_len s) (drop (sl_off s) (array h s)).

(** [append(s[:i], s[i+1:]...)]: what follows moves down, the last cell stays. *)
Definition remove_at (off n i : nat) a : cells :=
  take (off + i) a ++ drop (off + i + 1) (take (off + n) a) ++ drop (off + n - 1) a.

(** How many cells an array that grows from so many elements has to spare. *)
Variable spare : nat → nat.

(** [append(s, x)]: in place, or in a new array. *)
Definition append_one (x : ResourceSpan) (hs : list cells * slice) : list cells * slice :=
  let '(h, s) := hs in
  let a := array h s in
  if bool_decide (sl_off s + sl_len s < length a)%nat
  then (<[sl_arr s := <[(sl_off s + sl_len s)%nat := Some x]> a]> h,
        {| sl_arr := sl_arr s; sl_off := sl_off s; sl_len := S (sl_len s) |})
  else (h ++ [view h s ++ [Some x] ++ replicate (spare (sl_len s)) None],
        {| sl_arr := length h; sl_off := 0; sl_len := S (sl_len s) |}).

(** The second loop of [GetMatchedResourceSpans]: [todo] elements from [index] on. *)
Fixpoint rematch_cells (m : gmap TraceID entryUrlMapping) (cached : gset TraceID) (off todo index : nat) a
    : option (list ResourceSpan * cells * nat) :=
  match todo with
  | O => Some ([], a, index)
  | S todo' =>
      let keep := rematch_cells m cached off todo' (S index) a in
      match mjoin (a !! (off + index)%nat) with
      | None => None
      | Some u =>
          if decide (Span_TraceID (rsp_Span u) ∈ cached) then
            match m !! Span_TraceID (rsp_Span u) with
            | None => keep
            | Some mapping =>
                entryUrl ← GetEntrySpanName mapping (Span_ParentSpanID (rsp_Span u));
                if bool_decide (entryUrl = "") then keep
                else '(out, a, n) ← rematch_cells m cached off todo' index (remove_at off (index + todo) index a);
                     Some (SetEntryUrl entryUrl u :: out, a, n)
            end
          else keep
      end
  end.

(** The cache: the slice of what waits, and the rest of it. *)
Record sliced := { sd_heap : list cells; sd_slice : slice; sd_cache : EntryUrlCache }.

Definition message_slices (gorder : gmap TraceID (list Span) → list TraceID) (now : Z) (td : Traces) (st : sliced)
    : option (list ResourceSpan * sliced) :=
  let c := sd_cache st in
  let s := sd_slice st in
  let '(m, batch, cached) := foldS (map_resource gorder) td (ec_entryUrlMap c, ec_idBatch c, ∅) in
  '(result, a, n) ← rematch_cells m cached (sl_off s) (sl_len s) 0 (array (sd_heap st) s);
  '(o, u) ← match_resources m (i64 (now + ec_expireUnMatcheTime c)) td;
  let '(h, s) := foldS append_one u (<[sl_arr s := a]> (sd_heap st),
                                     {| sl_arr := sl_arr s; sl_off := sl_off s; sl_len := n |}) in
  Some (result ++ o,
        {| sd_heap := h; sd_slice := s;
           sd_cache := {| ec_entryUrlMap := m; ec_unMatchedSpans := ec_unMatchedSpans c; ec_idBatch := batch;
                          ec_idBuckets := ec_idBuckets c; ec_expireUnMatcheTime := ec_expireUnMatcheTime c |} |}).

(** The tick: before the test of the length, before [size], in the loop, before
    [[0:expireIndex]], before the lock, and what it returns. *)
Inductive tick :=
  | T_start
  | T_size (now : Z)
  | T_loop (now : Z) (size index : nat)
  | T_slice (expireIndex : nat)
  | T_lock (expireIndex : nat) (unknownSpans : slice)
  | T_end (unknownSpans : option slice).

(** [None] is a panic. *)
Definition tick_step (now : Z) h s (t : tick) : option (tick * slice) :=
  match t with
  | T_start => Some (if bool_decide (sl_len s = O) then T_end None else T_size now, s)
  | T_size now => Some (T_loop now (sl_len s) 0, s)
  | T_loop now size index =>
      if bool_decide (index < size)%nat then
        match mjoin (view h s !! index) with
        | None => None
        | Some u => Some (if rsp_ExpireTime u <? now then T_loop now size (S index) else T_slice index, s)
        end
      else Some (T_slice index, s)
  | T_slice O => Some (T_end None, s)
  | T_slice n => if bool_decide (sl_off s + n <= length (array h s))%nat
                 then Some (T_lock n {| sl_arr := sl_arr s; sl_off := sl_off s; sl_len := n |}, s)
                 else None
  | T_lock n unknownSpans =>
      if bool_decide (n <= sl_len s)%nat
      then Some (T_end (Some unknownSpans), {| sl_arr := sl_arr s; sl_off := (sl_off s + n)%nat; sl_len := (sl_len s - n)%nat |})
      else None
  | T_end _ => Some (t, s)
  end.

(** What the connector ranges over. *)
Definition handed h (unknownSpans : option slice) : cells :=
  match unknownSpans with None => [] | Some s => view h s end.

Inductive race_event :=
  | R_message (gorder : gmap TraceID (list Span) → list TraceID) (now : Z) (td : Traces)
  | R_tick (now : Z).

(** What messages have measured, the cache and the tick. *)
Definition race_state := (list ResourceSpan * sliced * tick)%type.

Definition race_step (e : race_event) (st : race_state) : option race_state :=
  let '(out, sd, t) := st in
  match e with
  | R_message gorder now td => '(result, sd) ← message_slices gorder now td sd; Some (out ++ result, sd, t)
  | R_tick now => '(t, s) ← tick_step now (sd_heap sd) (sd_slice sd) t;
                  Some (out, {| sd_heap := sd_heap sd; sd_slice := s; sd_cache := sd_cache sd |}, t)
  end.

Fixpoint race_run (events : list race_event) (st : race_state) : option race_state :=
  match events with [] => Some st | e :: events' => st ← race_step e st; race_run events' st end.

(** ** Through the slice *)

(** The slice shows these spans. *)
Definition slice_shows (hs : list cells * slice) l : Prop :=
  let '(h, s) := hs in
  is_Some (h !! sl_arr s) ∧ (sl_off s <= length (array h s))%nat ∧ sl_len s = length l ∧ view h s = Some <$> l.
Definition shows (st : sliced) l : Prop := slice_shows (sd_heap st, sd_slice st) l.

(** The cache of EntryUrl that the slices stand for. *)
Definition abstract (st : sliced) l : EntryUrlCache :=
  let c := sd_cache st in
  {| ec_entryUrlMap := ec_entryUrlMap c; ec_unMatchedSpans := l; ec_idBatch := ec_idBatch c;
     ec_idBuckets := ec_idBuckets c; ec_expireUnMatcheTime := ec_expireUnMatcheTime c |}.

(** What is removed is gone from the middle; the cells behind are still there. *)
Lemma remove_at_spec (off n i : nat) p x q post :
  length p = (off + i)%nat → n = (i + S (length q))%nat →
  remove_at off n i (p ++ x :: q ++ post) = p ++ q ++ drop (length q) (x :: q) ++ post.
Proof.
  intros Hp ->. unfold remove_at. rewrite <- Hp at 1. rewrite take_app_length. do 2 f_equal.
  - rewrite (cons_middle x), (app_assoc p), (app_assoc (p ++ [x])). rewrite take_app_length' by (rewrite !length_app; cbn [length]; lia).
    by rewrite drop_app_length' by (rewrite !length_app; cbn [length]; lia).
  - rewrite drop_app_ge by lia. replace (off + (i + S (length q)) - 1 - length p)%nat with (length q) by lia.
    rewrite app_comm_cons. apply drop_app_le. cbn [length]. lia.
Qed.

(** The loop, at a place in its array. *)
Lemma rematch_cells_spec m cached pre done l post :
  match rematch m cached l with
  | None => rematch_cells m cached (length pre) (length l) (length done) (pre ++ (Some <$> done ++ l) ++ post) = None
  | Some (out, rest) =>
      ∃ post', rematch_cells m cached (length pre) (length l) (length done) (pre ++ (Some <$> done ++ l) ++ post) =
        Some (out, pre ++ (Some <$> done ++ rest) ++ post', length (done ++ rest))
  end.
Proof.
  revert done post. induction l as [|u l IH]; intros done post.
  { cbn [rematch rematch_cells length]. exists post. by rewrite app_nil_r. }
  cbn [rematch rematch_cells length].
  assert (mjoin ((pre ++ (Some <$> done ++ u :: l) ++ post) !! (length pre + length done)%nat) = Some u) as ->.
  { rewrite fmap_app, <- app_assoc, lookup_app_r, Nat.add_comm, Nat.add_sub by lia.
    rewrite lookup_app_r by (by rewrite length_fmap). by rewrite length_fmap, Nat.sub_diag. }
  pose proof (IH (done ++ [u]) post) as Hkeep. rewrite <- app_assoc, length_app in Hkeep. cbn [app length] in Hkeep. rewrite Nat.add_1_r in Hkeep.
  pose proof (IH done (drop (length l) (Some <$> u :: l) ++ post)) as Hout.
  assert (remove_at (length pre) (length done + S (length l)) (length done) (pre ++ (Some <$> done ++ u :: l) ++ post) =
          pre ++ (Some <$> done ++ l) ++ drop (length l) (Some <$> u :: l) ++ post) as ->.
  { pose proof (remove_at_spec (length pre) (length done + S (length l)) (length done) (pre ++ (Some <$> done)) (Some u) (Some <$> l) post) as Hr.
    rewrite length_app, !length_fmap in Hr. rewrite !fmap_app, fmap_cons, <- !app_assoc. rewrite <- !app_assoc in Hr. by apply Hr. }
  destruct (rematch m cached l) as [[out rest]|].
  - destruct Hkeep as [pk Hkeep]. destruct Hout as [po Hout]. rewrite <- app_assoc in Hkeep. cbn [app] in Hkeep. rewrite Hkeep, Hout.
    case_decide; [|by exists pk]. destruct (m !! _) as [mapping|]; [|by exists pk].
    destruct (GetEntrySpanName mapping _) as [url|]; cbn [mbind option_bind]; [|done].
    case_bool_decide; [by exists pk|by exists po].
  - rewrite Hkeep, Hout. case_decide; [|done]. destruct (m !! _) as [mapping|]; [|done].
    destruct (GetEntrySpanName mapping _) as [url|]; cbn [mbind option_bind]; [|done]. by case_bool_decide.
Qed.

Lemma slice_cells h s l :
  slice_shows (h, s) l → ∃ pre post, array h s = pre ++ (Some <$> l) ++ post ∧ length pre = sl_off s.
Proof.
  intros (_ & Ho & Hl & Hv). exists (take (sl_off s) (array h s)), (drop (sl_len s) (drop (sl_off s) (array h s))).
  split; [|rewrite length_take; lia]. rewrite <- Hv. unfold view. by rewrite !take_drop.
Qed.

Lemma cells_slice h ar pre l post n :
  (ar < length h)%nat → n = length l →
  slice_shows (<[ar := pre ++ (Some <$> l) ++ post]> h, {| sl_arr := ar; sl_off := length pre; sl_len := n |}) l.
Proof.
  intros Ha ->. assert (array (<[ar := pre ++ (Some <$> l) ++ post]> h) {| sl_arr := ar; sl_off := length pre; sl_len := length l |} =
    pre ++ (Some <$> l) ++ post) as E by (unfold array; cbn [sl_arr]; by rewrite list_lookup_insert_eq).
  unfold slice_shows, view. cbn [sl_arr sl_off sl_len]. rewrite E. split_and!.
  - rewrite list_lookup_insert_eq by done. by eexists.
  - rewrite length_app. lia.
  - done.
  - rewrite drop_app_length. apply take_app_length'. by rewrite length_fmap.
Qed.

Lemma append_one_shows x hs l : slice_shows hs l → slice_shows (append_one x hs) (l ++ [x]).
Proof.
  destruct hs as [h s]. intros Hs. destruct (slice_cells h s l Hs) as (pre & post & Ha & Hp).
  destruct Hs as ([a Har] & Ho & Hl & Hv). unfold append_one. case_bool_decide as Hc.
  - rewrite Ha, !length_app, length_fmap in Hc. destruct post as [|y post]; [cbn [length] in Hc; lia|].
    replace (<[(sl_off s + sl_len s)%nat := Some x]> (array h s)) with (pre ++ (Some <$> l ++ [x]) ++ post).
    { rewrite <- Hp. apply cells_slice; [by eapply lookup_lt_Some|rewrite length_app; cbn [length]; lia]. }
    rewrite Ha, Hl, <- Hp, fmap_app, <- app_assoc. rewrite insert_app_r. 
    rewrite <- (length_fmap Some l), <- (Nat.add_0_r (length (Some <$> l))), insert_app_r. done.
  - rewrite Hv. unfold slice_shows, view, array. cbn [sl_arr sl_off sl_len]. rewrite lookup_app_r, Nat.sub_diag by done. cbn [lookup list_lookup default from_option drop].
    split_and!; [by eexists|lia|rewrite length_app; cbn [length]; lia|].
    rewrite fmap_app, app_assoc. apply take_app_length'. rewrite length_app, !length_fmap. cbn [length]. lia.
Qed.

Lemma append_shows u hs l : slice_shows hs l → slice_shows (foldS append_one u hs) (l ++ u).
Proof.
  revert hs l. induction u as [|x u IH]; intros hs l Hs; cbn [foldS]; [by rewrite app_nil_r|].
  rewrite (cons_middle x l u), app_assoc. by apply IH, append_one_shows.
Qed.

(** Seen through its slice a message is the one of EntryUrl. *)
Lemma message_shows gorder now td st l :
  shows st l →
  match GetMatchedResourceSpans gorder now td (abstract st l) with
  | None => message_slices gorder now td st = None
  | Some (out, c') => ∃ st', message_slices gorder now td st = Some (out, st') ∧
      shows st' (ec_unMatchedSpans c') ∧ abstract st' (ec_unMatchedSpans c') = c'
  end.
Proof.
  intros Hs. unfold GetMatchedResourceSpans, message_slices, abstract. cbn [ec_entryUrlMap ec_idBatch ec_unMatchedSpans ec_expireUnMatcheTime ec_idBuckets].
  destruct (foldS (map_resource gorder) td _) as [[m batch] cached].
  destruct (slice_cells _ _ _ Hs) as (pre & post & Ha & Hp). destruct Hs as ([a Har] & _ & Hl & _).
  pose proof (rematch_cells_spec m cached pre [] l post) as Hr. cbn [app length] in Hr. rewrite <- Ha, Hp, <- Hl in Hr.
  destruct (rematch m cached l) as [[o1 rest]|]; [|by rewrite Hr]. destruct Hr as [post' ->]. cbn [mbind option_bind].
  destruct (match_resources m _ td) as [[o u]|]; [|done]. cbn [mbind option_bind].
  pose proof (cells_slice (sd_heap st) (sl_arr (sd_slice st)) pre rest post' (length rest) (lookup_lt_Some _ _ _ Har) eq_refl) as Hs'.
  rewrite Hp in Hs'. apply (append_shows u) in Hs'. destruct (foldS append_one u _) as [h s]. eexists. split; [done|]. by split.
Qed.

(** ** A tick that meets no message *)

Definition tick_moves (now : Z) (x y : race_state) : Prop := race_step (R_tick now) x = Some y.

Lemma tick_moves_to now out st t t' s :
  tick_step now (sd_heap st) (sd_slice st) t = Some (t', s) →
  tick_moves now (out, st, t) (out, {| sd_heap := sd_heap st; sd_slice := s; sd_cache := sd_cache st |}, t').
Proof. unfold tick_moves, race_step. by intros ->. Qed.

Lemma tick_stays now out st t t' :
  tick_step now (sd_heap st) (sd_slice st) t = Some (t', sd_slice st) → tick_moves now (out, st, t) (out, st, t').
Proof. intros Ht. apply (tick_moves_to now out) in Ht. by destruct st. Qed.

Lemma tick_loop now now' out st l done todo :
  shows st l → l = done ++ todo →
  rtc (tick_moves now') (out, st, T_loop now (length l) (length done)) (out, st, T_slice (length done + expireIndex now todo)).
Proof.
  intros Hs. revert done. induction todo as [|u todo IH]; intros done El.
  - apply rtc_once, tick_stays. cbn [tick_step expireIndex]. rewrite El, app_nil_r, Nat.add_0_r. by rewrite bool_decide_eq_false_2 by lia.
  - assert (tick_step now' (sd_heap st) (sd_slice st) (T_loop now (length l) (length done)) =
      Some (if rsp_ExpireTime u <? now then T_loop now (length l) (S (length done)) else T_slice (length done), sd_slice st)) as Ht.
    { cbn [tick_step]. rewrite bool_decide_eq_true_2 by (rewrite El, length_app; cbn [length]; lia).
      destruct Hs as (_ & _ & _ & ->). rewrite list_lookup_fmap, El, list_lookup_middle by done. done. }
    eapply rtc_l; [by apply tick_stays|]. cbn [expireIndex]. destruct (_ <? _); [|by rewrite Nat.add_0_r].
    specialize (IH (done ++ [u])). rewrite length_app, <- app_assoc in IH. cbn [app length] in IH. specialize (IH El).
    by rewrite Nat.add_1_r, Nat.add_succ_l, <- Nat.add_succ_r in IH.
Qed.

Lemma expireIndex_le now l : (expireIndex now l <= length l)%nat.
Proof. induction l as [|u l IH]; cbn [expireIndex length]; [done|]. destruct (_ <? _); lia. Qed.

(** Cutting the first [n]: both parts. *)
Lemma cut_shows st l n :
  shows st l → (n <= length l)%nat →
  let s := sd_slice st in
  view (sd_heap st) {| sl_arr := sl_arr s; sl_off := sl_off s; sl_len := n |} = Some <$> take n l ∧
  shows {| sd_heap := sd_heap st; sd_slice := {| sl_arr := sl_arr s; sl_off := sl_off s + n; sl_len := sl_len s - n |};
           sd_cache := sd_cache st |} (drop n l).
Proof.
  intros Hs Hn s. destruct (slice_cells _ _ _ Hs) as (pre & post & Ha & Hp). destruct Hs as (Har & Ho & Hl & Hv).
  unfold shows, slice_shows, view, array in *. cbn [sd_heap sd_slice sl_arr sl_off sl_len] in *. fold s in Har, Ho, Hl, Hv, Ha, Hp.
  assert ((Some <$> l) ++ post = (Some <$> take n l) ++ (Some <$> drop n l) ++ post) as E
    by (by rewrite app_assoc, <- fmap_app, take_drop).
  rewrite Ha, <- Hp, E. assert (length (Some <$> take n l) = n) as Ht by (rewrite length_fmap, length_take; lia).
  rewrite drop_app_length. split; [by apply take_app_length'|]. split_and!; [done| | |].
  - rewrite !length_app, Ht. lia.
  - rewrite length_drop. lia.
  - rewrite (app_assoc pre), drop_app_length' by (rewrite length_app; lia). apply take_app_length'.
    rewrite length_fmap, length_drop. lia.
Qed.

Lemma tick_alone now out st l :
  shows st l →
  ∃ unknownSpans st', rtc (tick_moves now) (out, st, T_start) (out, st', T_end unknownSpans) ∧
    let '(expired, c') := CleanUnMatchedSpans now (abstract st l) in
    handed (sd_heap st') unknownSpans = Some <$> expired ∧ shows st' (ec_unMatchedSpans c') ∧ abstract st' (ec_unMatchedSpans c') = c'.
Proof.
  intros Hs. pose proof Hs as (_ & Ho & Hl & Hv). unfold CleanUnMatchedSpans, abstract. cbn [ec_unMatchedSpans ec_entryUrlMap ec_idBatch ec_idBuckets ec_expireUnMatcheTime].
  destruct (decide (sl_len (sd_slice st) = O)) as [E0|E0].
  { exists None, st. split; [apply rtc_once, tick_stays; cbn [tick_step]; by rewrite bool_decide_eq_true_2|].
    destruct l; [|cbn [length] in Hl; lia]. cbn [expireIndex take drop]. by split_and!. }
  pose proof (expireIndex_le now l) as Hn.
  assert (rtc (tick_moves now) (out, st, T_start) (out, st, T_slice (expireIndex now l))) as Hloop.
  { eapply rtc_l; [apply tick_stays; cbn [tick_step]; by rewrite bool_decide_eq_false_2|].
    eapply rtc_l; [by apply tick_stays|]. rewrite Hl. by apply (tick_loop now now out st l []). }
  destruct (cut_shows st l (expireIndex now l) Hs Hn) as [Hcut Hrest].
  destruct (expireIndex now l) as [|n].
  - exists None, st. split; [eapply rtc_r; [exact Hloop|by apply tick_stays]|]. cbn [take drop]. by split_and!.
  - eexists (Some _), {| sd_heap := sd_heap st; sd_slice := _; sd_cache := sd_cache st |}.
    split; [|split_and!; [exact Hcut|exact Hrest|done]].
    eapply rtc_r; [eapply rtc_r; [exact Hloop|]|].
    + apply tick_stays. cbn [tick_step]. rewrite bool_decide_eq_true_2; [done|].
      destruct (slice_cells _ _ _ Hs) as (pre & post & -> & <-). rewrite !length_app, length_fmap. lia.
    + apply tick_moves_to. cbn [tick_step]. rewrite bool_decide_eq_true_2 by lia. done.
Qed.

(** ** A tick that meets one *)

Lemma lock_panics now out st l n unknownSpans :
  shows st l → race_step (R_tick now) (out, st, T_lock n unknownSpans) = None ↔ (length l < n)%nat.
Proof.
  intros (_ & _ & Hl & _). unfold race_step. cbn [tick_step]. rewrite Hl. case_bool_decide; cbn [mbind option_bind]; split; intros; (done || lia).
Qed.
End slices.

(** ** Two runs *)

(** The cache that starts, and capacities that double as they do for short slices. *)
Definition sliced_new `{PData} (c : EntryUrlCache) : sliced :=
  {| sd_heap := [[]]; sd_slice := {| sl_arr := 0; sl_off := 0; sl_len := 0 |}; sd_cache := c |}.
Definition doubling (n : nat) : nat := pred n.

Lemma sliced_new_shows `{PData} c : shows (sliced_new c) [].
Proof. split_and!; cbn; [by eexists|done..]. Qed.

Definition ex_span (tid id parent : string) (kind : SpanKind) : Span (H := RefPData.pdata) :=
  {| Span_TraceID := tid; Span_SpanID := id; Span_ParentSpanID := parent; Span_Name := "GET";
     Span_Kind := kind; Span_StartTimestamp := 1; Span_EndTimestamp := 2;
     Span_Attributes := @Map_New RefPData.pdata; Span_Status := StatusCodeOk |}.
Definition ex_message (now : Z) (spans : list (Span (H := RefPData.pdata))) : race_event (PD := RefPData.pdata) :=
  R_message (λ m, (map_to_list m).*1) now
    [{| ResourceSpans_Resource :=
          Map_PutInt (H := RefPData.pdata) "process.pid" 7
            (Map_PutStr (H := RefPData.pdata) "service.name" "svc" (@Map_New RefPData.pdata));
        ResourceSpans_ScopeSpans := [{| ScopeSpans_Spans := spans |}] |}].

(** An exit span expires; its entry span comes between the tick's scan and its lock. *)
Definition ex_late_entry : list (race_event (PD := RefPData.pdata)) :=
  ex_message 100 [ex_span "t1" "a" "p1" SpanKindClient] ::
  replicate 5 (R_tick 111) ++ [ex_message 111 [ex_span "t1" "p1" "" SpanKindServer]; R_tick 111].

(** Two expire; two others come in, into a new array, and then the entry span. *)
Definition ex_new_array : list (race_event (PD := RefPData.pdata)) :=
  ex_message 100 [ex_span "t1" "a" "p1" SpanKindClient; ex_span "t1" "b" "p1" SpanKindClient] ::
  replicate 6 (R_tick 111) ++
  [ex_message 111 [ex_span "t2" "c" "p2" SpanKindClient; ex_span "t2" "d" "p2" SpanKindClient];
   ex_message 111 [ex_span "t1" "p1" "" SpanKindServer]; R_tick 111].

(** The ids measured by messages, handed on by the tick, and waiting. *)
Definition ids_of (st : race_state (PD := RefPData.pdata)) : list string * list string * list string :=
  let '(out, sd, t) := st in
  let ids a := Span_SpanID ∘ rsp_Span <$> omap id a in
  (Span_SpanID ∘ rsp_Span <$> out,
   match t with T_end unknownSpans => ids (handed (sd_heap sd) unknownSpans) | _ => [] end,
   ids (view (sd_heap sd) (sd_slice sd))).

(** C17: A tick that meets no message is the atomic [CleanUnMatchedSpans] of EntryUrl on
    what waits, statement by statement, and a message seen through the slice is
    [GetMatchedResourceSpans]; but the tick looks for the expired spans without the lock
    of the cache, and when messages have left fewer spans waiting than it means to cut,
    the slice expression under the lock panics.  From a new cache one exit span whose
    entry span comes as it expires is enough to stop the collector; and when the slice
    has moved to a new array meanwhile, spans are measured a second time by the tick while
    as many others are dropped unmeasured. *)
Theorem tick_race `{PData} (spare : nat → nat) :
  (∀ now out st l, shows st l →
     ∃ unknownSpans st', rtc (tick_moves spare now) (out, st, T_start) (out, st', T_end unknownSpans) ∧
       let '(expired, c') := CleanUnMatchedSpans now (abstract st l) in
       handed (sd_heap st') unknownSpans = Some <$> expired ∧ shows st' (ec_unMatchedSpans c') ∧ abstract st' (ec_unMatchedSpans c') = c') ∧
  (∀ gorder now td st l, shows st l →
     match GetMatchedResourceSpans gorder now td (abstract st l) with
     | None => message_slices spare gorder now td st = None
     | Some (out, c') => ∃ st', message_slices spare gorder now td st = Some (out, st') ∧
         shows st' (ec_unMatchedSpans c') ∧ abstract st' (ec_unMatchedSpans c') = c'
     end) ∧
  (∀ now out st l n unknownSpans, shows st l →
     race_step spare (R_tick now) (out, st, T_lock n unknownSpans) = None ↔ (length l < n)%nat) ∧
  (∃ c, NewEntryUrlCache (H := RefPData.pdata) 5 10 = inl c ∧
     ids_of <$> race_run doubling (take 7 ex_late_entry) ([], sliced_new c, T_start) = Some (["a"; "p1"], [], []) ∧
     race_run doubling ex_late_entry ([], sliced_new c, T_start) = None ∧
     ids_of <$> race_run doubling ex_new_array ([], sliced_new c, T_start) = Some (["a"; "b"; "p1"], ["a"; "b"], [])).
Proof.
  split_and!; [intros; by apply tick_alone|intros; by apply message_shows|intros; by apply lock_panics|].
  eexists. split; [reflexivity|]. split_and!; vm_compute; reflexivity.
Qed.
