(* ===== verification/SqlPrune.v ===== *)
(** * SqlPrune: the operation and the tables of a sql statement

    Models [pkg/sqlprune/sqlparser.go].  The tokenizer and the parser of
    [xwb1989/sqlparser] are the class [SqlParser]: the tokens of a query up to the
    end of the input (after which [Scan] keeps answering 0), the codes of its
    named tokens, and the syntax tree of a statement as [reflect] shows it. *)

From S2P Require Import Prelude GoStrings.

(** A Go value as [reflect] walks it: a struct with the name of its type and its
    fields, an array or slice, an interface with the name of its static type and
    the value it holds ([None] for nil), a pointer, a string; other kinds hold
    nothing the walk looks at. *)
Inductive GoValue :=
  | VStruct (type : string) (fields : list (string * GoValue))
  | VSlice (elems : list GoValue)
  | VInterface (type : string) (value : option GoValue)
  | VPtr (value : option GoValue)
  | VString (s : string)
  | VOther.

Class SqlParser := {
  tok_ID : Z; tok_VALUE_ARG : Z; tok_COMMENT : Z; tok_LEX_ERROR : Z;
  tok_TABLE : Z; tok_FROM : Z; tok_INTO : Z; tok_UPDATE : Z; tok_JOIN : Z;
  (** SELECT, STREAM, INSERT, DELETE, SET, CREATE, ALTER, DROP, ANALYZE, RENAME,
      SHOW, USE, DESCRIBE, EXPLAIN, TRUNCATE, REPAIR, OPTIMIZE, BEGIN, START,
      COMMIT, ROLLBACK and REPLACE, in this order *)
  tok_operations : list Z;
  Tokens : string → list (Z * string);
  Parse : string → option GoValue;
}.

(** goyacc numbers the named tokens from 57346 on and apart; a token of one
    character is the character's code. *)
Class SqlParserLaws (P : SqlParser) : Prop := {
  tok_NoDup : NoDup ([tok_ID; tok_VALUE_ARG; tok_COMMENT; tok_LEX_ERROR; tok_TABLE; tok_FROM;
                      tok_INTO; tok_UPDATE; tok_JOIN] ++ tok_operations);
  tok_named : Forall (λ t, 57346 <= t)
                ([tok_ID; tok_VALUE_ARG; tok_COMMENT; tok_LEX_ERROR; tok_TABLE; tok_FROM;
                  tok_INTO; tok_UPDATE; tok_JOIN] ++ tok_operations);
}.

Section sqlprune.
Context `{SqlParser}.

(** ** SQLParseOperationAndTable *)

(** [tokenIsDBOperation] *)
Definition tokenIsDBOperation (t : Z) : bool := bool_decide (t = tok_UPDATE ∨ t ∈ tok_operations).

(** The variables of the loop. *)
Record pruneState := {
  ps_operation : string;
  ps_lastType : Z;
  ps_tables : list string;
  ps_addedTable : bool;
  ps_addMoreTables : bool;
}.

Definition prune_init : pruneState :=
  {| ps_operation := ""; ps_lastType := 0; ps_tables := []; ps_addedTable := false;
     ps_addMoreTables := false |}.

Definition set_operation (t : Z) (data : string) (s : pruneState) : pruneState :=
  if bool_decide (ps_operation s = "") && tokenIsDBOperation t then
    {| ps_operation := ToUpper data; ps_lastType := ps_lastType s; ps_tables := ps_tables s;
       ps_addedTable := ps_addedTable s; ps_addMoreTables := ps_addMoreTables s |}
  else s.

Definition set_addMoreTables (s : pruneState) : pruneState :=
  {| ps_operation := ps_operation s; ps_lastType := ps_lastType s; ps_tables := ps_tables s;
     ps_addedTable := ps_addedTable s; ps_addMoreTables := true |}.

Definition set_tables (l : list string) (s : pruneState) : pruneState :=
  {| ps_operation := ps_operation s; ps_lastType := ps_lastType s; ps_tables := l;
     ps_addedTable := ps_addedTable s; ps_addMoreTables := ps_addMoreTables s |}.

(** The tokens after which a name is a table. *)
Definition introduces (lastType : Z) : bool :=
  (lastType =? tok_TABLE) || (lastType =? tok_FROM) || (lastType =? tok_INTO)
  || (lastType =? tok_UPDATE) || (lastType =? tok_JOIN).

Definition token_step (t : Z) (data : string) (s : pruneState) : pruneState :=
  let last := if negb (t =? tok_COMMENT) then t else ps_lastType s in
  if (t =? tok_ID) || (t =? tok_VALUE_ARG) then
    if introduces (ps_lastType s) || ps_addMoreTables s then
      {| ps_operation := ps_operation s; ps_lastType := last;
         ps_tables := ps_tables s ++ [if t =? tok_VALUE_ARG then "?" else data];
         ps_addedTable := true; ps_addMoreTables := false |}
    else
      {| ps_operation := ps_operation s; ps_lastType := last; ps_tables := ps_tables s;
         ps_addedTable := ps_addedTable s; ps_addMoreTables := ps_addMoreTables s |}
  else
    {| ps_operation := ps_operation s; ps_lastType := last; ps_tables := ps_tables s;
       ps_addedTable := false; ps_addMoreTables := ps_addMoreTables s |}.

(** [tables[len(tables)-1] = tables[len(tables)-1] + "." + data] *)
Definition qualify_last (data : string) (tables : list string) : option (list string) :=
  match slice_get tables (len tables - 1) with
  | Some t => slice_set tables (len tables - 1) (t +:+ "." +:+ data)
  | None => None
  end.

(** The loop; [None] is the panic of an index out of range. *)
Fixpoint prune_loop (tokens : list (Z * string)) (s : pruneState) : option pruneState :=
  match tokens with
  | [] => Some s
  | (t, data) :: rest =>
      if t =? 0 then Some s
      else if t =? tok_LEX_ERROR then Some s
      else
        let s := set_operation t data s in
        if (t =? 44) && ps_addedTable s then prune_loop rest (set_addMoreTables s)
        else if (t =? 46) && ps_addedTable s then
          match rest with
          | [] => Some (token_step 0 "" s)
          | (t2, data2) :: rest2 =>
              if t2 =? tok_ID then
                match qualify_last data2 (ps_tables s) with
                | Some tables => prune_loop rest2 (set_tables tables s)
                | None => None
                end
              else prune_loop rest2 (token_step t2 data2 s)
          end
        else prune_loop rest (token_step t data s)
  end.

Definition SQLParseOperationAndTable (query : string) : option (string * string) :=
  match prune_loop (Tokens query) prune_init with
  | None => None
  | Some s =>
      let tables := if (len (ps_tables s) >? 1) && negb (bool_decide (ps_operation s = "SELECT"))
                    then take 1 (ps_tables s) else ps_tables s in
      Some (ps_operation s, Join "," tables)
  end.

(** ** getTableNames and SQLParseOperationAndTableNEW *)

Definition Indirect (v : option GoValue) : option GoValue :=
  match v with Some (VPtr v') => v' | _ => v end.

(** [v.FieldByName("v").String()]: "<invalid Value>" when there is no such field,
    "<T Value>" when it is no string - which no type named [TableIdent] has. *)
Definition field_v (fields : list (string * GoValue)) : string :=
  match list_find (λ f, f.1 = "v") fields with
  | Some (_, (_, VString s)) => s
  | _ => "<invalid Value>"
  end.

(** [tables] is only appended to: the names found are returned. *)
Fixpoint getTableNames (v : GoValue) (isTable : bool) : list string :=
  let indirect v := match v with
                    | VPtr None => []
                    | VPtr (Some v') => getTableNames v' isTable
                    | _ => getTableNames v isTable
                    end in
  match v with
  | VStruct type fields =>
      if bool_decide (type = "TableIdent") then
        let tableName := field_v fields in
        if negb (bool_decide (tableName = "")) && isTable then [tableName] else []
      else (fix go fields := match fields with
                             | [] => []
                             | (_, f) :: fields' => indirect f ++ go fields'
                             end) fields
  | VSlice elems =>
      (fix go elems := match elems with
                       | [] => []
                       | e :: elems' => indirect e ++ go elems'
                       end) elems
  | VInterface type value =>
      let isTable' := bool_decide (type = "SimpleTableExpr") || isTable in
      match value with
      | None => []
      | Some (VPtr None) => []
      | Some (VPtr (Some v')) => getTableNames v' isTable'
      | Some v' => getTableNames v' isTable'
      end
  | _ => []
  end.

Definition SQLParseOperationAndTableNEW (query : string) : option (string * string) :=
  match Parse query with
  | None => SQLParseOperationAndTable query
  | Some stmt =>
      match Indirect (Some stmt) with
      | None => Some ("", "")
      | Some v => match getTableNames v false with
                  | [] => Some ("", "")
                  | t :: _ => Some ("SELECT", t)
                  end
      end
  end.

(** ** No index out of range *)

(** A table that was just added is in the list. *)
Definition prune_ok (s : pruneState) : Prop := ps_addedTable s = true → ps_tables s ≠ [].

Lemma qualify_last_app data l t :
  qualify_last data (l ++ [t]) = Some (l ++ [t +:+ "." +:+ data]).
Proof.
  unfold qualify_last. rewrite len_app. replace (len l + len [t] - 1) with (len l) by done || (unfold len; simpl; lia).
  assert (slice_get (l ++ [t]) (len l) = Some t) as ->.
  { unfold slice_get, len. rewrite Nat2Z.id. destruct (Z.leb_spec 0 (Z.of_nat (length l))); [|lia].
    by rewrite lookup_app_r, Nat.sub_diag by lia. }
  rewrite slice_set_Some by (rewrite len_app; unfold len; simpl; lia). f_equal.
  unfold len. rewrite Nat2Z.id. replace (length l) with (length l + 0)%nat by lia.
  by rewrite insert_app_r.
Qed.

Lemma qualify_last_Some data l :
  l ≠ [] → ∃ l', qualify_last data l = Some l' ∧ l' ≠ [].
Proof.
  destruct l as [|t l _] using rev_ind; [done|]. intros _. rewrite qualify_last_app.
  eexists. split; [done|]. by destruct l.
Qed.

Lemma set_operation_frame t data s :
  ps_lastType (set_operation t data s) = ps_lastType s ∧
  ps_tables (set_operation t data s) = ps_tables s ∧
  ps_addedTable (set_operation t data s) = ps_addedTable s ∧
  ps_addMoreTables (set_operation t data s) = ps_addMoreTables s.
Proof. unfold set_operation. by case_match. Qed.

Lemma token_step_ok t data s : prune_ok s → prune_ok (token_step t data s).
Proof.
  unfold prune_ok, token_step. intros Hs. repeat case_match; simpl; try done.
  all: intros _; by destruct (ps_tables s).
Qed.

Lemma set_operation_ok t data s : prune_ok s → prune_ok (set_operation t data s).
Proof.
  unfold prune_ok. by destruct (set_operation_frame t data s) as (_ & -> & -> & _).
Qed.

Lemma prune_loop_Some tokens s : prune_ok s → is_Some (prune_loop tokens s).
Proof.
  revert s. induction tokens as [|[t d] IH0|[t d] [t2 d2] rest IH IH'] using list_ind2; intros s Hs.
  - by eexists.
  - simpl. apply (set_operation_ok t d) in Hs. repeat case_match; by eexists.
  - apply (set_operation_ok t d) in Hs. cbn [prune_loop]. set (s1 := set_operation t d s) in *.
    clearbody s1. destruct (t =? 0); [by eexists|]. destruct (t =? tok_LEX_ERROR); [by eexists|].
    destruct ((t =? 44) && ps_addedTable s1) eqn:E1.
    { apply IH'. intros _. bool_facts. by apply Hs. }
    destruct ((t =? 46) && ps_addedTable s1) eqn:E2; [|by apply IH', token_step_ok].
    destruct (t2 =? tok_ID); [|by apply IH, token_step_ok]. bool_facts.
    destruct (qualify_last_Some d2 (ps_tables s1)) as (l' & -> & Hl'); [by apply Hs|].
    apply IH. by intros _.
Qed.

(** ** What the loop returns *)

(** The tokens of [a.b, c, ...]: commas and dots are 44 and 46. *)
Definition name_tokens (n : option string * string) : list (Z * string) :=
  match n with
  | (None, t) => [(tok_ID, t)]
  | (Some d, t) => [(tok_ID, d); (46, "."); (tok_ID, t)]
  end.

Fixpoint table_tokens (names : list (option string * string)) : list (Z * string) :=
  match names with
  | [] => []
  | [n] => name_tokens n
  | n :: names' => name_tokens n ++ (44, ",") :: table_tokens names'
  end.

Definition full_name (n : option string * string) : string :=
  match n with
  | (None, t) => t
  | (Some d, t) => d +:+ "." +:+ t
  end.

(** A token that introduces no table and does not end the loop. *)
Definition quiet (t : Z * string) : Prop :=
  t.1 ≠ 0 ∧ t.1 ≠ tok_LEX_ERROR ∧ introduces t.1 = false.

(** A token that ends a list of tables. *)
Definition ends_tables (t : Z * string) : Prop :=
  t.1 ≠ tok_ID ∧ t.1 ≠ tok_VALUE_ARG ∧ t.1 ≠ 44 ∧ t.1 ≠ 46.

Context `{!SqlParserLaws _}.

Local Abbreviation St op last l added more :=
  {| ps_operation := op; ps_lastType := last; ps_tables := l; ps_addedTable := added;
     ps_addMoreTables := more |}.

Lemma tok_facts :
  57346 <= tok_ID ∧ 57346 <= tok_FROM ∧ tok_FROM ≠ tok_ID ∧ tok_FROM ≠ tok_VALUE_ARG ∧
  tok_FROM ≠ tok_COMMENT ∧ tok_FROM ≠ tok_LEX_ERROR ∧ tok_ID ≠ tok_VALUE_ARG ∧
  tok_ID ≠ tok_COMMENT ∧ tok_ID ≠ tok_LEX_ERROR.
Proof.
  pose proof tok_named as Hn. pose proof tok_NoDup as Hd. simpl in *.
  repeat (apply Forall_cons_1 in Hn as [? Hn]). rewrite !list.NoDup_cons, !not_elem_of_cons in Hd.
  destruct_and!. split_and!; first [assumption | apply not_eq_sym; assumption].
Qed.

Lemma introduces_false t :
  introduces t = false ↔
    t ≠ tok_TABLE ∧ t ≠ tok_FROM ∧ t ≠ tok_INTO ∧ t ≠ tok_UPDATE ∧ t ≠ tok_JOIN.
Proof. unfold introduces. rewrite !orb_false_iff, !Z.eqb_neq. tauto. Qed.

Lemma set_operation_done t data op last l added more :
  op ≠ "" → set_operation t data (St op last l added more) = St op last l added more.
Proof. intros Hop. unfold set_operation. simpl. by rewrite bool_decide_eq_false_2. Qed.

Lemma loop_quiet tokens op last l :
  Forall quiet tokens → op ≠ "" → introduces last = false →
  ∃ last', introduces last' = false ∧
    ∀ rest, prune_loop (tokens ++ rest) (St op last l false false) =
            prune_loop rest (St op last' l false false).
Proof.
  intros Hq Hop. revert last. induction Hq as [|[t d] tokens (H0 & Hlex & Hin) Hq IH]; intros last Hl.
  - by exists last.
  - simpl in *. set (last1 := if negb (t =? tok_COMMENT) then t else last).
    assert (introduces last1 = false) as Hl1 by (unfold last1; by case_match).
    destruct (IH _ Hl1) as (last' & Hl' & E). exists last'. split; [done|]. intros rest.
    rewrite <- E. destruct (Z.eqb_spec t 0); [done|]. destruct (Z.eqb_spec t tok_LEX_ERROR); [done|].
    rewrite set_operation_done by done. cbn [ps_addedTable]. rewrite !andb_false_r.
    f_equal. unfold token_step. cbn. rewrite Hl. by case_match.
Qed.

Lemma loop_from f rest op last l :
  op ≠ "" → prune_loop ((tok_FROM, f) :: rest) (St op last l false false) =
            prune_loop rest (St op tok_FROM l false false).
Proof.
  intros Hop. pose proof tok_facts as Hf. cbn [prune_loop].
  destruct (Z.eqb_spec tok_FROM 0); [lia|]. destruct (Z.eqb_spec tok_FROM tok_LEX_ERROR); [lia|].
  rewrite set_operation_done by done. cbn [ps_addedTable]. rewrite !andb_false_r. f_equal.
  unfold token_step. destruct (Z.eqb_spec tok_FROM tok_ID); [lia|].
  destruct (Z.eqb_spec tok_FROM tok_VALUE_ARG); [lia|].
  by destruct (Z.eqb_spec tok_FROM tok_COMMENT); [lia|].
Qed.

Lemma loop_name n rest op last l added more :
  op ≠ "" → introduces last || more = true →
  prune_loop (name_tokens n ++ rest) (St op last l added more) =
  prune_loop rest (St op tok_ID (l ++ [full_name n]) true false).
Proof.
  intros Hop Hin. pose proof tok_facts as Hf.
  assert (∀ d rest', prune_loop ((tok_ID, d) :: rest') (St op last l added more) =
                     prune_loop rest' (St op tok_ID (l ++ [d]) true false)) as Hid.
  { intros d rest'. cbn [prune_loop].
    destruct (Z.eqb_spec tok_ID 0); [lia|]. destruct (Z.eqb_spec tok_ID tok_LEX_ERROR); [lia|].
    destruct (Z.eqb_spec tok_ID 44); [lia|]. destruct (Z.eqb_spec tok_ID 46); [lia|].
    rewrite set_operation_done by done. cbn. f_equal. unfold token_step. cbn. rewrite Hin, Z.eqb_refl.
    destruct (Z.eqb_spec tok_ID tok_VALUE_ARG); [lia|].
    by destruct (Z.eqb_spec tok_ID tok_COMMENT); [lia|]. }
  destruct n as [[d|] t]; simpl name_tokens; simpl app; rewrite Hid; [|done].
  pose proof tok_named as Hn. simpl in Hn. repeat (apply Forall_cons_1 in Hn as [? Hn]).
  cbn [prune_loop]. destruct (Z.eqb_spec 46 tok_LEX_ERROR); [lia|]. cbn.
  rewrite set_operation_done by done. cbn. rewrite Z.eqb_refl, qualify_last_app. done.
Qed.

Lemma loop_tables names rest op last l added more :
  names ≠ [] → op ≠ "" → introduces last || more = true →
  prune_loop (table_tokens names ++ rest) (St op last l added more) =
  prune_loop rest (St op tok_ID (l ++ (full_name <$> names)) true false).
Proof.
  intros Hne Hop. revert last l added more.
  induction names as [|n [|n' names] IH]; intros last l added more Hin; [done| |].
  - simpl. by rewrite loop_name.
  - change (table_tokens (n :: n' :: names))
      with (name_tokens n ++ (44, ",") :: table_tokens (n' :: names)).
    rewrite <- app_assoc, loop_name by done. simpl app.
    pose proof tok_named as Hn. simpl in Hn. repeat (apply Forall_cons_1 in Hn as [? Hn]).
    cbn [prune_loop]. destruct (Z.eqb_spec 44 tok_LEX_ERROR); [lia|]. cbn.
    rewrite set_operation_done by done. cbn [ps_addedTable]. unfold set_addMoreTables. cbn.
    rewrite IH by (done || apply orb_true_r). by rewrite <- app_assoc.
Qed.

Lemma loop_tail tail op l :
  op ≠ "" → Forall quiet tail → (∀ t rest, tail = t :: rest → ends_tables t) →
  ∃ last' added, prune_loop tail (St op tok_ID l true false) = Some (St op last' l added false).
Proof.
  intros Hop Hq He. destruct tail as [|[t d] tail]; [by do 2 eexists|].
  destruct (He _ _ eq_refl) as (H1 & H2 & H3 & H4). apply Forall_cons_1 in Hq as [(Q1 & Q2 & Q3) Hq].
  simpl in *. destruct (Z.eqb_spec t 0); [done|]. destruct (Z.eqb_spec t tok_LEX_ERROR); [done|].
  rewrite set_operation_done by done. destruct (Z.eqb_spec t 44); [done|].
  destruct (Z.eqb_spec t 46); [done|]. cbn. unfold token_step.
  destruct (Z.eqb_spec t tok_ID); [done|]. destruct (Z.eqb_spec t tok_VALUE_ARG); [done|]. cbn.
  edestruct (loop_quiet tail op (if negb (t =? tok_COMMENT) then t else tok_ID) l) as (last' & _ & E);
    [done..| |].
  - case_match; [done|]. pose proof tok_named as Hn. pose proof tok_NoDup as Hd. simpl in *.
    repeat (apply Forall_cons_1 in Hn as [? Hn]). rewrite !list.NoDup_cons, !not_elem_of_cons in Hd.
    rewrite introduces_false. destruct_and!. split_and!; first [assumption | apply not_eq_sym; assumption].
  - exists last', false. specialize (E []). rewrite app_nil_r in E. by rewrite E.
Qed.

(** The tables of a statement are found whatever stands before and after
    them: for an operation, any tokens that introduce no table, [FROM], a list
    of (possibly qualified) names and a rest that introduces no other table, the
    result is the operation in upper case and the names joined by commas - all
    of them for a [SELECT], the first one for any other operation. *)
Theorem SQLParse_tables query op d cols f names tail :
  Tokens query = (op, d) :: cols ++ (tok_FROM, f) :: table_tokens names ++ tail →
  op ∈ tok_operations → ToUpper d ≠ "" → names ≠ [] →
  Forall quiet cols → Forall quiet tail →
  (∀ t rest, tail = t :: rest → ends_tables t) →
  SQLParseOperationAndTable query =
    Some (ToUpper d, Join "," (if decide (ToUpper d = "SELECT") then full_name <$> names
                               else take 1 (full_name <$> names))).
Proof.
  intros Et Hop Hd Hne Hcols Htail Hend. unfold SQLParseOperationAndTable. rewrite Et.
  pose proof tok_named as Hn. pose proof tok_NoDup as Hnd.
  assert (57346 <= op) as Hge.
  { rewrite list.Forall_forall in Hn. apply Hn, elem_of_app. by right. }
  assert (op ∉ [tok_ID; tok_VALUE_ARG; tok_COMMENT; tok_LEX_ERROR; tok_TABLE; tok_FROM; tok_INTO;
                tok_UPDATE; tok_JOIN]) as Hni.
  { intros Hin. apply list.NoDup_app in Hnd as (_ & Hdis & _). by apply (Hdis op). }
  rewrite !not_elem_of_cons in Hni. destruct Hni as (? & ? & ? & ? & ? & ? & ? & ? & ? & _).
  assert (introduces op = false) as Hi.
  { rewrite introduces_false. split_and!; assumption. }
  cbn [prune_loop]. destruct (Z.eqb_spec op 0); [lia|]. destruct (Z.eqb_spec op tok_LEX_ERROR); [done|].
  destruct (Z.eqb_spec op 44); [lia|]. destruct (Z.eqb_spec op 46); [lia|]. cbn.
  assert (token_step op d (set_operation op d prune_init) = St (ToUpper d) op [] false false) as ->.
  { unfold set_operation, tokenIsDBOperation. simpl. rewrite bool_decide_eq_true_2 by by right.
    unfold token_step. destruct (Z.eqb_spec op tok_ID); [done|].
    destruct (Z.eqb_spec op tok_VALUE_ARG); [done|]. by destruct (Z.eqb_spec op tok_COMMENT). }
  destruct (loop_quiet cols (ToUpper d) op [] Hcols Hd Hi) as (last & Hl & ->).
  rewrite loop_from by done. rewrite loop_tables; [|done..|].
  2:{ unfold introduces. by rewrite Z.eqb_refl, orb_true_r. }
  destruct (loop_tail tail (ToUpper d) ([] ++ (full_name <$> names)) Hd Htail Hend)
    as (last' & added & ->). cbn.
  f_equal. f_equal. f_equal. case_decide as Hs.
  - rewrite bool_decide_eq_true_2 by done. by rewrite andb_false_r.
  - rewrite bool_decide_eq_false_2 by done. rewrite andb_true_r.
    destruct (full_name <$> names) as [|a [|b l]]; [done..|]. unfold len.
    rewrite Z.gtb_ltb. by destruct (Z.ltb_spec 1 (Z.of_nat (length (a :: b :: l)))); [|simpl in *; lia].
Qed.

(** The loop never indexes the tables out of range, whatever the tokens. *)
Lemma SQLParse_total query : is_Some (SQLParseOperationAndTable query).
Proof.
  unfold SQLParseOperationAndTable.
  by destruct (prune_loop_Some (Tokens query) prune_init) as [s ->]; [|eexists].
Qed.

(** A statement the parser accepts is reported as a [SELECT] or not at all,
    whatever its kind is. *)
Lemma parsed_statement_is_SELECT query stmt r :
  Parse query = Some stmt → SQLParseOperationAndTableNEW query = Some r →
  r = ("", "") ∨ ∃ table, r = ("SELECT", table).
Proof.
  unfold SQLParseOperationAndTableNEW. intros ->. repeat case_match; intros [= <-]; eauto.
Qed.
Lemma SQLParse_NEW_total query : is_Some (SQLParseOperationAndTableNEW query).
Proof.
  unfold SQLParseOperationAndTableNEW. destruct (Parse query); [|apply SQLParse_total].
  repeat case_match; by eexists.
Qed.

End sqlprune.

(** ** A small tokenizer for the witnesses: words between spaces *)
Module RefSql.
Definition ops : list Z := [57361; 57362; 57363; 57364].
Definition token (w : string) : Z * string :=
  (if decide (w = "select") then 57361 else if decide (w = "insert") then 57362
   else if decide (w = "delete") then 57363 else if decide (w = "from") then 57351
   else if decide (w = "where") then 57370 else if decide (w = ",") then 44
   else if decide (w = ".") then 46 else if decide (w = "*") then 42 else 57346, w).

#[export] Instance parser : SqlParser := {|
  tok_ID := 57346; tok_VALUE_ARG := 57347; tok_COMMENT := 57348; tok_LEX_ERROR := 57349;
  tok_TABLE := 57350; tok_FROM := 57351; tok_INTO := 57352; tok_UPDATE := 57353; tok_JOIN := 57354;
  tok_operations := ops;
  Tokens q := token <$> Fields q;
  Parse q := None;
|}.

#[export] Instance laws : SqlParserLaws parser.
Proof.
  split.
  - by apply (bool_decide_unpack (NoDup _)).
  - repeat constructor; done.
Qed.
End RefSql.

Lemma SQLParse_tables_witness :
  SQLParseOperationAndTable (H := RefSql.parser) "select a , b from db . t , u where x" =
    Some ("SELECT", "db.t,u").
Proof.
  apply (SQLParse_tables (SqlParserLaws0 := RefSql.laws) _ 57361 "select" [(57346, "a"); (44, ","); (57346, "b")]
           "from" [(Some "db", "t"); (None, "u")] [(57370, "where"); (57346, "x")]).
  - reflexivity.
  - by apply (bool_decide_unpack (57361 ∈ RefSql.ops)).
  - done.
  - done.
  - repeat constructor; done.
  - repeat constructor; done.
  - intros t rest [= <- <-]. repeat split; done.
Defined.
