(* ===== verification/RedParsers.v ===== *)
(** * RedParsers: the keys and the labels of the RED metrics

    Models [internal/cache/model.go] and [internal/parser/*.go] of the RED-metrics
    connector.  The environment variables and the host name are the class
    [NodeEnv]; the logger is left out; [None] is the panic of an index out of
    range, which [Adds_spec] excludes. *)

From S2P Require Import Prelude GoStrings PData SqlPrune.

(** ** model.go *)

Definition metricKeySeparator : string := String nul "".

(** [dest] is a scratch buffer, reset by every [GetValue]: it is left out. *)
Record ReusedKeyValue := {
  kv_maxAttribute : Z;
  kv_keys : list string;
  kv_vals : list string;
  kv_size : Z;
}.

Definition NewReusedKeyValue (maxAttribute : Z) : ReusedKeyValue :=
  {| kv_maxAttribute := maxAttribute; kv_keys := replicate (Z.to_nat maxAttribute) "";
     kv_vals := replicate (Z.to_nat maxAttribute) ""; kv_size := 0 |}.

Definition Reset (kv : ReusedKeyValue) : ReusedKeyValue :=
  {| kv_maxAttribute := kv_maxAttribute kv; kv_keys := kv_keys kv; kv_vals := kv_vals kv;
     kv_size := 0 |}.

Definition Add (key value : string) (kv : ReusedKeyValue) : option ReusedKeyValue :=
  if kv_size kv <? kv_maxAttribute kv then
    match slice_set (kv_keys kv) (kv_size kv) key, slice_set (kv_vals kv) (kv_size kv) value with
    | Some keys, Some vals =>
        Some {| kv_maxAttribute := kv_maxAttribute kv; kv_keys := keys; kv_vals := vals;
                kv_size := kv_size kv + 1 |}
    | _, _ => None
    end
  else Some kv.

(** A chain of calls of [Add]. *)
Fixpoint Adds (labels : list (string * string)) (kv : ReusedKeyValue) : option ReusedKeyValue :=
  match labels with
  | [] => Some kv
  | (key, value) :: labels' => Add key value kv ≫= Adds labels'
  end.

(** The loop of [GetValue] at index [i], [n] rounds before its end. *)
Fixpoint GetValue_loop (n : nat) (i : Z) (vals : list string) (dest : string) : option string :=
  match n with
  | O => Some dest
  | S n' =>
      match slice_get vals i with
      | Some v => GetValue_loop n' (i + 1) vals
                    ((if i >? 0 then dest +:+ metricKeySeparator else dest) +:+ v)
      | None => None
      end
  end.

Definition GetValue (kv : ReusedKeyValue) : option string :=
  GetValue_loop (Z.to_nat (kv_size kv)) 0 (kv_vals kv) "".

Section model.
Context `{PData}.

Fixpoint GetMap_loop (n : nat) (i : Z) (keys vals : list string) (dims : AMap) : option AMap :=
  match n with
  | O => Some dims
  | S n' =>
      match slice_get keys i, slice_get vals i with
      | Some k, Some v => GetMap_loop n' (i + 1) keys vals (Map_PutStr k v dims)
      | _, _ => None
      end
  end.

Definition GetMap (kv : ReusedKeyValue) : option AMap :=
  GetMap_loop (Z.to_nat (kv_size kv)) 0 (kv_keys kv) (kv_vals kv) Map_New.
End model.

(** ** parser.go *)

Class NodeEnv := {
  LookupEnv : string → option string;
  Hostname : option string;
}.

Definition Unknown : string := "unknown".
Definition envNodeName : string := "MY_NODE_NAME".
Definition envNodeIP : string := "MY_NODE_IP".

Definition AttributeNetPeerName : string := "net.peer.name".
Definition AttributeNetPeerPort : string := "net.peer.port".
Definition AttributeServerAddress : string := "server.address".
Definition AttributeServerPort : string := "server.port".
Definition AttributeNetSockPeerAddr : string := "net.sock.peer.addr".
Definition AttributeNetSockPeerPort : string := "net.sock.peer.port".
Definition AttributeNetworkPeerAddress : string := "network.peer.address".
Definition AttributeNetworkPeerPort : string := "network.peer.port".

Definition keyServiceName : string := "svc_name".
Definition keyContentKey : string := "content_key".
Definition keyNodeName : string := "node_name".
Definition keyNodeIp : string := "node_ip".
Definition keyTopSpan : string := "top_span".
Definition keyIsError : string := "is_error".
Definition keyPid : string := "pid".
Definition keyContainerId : string := "container_id".
Definition keyName : string := "name".
Definition keyDbSystem : string := "db_system".
Definition keyDbName : string := "db_name".
Definition keyDbUrl : string := "db_url".
Definition keyAddress : string := "address".
Definition keySystem : string := "system".
Definition keyRole : string := "role".

(** The semantic conventions of [go.opentelemetry.io/collector/semconv/v1.6.1]. *)
Definition AttributeDBSystem : string := "db.system".
Definition AttributeDBName : string := "db.name".
Definition AttributeDBOperation : string := "db.operation".
Definition AttributeDBSQLTable : string := "db.sql.table".
Definition AttributeDBStatement : string := "db.statement".
Definition AttributeMessagingSystem : string := "messaging.system".
Definition AttributeRPCSystem : string := "rpc.system".

Section env.
Context `{NodeEnv}.

Definition getNodeName : string :=
  match LookupEnv envNodeName with
  | Some nodeNameFromEnv => nodeNameFromEnv
  | None => match Hostname with
            | Some hostName => hostName
            | None => "Unknown"
            end
  end.

Definition getNodeIp : string :=
  match LookupEnv envNodeIP with
  | Some nodeIpFromEnv => nodeIpFromEnv
  | None => "Unknown"
  end.

(** The package variables [NodeName] and [NodeIp]. *)
Definition NodeName : string := getNodeName.
Definition NodeIp : string := getNodeIp.

(** A parser leaves the labels it used in the [ReusedKeyValue]. *)
Definition keyed (kv : option ReusedKeyValue) : option (string * ReusedKeyValue) :=
  kv ≫= λ kv, (λ key, (key, kv)) <$> GetValue kv.

Definition BuildServerKey (keyValue : ReusedKeyValue) (pid containerId serviceName name : string)
    (topSpan isError : bool) : option (string * ReusedKeyValue) :=
  keyed (
    Adds [(keyServiceName, serviceName); (keyContentKey, name); (keyNodeName, NodeName);
          (keyNodeIp, NodeIp); (keyPid, pid); (keyContainerId, containerId);
          (keyTopSpan, FormatBool topSpan);
          (keyIsError, FormatBool isError)] (Reset keyValue)).

Definition BuildExternalKey (keyValue : ReusedKeyValue)
    (pid containerId serviceName entryUrl name peer system : string) (isError : bool)
    : option (string * ReusedKeyValue) :=
  keyed (
    Adds [(keyServiceName, serviceName); (keyContentKey, entryUrl); (keyNodeName, NodeName);
          (keyNodeIp, NodeIp); (keyPid, pid); (keyContainerId, containerId); (keyName, name);
          (keyAddress, peer); (keySystem, system);
          (keyIsError, FormatBool isError)] (Reset keyValue)).

Definition buildDbKey (keyValue : ReusedKeyValue)
    (pid containerId serviceName entryUrl dbSystem dbName name dbUrl : string) (isError : bool)
    : option (string * ReusedKeyValue) :=
  keyed (
    Adds [(keyServiceName, serviceName); (keyContentKey, entryUrl); (keyNodeName, NodeName);
          (keyNodeIp, NodeIp); (keyPid, pid); (keyContainerId, containerId); (keyName, name);
          (keyDbSystem, dbSystem); (keyDbName, dbName); (keyDbUrl, dbUrl);
          (keyIsError, FormatBool isError)] (Reset keyValue)).

Definition buildMqKey (keyValue : ReusedKeyValue)
    (pid containerId serviceName entryUrl name peer mqSystem : string) (isError : bool)
    (role : string) : option (string * ReusedKeyValue) :=
  keyed (
    Adds [(keyServiceName, serviceName); (keyContentKey, entryUrl); (keyNodeName, NodeName);
          (keyNodeIp, NodeIp); (keyPid, pid); (keyContainerId, containerId); (keyName, name);
          (keyAddress, peer); (keySystem, mqSystem); (keyRole, role);
          (keyIsError, FormatBool isError)] (Reset keyValue)).

Context `{PData}.

(** One of the four pairs of attributes [GetClientPeer] tries. *)
Definition peer_of (addr port : string) (attr : AMap) : option string :=
  match Map_Get addr attr with
  | None => None
  | Some a => match Map_Get port attr with
              | Some p => Some (Value_Str a +:+ ":" +:+ Value_AsString p)
              | None => Some (Value_Str a)
              end
  end.

Definition GetClientPeer (attr : AMap) : string :=
  match peer_of AttributeNetSockPeerAddr AttributeNetSockPeerPort attr with
  | Some peer => peer
  | None => match peer_of AttributeNetworkPeerAddress AttributeNetworkPeerPort attr with
  | Some peer => peer
  | None => match peer_of AttributeNetPeerName AttributeNetPeerPort attr with
  | Some peer => peer
  | None => match peer_of AttributeServerAddress AttributeServerPort attr with
  | Some peer => peer
  | None => ""
  end end end end.

Definition getAttrValueWithDefault (attr : AMap) (key defaultValue : string) : string :=
  match Map_Get key attr with
  | Some attrValue => Value_AsString attrValue
  | None => defaultValue
  end.

(** The interface [Parser]; the key is [""] when the span is not its kind. *)
Definition Parser := string → string → string → string → Span → AMap → ReusedKeyValue →
  option (string * ReusedKeyValue).

(** ** http_parser.go *)

Definition AttributeHttpMethod : string := "http.method".
Definition AttributeHttpRequestMethod : string := "http.request.method".
Definition AttributeHttpUrl : string := "http.url".
Definition AttributeUrlFull : string := "url.full".

Definition getTopUrl (url : string) : string :=
  if bool_decide (url = "") then Unknown
  else match Split url "/" with
       | [_] => url
       | u0 :: u1 :: urls =>
           if (1 <=? len urls) && HasSuffix u0 ":" && bool_decide (u1 = "") then
             match urls with
             | _ :: u3 :: _ => "/" +:+ u3
             | _ => "/"
             end
           else "/" +:+ u1
       | [] => ""   (* Split gives one piece at least *)
       end.

Definition getHttpMethod (attr : AMap) : string :=
  match Map_Get AttributeHttpMethod attr with
  | Some httpMethod => Value_Str httpMethod
  | None => match Map_Get AttributeHttpRequestMethod attr with
            | Some httpRequestMethod => Value_Str httpRequestMethod
            | None => ""
            end
  end.

Definition getHttpUrl (attr : AMap) : string :=
  match Map_Get AttributeHttpUrl attr with
  | Some httpUrl => Value_Str httpUrl
  | None => match Map_Get AttributeUrlFull attr with
            | Some urlFull => Value_Str urlFull
            | None => ""
            end
  end.

Record HttpParser := { hp_urlParser : string }.
Definition NewHttpParser (urlParser : string) : HttpParser := {| hp_urlParser := urlParser |}.

Definition Http_parse (parser : HttpParser) (httpMethod url : string) : string :=
  if bool_decide (hp_urlParser parser = "topUrl") then httpMethod +:+ " " +:+ getTopUrl url
  else httpMethod.

Definition Http_Parse (parser : HttpParser) : Parser :=
  λ pid containerId serviceName entryUrl span spanAttr keyValue,
    if negb (SpanKind_eqb (Span_Kind span) SpanKindClient) then Some ("", keyValue)
    else
      let httpMethod := getHttpMethod spanAttr in
      if bool_decide (httpMethod = "") then Some ("", keyValue)
      else BuildExternalKey keyValue pid containerId serviceName entryUrl
             (Http_parse parser httpMethod (getHttpUrl spanAttr)) (GetClientPeer spanAttr) "http"
             (isError (Span_Status span)).

(** ** rpc_parser.go *)

Definition Rpc_Parse : Parser :=
  λ pid containerId serviceName entryUrl span spanAttr keyValue,
    if negb (SpanKind_eqb (Span_Kind span) SpanKindClient) then Some ("", keyValue)
    else match Map_Get AttributeRPCSystem spanAttr with
         | None => Some ("", keyValue)
         | Some rpcSystemAttr =>
             BuildExternalKey keyValue pid containerId serviceName entryUrl
               (Span_Name span) (GetClientPeer spanAttr) (Value_Str rpcSystemAttr)
               (isError (Span_Status span))
         end.

(** ** mq_parser.go *)

Definition AttributeMessageDest : string := "messaging.destination".
Definition AttributeMessageDestName : string := "messaging.destination.name".

Definition getMessageDest (attr : AMap) (defaultValue : string) : string :=
  match Map_Get AttributeMessageDest attr with
  | Some messageDest => Value_Str messageDest
  | None => match Map_Get AttributeMessageDestName attr with
            | Some messageDestName => Value_Str messageDestName
            | None => defaultValue
            end
  end.

Definition Mq_Parse : Parser :=
  λ pid containerId serviceName entryUrl span spanAttr keyValue,
    let kind := Span_Kind span in
    if negb (SpanKind_eqb kind SpanKindClient) && negb (SpanKind_eqb kind SpanKindProducer)
       && negb (SpanKind_eqb kind SpanKindConsumer) then Some ("", keyValue)
    else match (match Map_Get AttributeMessagingSystem spanAttr with
                | Some mqSystemAttr => Some (Value_Str mqSystemAttr)
                | None => if SpanKind_eqb kind SpanKindClient then None else Some Unknown
                end) with
         | None => Some ("", keyValue)
         | Some mqSystem =>
             buildMqKey keyValue pid containerId serviceName entryUrl
               (if SpanKind_eqb kind SpanKindClient then Span_Name span
                else getMessageDest spanAttr Unknown)
               (GetClientPeer spanAttr) mqSystem (isError (Span_Status span))
               (ToLower (SpanKind_String kind))
         end.

(** ** db_parser.go *)

Context `{SqlParser}.

(** The name of a statement: the operation and the table, qualified by the name
    of the database when there is one. *)
Definition sql_name (operation dbName table : string) : string :=
  if negb (bool_decide (dbName = "")) then operation +:+ " " +:+ dbName +:+ "." +:+ table
  else operation +:+ " " +:+ table.

(** [name] before it falls back to the name of the span. *)
Definition db_name (spanAttr : AMap) (dbName : string) : option string :=
  match Map_Get AttributeDBOperation spanAttr, Map_Get AttributeDBSQLTable spanAttr with
  | Some dbOperateAttr, Some dbTableAttr =>
      Some (sql_name (Value_Str dbOperateAttr) dbName (Value_Str dbTableAttr))
  | _, _ =>
      match Map_Get AttributeDBStatement spanAttr with
      | None => Some ""
      | Some dbStatement =>
          match SQLParseOperationAndTableNEW (Value_Str dbStatement) with
          | None => None
          | Some (operationName, tableName) =>
              Some (if negb (bool_decide (operationName = "")) then sql_name operationName dbName tableName
                    else "")
          end
      end
  end.

Definition Db_Parse : Parser :=
  λ pid containerId serviceName entryUrl span spanAttr keyValue,
    if negb (SpanKind_eqb (Span_Kind span) SpanKindClient) then Some ("", keyValue)
    else match Map_Get AttributeDBSystem spanAttr with
         | None => Some ("", keyValue)
         | Some dbSystemAttr =>
             let dbSystem := Value_Str dbSystemAttr in
             let dbName := getAttrValueWithDefault spanAttr AttributeDBName "" in
             let name :=
               if bool_decide (dbSystem = "redis") || bool_decide (dbSystem = "memcached")
                  || bool_decide (dbSystem = "aerospike") then Some (Span_Name span)
               else match db_name spanAttr dbName with
                    | None => None
                    | Some name => Some (if bool_decide (name = "") then Span_Name span else name)
                    end in
             match name with
             | None => None
             | Some name =>
                 buildDbKey keyValue pid containerId serviceName entryUrl dbSystem dbName name
                   (GetClientPeer spanAttr) (isError (Span_Status span))
             end
         end.
End env.

(** ** The labels held and the key they make *)

(** [kv] holds the labels [l], and its arrays have their full size. *)
Definition kv_rep (kv : ReusedKeyValue) (l : list (string * string)) : Prop :=
  kv_size kv = len l ∧
  len (kv_keys kv) = kv_maxAttribute kv ∧ len (kv_vals kv) = kv_maxAttribute kv ∧
  ∃ ks vs, kv_keys kv = l.*1 ++ ks ∧ kv_vals kv = l.*2 ++ vs.

Lemma NewReusedKeyValue_rep n : 0 <= n → kv_rep (NewReusedKeyValue n) [].
Proof.
  intros Hn. unfold kv_rep, len. simpl. rewrite !length_replicate, Z2Nat.id by lia.
  split_and!; [done..|]. by do 2 eexists.
Qed.

Lemma Reset_rep kv l : kv_rep kv l → kv_rep (Reset kv) [].
Proof. intros (? & ? & ? & _). unfold kv_rep. simpl. split_and!; [done..|]. by do 2 eexists. Qed.

Lemma slice_set_next {A} (l r : list A) x :
  len l < len (l ++ r) → ∃ r', slice_set (l ++ r) (len l) x = Some ((l ++ [x]) ++ r').
Proof.
  intros Hlt. rewrite slice_set_Some by (split; [apply len_nonneg|done]).
  rewrite len_app in Hlt. destruct r as [|y r]; [unfold len in Hlt; simpl in Hlt; lia|].
  exists r. f_equal. unfold len. rewrite Nat2Z.id. replace (length l) with (length l + 0)%nat by lia.
  rewrite insert_app_r. simpl. by rewrite <- app_assoc.
Qed.

Lemma Add_spec k v kv l :
  kv_rep kv l → kv_size kv < kv_maxAttribute kv →
  ∃ kv', Add k v kv = Some kv' ∧ kv_rep kv' (l ++ [(k, v)]) ∧
         kv_maxAttribute kv' = kv_maxAttribute kv ∧ kv_size kv' = kv_size kv + 1.
Proof.
  intros (Hs & Hk & Hv & ks & vs & Ek & Ev) Hlt. unfold Add.
  destruct (Z.ltb_spec (kv_size kv) (kv_maxAttribute kv)); [|lia].
  assert (∀ A B (f : A → B) l, len (f <$> l) = len l) as Hlen by (intros; unfold len; by rewrite length_fmap).
  assert (kv_size kv = len l.*1 ∧ kv_size kv = len l.*2) as [E1 E2] by (by rewrite !Hlen).
  destruct (slice_set_next l.*1 ks k) as [ks' Eks]; [by rewrite <- Ek, <- E1, Hk|].
  destruct (slice_set_next l.*2 vs v) as [vs' Evs]; [by rewrite <- Ev, <- E2, Hv|].
  rewrite <- Ek, <- E1 in Eks. rewrite <- Ev, <- E2 in Evs. rewrite Eks, Evs.
  eexists. split; [done|]. split; [|done]. unfold kv_rep. cbn.
  apply (slice_set_get _ _ _ 0) in Eks as [-> _], Evs as [-> _]. split_and!; [|done..|].
  - rewrite len_app. unfold len at 2. simpl. lia.
  - exists ks', vs'. by rewrite !fmap_app.
Qed.

Lemma Adds_spec labels kv l :
  kv_rep kv l → kv_size kv + len labels <= kv_maxAttribute kv →
  ∃ kv', Adds labels kv = Some kv' ∧ kv_rep kv' (l ++ labels) ∧
         kv_maxAttribute kv' = kv_maxAttribute kv.
Proof.
  revert kv l. induction labels as [|[k v] labels IH]; intros kv l Hr Hle.
  - exists kv. by rewrite app_nil_r.
  - unfold len in Hle. simpl in Hle.
    destruct (Add_spec k v kv l Hr) as (kv1 & E & Hr1 & Hm & Hs1); [lia|].
    destruct (IH kv1 _ Hr1) as (kv2 & E2 & Hr2 & Hm2); [unfold len; lia|].
    exists kv2. simpl. rewrite E. simpl. rewrite E2, <- app_assoc in *. split_and!; [done..|lia].
Qed.

Definition separator_of (pre l : list string) : string :=
  match pre, l with [], _ | _, [] => "" | _, _ => metricKeySeparator end.

Lemma GetValue_loop_spec pre l post dest :
  GetValue_loop (length l) (len pre) (pre ++ l ++ post) dest =
    Some (dest +:+ separator_of pre l +:+ Join metricKeySeparator l).
Proof.
  revert pre dest. induction l as [|v l IH]; intros pre dest.
  - by destruct pre; simpl; rewrite sapp_nil_r.
  - cbn [length GetValue_loop app].
    assert (slice_get (pre ++ v :: l ++ post) (len pre) = Some v) as ->.
    { unfold slice_get, len. rewrite Nat2Z.id. destruct (Z.leb_spec 0 (Z.of_nat (length pre))); [|lia].
      by rewrite lookup_app_r, Nat.sub_diag by lia. }
    specialize (IH (pre ++ [v])). rewrite <- app_assoc, len_app in IH. unfold len at 2 in IH. simpl in IH.
    rewrite IH. clear IH. f_equal. destruct pre as [|p pre].
    + simpl. destruct l; simpl; by rewrite ?sapp_nil_r, ?sapp_assoc.
    + assert (len (p :: pre) >? 0 = true) as -> by (rewrite Z.gtb_lt; unfold len; simpl; lia).
      destruct l; simpl; by rewrite ?sapp_nil_r, ?sapp_assoc.
Qed.

Lemma GetValue_spec kv l : kv_rep kv l → GetValue kv = Some (Join metricKeySeparator l.*2).
Proof.
  intros (Hs & _ & _ & ks & vs & _ & Ev). unfold GetValue. rewrite Hs, Ev.
  replace (Z.to_nat (len l)) with (length l.*2) by (unfold len; rewrite length_fmap; lia).
  apply (GetValue_loop_spec [] l.*2 vs "").
Qed.

Section labels.
Context `{PData}.

(** The map of the labels: [PutStr] one after the other. *)
Definition dims_of (l : list (string * string)) (dims : AMap) : AMap :=
  foldS (λ kv, Map_PutStr kv.1 kv.2) l dims.

Lemma dims_of_cons k v l dims : dims_of ((k, v) :: l) dims = dims_of l (Map_PutStr k v dims).
Proof. done. Qed.

Lemma GetMap_loop_spec pre l ks vs dims :
  GetMap_loop (length l) (len pre) ((pre ++ l).*1 ++ ks) ((pre ++ l).*2 ++ vs) dims =
    Some (dims_of l dims).
Proof.
  revert pre dims. induction l as [|[k v] l IH]; intros pre dims; [done|].
  cbn [length GetMap_loop].
  assert (∀ (f : string * string → string) r,
            slice_get ((f <$> pre ++ (k, v) :: l) ++ r) (len pre) = Some (f (k, v))) as Hget.
  { intros f r. unfold slice_get, len. rewrite Nat2Z.id.
    destruct (Z.leb_spec 0 (Z.of_nat (length pre))); [|lia].
    rewrite lookup_app_l by (rewrite length_fmap, length_app; simpl; lia).
    by rewrite list_lookup_fmap, lookup_app_r, Nat.sub_diag by lia. }
  rewrite !Hget. specialize (IH (pre ++ [(k, v)])). rewrite <- app_assoc, len_app in IH.
  unfold len at 2 in IH. simpl in IH. by rewrite IH.
Qed.

Lemma GetMap_spec kv l : kv_rep kv l → GetMap kv = Some (dims_of l Map_New).
Proof.
  intros (Hs & _ & _ & ks & vs & Ek & Ev). unfold GetMap. rewrite Hs, Ek, Ev.
  replace (Z.to_nat (len l)) with (length l) by (unfold len; lia).
  apply (GetMap_loop_spec [] l ks vs).
Qed.

Lemma Map_Get_dims_of_ne `{!PDataLaws _} l dims k :
  k ∉ l.*1 → Map_Get k (dims_of l dims) = Map_Get k dims.
Proof.
  revert dims. induction l as [|[k0 v0] l IH]; intros dims Hk; [done|].
  rewrite fmap_cons in Hk. apply not_elem_of_cons in Hk as [? ?]. rewrite dims_of_cons, IH by done.
  by apply Map_Get_Put_ne, not_eq_sym.
Qed.

Lemma Map_Get_dims_of `{!PDataLaws _} l dims k v :
  NoDup l.*1 → (k, v) ∈ l → Map_Get k (dims_of l dims) = Some (ValueStr v).
Proof.
  revert dims. induction l as [|[k0 v0] l IH]; intros dims Hnd Hin; [by apply not_elem_of_nil in Hin|].
  rewrite fmap_cons in Hnd. apply list.NoDup_cons in Hnd as [Hn Hnd]. rewrite dims_of_cons.
  apply elem_of_cons in Hin as [[= -> ->]|Hin]; [|by apply IH].
  rewrite Map_Get_dims_of_ne by done. apply Map_Get_Put.
Qed.
End labels.

(** ** One key, one set of labels *)

(** The arguments of the four builders. *)
Inductive KeyArgs :=
  | ServerKey (pid containerId serviceName name : string) (topSpan isError : bool)
  | ExternalKey (pid containerId serviceName entryUrl name peer system : string) (isError : bool)
  | DbKey (pid containerId serviceName entryUrl dbSystem dbName name dbUrl : string) (isError : bool)
  | MqKey (pid containerId serviceName entryUrl name peer mqSystem : string) (isError : bool)
      (role : string).

Section keys.
Context `{NodeEnv}.

Definition build_key (a : KeyArgs) (kv : ReusedKeyValue) : option (string * ReusedKeyValue) :=
  match a with
  | ServerKey pid cid svc name top err => BuildServerKey kv pid cid svc name top err
  | ExternalKey pid cid svc url name peer sys err => BuildExternalKey kv pid cid svc url name peer sys err
  | DbKey pid cid svc url sys db name peer err => buildDbKey kv pid cid svc url sys db name peer err
  | MqKey pid cid svc url name peer sys err role => buildMqKey kv pid cid svc url name peer sys err role
  end.

(** The labels each of them is meant to produce. *)
Definition labels_of (a : KeyArgs) : list (string * string) :=
  match a with
  | ServerKey pid cid svc name top err =>
      [("svc_name", svc); ("content_key", name); ("node_name", NodeName); ("node_ip", NodeIp);
       ("pid", pid); ("container_id", cid); ("top_span", FormatBool top); ("is_error", FormatBool err)]
  | ExternalKey pid cid svc url name peer sys err =>
      [("svc_name", svc); ("content_key", url); ("node_name", NodeName); ("node_ip", NodeIp);
       ("pid", pid); ("container_id", cid); ("name", name); ("address", peer); ("system", sys);
       ("is_error", FormatBool err)]
  | DbKey pid cid svc url sys db name peer err =>
      [("svc_name", svc); ("content_key", url); ("node_name", NodeName); ("node_ip", NodeIp);
       ("pid", pid); ("container_id", cid); ("name", name); ("db_system", sys); ("db_name", db);
       ("db_url", peer); ("is_error", FormatBool err)]
  | MqKey pid cid svc url name peer sys err role =>
      [("svc_name", svc); ("content_key", url); ("node_name", NodeName); ("node_ip", NodeIp);
       ("pid", pid); ("container_id", cid); ("name", name); ("address", peer); ("system", sys);
       ("role", role); ("is_error", FormatBool err)]
  end.

Definition family (a : KeyArgs) : Z :=
  match a with ServerKey _ _ _ _ _ _ => 0 | ExternalKey _ _ _ _ _ _ _ _ => 1
             | DbKey _ _ _ _ _ _ _ _ _ => 2 | MqKey _ _ _ _ _ _ _ _ _ => 3 end.

(** No label holds the separator. *)
Definition nul_free (a : KeyArgs) : Prop := Forall (free_of nul) (labels_of a).*2.

Definition key_string (a : KeyArgs) : string := Join metricKeySeparator (labels_of a).*2.

Lemma labels_of_NoDup a : NoDup (labels_of a).*1.
Proof. destruct a; by apply (bool_decide_unpack (NoDup _)). Qed.

Lemma family_names a b : family a = family b → (labels_of a).*1 = (labels_of b).*1.
Proof. by destruct a, b. Qed.

Lemma key_string_nonempty a : key_string a ≠ "".
Proof.
  assert (∀ s t l, Join metricKeySeparator (s :: t :: l) ≠ "") as Hj.
  { intros s t l E. apply (f_equal byte_list) in E. simpl in E. rewrite byte_list_app in E.
    by apply app_nil in E as [_ ?]. }
  destruct a; apply Hj.
Qed.

Lemma key_string_inj a b :
  family a = family b → nul_free a → key_string a = key_string b → labels_of a = labels_of b.
Proof.
  intros Hf Ha E. apply Join_inj in E; [|by destruct a|by destruct a, b|done].
  pose proof (family_names a b Hf) as En. revert En E. clear.
  generalize (labels_of a), (labels_of b). clear.
  induction l as [|[k v] l IH]; intros [|[k' v'] l']; simpl; try done.
  intros [= -> ?] [= -> ?]. f_equal. by apply IH.
Qed.

Lemma build_key_rep a kv l :
  kv_rep kv l → 11 <= kv_maxAttribute kv →
  ∃ kv', build_key a kv = Some (key_string a, kv') ∧ kv_rep kv' (labels_of a) ∧
         kv_maxAttribute kv' = kv_maxAttribute kv.
Proof.
  intros Hr Hm. assert (len (labels_of a) <= 11) as Hlen by (by destruct a).
  destruct (Adds_spec (labels_of a) (Reset kv) []) as (kv' & E & Hr' & Hm'); [by eapply Reset_rep|simpl; lia|].
  exists kv'. split; [|done]. pose proof (GetValue_spec _ _ Hr') as Eg.
  assert (build_key a kv = keyed (Adds (labels_of a) (Reset kv))) as -> by (by destruct a).
  rewrite E. unfold keyed. simpl. by rewrite Eg.
Qed.

Context `{PDL : PDataLaws}.

(** C15: A metric key names one set of labels: whatever was in the reused
    key-value before, a builder returns the values of its labels joined by NUL
    and leaves the map that gives each label its value; and two builders of one
    kind that return the same key were given the same labels, as long as no
    label of one of them holds a NUL. *)
Theorem metric_key_identifies a kv l :
  kv_rep kv l → 11 <= kv_maxAttribute kv →
  ∃ key kv' dims,
    build_key a kv = Some (key, kv') ∧ GetMap kv' = Some dims ∧
    (∀ name value, (name, value) ∈ labels_of a → Map_Get name dims = Some (ValueStr value)) ∧
    (∀ b kvb lb kvb', kv_rep kvb lb → 11 <= kv_maxAttribute kvb →
       family b = family a → nul_free a →
       build_key b kvb = Some (key, kvb') →
       labels_of b = labels_of a ∧ GetMap kvb' = Some dims).
Proof.
  intros Hr Hm. destruct (build_key_rep a kv l Hr Hm) as (kv' & E & Hr' & _).
  exists (key_string a), kv', (dims_of (labels_of a) Map_New). split_and!; [done|by apply GetMap_spec| |].
  - intros name value Hin. by apply Map_Get_dims_of; [apply labels_of_NoDup|].
  - intros b kvb lb kvb' Hrb Hmb Hf Ha Eb.
    destruct (build_key_rep b kvb lb Hrb Hmb) as (kvb1 & Eb1 & Hrb1 & _).
    rewrite Eb1 in Eb. injection Eb as Ek <-.
    assert (labels_of a = labels_of b) as El by (by apply key_string_inj).
    split; [done|]. rewrite El. by apply GetMap_spec.
Qed.
End keys.

Module RefEnv.
#[export] Instance env : NodeEnv := {| LookupEnv _ := None; Hostname := Some "host" |}.
End RefEnv.

Lemma metric_key_identifies_witness :
  ∃ key kv' dims,
    @build_key RefEnv.env (ServerKey "7" "c" "svc" "GET /" true false) (NewReusedKeyValue 100) = Some (key, kv') ∧
    @GetMap RefPData.pdata kv' = Some dims ∧ dims !! "svc_name" = Some (RefPData.VStr "svc").
Proof.
  destruct (@metric_key_identifies RefEnv.env RefPData.pdata RefPData.pdata_laws
              (ServerKey "7" "c" "svc" "GET /" true false) (NewReusedKeyValue 100) [])
    as (key & kv' & dims & E & Ed & Hl & _).
  - by apply NewReusedKeyValue_rep.
  - simpl. lia.
  - exists key, kv', dims. split_and!; [done..|]. apply (Hl "svc_name" "svc"). by left.
Defined.

(** The table of [http_parser_test.go]. *)
Example getTopUrl_test :
  getTopUrl <$> ["http://localhost:9999"; "http://localhost:9999/"; "http://localhost:9999/test";
    "http://localhost:9999/test/"; "http://localhost:9999/test/b"; "/test"; "/test/"; "/test/b"; "abc"; ""] =
  ["/"; "/"; "/test"; "/test"; "/test"; "/test"; "/test"; "/test"; "abc"; "unknown"].
Proof. reflexivity. Qed.
