(* ===== verification/Histogram.v ===== *)
(** * Histogram: the latency histograms of the RED metrics

    Models [internal/cache/histogram.go], [pm_histogram.go] and [vm_histogram.go]
    of the RED-metrics connector.  [math.Log10] and the texts of the buckets
    ([fmt.Sprintf] of powers of ten) are the class [VmMath]; [None] is the panic of
    an index out of range or of an unsupported method.  The mutex of the VM
    histogram orders whole operations: each is one function here. *)

From S2P Require Import Prelude GoStrings Float64.

(** ** histogram.go *)

Inductive MetricsType := MetricsProm | MetricsVm.

Definition GetMetricsType (metricsType : string) : MetricsType :=
  if bool_decide (metricsType = "prom") then MetricsProm else MetricsVm.

(** ** pm_histogram.go *)

Record PromHistogram := {
  ph_count : Z;                (* uint64 *)
  ph_sum : float64;
  ph_bucketCounts : list Z;    (* uint64 *)
  ph_latencyBounds : list float64;
}.

Definition NewPromHistogram (latencyBounds : list float64) : PromHistogram :=
  {| ph_count := 0; ph_sum := F_zero; ph_bucketCounts := replicate (length latencyBounds + 1) 0;
     ph_latencyBounds := latencyBounds |}.

(** [sort.SearchFloat64s]: binary search on [i, j); [fuel] rounds at most. *)
Fixpoint search_loop (fuel : nat) (a : list float64) (x : float64) (i j : nat) : nat :=
  match fuel with
  | O => i
  | S fuel' =>
      if (i <? j)%nat then
        let h := ((i + j) / 2)%nat in
        if F_ltb (default (S754_nan : float64) (a !! h)) x then search_loop fuel' a x (S h) j
        else search_loop fuel' a x i h
      else i
  end.

(** The interval shrinks every round: its first length is fuel enough. *)
Definition SearchFloat64s (a : list float64) (x : float64) : Z :=
  Z.of_nat (search_loop (length a) a x 0 (length a)).

Definition Prom_Update (v : float64) (h : PromHistogram) : option PromHistogram :=
  let index := SearchFloat64s (ph_latencyBounds h) v in
  match slice_get (ph_bucketCounts h) index with
  | None => None
  | Some c =>
      (λ counts, {| ph_count := u64 (ph_count h + 1); ph_sum := F_add (ph_sum h) v;
                    ph_bucketCounts := counts; ph_latencyBounds := ph_latencyBounds h |})
      <$> slice_set (ph_bucketCounts h) index (u64 (c + 1))
  end.

(** ** vm_histogram.go *)

Definition e10Min : Z := -9.
Definition e10Max : Z := 18.
Definition bucketsPerDecimal : Z := 18.
Definition decimalBucketsCount : Z := e10Max - e10Min.
Definition bucketsCount : Z := decimalBucketsCount * bucketsPerDecimal.

(** [fmt.Sprintf] with the verb [%.3e]: the quotient of two integers that the number
    is, its decimal exponent, and four digits, of which the last is rounded to even. *)
Fixpoint exponent_from (fuel : nat) (num den k : Z) : Z :=
  match fuel with
  | O => k
  | S fuel => if (if k + 1 >=? 0 then 10 ^ (k + 1) * den <=? num else den <=? num * 10 ^ (- (k + 1)))
              then exponent_from fuel num den (k + 1) else k
  end.

Definition round_even (num den : Z) : Z :=
  let q := num / den in
  let r := 2 * (num mod den) in
  if (r >? den) || ((r =? den) && Z.odd q) then q + 1 else q.

Definition two_digits (n : Z) : string := (if n <? 10 then "0" else "") +:+ FormatInt n.

Definition sprintf_3e (f : float64) : string :=
  match f with
  | S754_zero _ => "0.000e+00"
  | S754_infinity s => if s then "-Inf" else "+Inf"
  | S754_nan => "NaN"
  | S754_finite s m e =>
      let '(num, den) := if e >=? 0 then (Zpos m * 2 ^ e, 1) else (Zpos m, 2 ^ (- e)) in
      let k := exponent_from 4 num den ((Z.log2 num - Z.log2 den - 1) * 30103 / 100000 - 1) in
      let q := if 3 - k >=? 0 then round_even (num * 10 ^ (3 - k)) den else round_even num (den * 10 ^ (k - 3)) in
      let '(q, k) := if q =? 10000 then (1000, k + 1) else (q, k) in
      (if s then "-" else "") +:+ FormatInt (q / 1000) +:+ "." +:+
      FormatInt (q / 100 mod 10) +:+ FormatInt (q / 10 mod 10) +:+ FormatInt (q mod 10) +:+
      (if k <? 0 then "e-" else "e+") +:+ two_digits (Z.abs k)
  end.

(** [math.Pow10], exact but for one rounding where the model uses it. *)
Definition Pow10 (n : Z) : float64 := if n <? 0 then F_div (F_of_Z 1) (F_of_Z (10 ^ (- n))) else F_of_Z (10 ^ n).

Example sprintf_examples :
  sprintf_3e <$> [Pow10 e10Min; Pow10 e10Max; F_of_Z 12345; F_div (F_of_Z 1) (F_of_Z 3); F_of_Z 99995; F_of_Z 99985] =
    ["1.000e-09"; "1.000e+18"; "1.234e+04"; "3.333e-01"; "1.000e+05"; "9.998e+04"].
Proof. vm_compute. done. Qed.

(** [math.Log10], and [math.Pow(10, 1.0/bucketsPerDecimal)]. *)
Class VmMath := {
  Log10 : float64 → float64;
  bucketMultiplier : float64;
}.

Section ranges.
Context `{VmMath}.

Fixpoint ranges_from (n : nat) (v : float64) (start : string) : list string :=
  match n with
  | O => []
  | S n =>
      let v := F_mul v bucketMultiplier in
      let stop := sprintf_3e v in
      (start +:+ "..." +:+ stop) :: ranges_from n v stop
  end.

(** What the first [getVMRange] leaves in [bucketRanges]. *)
Definition initBucketRanges : list string :=
  let v := Pow10 e10Min in ranges_from (Z.to_nat bucketsCount) v (sprintf_3e v).
End ranges.

Notation bucketRanges := initBucketRanges.
Definition lowerBucketRange : string := "0..." +:+ sprintf_3e (Pow10 e10Min).
Definition upperBucketRange : string := sprintf_3e (Pow10 e10Max) +:+ "...+Inf".

(** [Log10] is a number on the numbers that are not negative, and the multiplier is
    such that no two of the 488 texts are the same. *)
Class VmMathLaws (M : VmMath) : Prop := {
  Log10_nan : ∀ v, IsNaN v = false → F_ltb v F_zero = false → IsNaN (Log10 v) = false;
  vmranges_NoDup : NoDup (lowerBucketRange :: bucketRanges ++ [upperBucketRange]);
}.

Lemma length_ranges_from `{VmMath} n v start : length (ranges_from n v start) = n.
Proof. revert v start. induction n as [|n IH]; intros v start; cbn [ranges_from length]; [done|by rewrite IH]. Qed.

Lemma bucketRanges_length `{VmMath} : len bucketRanges = bucketsCount.
Proof. unfold initBucketRanges, len. by rewrite length_ranges_from. Qed.

(** The table is long: only [vm_compute] looks into it. *)
#[global] Opaque initBucketRanges.

(** A decimal bucket is [nil] or an array of counters. *)
Record VmHistogram := {
  vh_decimalBuckets : list (option (list Z));
  vh_lower : Z;                (* uint64 *)
  vh_upper : Z;
  vh_sum : float64;
}.

Definition NewVmHistogram : VmHistogram :=
  {| vh_decimalBuckets := replicate (Z.to_nat decimalBucketsCount) None;
     vh_lower := 0; vh_upper := 0; vh_sum := F_zero |}.

Definition Vm_Reset (h : VmHistogram) : VmHistogram :=
  {| vh_decimalBuckets := (λ db : option (list Z), (λ counts : list Z, (λ _ : Z, 0) <$> counts) <$> db) <$> vh_decimalBuckets h;
     vh_lower := 0; vh_upper := 0; vh_sum := F_zero |}.

(** The array of a decimal bucket, a new one for [nil]. *)
Definition bucket_array (db : option (list Z)) : list Z :=
  default (replicate (Z.to_nat bucketsPerDecimal) 0) db.

Section vm.
Context `{GoPlatform} `{VmMath}.

(** The index of the bucket of a value that is neither below nor above the
    buckets; [uint] is 64 bits wide. *)
Definition vm_index (bucketIdx : float64) : Z :=
  let idx := uint64_of_float bucketIdx in
  if F_eqb bucketIdx (F_of_Z idx) && (idx >? 0) then idx - 1 else idx.

Definition vm_hit (idx : Z) (buckets : list (option (list Z))) : option (list (option (list Z))) :=
  let decimalBucketIdx := idx / bucketsPerDecimal in
  let offset := idx mod bucketsPerDecimal in
  match slice_get buckets decimalBucketIdx with
  | None => None
  | Some db =>
      let db := bucket_array db in
      match slice_get db offset with
      | None => None
      | Some c => match slice_set db offset (u64 (c + 1)) with
                  | None => None
                  | Some db => slice_set buckets decimalBucketIdx (Some db)
                  end
      end
  end.

Definition Vm_Update (v : float64) (h : VmHistogram) : option VmHistogram :=
  if IsNaN v || F_ltb v F_zero then Some h
  else
    let bucketIdx := F_mul (F_sub (Log10 v) (F_of_Z e10Min)) (F_of_Z bucketsPerDecimal) in
    let sum := F_add (vh_sum h) v in
    if F_ltb bucketIdx F_zero then
      Some {| vh_decimalBuckets := vh_decimalBuckets h; vh_lower := u64 (vh_lower h + 1);
              vh_upper := vh_upper h; vh_sum := sum |}
    else if F_leb (F_of_Z bucketsCount) bucketIdx then
      Some {| vh_decimalBuckets := vh_decimalBuckets h; vh_lower := vh_lower h;
              vh_upper := u64 (vh_upper h + 1); vh_sum := sum |}
    else
      (λ buckets, {| vh_decimalBuckets := buckets; vh_lower := vh_lower h; vh_upper := vh_upper h;
                     vh_sum := sum |})
      <$> vm_hit (vm_index bucketIdx) (vh_decimalBuckets h).

(** [time.Since] saturates. *)
Definition Vm_UpdateDuration (now startTime : Z) (h : VmHistogram) : option VmHistogram :=
  let d := Seconds (Z.max minInt64 (Z.min maxInt64 (now - startTime))) in
  Vm_Update d h.

(** [Merge]: [dbDst[j] += dbSrc[j]] for the arrays [src] has. *)
Definition merge_bucket (dst src : option (list Z)) : option (list Z) :=
  match src with
  | None => dst
  | Some dbSrc => Some (zip_with (λ x y, u64 (x + y)) (bucket_array dst) dbSrc)
  end.

Definition Vm_Merge (src h : VmHistogram) : VmHistogram :=
  {| vh_decimalBuckets := zip_with merge_bucket (vh_decimalBuckets h) (vh_decimalBuckets src);
     vh_lower := u64 (vh_lower h + vh_lower src); vh_upper := u64 (vh_upper h + vh_upper src);
     vh_sum := F_add (vh_sum h) (vh_sum src) |}.

(** [getVMRange]: an index outside the table panics. *)
Definition getVMRange (bucketIdx : Z) : option string := slice_get bucketRanges bucketIdx.

(** [VisitNonZeroBuckets]: what the callback is called with, in order. *)
Fixpoint visit_offsets (base : Z) (counts : list Z) : option (list (string * Z)) :=
  match counts with
  | [] => Some []
  | count :: counts' =>
      match visit_offsets (base + 1) counts' with
      | None => None
      | Some r => if count >? 0 then (λ vmrange, (vmrange, count) :: r) <$> getVMRange base
                  else Some r
      end
  end.

Fixpoint visit_decimals (idx : Z) (buckets : list (option (list Z))) : option (list (string * Z)) :=
  match buckets with
  | [] => Some []
  | db :: buckets' =>
      match (match db with None => Some [] | Some counts => visit_offsets (idx * bucketsPerDecimal) counts end),
            visit_decimals (idx + 1) buckets' with
      | Some a, Some b => Some (a ++ b)
      | _, _ => None
      end
  end.

Definition VisitNonZeroBuckets (h : VmHistogram) : option (list (string * Z)) :=
  match visit_decimals 0 (vh_decimalBuckets h) with
  | None => None
  | Some mid =>
      Some ((if vh_lower h >? 0 then [(lowerBucketRange, vh_lower h)] else []) ++ mid ++
            (if vh_upper h >? 0 then [(upperBucketRange, vh_upper h)] else []))
  end.

Record vmHistogramValues := {
  vv_buckets : gmap string Z;
  vv_count : Z;
  vv_sum : float64;
}.

Definition newVmHistogramValues : vmHistogramValues :=
  {| vv_buckets := ∅; vv_count := 0; vv_sum := F_zero |}.

(** The callback of [Read]. *)
Definition read_bucket (r : string * Z) (values : vmHistogramValues) : vmHistogramValues :=
  {| vv_buckets := <[r.1 := r.2]> (vv_buckets values); vv_count := u64 (vv_count values + r.2);
     vv_sum := vv_sum values |}.

Definition Vm_Read (h : VmHistogram) : option vmHistogramValues :=
  (λ visited,
     let values := foldS read_bucket visited newVmHistogramValues in
     if vv_count values >? 0 then
       {| vv_buckets := vv_buckets values; vv_count := vv_count values; vv_sum := vh_sum h |}
     else values)
  <$> VisitNonZeroBuckets h.

(** ** The interfaces *)

Inductive Histogram := HProm (h : PromHistogram) | HVm (h : VmHistogram).
Inductive HistogramValues := VProm (h : PromHistogram) | VVm (values : vmHistogramValues).

Definition NewHistogram (metricType : MetricsType) (latencyBounds : list float64) : Histogram :=
  match metricType with
  | MetricsProm => HProm (NewPromHistogram latencyBounds)
  | MetricsVm => HVm NewVmHistogram
  end.

Definition Update (v : float64) (h : Histogram) : option Histogram :=
  match h with
  | HProm h => HProm <$> Prom_Update v h
  | HVm h => HVm <$> Vm_Update v h
  end.

Definition Read (h : Histogram) : option HistogramValues :=
  match h with
  | HProm h => Some (VProm h)
  | HVm h => VVm <$> Vm_Read h
  end.

(** Half of the getters of either kind panic. *)
Definition prom_GetBuckets (h : PromHistogram) : option (gmap string Z) := None.
Definition prom_GetBucketCounts (h : PromHistogram) : option (list Z) := Some (ph_bucketCounts h).
Definition prom_GetKey (h : PromHistogram) : string := "le".
Definition prom_GetCount (h : PromHistogram) : Z := ph_count h.
Definition prom_GetSum (h : PromHistogram) : float64 := ph_sum h.

Definition vm_GetBuckets (values : vmHistogramValues) : option (gmap string Z) := Some (vv_buckets values).
Definition vm_GetBucketCounts (values : vmHistogramValues) : option (list Z) := None.
Definition vm_GetKey (values : vmHistogramValues) : string := "vmrange".
Definition vm_GetCount (values : vmHistogramValues) : Z := vv_count values.
Definition vm_GetSum (values : vmHistogramValues) : float64 := vv_sum values.

Definition GetBuckets (v : HistogramValues) : option (gmap string Z) :=
  match v with VProm h => prom_GetBuckets h | VVm values => vm_GetBuckets values end.
Definition GetBucketCounts (v : HistogramValues) : option (list Z) :=
  match v with VProm h => prom_GetBucketCounts h | VVm values => vm_GetBucketCounts values end.
Definition GetKey (v : HistogramValues) : string :=
  match v with VProm h => prom_GetKey h | VVm values => vm_GetKey values end.
Definition GetCount (v : HistogramValues) : Z :=
  match v with VProm h => prom_GetCount h | VVm values => vm_GetCount values end.
Definition GetSum (v : HistogramValues) : float64 :=
  match v with VProm h => prom_GetSum h | VVm values => vm_GetSum values end.
End vm.

(** ** The Prometheus histogram *)

Definition floats_sorted (a : list float64) : Prop :=
  ∀ i j x y, (i <= j)%nat → a !! i = Some x → a !! j = Some y → F_leb x y = true.

(** The bucket [i] of the bounds [a]: above the bound before, up to its own. *)
Definition in_bucket (a : list float64) (i : nat) (v : float64) : bool :=
  match i with
  | O => true
  | S k => match a !! k with Some b => F_ltb b v | None => false end
  end
  && match a !! i with Some b => F_leb v b | None => true end.

Lemma search_loop_bounds fuel a x i j :
  (i <= j)%nat → (i <= search_loop fuel a x i j <= j)%nat.
Proof.
  revert i j. induction fuel as [|fuel IH]; intros i j Hij; cbn [search_loop]; [lia|].
  destruct (Nat.ltb_spec i j); [|lia].
  assert (i <= (i + j) / 2 < j)%nat.
  { split; [apply Nat.div_le_lower_bound; lia|apply Nat.Div0.div_lt_upper_bound; lia]. }
  set (h := ((i + j) / 2)%nat) in *. clearbody h.
  case_match.
  - specialize (IH (S h) j ltac:(lia)). lia.
  - specialize (IH i h ltac:(lia)). lia.
Qed.

Lemma search_loop_spec fuel a x i j :
  floats_sorted a → IsNaN x = false → (j - i <= fuel)%nat → (i <= j <= length a)%nat →
  (∀ k b, (k < i)%nat → a !! k = Some b → F_ltb b x = true) →
  (∀ k b, (j <= k)%nat → a !! k = Some b → F_leb x b = true) →
  let r := search_loop fuel a x i j in
  (∀ k b, (k < r)%nat → a !! k = Some b → F_ltb b x = true) ∧
  (∀ k b, (r <= k)%nat → a !! k = Some b → F_leb x b = true).
Proof.
  intros Hs Hx. revert i j. induction fuel as [|fuel IH]; intros i j Hf Hij Hlo Hhi; cbn [search_loop].
  { assert (i = j) as -> by lia. done. }
  destruct (Nat.ltb_spec i j); [|assert (i = j) as -> by lia; done].
  assert (i <= (i + j) / 2 < j)%nat as Hh.
  { split; [apply Nat.div_le_lower_bound; lia|apply Nat.Div0.div_lt_upper_bound; lia]. }
  set (h := ((i + j) / 2)%nat) in *. clearbody h.
  destruct (lookup_lt_is_Some_2 a h) as [b Hb]; [lia|]. rewrite Hb. simpl.
  assert (IsNaN b = false) as Hnb by (by destruct (F_leb_nan _ _ (Hs h h b b (le_n _) Hb Hb))).
  destruct (F_ltb b x) eqn:Eb.
  - apply IH; [lia|lia| |done]. intros k c Hk Hc. assert (F_leb c b = true) as Hcb.
    { apply (Hs k h); [lia|done..]. }
    destruct (F_leb_nan _ _ Hcb). rewrite F_ltb_leb in * by done. apply negb_true_iff in Eb.
    apply negb_true_iff. destruct (F_leb x c) eqn:E; [|done].
    by rewrite (F_leb_trans x c b) in Eb.
  - apply IH; [lia|lia|done|]. intros k c Hk Hc. rewrite F_ltb_leb in Eb by done.
    apply negb_false_iff in Eb. apply (F_leb_trans x b c); [done|]. by apply (Hs h k).
Qed.

Lemma SearchFloat64s_range a x : 0 <= SearchFloat64s a x <= len a.
Proof. unfold SearchFloat64s, len. pose proof (search_loop_bounds (length a) a x 0 (length a)). lia. Qed.

Lemma SearchFloat64s_bucket a x i :
  floats_sorted a → IsNaN x = false → (i <= length a)%nat →
  in_bucket a i x = bool_decide (SearchFloat64s a x = Z.of_nat i).
Proof.
  intros Hs Hx Hi. unfold SearchFloat64s.
  destruct (search_loop_spec (length a) a x 0 (length a)) as [Hlo Hhi]; [done|done|lia|lia| | |].
  { intros k b Hk. lia. }
  { intros k b Hk Hb. apply lookup_lt_Some in Hb. lia. }
  pose proof (search_loop_bounds (length a) a x 0 (length a) ltac:(lia)) as Hr.
  set (r := search_loop (length a) a x 0 (length a)) in *. clearbody r.
  assert (∀ b, F_ltb b x = true → F_leb x b = true → False) as Hexcl.
  { intros b H1 H2. destruct (F_leb_nan _ _ H2). rewrite F_ltb_leb, H2 in H1 by done. done. }
  apply eq_bool_prop_intro. rewrite bool_decide_spec, Is_true_true. unfold in_bucket.
  rewrite andb_true_iff. split.
  - intros [H1 H2]. f_equal. destruct (Nat.lt_trichotomy r i) as [Hlt|[->|Hgt]]; [|done|].
    + destruct i as [|i]; [lia|]. destruct (a !! i) as [b|] eqn:Eb; [|done].
      exfalso. eapply Hexcl; [exact H1|]. apply (Hhi i); [lia|done].
    + destruct (lookup_lt_is_Some_2 a i) as [b Eb]; [lia|]. rewrite Eb in H2.
      exfalso. eapply Hexcl; [|exact H2]. by apply (Hlo i).
  - intros Er%Nat2Z.inj. subst r. split.
    + destruct i as [|i]; [done|]. destruct (lookup_lt_is_Some_2 a i) as [b Eb]; [lia|].
      rewrite Eb. apply (Hlo i); [lia|done].
    + destruct (a !! i) as [b|] eqn:Eb; [|done]. by apply (Hhi i).
Qed.

(** [h] is the histogram of the bounds [a] after the values [vs]. *)
Definition prom_rep (a : list float64) (vs : list float64) (h : PromHistogram) : Prop :=
  ph_latencyBounds h = a ∧ ph_count h = u64 (len vs) ∧
  length (ph_bucketCounts h) = (length a + 1)%nat ∧
  ∀ i, (i <= length a)%nat → ph_bucketCounts h !! i = Some (u64 (countb (in_bucket a i) vs)).

Lemma Prom_Update_rep a vs v h :
  floats_sorted a → prom_rep a vs h → IsNaN v = false →
  ∃ h', Prom_Update v h = Some h' ∧ prom_rep a (vs ++ [v]) h'.
Proof.
  intros Hs (Hb & Hc & Hl & Hi) Hv. unfold Prom_Update. rewrite Hb.
  pose proof (SearchFloat64s_range a v) as Hr.
  assert (∀ i, (i <= length a)%nat → in_bucket a i v = bool_decide (SearchFloat64s a v = Z.of_nat i)) as Hin.
  { intros i Hle. by apply SearchFloat64s_bucket. }
  set (k := SearchFloat64s a v) in *. clearbody k. unfold len in Hr.
  assert (slice_get (ph_bucketCounts h) k = Some (u64 (countb (in_bucket a (Z.to_nat k)) vs))) as ->.
  { unfold slice_get. destruct (Z.leb_spec 0 k); [|lia]. apply Hi. lia. }
  rewrite slice_set_Some by (unfold len; lia). eexists. split; [done|]. unfold prom_rep. simpl.
  split_and!; [done|rewrite Hc, u64_add_l, len_app; done|by rewrite length_insert|].
  intros i Hle. rewrite countb_app. simpl. rewrite Hin, Z.add_0_r by done.
  destruct (decide (k = Z.of_nat i)) as [->|Hne].
  - rewrite bool_decide_eq_true_2, Nat2Z.id by done. rewrite list_lookup_insert_eq by lia.
    by rewrite u64_add_l.
  - rewrite bool_decide_eq_false_2, Z.add_0_r by done. rewrite list_lookup_insert_ne by lia. by apply Hi.
Qed.

(** C14: The Prometheus histogram counts every value in the bucket it belongs to.
    For sorted bounds, after any values that are numbers: no update panics, the
    count is the number of values, and bucket [i] - above bound [i-1], up to
    bound [i], the last one without an upper end - holds the number of values in
    it; all modulo 2^64, the width of the counters. *)
Theorem Prom_histogram_counts bounds vs :
  floats_sorted bounds → Forall (λ v, IsNaN v = false) vs →
  ∃ h, run_all Prom_Update vs (NewPromHistogram bounds) = Some h ∧
    ph_count h = u64 (len vs) ∧ length (ph_bucketCounts h) = (length bounds + 1)%nat ∧
    ∀ i, (i <= length bounds)%nat →
      ph_bucketCounts h !! i = Some (u64 (countb (in_bucket bounds i) vs)).
Proof.
  intros Hs Hvs.
  destruct (run_all_rep (prom_rep bounds) Prom_Update (λ v, IsNaN v = false) vs (NewPromHistogram bounds))
    as (h & E & _ & ?); [|done| |by exists h].
  - intros pre v s Hr Hv. by apply Prom_Update_rep.
  - unfold prom_rep. simpl. rewrite length_replicate. split_and!; [done..|].
    intros i Hi. apply lookup_replicate. split; [done|lia].
Qed.

Lemma Prom_histogram_counts_witness :
  let bounds := F_of_Z <$> [2; 4] in
  floats_sorted bounds ∧
  ∃ h, run_all Prom_Update (F_of_Z <$> [1; 2; 3; 9]) (NewPromHistogram bounds) = Some h ∧
       ph_bucketCounts h = [2; 1; 1] ∧ ph_count h = 4.
Proof.
  assert (floats_sorted (F_of_Z <$> [2; 4])) as Hs.
  { intros [|[|i]] [|[|j]] x y Hij; try (intros; simplify_eq/=; (lia || done)). }
  split; [done|].
  destruct (Prom_histogram_counts (F_of_Z <$> [2; 4]) (F_of_Z <$> [1; 2; 3; 9])) as (h & E & Hc & Hl & Hi).
  - done.
  - repeat constructor.
  - exists h. split; [done|]. split; [|by rewrite Hc].
    apply list_eq. intros [|[|[|i]]]; [by rewrite Hi by (simpl; lia)..|].
    simpl. apply lookup_ge_None_2. rewrite Hl. simpl. lia.
Defined.

(** ** The VM histogram: the index of a value is in range *)

Lemma trunc_below_bucketsCount m e :
  Zpos m < 2 ^ 53 → F_leb (F_of_Z bucketsCount) (S754_finite false m e) = false →
  ∃ k, F_trunc (S754_finite false m e) = Some k ∧ 0 <= k < bucketsCount.
Proof.
  intros Hm Hle. assert (F_of_Z bucketsCount = S754_finite false 8549802417586176 (-44)) as E by done.
  rewrite E in Hle. unfold F_leb, SFleb, SFcompare in Hle.
  unfold F_trunc. simpl cond_Zopp.
  assert (e < -44 ∨ e = -44 ∧ Zpos m < 8549802417586176) as Hcase.
  { destruct (Z.compare_spec (-44) e) as [<-|?|?]; [|by simpl in Hle|left; lia].
    right. split; [done|]. change (Pos.compare_cont Eq 8549802417586176 m)
      with (Pos.compare 8549802417586176 m) in Hle.
    clear E Hm. revert Hle. generalize 8549802417586176%positive. intros c Hle.
    destruct (Pos.compare_spec c m); [discriminate Hle..|lia]. }
  destruct (Z.leb_spec 0 e); [lia|]. eexists. split; [done|].
  change bucketsCount with 486.
  assert (0 < 2 ^ (- e)) by (apply Z.pow_pos_nonneg; lia).
  split; [apply Z.div_pos; lia|]. apply Z.div_lt_upper_bound; [done|].
  destruct Hcase as [Hlt|[-> ?]]; [|simpl; lia].
  assert (2 ^ 45 <= 2 ^ (- e)) by (apply Z.pow_le_mono_r; lia). lia.
Qed.

Section vm_index.
Context `{GoPlatform} `{VmMathLaws}.

Definition vm_bucketIdx (v : float64) : float64 :=
  F_mul (F_sub (Log10 v) (F_of_Z e10Min)) (F_of_Z bucketsPerDecimal).

Lemma vm_bucketIdx_rounded v :
  IsNaN v = false → F_ltb v F_zero = false → rounded (vm_bucketIdx v).
Proof.
  intros Hn Hp. unfold vm_bucketIdx.
  assert (IsNaN (F_sub (Log10 v) (F_of_Z e10Min)) = false) as Hs.
  { assert (F_of_Z e10Min = S754_finite true 5066549580791808 (-49)) as -> by done.
    apply F_sub_not_nan. by apply Log10_nan. }
  assert (F_of_Z bucketsPerDecimal = S754_finite false 5066549580791808 (-48)) as -> by done.
  destruct (F_sub _ _) as [| | |s m e]; try done.
  apply (F_mul_rounded (S754_finite s m e) (S754_finite false 5066549580791808 (-48))).
Qed.

Lemma vm_index_range b :
  rounded b → F_ltb b F_zero = false → F_leb (F_of_Z bucketsCount) b = false →
  0 <= vm_index b < bucketsCount.
Proof.
  intros Hr Hneg Hup. assert (∃ k, F_trunc b = Some k ∧ 0 <= k < bucketsCount) as (k & Ek & Hk).
  { destruct b as [s|[]| |[] m e]; try done; [by exists 0|]. by apply trunc_below_bucketsCount. }
  unfold vm_index, uint64_of_float. rewrite Ek.
  assert ((0 <=? k) && (k <? two64) = true) as ->.
  { change bucketsCount with 486 in Hk. unfold two64. apply andb_true_iff. lia. }
  repeat case_match; bool_facts; lia.
Qed.

(** Where a value is counted: nowhere, below ([-1]), above ([bucketsCount]) or
    in a bucket. *)
Definition vm_slot (v : float64) : option Z :=
  if IsNaN v || F_ltb v F_zero then None
  else if F_ltb (vm_bucketIdx v) F_zero then Some (-1)
  else if F_leb (F_of_Z bucketsCount) (vm_bucketIdx v) then Some bucketsCount
  else Some (vm_index (vm_bucketIdx v)).

(** The position of a value on the scale of the buckets, 18 to a decade from 1e-9 on. *)
Definition vm_position (v : float64) : float64 :=
  F_mul (F_sub (Log10 v) (F_of_Z (-9))) (F_of_Z 18).

(** The buckets by their bounds, for the exact value of the position: bucket
    number [i] is above [i] and up to [i + 1], the lower bucket ([-1]) is below 0, the
    upper one ([bucketsCount]) from 486 on; the value 0 itself, which no bucket is above
    of, is in the first.  Values that are NaN or negative have none. *)
Definition in_slot (i : Z) (v : float64) : bool :=
  let x := vm_position v in
  negb (IsNaN v || F_ltb v F_zero) &&
  if i =? -1 then F_ltZ x 0
  else if i =? bucketsCount then negb (F_ltZ x bucketsCount)
  else (0 <=? i) && F_ltZ x bucketsCount && F_leZ x (i + 1) &&
       (if i =? 0 then negb (F_ltZ x 0) else negb (F_leZ x i)).
Definition counted (v : float64) : bool := negb (IsNaN v || F_ltb v F_zero).

Lemma vm_slot_range v s : vm_slot v = Some s → -1 <= s <= bucketsCount.
Proof.
  unfold vm_slot. destruct (IsNaN v) eqn:E1; [done|]. destruct (F_ltb v F_zero) eqn:E2; [done|]. cbn [orb].
  pose proof (vm_bucketIdx_rounded v E1 E2) as Hr.
  destruct (F_ltb (vm_bucketIdx v) F_zero) eqn:E3; [intros E; injection E as <-; change bucketsCount with 486; lia|].
  destruct (F_leb _ _) eqn:E4; [intros E; injection E as <-; change bucketsCount with 486; lia|]. intros [= <-].
  pose proof (vm_index_range _ Hr E3 E4). lia.
Qed.

Lemma vm_bucketIdx_normal v : IsNaN v = false → F_ltb v F_zero = false → normal (vm_bucketIdx v).
Proof.
  intros Hn Hp. unfold vm_bucketIdx.
  assert (F_of_Z bucketsPerDecimal = S754_finite false 5066549580791808 (-48)) as -> by done.
  apply F_mul_normal; [|lia].
  assert (F_of_Z e10Min = S754_finite true 5066549580791808 (-49)) as -> by done.
  apply F_sub_not_nan. by apply Log10_nan.
Qed.

(** The index is the bucket by its bounds. *)
Lemma vm_index_bucket x i :
  normal x → F_ltZ x 0 = false → F_ltZ x bucketsCount = true →
  bool_decide (vm_index x = i) =
    (0 <=? i) && F_leZ x (i + 1) && (if i =? 0 then negb (F_ltZ x 0) else negb (F_leZ x i)).
Proof.
  change bucketsCount with 486. intros Hx Hz Hup. rewrite Hz.
  destruct (F_trunc x) as [k|] eqn:Ek; [|by destruct x as [|[]| |]].
  destruct (F_trunc_floor x k Hz Ek) as (Hk0 & Hlo & Hhi).
  assert (k < 486) as Hk by (apply Z.nle_gt; intros Hle; apply (F_ltZ_mono x 486 k) in Hup; congruence).
  assert (∀ n, n < k → F_leZ x n = false) as Hbelow.
  { intros n Hn. destruct (F_leZ x n) eqn:E; [|done]. apply (F_leZ_ltZ x n k) in E; congruence. }
  assert (∀ n, k < n → F_leZ x n = true) as Habove.
  { intros n Hn. apply (F_leZ_mono x (k + 1)); [lia|]. by apply F_ltZ_leZ. }
  assert (vm_index x = if F_leZ x k && (k >? 0) then k - 1 else k) as ->.
  { unfold vm_index, uint64_of_float. rewrite Ek.
    assert ((0 <=? k) && (k <? two64) = true) as -> by (unfold two64; apply andb_true_iff; lia).
    destruct (Z.gtb_spec k 0) as [Hp|Hp]; [|by rewrite !andb_false_r].
    rewrite F_eqb_of_Z, Hlo by (done || lia). cbn [negb]. by rewrite !andb_true_r. }
  destruct (F_leZ x k) eqn:E; destruct (Z.gtb_spec k 0) as [Hp|Hp]; cbn [andb].
  - destruct (Z.lt_trichotomy i (k - 1)) as [Hi|[->|Hi]].
    + rewrite bool_decide_eq_false_2 by lia. rewrite (Hbelow (i + 1)) by lia. by rewrite andb_false_r.
    + rewrite bool_decide_eq_true_2 by done. replace (k - 1 + 1) with k by lia. rewrite E, (Hbelow (k - 1)) by lia.
      destruct (Z.leb_spec 0 (k - 1)); [|lia]. by case_match.
    + rewrite bool_decide_eq_false_2 by lia. destruct (Z.eqb_spec i 0); [lia|].
      rewrite (F_leZ_mono x k i) by (done || lia). by rewrite andb_false_r.
  - assert (k = 0) as -> by lia. destruct (Z.eqb_spec i 0) as [->|Hne].
    + rewrite bool_decide_eq_true_2 by done. by rewrite (Habove (0 + 1)) by lia.
    + rewrite bool_decide_eq_false_2 by lia. destruct (Z.leb_spec 0 i); [|done].
      rewrite (Habove i) by lia. by rewrite andb_false_r.
  - destruct (Z.lt_trichotomy i k) as [Hi|[->|Hi]].
    + rewrite bool_decide_eq_false_2 by lia. assert (F_leZ x (i + 1) = false) as ->; [|by rewrite andb_false_r].
      destruct (F_leZ x (i + 1)) eqn:E1; [|done]. apply (F_leZ_mono x _ k) in E1; [congruence|lia].
    + rewrite bool_decide_eq_true_2 by done. rewrite (Habove (k + 1)), E by lia.
      destruct (Z.leb_spec 0 k), (Z.eqb_spec k 0); (done || lia).
    + rewrite bool_decide_eq_false_2 by lia. destruct (Z.eqb_spec i 0); [lia|]. rewrite (Habove i) by lia. by rewrite andb_false_r.
  - assert (k = 0) as -> by lia. destruct (Z.eqb_spec i 0) as [->|Hne].
    + rewrite bool_decide_eq_true_2 by done. by rewrite (Habove (0 + 1)) by lia.
    + rewrite bool_decide_eq_false_2 by lia. destruct (Z.leb_spec 0 i); [|done].
      rewrite (Habove i) by lia. by rewrite andb_false_r.
Qed.

Lemma in_slot_slot i v : in_slot i v = bool_decide (vm_slot v = Some i).
Proof.
  unfold in_slot, vm_slot. change (vm_position v) with (vm_bucketIdx v).
  destruct (IsNaN v) eqn:E1; [done|]. destruct (F_ltb v F_zero) eqn:E2; [done|]. cbn [orb negb andb].
  pose proof (vm_bucketIdx_normal v E1 E2) as Hx. set (x := vm_bucketIdx v) in *. clearbody x.
  rewrite F_ltZ_zero, F_leb_of_Z by (done || change bucketsCount with 486; lia).
  assert (∀ j, bool_decide (Some j = Some i) = bool_decide (j = i)) as Hj
    by (intros j; apply bool_decide_ext; split; [by intros [= ->]|by intros ->]).
  destruct (F_ltZ x 0) eqn:E3.
  - rewrite Hj, (F_ltZ_mono x 0 bucketsCount) by (done || change bucketsCount with 486; lia).
    destruct (Z.eqb_spec i (-1)) as [->|Hne]; [done|]. rewrite bool_decide_eq_false_2 by lia.
    destruct (Z.eqb_spec i bucketsCount) as [->|Hne']; [done|]. destruct (Z.eqb_spec i 0); [by rewrite andb_false_r|].
    destruct (Z.leb_spec 0 i); [|done]. apply F_ltZ_leZ in E3. rewrite (F_leZ_mono x 0 i) by (done || lia). by rewrite andb_false_r.
  - destruct (F_ltZ x bucketsCount) eqn:E4; cbn [negb].
    + rewrite Hj, vm_index_bucket by done. rewrite E3.
      destruct (Z.eqb_spec i (-1)) as [->|Hne]; [done|].
      destruct (Z.eqb_spec i bucketsCount) as [->|Hne']; [|by rewrite andb_true_r].
      symmetry. change bucketsCount with 486 in *. apply F_ltZ_leZ in E4. cbn. rewrite E4. by rewrite andb_false_r.
    + rewrite Hj. destruct (Z.eqb_spec i (-1)) as [->|Hne]; [by rewrite bool_decide_eq_false_2 by (change bucketsCount with 486; lia)|].
      destruct (Z.eqb_spec i bucketsCount) as [->|Hne']; [by rewrite bool_decide_eq_true_2|].
      rewrite andb_false_r. by rewrite bool_decide_eq_false_2.
Qed.
End vm_index.

(** ** The VM histogram: its counters *)

(** The counters of all buckets, zero where the array is not there. *)
Definition vm_flat (buckets : list (option (list Z))) : list Z := mjoin (bucket_array <$> buckets).

Definition vm_wf (buckets : list (option (list Z))) : Prop :=
  len buckets = decimalBucketsCount ∧
  Forall (λ db, len (bucket_array db) = bucketsPerDecimal) buckets.

Lemma length_vm_flat buckets :
  Forall (λ db, len (bucket_array db) = bucketsPerDecimal) buckets →
  len (vm_flat buckets) = len buckets * bucketsPerDecimal.
Proof.
  unfold vm_flat. induction 1 as [|db l Hdb Hl IH]; [done|]. rewrite mjoin_fmap_cons, len_app, IH, Hdb.
  unfold len. simpl length. lia.
Qed.

Lemma insert_middle {A} (l1 l2 : list A) x y : <[length l1 := y]> (l1 ++ x :: l2) = l1 ++ y :: l2.
Proof. by induction l1 as [|a l1 IH]; simpl; [|rewrite IH]. Qed.

Lemma slice_get_middle {A} (l1 l2 : list A) x i : len l1 = i → slice_get (l1 ++ x :: l2) i = Some x.
Proof.
  intros <-. unfold slice_get, len. rewrite Nat2Z.id. destruct (Z.leb_spec 0 (Z.of_nat (length l1))); [|lia].
  by apply list_lookup_middle.
Qed.

Lemma slice_set_middle {A} (l1 l2 : list A) x y i :
  len l1 = i → slice_set (l1 ++ x :: l2) i y = Some (l1 ++ y :: l2).
Proof.
  intros <-. rewrite slice_set_Some by (unfold len; rewrite length_app; simpl; lia). f_equal.
  unfold len. rewrite Nat2Z.id. apply insert_middle.
Qed.

(** A list is cut at an index in range. *)
Lemma cut_at {A} (l : list A) i : 0 <= i < len l → ∃ l1 x l2, l = l1 ++ x :: l2 ∧ len l1 = i.
Proof.
  unfold len. intros Hi. destruct (lookup_lt_is_Some_2 l (Z.to_nat i)) as [x Hx]; [lia|].
  exists (take (Z.to_nat i) l), x, (drop (S (Z.to_nat i)) l). split; [symmetry; by apply take_drop_middle|].
  rewrite length_take. lia.
Qed.

(** A hit raises the counter of its index and nothing else. *)
Lemma vm_hit_spec idx buckets :
  vm_wf buckets → 0 <= idx < bucketsCount →
  ∃ buckets' c, vm_hit idx buckets = Some buckets' ∧ vm_wf buckets' ∧
    slice_get (vm_flat buckets) idx = Some c ∧
    slice_set (vm_flat buckets) idx (u64 (c + 1)) = Some (vm_flat buckets').
Proof.
  intros [Hlen Hall] Hidx. unfold vm_hit.
  change bucketsCount with (27 * 18) in Hidx. change decimalBucketsCount with 27 in Hlen.
  pose proof (Z.div_mod idx 18 ltac:(done)) as Hdm. pose proof (Z.mod_pos_bound idx 18 ltac:(done)) as Hm.
  change bucketsPerDecimal with 18. set (q := idx / 18) in *. set (r := idx mod 18) in *. clearbody q r.
  destruct (cut_at buckets q) as (l1 & db & l2 & -> & Hq); [lia|].
  apply Forall_app in Hall as [Hall1 Hall2]. apply Forall_cons_1 in Hall2 as [Hdb Hall2].
  change bucketsPerDecimal with 18 in Hdb.
  destruct (cut_at (bucket_array db) r) as (a1 & c & a2 & Ea & Hr); [lia|].
  rewrite (slice_get_middle _ _ _ _ Hq), Ea, (slice_get_middle _ _ _ _ Hr),
    (slice_set_middle _ _ _ _ _ Hr), (slice_set_middle _ _ _ _ _ Hq).
  assert (∀ x, vm_flat (l1 ++ Some (a1 ++ x :: a2) :: l2) = (vm_flat l1 ++ a1) ++ x :: (a2 ++ vm_flat l2)) as Ef.
  { intros x. unfold vm_flat. rewrite mjoin_fmap_app, mjoin_fmap_cons. simpl. by rewrite <- !app_assoc. }
  assert (vm_flat (l1 ++ db :: l2) = (vm_flat l1 ++ a1) ++ c :: (a2 ++ vm_flat l2)) as Ef0.
  { unfold vm_flat. rewrite mjoin_fmap_app, mjoin_fmap_cons, Ea. simpl. by rewrite <- !app_assoc. }
  assert (len (vm_flat l1 ++ a1) = idx) as Hi.
  { rewrite len_app, (length_vm_flat _ Hall1), Hq, Hr. change bucketsPerDecimal with 18. lia. }
  exists (l1 ++ Some (a1 ++ u64 (c + 1) :: a2) :: l2), c. rewrite Ef, Ef0.
  split_and!; [done| |by apply slice_get_middle|by apply slice_set_middle].
  split.
  - change decimalBucketsCount with 27. rewrite <- Hlen, !len_app. unfold len. simpl length. lia.
  - apply Forall_app. split; [done|]. constructor; [|done]. simpl. rewrite Ea in Hdb.
    unfold len in *. rewrite length_app in *. simpl in *. done.
Qed.

Section vm_counts.
Context `{GoPlatform} `{VmMathLaws}.

(** [h] is the histogram after the values [vs]. *)
Definition vm_rep (vs : list float64) (h : VmHistogram) : Prop :=
  vm_wf (vh_decimalBuckets h) ∧
  vh_lower h = u64 (countb (in_slot (-1)) vs) ∧
  vh_upper h = u64 (countb (in_slot bucketsCount) vs) ∧
  ∀ i, 0 <= i < bucketsCount →
    slice_get (vm_flat (vh_decimalBuckets h)) i = Some (u64 (countb (in_slot i) vs)).

Lemma New_vm_rep : vm_rep [] NewVmHistogram.
Proof.
  unfold vm_rep. split_and!; [|done|done|].
  - split; [done|]. apply Forall_replicate. done.
  - intros i Hi. change (vm_flat (vh_decimalBuckets NewVmHistogram)) with (replicate 486 0).
    change bucketsCount with 486 in Hi. unfold slice_get. destruct (Z.leb_spec 0 i); [|lia].
    apply lookup_replicate. split; [done|lia].
Qed.

(** Another slot than the value's keeps its count. *)
Lemma count_other vs v i s :
  vm_slot v = s → s ≠ Some i → countb (in_slot i) (vs ++ [v]) = countb (in_slot i) vs.
Proof.
  intros Hs Hne. rewrite countb_app. cbn [countb]. rewrite in_slot_slot, Hs.
  rewrite bool_decide_eq_false_2 by done. lia.
Qed.

Lemma count_hit vs v i :
  vm_slot v = Some i → u64 (u64 (countb (in_slot i) vs) + 1) = u64 (countb (in_slot i) (vs ++ [v])).
Proof.
  intros Hs. rewrite countb_app. cbn [countb]. rewrite (in_slot_slot _ v), Hs.
  rewrite bool_decide_eq_true_2 by done. by rewrite u64_add_l.
Qed.

Lemma Vm_Update_rep vs v h :
  vm_rep vs h → ∃ h', Vm_Update v h = Some h' ∧ vm_rep (vs ++ [v]) h'.
Proof.
  intros (Hwf & Hlo & Hup & Hmid). unfold Vm_Update.
  assert (∀ s, vm_slot v = s → s = vm_slot v) as Hs by done.
  unfold vm_slot in Hs at 1.
  destruct (IsNaN v || F_ltb v F_zero) eqn:E0.
  { specialize (Hs _ eq_refl). symmetry in Hs. exists h. split; [done|].
    split_and!; [done|..]; intros; rewrite (count_other _ _ _ None) by done; auto. }
  apply orb_false_iff in E0 as [En Ep]. fold (vm_bucketIdx v).
  pose proof (vm_bucketIdx_rounded v En Ep) as Hr.
  destruct (F_ltb (vm_bucketIdx v) F_zero) eqn:E1.
  { specialize (Hs _ eq_refl). symmetry in Hs. eexists. split; [done|]. split_and!; simpl; [done|..].
    - by rewrite Hlo, (count_hit _ v).
    - rewrite Hup. f_equal. symmetry. by apply (count_other _ _ _ _ Hs).
    - intros i Hi. rewrite Hmid by done. do 2 f_equal. symmetry. apply (count_other _ _ _ _ Hs).
      intros [= <-]. lia. }
  destruct (F_leb (F_of_Z bucketsCount) (vm_bucketIdx v)) eqn:E2.
  { specialize (Hs _ eq_refl). symmetry in Hs. eexists. split; [done|]. split_and!; simpl; [done|..].
    - rewrite Hlo. f_equal. symmetry. by apply (count_other _ _ _ _ Hs).
    - by rewrite Hup, (count_hit _ v).
    - intros i Hi. rewrite Hmid by done. do 2 f_equal. symmetry. apply (count_other _ _ _ _ Hs).
      intros E. injection E as E. lia. }
  specialize (Hs _ eq_refl). symmetry in Hs.
  pose proof (vm_index_range _ Hr E1 E2) as Hidx. set (idx := vm_index (vm_bucketIdx v)) in *.
  clearbody idx. destruct (vm_hit_spec idx _ Hwf Hidx) as (b' & c & -> & Hwf' & Hc & Hset).
  rewrite Hmid in Hc by done. injection Hc as <-. eexists. split; [done|]. split_and!; simpl; [done|..].
  - rewrite Hlo. f_equal. symmetry. apply (count_other _ _ _ _ Hs). intros [= ->]. lia.
  - rewrite Hup. f_equal. symmetry. apply (count_other _ _ _ _ Hs). intros E. injection E as ->. lia.
  - intros i Hi. destruct (slice_set_get _ _ _ i _ Hset) as [_ ->].
    destruct (Z.eqb_spec idx i) as [->|Hne]; [by rewrite (count_hit _ v)|].
    rewrite Hmid by done. do 2 f_equal. symmetry. apply (count_other _ _ _ _ Hs). congruence.
Qed.

(** *** Reading *)

Definition positive (r : string * Z) : Prop := 0 < r.2.
#[local] Instance positive_dec r : Decision (positive r).
Proof. unfold positive. apply _. Defined.

Lemma visit_offsets_spec counts base :
  0 <= base → base + len counts <= len bucketRanges →
  visit_offsets base counts = Some (filter positive (zip (drop (Z.to_nat base) bucketRanges) counts)).
Proof.
  revert base. induction counts as [|c counts IH]; intros base Hb Hle; [by destruct (drop _ _)|].
  unfold len in *. simpl length in *. simpl visit_offsets. rewrite IH by lia.
  destruct (lookup_lt_is_Some_2 bucketRanges (Z.to_nat base)) as [x Hx]; [lia|].
  rewrite (drop_S _ _ _ Hx). replace (Z.to_nat (base + 1)) with (S (Z.to_nat base)) by lia.
  simpl zip. rewrite filter_cons. unfold getVMRange, slice_get.
  destruct (Z.leb_spec 0 base); [|lia]. rewrite Hx. simpl.
  rewrite Z.gtb_ltb. case_decide as Hp; unfold positive in Hp; simpl in Hp;
    destruct (Z.ltb_spec 0 c); lia || done.
Qed.

Lemma filter_zip_zeros (l : list string) n : filter positive (zip l (replicate n 0)) = [].
Proof.
  revert l. induction n as [|n IH]; intros [|x l]; try done. simpl zip. rewrite filter_cons.
  rewrite decide_False by (unfold positive; simpl; lia). apply IH.
Qed.

Lemma visit_decimals_spec buckets idx :
  Forall (λ db, len (bucket_array db) = bucketsPerDecimal) buckets →
  0 <= idx → (idx + len buckets) * bucketsPerDecimal <= len bucketRanges →
  visit_decimals idx buckets =
    Some (filter positive (zip (drop (Z.to_nat (idx * bucketsPerDecimal)) bucketRanges) (vm_flat buckets))).
Proof.
  intros Hall. revert idx. change bucketsPerDecimal with 18.
  induction Hall as [|db buckets Hdb Hall IH]; intros idx Hi Hle; [by destruct (drop _ _)|].
  unfold vm_flat. rewrite mjoin_fmap_cons, zip_with_app_r, list.filter_app. fold (vm_flat buckets).
  change bucketsPerDecimal with 18 in *. simpl visit_decimals.
  unfold len in *. simpl length in Hle. rewrite IH by lia.
  assert (match db with
          | Some counts => visit_offsets (idx * bucketsPerDecimal) counts
          | None => Some []
          end = Some (filter positive (zip (drop (Z.to_nat (idx * 18)) bucketRanges) (bucket_array db)))) as ->.
  { destruct db as [counts|]; simpl.
    - apply visit_offsets_spec; unfold len; change bucketsPerDecimal with 18; simpl in Hdb; lia.
    - symmetry. f_equal. exact (filter_zip_zeros _ 18). }
  do 2 f_equal.
  - f_equal. symmetry. by apply zip_with_take_l.
  - rewrite drop_drop. do 3 f_equal. lia.
Qed.

Definition vmranges : list string := lowerBucketRange :: bucketRanges ++ [upperBucketRange].
Definition vm_counters (h : VmHistogram) : list Z :=
  vh_lower h :: vm_flat (vh_decimalBuckets h) ++ [vh_upper h].

Lemma VisitNonZeroBuckets_spec h :
  vm_wf (vh_decimalBuckets h) → 0 <= vh_lower h → 0 <= vh_upper h →
  VisitNonZeroBuckets h = Some (filter positive (zip vmranges (vm_counters h))).
Proof.
  intros [Hlen Hall] Hl Hu. unfold VisitNonZeroBuckets.
  pose proof (length_vm_flat _ Hall) as Hf. pose proof bucketRanges_length as Hr.
  rewrite visit_decimals_spec; [|done|done|by rewrite Hr, Hlen].
  unfold vmranges, vm_counters. simpl zip. rewrite filter_cons, zip_with_app, list.filter_app.
  2:{ unfold len in *. rewrite Hlen in Hf. change bucketsCount with 486 in Hr.
      change (decimalBucketsCount * bucketsPerDecimal) with 486 in Hf. lia. }
  simpl zip. rewrite filter_cons. rewrite !Z.gtb_ltb.
  destruct (Z.ltb_spec 0 (vh_lower h)), (Z.ltb_spec 0 (vh_upper h));
    repeat case_decide; unfold positive in *; simpl in *; lia || done.
Qed.

Lemma read_count l values :
  u64 (vv_count values) = vv_count values →
  vv_count (foldS read_bucket l values) = u64 (vv_count values + sumZ l.*2).
Proof.
  revert values. induction l as [|r l IH]; intros values Hv; cbn [foldS].
  - change (sumZ _) with 0. by rewrite Z.add_0_r.
  - rewrite fmap_cons, sumZ_cons, IH; simpl; [|apply u64_idem]. by rewrite u64_add_l, Z.add_assoc.
Qed.

Lemma read_lookup l values range c :
  NoDup l.*1 →
  vv_buckets (foldS read_bucket l values) !! range = Some c ↔
    (range, c) ∈ l ∨ range ∉ l.*1 ∧ vv_buckets values !! range = Some c.
Proof.
  revert values. induction l as [|[k x] l IH]; intros values Hnd.
  { simpl. set_solver. }
  rewrite fmap_cons in Hnd. apply list.NoDup_cons in Hnd as [Hk Hnd]. cbn [foldS]. rewrite IH by done.
  rewrite fmap_cons, not_elem_of_cons, elem_of_cons. simpl.
  assert ((k, c) ∈ l → k ∈ l.*1) as Hin by (intros ?; apply list_elem_of_fmap; by exists (k, c)).
  destruct (decide (range = k)) as [->|Hne]; simplify_map_eq; naive_solver.
Qed.

(** The counters that are not zero are all there is to add up. *)
Lemma sum_positive (l : list string) (cs : list Z) :
  length l = length cs → Forall (λ c, 0 <= c) cs → sumZ (filter positive (zip l cs)).*2 = sumZ cs.
Proof.
  intros Hlen Hall. revert l Hlen.
  induction Hall as [|c cs Hc Hall IH]; intros [|x l] Hlen; try done. injection Hlen as Hlen.
  simpl zip. rewrite filter_cons. case_decide as Hp; unfold sumZ in *; simpl; rewrite IH by done; [done|].
  unfold positive in Hp. simpl in Hp. lia.
Qed.

Lemma vm_counters_spec vs h :
  vm_rep vs h →
  vm_counters h = (λ n, u64 (countb (in_slot (Z.of_nat n - 1)) vs)) <$> seq 0 488.
Proof.
  intros ([Hlen Hall] & Hlo & Hup & Hmid). unfold vm_counters. rewrite Hlo, Hup.
  pose proof (length_vm_flat _ Hall) as Hf. rewrite Hlen in Hf.
  change (decimalBucketsCount * bucketsPerDecimal) with 486 in Hf.
  change (seq 0 488) with (0%nat :: seq 1 486 ++ [487%nat]). rewrite fmap_cons, fmap_app.
  change (Z.of_nat 0 - 1) with (-1). f_equal. f_equal.
  apply list_eq. intros i. rewrite list_lookup_fmap.
  destruct (decide (i < 486)%nat) as [Hi|Hi].
  - rewrite lookup_seq_lt by done. simpl. specialize (Hmid (Z.of_nat i)).
    change bucketsCount with 486 in Hmid. unfold slice_get in Hmid.
    rewrite Nat2Z.id in Hmid. destruct (Z.leb_spec 0 (Z.of_nat i)); [|lia]. rewrite Hmid by lia.
    do 4 f_equal. lia.
  - rewrite lookup_seq_ge by lia. simpl. apply lookup_ge_None_2. unfold len in Hf. lia.
Qed.

Lemma count_all vs :
  sumZ ((λ n, countb (in_slot (Z.of_nat n - 1)) vs) <$> seq 0 488) = countb counted vs.
Proof.
  induction vs as [|v vs IH]; simpl countb; [by rewrite sumZ_const0|].
  rewrite sumZ_fmap_add, IH. f_equal. unfold counted.
  destruct (vm_slot v) as [s|] eqn:Es.
  - assert (IsNaN v || F_ltb v F_zero = false) as ->.
    { unfold vm_slot in Es. by destruct (IsNaN v || F_ltb v F_zero). }
    pose proof (vm_slot_range _ _ Es) as Hs. change bucketsCount with 486 in Hs. simpl negb.
    apply (sumZ_indicator _ _ _ (Z.to_nat (s + 1))); [lia| |].
    + rewrite in_slot_slot, Es. apply bool_decide_eq_true_2. f_equal. lia.
    + intros i Hi. rewrite in_slot_slot, Es. apply bool_decide_eq_false_2. intros [= ->]. lia.
  - assert (IsNaN v || F_ltb v F_zero = true) as ->.
    { unfold vm_slot in Es. destruct (IsNaN v || F_ltb v F_zero); [done|]. repeat case_match; done. }
    simpl negb. erewrite list_fmap_ext; [apply sumZ_const0|].
    intros i n _. simpl. by rewrite in_slot_slot, Es.
Qed.

Lemma Vm_Read_rep vs h :
  vm_rep vs h →
  ∃ values, Vm_Read h = Some values ∧
    vv_count values = u64 (countb counted vs) ∧
    ∀ range c, vv_buckets values !! range = Some c ↔
      0 < c ∧ ∃ n, vmranges !! n = Some range ∧ c = u64 (countb (in_slot (Z.of_nat n - 1)) vs).
Proof.
  intros Hrep. pose proof (vm_counters_spec vs h Hrep) as Hc. pose proof Hrep as (Hwf & Hlo & Hup & _).
  unfold Vm_Read. rewrite VisitNonZeroBuckets_spec; [|done|rewrite Hlo; apply u64_range|rewrite Hup; apply u64_range].
  set (l := filter positive (zip vmranges (vm_counters h))).
  assert (length vmranges = length (vm_counters h)) as Hlen.
  { rewrite Hc, length_fmap, length_seq. unfold vmranges. simpl. rewrite length_app. simpl.
    pose proof bucketRanges_length as Hr. unfold len in Hr. change bucketsCount with 486 in Hr. lia. }
  assert (NoDup l.*1) as Hnd.
  { apply (sublist_NoDup _ vmranges); [apply vmranges_NoDup|].
    rewrite <- (fst_zip vmranges (vm_counters h)) by lia. apply fmap_sublist, sublist_filter. }
  assert (∀ (b : bool) values, vv_count (if b then {| vv_buckets := vv_buckets values;
            vv_count := vv_count values; vv_sum := vh_sum h |} else values) = vv_count values ∧
          vv_buckets (if b then {| vv_buckets := vv_buckets values;
            vv_count := vv_count values; vv_sum := vh_sum h |} else values) = vv_buckets values) as Hif
    by by intros [].
  eexists. split; [done|]. split.
  - rewrite (proj1 (Hif _ _)), read_count by done. change (vv_count newVmHistogramValues) with 0.
    rewrite Z.add_0_l. unfold l.
    rewrite sum_positive; [|done|].
    + rewrite Hc, <- count_all. symmetry. rewrite <- u64_sumZ. by rewrite <- list_fmap_compose.
    + rewrite Hc. apply Forall_fmap, Forall_true. intros n. apply u64_range.
  - intros range c. rewrite (proj2 (Hif _ _)), read_lookup by done. simpl. rewrite lookup_empty.
    unfold l. rewrite list_elem_of_filter, list_elem_of_lookup. split.
    + intros [[Hp [n Hn]]|[_ ?]]; [|done]. split; [done|]. exists n.
      apply lookup_zip_with_Some in Hn as (r & x & [= -> ->] & Hr & Hx). split; [done|].
      rewrite Hc, list_lookup_fmap in Hx. apply fmap_Some in Hx as (k & Hk & ->).
      apply lookup_seq in Hk as [-> _]. done.
    + intros (Hp & n & Hr & ->). left. split; [done|]. exists n. apply lookup_zip_with_Some.
      eexists _, _. split; [done|]. split; [done|]. rewrite Hc, list_lookup_fmap.
      apply lookup_lt_Some in Hr. rewrite Hlen, Hc, length_fmap, length_seq in Hr.
      by rewrite lookup_seq_lt.
Qed.

(** C13: The VM histogram neither panics nor loses a value: after any values, the
    count that [Read] reports is the number of values that are neither NaN nor
    negative, and the buckets it reports are exactly those that were hit, each
    with the number of values between its bounds. With x the position
    (log10 v + 9) * 18 of a value, bucket i of the 486 has those with
    i < x <= i + 1, the first one those with x = 0 too; below the first bucket
    are those with x < 0, above the last those with x >= 486; all modulo 2^64. *)
Theorem Vm_histogram_counts vs :
  ∃ h values, run_all Vm_Update vs NewVmHistogram = Some h ∧ Vm_Read h = Some values ∧
    vv_count values = u64 (countb counted vs) ∧
    ∀ range c, vv_buckets values !! range = Some c ↔
      0 < c ∧ ∃ n, vmranges !! n = Some range ∧ c = u64 (countb (in_slot (Z.of_nat n - 1)) vs).
Proof.
  destruct (run_all_rep vm_rep Vm_Update (λ _, True) vs NewVmHistogram) as (h & E & Hrep).
  { intros. by apply Vm_Update_rep. } { by apply Forall_true. } { apply New_vm_rep. }
  destruct (Vm_Read_rep vs h Hrep) as (values & Er & Hv). by exists h, values.
Qed.

Lemma add_zeros l n :
  length l = n → Forall (λ c, u64 c = c) l → l = zip_with (λ x y, u64 (x + y)) l (replicate n 0).
Proof.
  intros <-. induction 1 as [|x l Hx Hl IH]; [done|]. simpl. by rewrite Z.add_0_r, Hx, <- IH.
Qed.

Lemma merge_flat A B :
  Forall (λ db, len (bucket_array db) = bucketsPerDecimal) A →
  Forall (λ db, len (bucket_array db) = bucketsPerDecimal) B →
  Forall (λ c, u64 c = c) (vm_flat A) → length A = length B →
  vm_flat (zip_with merge_bucket A B) = zip_with (λ x y, u64 (x + y)) (vm_flat A) (vm_flat B) ∧
  Forall (λ db, len (bucket_array db) = bucketsPerDecimal) (zip_with merge_bucket A B).
Proof.
  change bucketsPerDecimal with 18. intros HA. revert B. unfold vm_flat.
  induction HA as [|a A Ha HA IH]; intros [|b B] HB Hu Hlen; try done.
  apply Forall_cons_1 in HB as [Hb HB]. rewrite mjoin_fmap_cons in Hu. apply Forall_app in Hu as [Hua Hu].
  destruct (IH B HB Hu) as [E Hw]; [by injection Hlen|]. simpl zip_with.
  assert (bucket_array (merge_bucket a b) = zip_with (λ x y, u64 (x + y)) (bucket_array a) (bucket_array b)) as Em.
  { destruct b as [l|]; [done|]. apply (add_zeros (bucket_array a) 18); [unfold len in Ha; lia|done]. }
  rewrite !(mjoin_fmap_cons bucket_array), E, Em. unfold len in *. split.
  - symmetry. apply zip_with_app. lia.
  - constructor; [|done]. rewrite Em, length_zip_with. lia.
Qed.

(** [Merge] adds the counters: it is the histogram of the values of both. *)
Lemma Vm_Merge_spec va vb ha hb :
  vm_rep va ha → vm_rep vb hb → vm_rep (va ++ vb) (Vm_Merge hb ha).
Proof.
  intros ([Hna Hwa] & Hla & Hua & Hma) ([Hnb Hwb] & Hlb & Hub & Hmb).
  assert (∀ i, u64 (u64 (countb (in_slot i) va) + u64 (countb (in_slot i) vb))
               = u64 (countb (in_slot i) (va ++ vb))) as Hadd.
  { intros i. by rewrite u64_add_l, u64_add_r, countb_app. }
  pose proof (length_vm_flat _ Hwa) as Hf. rewrite Hna in Hf. change (_ * _) with bucketsCount in Hf.
  assert (Forall (λ c, u64 c = c) (vm_flat (vh_decimalBuckets ha))) as Hu.
  { apply Forall_lookup. intros i c Hi. pose proof (lookup_lt_Some _ _ _ Hi) as Hlt.
    specialize (Hma (Z.of_nat i)). unfold slice_get in Hma. rewrite Nat2Z.id in Hma.
    destruct (Z.leb_spec 0 (Z.of_nat i)); [|lia]. unfold len in Hf.
    rewrite Hi in Hma. injection Hma as ->; [apply u64_idem|lia]. }
  destruct (merge_flat _ _ Hwa Hwb Hu) as [Em Hwm]; [unfold len in *; lia|].
  split_and!; simpl; [|by rewrite Hla, Hlb|by rewrite Hua, Hub|].
  - split; [|done]. unfold len in *. rewrite length_zip_with. lia.
  - intros i Hi. rewrite Em. specialize (Hma i Hi). specialize (Hmb i Hi). unfold slice_get in *.
    destruct (Z.leb_spec 0 i); [|lia]. rewrite lookup_zip_with, Hma, Hmb. simpl. by rewrite Hadd.
Qed.
End vm_counts.

(** A table whose logarithm is 0 on 1: enough to run the histogram. *)
Module RefVm.
(** The integer part of the decimal logarithm, of integers at least 1. *)
Definition log10 (v : float64) : float64 :=
  match F_trunc v with
  | Some n => F_of_Z (if n <=? 0 then -10 else Z.log2 n * 3 / 10)
  | None => match v with S754_nan => S754_nan | S754_infinity s => S754_infinity s | _ => F_zero end
  end.

(** 1.1364636663857248, the number next to the root. *)
#[export] Instance math : VmMath :=
  {| Log10 := log10; bucketMultiplier := S754_finite false 0x122ef4868380ca (-52) |}.

#[export] Instance laws : VmMathLaws math.
Proof.
  split.
  - intros v Hv Hp. change (Log10 v) with (log10 v). unfold log10. destruct (F_trunc v) as [n|] eqn:E.
    + case_match.
      all: match goal with |- IsNaN (F_of_Z ?n) = _ =>
             pose proof (binary_normalize_rounded n 0 false) as Hr; unfold F_of_Z end.
      all: by destruct (binary_normalize _ _ _ _ _).
    + by destruct v.
  - apply (bool_decide_unpack (NoDup _)). vm_compute. done.
Qed.
End RefVm.

Lemma Vm_histogram_counts_witness :
  ∃ h values,
    run_all (@Vm_Update AMD64.platform RefVm.math) (F_of_Z <$> [5; 2000; 3000; -1]) NewVmHistogram = Some h ∧
    @Vm_Read RefVm.math h = Some values ∧ vv_count values = 3.
Proof.
  destruct (@Vm_histogram_counts AMD64.platform RefVm.math RefVm.laws (F_of_Z <$> [5; 2000; 3000; -1]))
    as (h & values & E & Er & Hc & _).
  exists h, values. split_and!; [done..|]. rewrite Hc. vm_compute. done.
Defined.
