(* ===== verification/LruCache.v ===== *)
(** * LruCache: the dimension caches of the RED-metrics connector

    Models [internal/cache/cache.go].  The LRU list of [hashicorp/golang-lru]'s
    [simplelru] is the class [SimpleLRU] with the laws of its documentation; the
    eviction callback, a closure over [evictedItems], is the entry [Add] returns. *)

From S2P Require Import Prelude GoStrings.

Class SimpleLRU (K V : Type) `{Countable K} := {
  lru : Type;
  (** [None] is the error of a size that is not positive. *)
  NewLRU : Z → option lru;
  (** The new list, and the entry the eviction callback is called with. *)
  LRU_Add : K → V → lru → lru * option (K * V);
  LRU_Get : K → lru → option V * lru;
  LRU_Contains : K → lru → bool;
  LRU_Len : lru → Z;
  (** What it holds, and its size, to state the laws. *)
  LRU_items : lru → gmap K V;
  LRU_size : lru → Z;
}.

Class SimpleLRULaws {K V} `{Countable K} (L : SimpleLRU K V) : Prop := {
  NewLRU_ok : ∀ n, 0 < n → ∃ l, NewLRU n = Some l ∧ LRU_items l = ∅ ∧ LRU_size l = n;
  NewLRU_err : ∀ n, n <= 0 → NewLRU n = None;
  (** An entry is evicted only when a new key finds the list full, and it is
      another one. *)
  LRU_Add_items : ∀ k v l,
    match LRU_Add k v l with
    | (l', None) => LRU_items l' = <[k := v]> (LRU_items l)
    | (l', Some (k', v')) =>
        k' ≠ k ∧ LRU_items l !! k' = Some v' ∧
        LRU_items l' = delete k' (<[k := v]> (LRU_items l))
    end ∧ LRU_size (LRU_Add k v l).1 = LRU_size l;
  LRU_Add_bound : ∀ k v l, Z.of_nat (size (LRU_items l)) <= LRU_size l →
    Z.of_nat (size (LRU_items (LRU_Add k v l).1)) <= LRU_size l;
  LRU_Get_value : ∀ k l, (LRU_Get k l).1 = LRU_items l !! k;
  LRU_Get_items : ∀ k l, LRU_items (LRU_Get k l).2 = LRU_items l ∧
    LRU_size (LRU_Get k l).2 = LRU_size l;
  LRU_Contains_items : ∀ k l, LRU_Contains k l = bool_decide (is_Some (LRU_items l !! k));
  LRU_Len_items : ∀ l, LRU_Len l = Z.of_nat (size (LRU_items l));
}.

Section cache.
Context {K V : Type} `{Countable K} `{!SimpleLRU K V}.

Record Cache := {
  c_lru : lru;
  c_evictedItems : gmap K V;
}.

Definition NewCache (size : Z) : option Cache :=
  (λ l, {| c_lru := l; c_evictedItems := ∅ |}) <$> NewLRU size.

Definition RemoveEvictedItems (c : Cache) : Cache :=
  {| c_lru := c_lru c; c_evictedItems := ∅ |}.

(** [Add]: whether an eviction occurred, and the cache. *)
Definition Cache_Add (key : K) (value : V) (c : Cache) : bool * Cache :=
  match LRU_Add key value (c_lru c) with
  | (l, None) => (false, {| c_lru := l; c_evictedItems := c_evictedItems c |})
  | (l, Some (k, v)) => (true, {| c_lru := l; c_evictedItems := <[k := v]> (c_evictedItems c) |})
  end.

Definition Cache_Get (key : K) (c : Cache) : option V * Cache :=
  match LRU_Get key (c_lru c) with
  | (Some val, l) => (Some val, {| c_lru := l; c_evictedItems := c_evictedItems c |})
  | (None, l) =>
      let c := {| c_lru := l; c_evictedItems := c_evictedItems c |} in
      match c_evictedItems c !! key with
      | Some val =>
          (Some val,
           (Cache_Add key val {| c_lru := c_lru c; c_evictedItems := delete key (c_evictedItems c) |}).2)
      | None => (None, c)
      end
  end.

Definition Cache_Contains (key : K) (c : Cache) : bool := LRU_Contains key (c_lru c).
Definition Cache_Len (c : Cache) : Z := LRU_Len (c_lru c).

(** ** Until the evicted items are removed, the cache is a map *)

(** What it holds: the entry of the list, else the evicted one. *)
Definition view (c : Cache) : gmap K V := LRU_items (c_lru c) ∪ c_evictedItems c.

Context `{!SimpleLRULaws _}.

Lemma NewCache_view n : 0 < n → ∃ c, NewCache n = Some c ∧ view c = ∅.
Proof.
  intros Hn. destruct (NewLRU_ok n Hn) as (l & E & Hi & _). unfold NewCache. rewrite E.
  eexists. split; [done|]. unfold view. simpl. rewrite Hi. by rewrite map_union_empty.
Qed.

Lemma Cache_Add_view k v c : view (Cache_Add k v c).2 = <[k := v]> (view c).
Proof.
  unfold Cache_Add, view. destruct (LRU_Add_items k v (c_lru c)) as [Hi _].
  destruct (LRU_Add k v (c_lru c)) as [l' [[k' v']|]]; simpl.
  - destruct Hi as (Hne & Hk' & ->). apply map_eq. intros j. rewrite lookup_union.
    destruct (decide (j = k')) as [->|Hj].
    + rewrite lookup_delete_eq, lookup_insert_eq, lookup_insert_ne, lookup_union, Hk' by done.
      by destruct (c_evictedItems c !! k').
    + rewrite lookup_delete_ne, (lookup_insert_ne _ k') by done.
      destruct (decide (j = k)) as [->|].
      * rewrite !lookup_insert_eq. by destruct (c_evictedItems c !! k).
      * by rewrite !lookup_insert_ne, lookup_union by done.
  - rewrite Hi. by rewrite insert_union_l.
Qed.

Lemma Cache_Get_spec k c : (Cache_Get k c).1 = view c !! k ∧ view (Cache_Get k c).2 = view c.
Proof.
  unfold Cache_Get. pose proof (LRU_Get_value k (c_lru c)) as Hv.
  destruct (LRU_Get_items k (c_lru c)) as [Hi _].
  destruct (LRU_Get k (c_lru c)) as [[v|] l]; simpl in *.
  - unfold view. simpl. rewrite Hi, lookup_union, <- Hv. by destruct (c_evictedItems c !! k).
  - assert (view c !! k = c_evictedItems c !! k) as Hk.
    { unfold view. rewrite lookup_union, <- Hv. by destruct (c_evictedItems c !! k). }
    rewrite Hk. destruct (c_evictedItems c !! k) as [v|] eqn:Ek; simpl.
    + split; [done|]. rewrite Cache_Add_view. apply map_eq. intros j.
      destruct (decide (j = k)) as [->|Hj]; [by rewrite lookup_insert_eq|].
      rewrite lookup_insert_ne by done. unfold view. simpl. rewrite !lookup_union, Hi.
      by rewrite lookup_delete_ne.
    + split; [done|]. unfold view. simpl. by rewrite Hi.
Qed.

Lemma RemoveEvictedItems_view c : view (RemoveEvictedItems c) = LRU_items (c_lru c).
Proof. unfold view. simpl. by rewrite map_union_empty. Qed.

Lemma Cache_Contains_view k c :
  Cache_Contains k (RemoveEvictedItems c) = bool_decide (is_Some (view (RemoveEvictedItems c) !! k)).
Proof. unfold Cache_Contains. rewrite RemoveEvictedItems_view. apply LRU_Contains_items. Qed.

(** ** Runs *)

Inductive CacheOp := OpAdd (k : K) (v : V) | OpGet (k : K).

Fixpoint run_ops (ops : list CacheOp) (c : Cache) : list (option V) * Cache :=
  match ops with
  | [] => ([], c)
  | OpAdd k v :: ops' => run_ops ops' (Cache_Add k v c).2
  | OpGet k :: ops' =>
      let '(r, c1) := Cache_Get k c in
      let '(rs, c2) := run_ops ops' c1 in (r :: rs, c2)
  end.

(** The abstract specification: a map without a bound. *)
Fixpoint spec_ops (ops : list CacheOp) (m : gmap K V) : list (option V) * gmap K V :=
  match ops with
  | [] => ([], m)
  | OpAdd k v :: ops' => spec_ops ops' (<[k := v]> m)
  | OpGet k :: ops' => let '(rs, m') := spec_ops ops' m in (m !! k :: rs, m')
  end.

Lemma run_ops_spec ops c :
  (run_ops ops c).1 = (spec_ops ops (view c)).1 ∧ view (run_ops ops c).2 = (spec_ops ops (view c)).2.
Proof.
  revert c. induction ops as [|[k v|k] ops IH]; intros c; simpl; [done| |].
  - rewrite <- (Cache_Add_view k v c). apply IH.
  - destruct (Cache_Get_spec k c) as [Hv Hw]. destruct (Cache_Get k c) as [r c1]. simpl in *.
    specialize (IH c1). rewrite Hw in IH. destruct (run_ops ops c1), (spec_ops ops (view c)).
    simpl in *. destruct IH as [-> ->]. by rewrite Hv.
Qed.

(** The list never grows past its size. *)
Definition bounded_by (n : Z) (c : Cache) : Prop :=
  LRU_size (c_lru c) = n ∧ Z.of_nat (size (LRU_items (c_lru c))) <= n.

Lemma Cache_Add_bounded n k v c : bounded_by n c → bounded_by n (Cache_Add k v c).2.
Proof.
  intros [Hs Hb]. unfold Cache_Add, bounded_by in *. destruct (LRU_Add_items k v (c_lru c)) as [_ Hs'].
  pose proof (LRU_Add_bound k v (c_lru c)) as Hb'.
  destruct (LRU_Add k v (c_lru c)) as [l' [[k' v']|]]; simpl in *; lia.
Qed.

Lemma Cache_Get_bounded n k c : bounded_by n c → bounded_by n (Cache_Get k c).2.
Proof.
  intros Hb. unfold Cache_Get. destruct (LRU_Get_items k (c_lru c)) as [Hi Hs].
  destruct (LRU_Get k (c_lru c)) as [[v|] l]; simpl in *.
  - unfold bounded_by in *. simpl. by rewrite Hi, Hs.
  - assert (∀ e, bounded_by n {| c_lru := l; c_evictedItems := e |}) as Hl.
    { intros e. unfold bounded_by in *. simpl. by rewrite Hi, Hs. }
    destruct (c_evictedItems c !! k); simpl; [|apply Hl]. apply Cache_Add_bounded, Hl.
Qed.

Lemma run_ops_bounded n ops c : bounded_by n c → bounded_by n (run_ops ops c).2.
Proof.
  revert c. induction ops as [|[k v|k] ops IH]; intros c Hb; simpl; [done| |].
  - by apply IH, Cache_Add_bounded.
  - pose proof (Cache_Get_bounded n k c Hb) as Hg. destruct (Cache_Get k c) as [r c1].
    specialize (IH c1 Hg). by destruct (run_ops ops c1).
Qed.

(** C12: Nothing that was added is lost before the evicted items are removed:
    over any sequence of additions and look-ups a cache of any size answers as a
    map without a bound; and once the evicted items are removed, it holds a part
    of that map, of at most [size] entries. *)
Theorem Cache_refines_map n ops :
  0 < n →
  ∃ c, NewCache n = Some c ∧
    (run_ops ops c).1 = (spec_ops ops ∅).1 ∧
    view (run_ops ops c).2 = (spec_ops ops ∅).2 ∧
    view (RemoveEvictedItems (run_ops ops c).2) ⊆ (spec_ops ops ∅).2 ∧
    Cache_Len (RemoveEvictedItems (run_ops ops c).2) <= n.
Proof.
  intros Hn. destruct (NewLRU_ok n Hn) as (l & E & Hi & Hs). unfold NewCache. rewrite E. simpl.
  eexists. split; [done|]. set (c0 := {| c_lru := l; c_evictedItems := ∅ |}).
  assert (view c0 = ∅) as Hv0 by (unfold view; simpl; by rewrite Hi, map_union_empty).
  destruct (run_ops_spec ops c0) as [H1 H2]. rewrite Hv0 in H1, H2.
  assert (bounded_by n c0) as Hb0.
  { unfold bounded_by. simpl. rewrite Hi, map_size_empty. lia. }
  destruct (run_ops_bounded n ops c0 Hb0) as [_ Hb]. split_and!; [done..| |].
  - rewrite <- H2, RemoveEvictedItems_view. apply map_union_subseteq_l.
  - unfold Cache_Len. simpl. by rewrite LRU_Len_items.
Qed.
End cache.

(** ** A reference LRU list, most recent entry first *)
Module RefLRU.
Section ref.
Context {K V : Type} `{Countable K}.
Implicit Types l : list (K * V).

Definition items l : gmap K V := list_to_map l.
Definition remove (k : K) l : list (K * V) := filter (λ e, e.1 ≠ k) l.

Definition add (n : positive) (k : K) (v : V) l : list (K * V) * option (K * V) :=
  let l' := (k, v) :: remove k l in
  if decide (is_Some (items l !! k)) then (l', None)
  else if Z.of_nat (size (items l)) <? Zpos n then (l', None)
  else match list.last l with
       | Some (k', _) => (remove k' l', (λ v', (k', v')) <$> items l !! k')
       | None => (l', None)
       end.

Definition get (k : K) l : option V * list (K * V) :=
  match items l !! k with
  | Some v => (Some v, (k, v) :: remove k l)
  | None => (None, l)
  end.

Lemma items_remove k l : items (remove k l) = delete k (items l).
Proof.
  unfold items, remove. induction l as [|[k0 v0] l IH]; [simpl; by rewrite delete_empty|].
  rewrite filter_cons. simpl. case_decide as Hk; simpl; rewrite IH.
  - by rewrite delete_insert_ne.
  - subst k0. by rewrite delete_insert_eq.
Qed.

Lemma items_front k v l : items ((k, v) :: remove k l) = <[k := v]> (items l).
Proof. unfold items. simpl. fold (items (remove k l)). by rewrite items_remove, insert_delete_eq. Qed.

Lemma last_item l k v : list.last l = Some (k, v) → is_Some (items l !! k).
Proof.
  intros Hl. apply last_Some in Hl as [l' ->]. unfold items. rewrite list_to_map_app.
  rewrite lookup_union. simpl. rewrite lookup_insert_eq.
  by destruct (list_to_map l' !! k); eexists.
Qed.

#[export] Instance impl : SimpleLRU K V := {|
  lru := positive * list (K * V);
  NewLRU n := if 0 <? n then Some (Z.to_pos n, []) else None;
  LRU_Add k v '(n, l) := let '(l', e) := add n k v l in ((n, l'), e);
  LRU_Get k '(n, l) := let '(r, l') := get k l in (r, (n, l'));
  LRU_Contains k '(n, l) := bool_decide (is_Some (items l !! k));
  LRU_Len '(n, l) := Z.of_nat (size (items l));
  LRU_items '(n, l) := items l;
  LRU_size '(n, l) := Zpos n;
|}.

Lemma add_spec n k v l :
  match add n k v l with
  | (l', None) => items l' = <[k := v]> (items l) ∧
                  (is_Some (items l !! k) ∨ Z.of_nat (size (items l)) < Zpos n)
  | (l', Some (k', v')) => k' ≠ k ∧ items l !! k = None ∧ items l !! k' = Some v' ∧
                           items l' = delete k' (<[k := v]> (items l))
  end.
Proof.
  unfold add. case_decide as Hk; [split; [apply items_front|by left]|].
  destruct (Z.ltb_spec (Z.of_nat (size (items l))) (Zpos n)) as [Hn|Hn];
    [split; [apply items_front|by right]|].
  destruct (list.last l) as [[k' v0]|] eqn:El.
  - destruct (last_item _ _ _ El) as [v' Hv']. rewrite Hv'. simpl.
    split_and!; [|by apply eq_None_not_Some|done|].
    + intros ->. by destruct Hk.
    + by rewrite items_remove, items_front.
  - apply last_None in El as ->. unfold items in Hn. simpl in Hn. rewrite map_size_empty in Hn. lia.
Qed.

#[export] Instance laws : SimpleLRULaws impl.
Proof.
  split; simpl.
  - intros n Hn. destruct (Z.ltb_spec 0 n); [|lia]. eexists. split; [done|]. simpl.
    split; [done|]. by rewrite Z2Pos.id.
  - intros n Hn. by destruct (Z.ltb_spec 0 n); [lia|].
  - intros k v [n l]. pose proof (add_spec n k v l) as Ha.
    destruct (add n k v l) as [l' [[k' v']|]]; simpl; split; [|done| |done].
    + by destruct Ha as (? & _ & ? & ?).
    + by destruct Ha.
  - intros k v [n l] Hb. pose proof (add_spec n k v l) as Ha.
    destruct (add n k v l) as [l' [[k' v']|]]; simpl.
    + destruct Ha as (Hne & Hk & Hk' & ->). rewrite map_size_delete, map_size_insert, Hk.
      rewrite lookup_insert_ne, Hk' by done. lia.
    + destruct Ha as [-> [[v0 Hk]|Hn]]; rewrite map_size_insert.
      * rewrite Hk. unfold id. lia.
      * case_match; unfold id; lia.
  - intros k [n l]. unfold get. by destruct (items l !! k).
  - intros k [n l]. unfold get. destruct (items l !! k) as [v|] eqn:E; simpl; [|done].
    split; [|done]. change (items ((k, v) :: remove k l) = items l). by rewrite items_front, insert_id.
  - by intros k [n l].
  - by intros [n l].
Qed.
End ref.
End RefLRU.

Lemma Cache_refines_map_witness :
  ∃ c : Cache (SimpleLRU0 := RefLRU.impl), NewCache 1 = Some c ∧
    (run_ops [OpAdd "a" 1; OpAdd "b" 2; OpGet "a"; OpGet "c"] c).1 = [Some 1; None].
Proof.
  destruct (@Cache_refines_map string Z _ _ RefLRU.impl RefLRU.laws 1
              [OpAdd "a" 1; OpAdd "b" 2; OpGet "a"; OpGet "c"]) as (c & E & Hr & _); [lia|].
  exists c. split; [done|]. rewrite Hr. reflexivity.
Defined.
