(* ===== verification/RedConnector.v ===== *)
(** * RedConnector: the RED-metrics connector

    Models [connector.go], [config.go] and [factory.go] of the RED-metrics
    connector over its caches, parsers and histograms.  [time.Now()] and the orders
    of the ranges over Go maps are arguments.  An operation here is a call that runs
    alone; how calls may be interleaved is in RedRuns.
    [None] is a run-time panic or, in [ConsumeTraces], a recursion that does not
    end ([GetEntrySpanName]); the tasks that [Start] runs are steps in the order
    of [RedRuns.conn_step]; their goroutines are in the file Tickers. *)

From S2P Require Import Prelude GoStrings Float64 PData Cache FillProc EntryUrl SqlPrune RedParsers Histogram LruCache.

(** ** config.go and factory.go *)

Record RedConfig := {
  rc_ServerEnabled : bool;
  rc_ExternalEnabled : bool;
  rc_DbEnabled : bool;
  rc_MqEnabled : bool;
  rc_ClientEntryUrlEnabled : bool;
  rc_CacheEntryUrlTime : Z;            (* time.Duration *)
  rc_UnMatchUrlExpireTime : Z;
  rc_DimensionsCacheSize : Z;
  rc_MetricsFlushInterval : Z;
  rc_MaxServicesToTrack : Z;
  rc_MaxOperationsToTrackPerService : Z;
  rc_HttpParser : string;
  rc_MetricsType : string;
  rc_LatencyHistogramBuckets : option (list Z);
}.

Definition red_createDefaultConfig : RedConfig := {|
  rc_ServerEnabled := false; rc_ExternalEnabled := false; rc_DbEnabled := false;
  rc_MqEnabled := false; rc_ClientEntryUrlEnabled := false; rc_CacheEntryUrlTime := 0;
  rc_UnMatchUrlExpireTime := 60 * 1000000000; rc_DimensionsCacheSize := 1000;
  rc_MetricsFlushInterval := 60 * 1000000000; rc_MaxServicesToTrack := 256;
  rc_MaxOperationsToTrackPerService := 2048; rc_HttpParser := ""; rc_MetricsType := "";
  rc_LatencyHistogramBuckets := None;
|}.

(** ** connector.go *)

Definition overflowServiceName : string := "overflow_service".
Definition overflowOperation : string := "overflow_operation".
Definition AttributeSkywalkingSpanID : string := "sw8.span_id".

Definition defaultLatencyHistogramBucketsMs : list float64 :=
  F_of_Z <$> [2000000; 4000000; 6000000; 8000000; 10000000; 50000000; 100000000; 200000000;
              400000000; 800000000; 1000000000; 1400000000; 2000000000; 5000000000; 10000000000;
              15000000000; 30000000000].

Definition mapDurationsToNanos (vs : list Z) : list float64 := F_of_Z <$> vs.

Section connector.
Context `{PData} `{NodeEnv} `{SqlParser} `{GoPlatform} `{VmMath} `{!SimpleLRU string AMap}.

(** The histograms of one metric and the dimensions of their keys: the connector
    has four such pairs. *)
Record metricFamily := {
  mf_histograms : gmap string Histogram;
  mf_keyToDimensions : Cache (K := string) (V := AMap);
}.

Record connectorImp := {
  ci_config : RedConfig;
  ci_startTimestamp : Z;
  ci_httpParser : HttpParser;
  ci_server : metricFamily;            (* serverHistograms, metricKeyToDimensions *)
  ci_dbCall : metricFamily;
  ci_externalCall : metricFamily;
  ci_mqCall : metricFamily;
  ci_bounds : list float64;
  ci_keyValue : ReusedKeyValue;
  ci_serviceToOperations : gmap string (gset string);
  ci_maxNumberOfServicesToTrack : Z;
  ci_maxNumberOfOperationsToTrackPerService : Z;
  ci_metricsType : MetricsType;
  ci_entryUrlCache : option EntryUrlCache;
}.

Inductive ConnectorError :=
  | ErrInvalidCacheSize (size : Z)
  | ErrNewLRU
  | ErrEntryUrl (e : EntryUrlError).

Definition newFamily (size : Z) : option metricFamily :=
  (λ c, {| mf_histograms := ∅; mf_keyToDimensions := c |}) <$> NewCache size.

Definition newConnector (now : Z) (cfg : RedConfig) : connectorImp + ConnectorError :=
  if rc_DimensionsCacheSize cfg <=? 0 then inr (ErrInvalidCacheSize (rc_DimensionsCacheSize cfg))
  else match newFamily (rc_DimensionsCacheSize cfg) with
  | None => inr ErrNewLRU
  | Some family =>
      let connector entryUrlCache := {|
        ci_config := cfg;
        ci_startTimestamp := u64 now;
        ci_httpParser := NewHttpParser (rc_HttpParser cfg);
        ci_server := family; ci_dbCall := family; ci_externalCall := family; ci_mqCall := family;
        ci_bounds := match rc_LatencyHistogramBuckets cfg with
                     | Some vs => mapDurationsToNanos vs
                     | None => defaultLatencyHistogramBucketsMs
                     end;
        ci_keyValue := NewReusedKeyValue 100;
        ci_serviceToOperations := ∅;
        ci_maxNumberOfServicesToTrack := rc_MaxServicesToTrack cfg;
        ci_maxNumberOfOperationsToTrackPerService := rc_MaxOperationsToTrackPerService cfg;
        ci_metricsType := GetMetricsType (rc_MetricsType cfg);
        ci_entryUrlCache := entryUrlCache |} in
      if rc_ClientEntryUrlEnabled cfg then
        match NewEntryUrlCache (int64_of_float (Seconds (rc_CacheEntryUrlTime cfg)))
                (int64_of_float (Seconds (rc_UnMatchUrlExpireTime cfg))) with
        | inl cache => inl (connector (Some cache))
        | inr e => inr (ErrEntryUrl e)
        end
      else inl (connector None)
  end.

(** The assignments to the fields that change. *)
Definition set_keyed (kv : ReusedKeyValue) (server db external mq : metricFamily)
    (p : connectorImp) : connectorImp := {|
  ci_config := ci_config p; ci_startTimestamp := ci_startTimestamp p;
  ci_httpParser := ci_httpParser p; ci_server := server; ci_dbCall := db;
  ci_externalCall := external; ci_mqCall := mq; ci_bounds := ci_bounds p; ci_keyValue := kv;
  ci_serviceToOperations := ci_serviceToOperations p;
  ci_maxNumberOfServicesToTrack := ci_maxNumberOfServicesToTrack p;
  ci_maxNumberOfOperationsToTrackPerService := ci_maxNumberOfOperationsToTrackPerService p;
  ci_metricsType := ci_metricsType p; ci_entryUrlCache := ci_entryUrlCache p |}.

Definition set_serviceToOperations (m : gmap string (gset string)) (p : connectorImp) : connectorImp := {|
  ci_config := ci_config p; ci_startTimestamp := ci_startTimestamp p;
  ci_httpParser := ci_httpParser p; ci_server := ci_server p; ci_dbCall := ci_dbCall p;
  ci_externalCall := ci_externalCall p; ci_mqCall := ci_mqCall p; ci_bounds := ci_bounds p;
  ci_keyValue := ci_keyValue p; ci_serviceToOperations := m;
  ci_maxNumberOfServicesToTrack := ci_maxNumberOfServicesToTrack p;
  ci_maxNumberOfOperationsToTrackPerService := ci_maxNumberOfOperationsToTrackPerService p;
  ci_metricsType := ci_metricsType p; ci_entryUrlCache := ci_entryUrlCache p |}.

Definition set_entryUrlCache (c : option EntryUrlCache) (p : connectorImp) : connectorImp := {|
  ci_config := ci_config p; ci_startTimestamp := ci_startTimestamp p;
  ci_httpParser := ci_httpParser p; ci_server := ci_server p; ci_dbCall := ci_dbCall p;
  ci_externalCall := ci_externalCall p; ci_mqCall := ci_mqCall p; ci_bounds := ci_bounds p;
  ci_keyValue := ci_keyValue p; ci_serviceToOperations := ci_serviceToOperations p;
  ci_maxNumberOfServicesToTrack := ci_maxNumberOfServicesToTrack p;
  ci_maxNumberOfOperationsToTrackPerService := ci_maxNumberOfOperationsToTrackPerService p;
  ci_metricsType := ci_metricsType p; ci_entryUrlCache := c |}.

Definition updateHistogram (p : connectorImp) (histograms : gmap string Histogram) (key : string)
    (latency : float64) : option (gmap string Histogram) :=
  let histo := match histograms !! key with
               | Some histo => histo
               | None => NewHistogram (ci_metricsType p) (ci_bounds p)
               end in
  (λ histo', <[key := histo']> histograms) <$> Update latency histo.

(** What follows each key: its dimensions are cached unless they are already, and
    its histogram is updated. *)
Definition record_latency (p : connectorImp) (key : string) (latency : float64) (keyValue : ReusedKeyValue)
    (f : metricFamily) : option metricFamily :=
  let '(has, dims) := Cache_Get key (mf_keyToDimensions f) in
  dims ← match has with
         | Some _ => Some dims
         | None => (λ m, (Cache_Add key m dims).2) <$> GetMap keyValue
         end;
  histograms ← updateHistogram p (mf_histograms f) key latency;
  Some {| mf_histograms := histograms; mf_keyToDimensions := dims |}.

(** [buildServerKey] *)
Definition buildServerKey (pid containerId serviceName : string) (span : Span) (p : connectorImp)
    : option (string * connectorImp) :=
  let spanName := Span_Name span in
  let serviceName :=
    if Z.of_nat (size (ci_serviceToOperations p)) >? ci_maxNumberOfServicesToTrack p
    then overflowServiceName else serviceName in
  let operations := default ∅ (ci_serviceToOperations p !! serviceName) in
  let spanName :=
    if Z.of_nat (size operations) >? ci_maxNumberOfOperationsToTrackPerService p
    then overflowOperation else spanName in
  let p := set_serviceToOperations
             (<[serviceName := {[spanName]} ∪ operations]> (ci_serviceToOperations p)) p in
  '(key, kv) ← BuildServerKey (ci_keyValue p) pid containerId serviceName (Span_Name span)
                 (SpanID_IsEmpty (Span_ParentSpanID span)) (isError (Span_Status span));
  Some (key, set_keyed kv (ci_server p) (ci_dbCall p) (ci_externalCall p) (ci_mqCall p) p).

(** The four parts of [aggregateMetricsForSpan]. *)
Definition aggregate_server (pid containerId serviceName : string) (span : Span) (latency : float64)
    (p : connectorImp) : option connectorImp :=
  if rc_ServerEnabled (ci_config p)
     && (SpanKind_eqb (Span_Kind span) SpanKindServer || SpanKind_eqb (Span_Kind span) SpanKindConsumer)
  then
    if match Map_Get AttributeSkywalkingSpanID (Span_Attributes span) with
       | None => true
       | Some swSpanId => Value_Int swSpanId =? 0
       end
    then
      '(key, p) ← buildServerKey pid containerId serviceName span p;
      server ← record_latency p key latency (ci_keyValue p) (ci_server p);
      Some (set_keyed (ci_keyValue p) server (ci_dbCall p) (ci_externalCall p) (ci_mqCall p) p)
    else Some p
  else Some p.

Definition aggregate_db (pid containerId serviceName entryUrl : string) (span : Span) (latency : float64)
    (p : connectorImp) : option connectorImp :=
  if SpanKind_eqb (Span_Kind span) SpanKindClient && rc_DbEnabled (ci_config p) then
    '(dbKey, kv) ← Db_Parse pid containerId serviceName entryUrl span (Span_Attributes span) (ci_keyValue p);
    let p := set_keyed kv (ci_server p) (ci_dbCall p) (ci_externalCall p) (ci_mqCall p) p in
    if bool_decide (dbKey = "") then Some p
    else
      db ← record_latency p dbKey latency kv (ci_dbCall p);
      Some (set_keyed kv (ci_server p) db (ci_externalCall p) (ci_mqCall p) p)
  else Some p.

(** [externalKey]: the http key, else the rpc key, else - for a span that is
    neither a database nor a message call - the key of an unknown call. *)
Definition externalKey_of (http : HttpParser) : Parser :=
  λ pid containerId serviceName entryUrl span spanAttr keyValue,
    '(httpKey, kv) ← Http_Parse http pid containerId serviceName entryUrl span spanAttr keyValue;
    if negb (bool_decide (httpKey = "")) then Some (httpKey, kv)
    else
      '(rpcKey, kv) ← Rpc_Parse pid containerId serviceName entryUrl span spanAttr kv;
      if negb (bool_decide (rpcKey = "")) then Some (rpcKey, kv)
      else match Map_Get AttributeDBSystem spanAttr, Map_Get AttributeMessagingSystem spanAttr with
           | None, None =>
               BuildExternalKey kv pid containerId serviceName entryUrl (Span_Name span)
                 (GetClientPeer spanAttr) "unknown" (isError (Span_Status span))
           | _, _ => Some ("", kv)
           end.

Definition aggregate_external (pid containerId serviceName entryUrl : string) (span : Span)
    (latency : float64) (p : connectorImp) : option connectorImp :=
  if SpanKind_eqb (Span_Kind span) SpanKindClient && rc_ExternalEnabled (ci_config p) then
    '(externalKey, kv) ← externalKey_of (ci_httpParser p) pid containerId serviceName entryUrl span
                           (Span_Attributes span) (ci_keyValue p);
    let p := set_keyed kv (ci_server p) (ci_dbCall p) (ci_externalCall p) (ci_mqCall p) p in
    if bool_decide (externalKey = "") then Some p
    else
      external ← record_latency p externalKey latency kv (ci_externalCall p);
      Some (set_keyed kv (ci_server p) (ci_dbCall p) external (ci_mqCall p) p)
  else Some p.

Definition aggregate_mq (pid containerId serviceName entryUrl : string) (span : Span) (latency : float64)
    (p : connectorImp) : option connectorImp :=
  if rc_MqEnabled (ci_config p) then
    '(mqKey, kv) ← Mq_Parse pid containerId serviceName entryUrl span (Span_Attributes span) (ci_keyValue p);
    let p := set_keyed kv (ci_server p) (ci_dbCall p) (ci_externalCall p) (ci_mqCall p) p in
    if bool_decide (mqKey = "") then Some p
    else
      mq ← record_latency p mqKey latency kv (ci_mqCall p);
      Some (set_keyed kv (ci_server p) (ci_dbCall p) (ci_externalCall p) mq p)
  else Some p.

Definition aggregateMetricsForSpan (pid containerId serviceName entryUrl : string) (span : Span)
    (p : connectorImp) : option connectorImp :=
  let startTime := Span_StartTimestamp span in
  let endTime := Span_EndTimestamp span in
  if endTime <=? startTime then Some p
  else
    let latencyInNanoseconds := F_of_Z (u64 (endTime - startTime)) in
    p ← aggregate_server pid containerId serviceName span latencyInNanoseconds p;
    p ← aggregate_db pid containerId serviceName entryUrl span latencyInNanoseconds p;
    p ← aggregate_external pid containerId serviceName entryUrl span latencyInNanoseconds p;
    aggregate_mq pid containerId serviceName entryUrl span latencyInNanoseconds p.

(** A matched span, with the url it was matched to. *)
Definition aggregate_matched (resourceSpan : ResourceSpan) (p : connectorImp) : option connectorImp :=
  aggregateMetricsForSpan (rsp_Pid resourceSpan) (rsp_ContainerId resourceSpan)
    (rsp_ServiceName resourceSpan) (rsp_EntryUrl resourceSpan) (rsp_Span resourceSpan) p.

(** A span that was never matched. *)
Definition aggregate_unknown (resourceSpan : ResourceSpan) (p : connectorImp) : option connectorImp :=
  aggregateMetricsForSpan (rsp_Pid resourceSpan) (rsp_ContainerId resourceSpan)
    (rsp_ServiceName resourceSpan) "_unknown_" (rsp_Span resourceSpan) p.

(** [None] when there is no cache: the ticker then does not exist. *)
Definition cleanUnMatcheOnTick (now : Z) (p : connectorImp) : option connectorImp :=
  cache ← ci_entryUrlCache p;
  cache ← CleanExpireBuckets cache;
  let '(resourceSpans, cache) := CleanUnMatchedSpans now cache in
  run_all aggregate_unknown resourceSpans (set_entryUrlCache (Some cache) p).

(** A resource, when the connector does not look for entry urls. *)
Definition aggregate_resource (rss : ResourceSpans) (p : connectorImp) : option connectorImp :=
  let '(pid, serviceName, containerId) := GetResourceAttribute rss in
  if bool_decide (pid = "") || bool_decide (serviceName = "") then Some p
  else run_all (aggregateMetricsForSpan pid containerId serviceName "") (spansOf rss) p.

Definition red_ConsumeTraces (gorder : gmap TraceID (list Span) → list TraceID) (now : Z) (td : Traces)
    (p : connectorImp) : option connectorImp :=
  match ci_entryUrlCache p with
  | Some cache =>
      '(resourceSpans, cache) ← GetMatchedResourceSpans gorder now td cache;
      run_all aggregate_matched resourceSpans (set_entryUrlCache (Some cache) p)
  | None => run_all aggregate_resource td p
  end.

(** ** The export *)

Record HistogramPoint := {
  hp_StartTimestamp : Z;
  hp_Timestamp : Z;
  hp_ExplicitBounds : list float64;
  hp_BucketCounts : list Z;
  hp_Count : Z;
  hp_Sum : float64;
  hp_Attributes : AMap;
}.

Record NumberPoint := { np_Timestamp : Z; np_IntValue : Z; np_Attributes : AMap }.

Inductive Metric :=
  | MetricHistogram (name unit : string) (points : list HistogramPoint)   (* cumulative *)
  | MetricGauge (name : string) (points : list NumberPoint).

(** The loops over the histograms, in the order [keys].  [None] is a panic; the
    error of a key without dimensions is the first part [None], and what was
    written so far is dropped with it. *)
Fixpoint prom_points (p : connectorImp) (timestamp : Z) (histograms : gmap string Histogram)
    (keys : list string) (dims : Cache (K := string) (V := AMap))
    : option (option (list HistogramPoint) * Cache (K := string) (V := AMap)) :=
  match keys with
  | [] => Some (Some [], dims)
  | key :: keys' =>
      match histograms !! key with
      | None => prom_points p timestamp histograms keys' dims
      | Some hist =>
          match Cache_Get key dims with
          | (None, dims) => Some (None, dims)
          | (Some dimensions, dims) =>
              values ← Read hist;
              counts ← GetBucketCounts values;
              '(points, dims) ← prom_points p timestamp histograms keys' dims;
              Some (option_map (cons {| hp_StartTimestamp := ci_startTimestamp p; hp_Timestamp := timestamp;
                            hp_ExplicitBounds := ci_bounds p; hp_BucketCounts := counts;
                            hp_Count := GetCount values; hp_Sum := GetSum values;
                            hp_Attributes := dimensions |}) points, dims)
          end
      end
  end.

(** The order of the range over the buckets of one histogram. *)
Variable border : gmap string Z → list string.

Definition bucket_points (timestamp : Z) (dimensions : AMap) (buckets : gmap string Z) : list NumberPoint :=
  omap (λ bucket, (λ count, {| np_Timestamp := timestamp; np_IntValue := i64 count;
                               np_Attributes := Map_PutStr "vmrange" bucket dimensions |})
                  <$> buckets !! bucket) (border buckets).

(** The points of the three gauges. *)
Fixpoint vm_points (timestamp : Z) (histograms : gmap string Histogram) (keys : list string)
    (dims : Cache (K := string) (V := AMap))
    : option (option (list NumberPoint * list NumberPoint * list NumberPoint)
              * Cache (K := string) (V := AMap)) :=
  match keys with
  | [] => Some (Some ([], [], []), dims)
  | key :: keys' =>
      match histograms !! key with
      | None => vm_points timestamp histograms keys' dims
      | Some hist =>
          match Cache_Get key dims with
          | (None, dims) => Some (None, dims)
          | (Some dimensions, dims) =>
              values ← Read hist;
              buckets ← GetBuckets values;
              let bs := bucket_points timestamp dimensions buckets in
              let point n := {| np_Timestamp := timestamp; np_IntValue := n; np_Attributes := dimensions |} in
              let counts := if GetCount values >? 0 then [point (i64 (GetCount values))] else [] in
              let sums := if GetCount values >? 0 then [point (int64_of_float (GetSum values))] else [] in
              '(points, dims) ← vm_points timestamp histograms keys' dims;
              Some (option_map (λ '(bs', counts', sums'), (bs ++ bs', counts ++ counts', sums ++ sums')) points,
                    dims)
          end
      end
  end.

(** The order of the range over the histograms. *)
Variable horder : gmap string Histogram → list string.

Definition collectPromLatencyMetrics (now : Z) (p : connectorImp) (dims : Cache (K := string) (V := AMap))
    (histograms : gmap string Histogram) (prefix : string)
    : option (option (list Metric) * Cache (K := string) (V := AMap)) :=
  '(points, dims) ← prom_points p (u64 now) histograms (horder histograms) dims;
  Some (option_map (λ points, [MetricHistogram prefix "ns" points]) points, dims).

Definition collectVmLatencyMetrics (now : Z) (dims : Cache (K := string) (V := AMap))
    (histograms : gmap string Histogram) (prefix : string)
    : option (option (list Metric) * Cache (K := string) (V := AMap)) :=
  '(points, dims) ← vm_points (u64 now) histograms (horder histograms) dims;
  Some (option_map (λ '(bs, counts, sums), [MetricGauge (prefix +:+ "_bucket") bs;
                                            MetricGauge (prefix +:+ "_count") counts;
                                            MetricGauge (prefix +:+ "_sum") sums]) points, dims).

(** [collectLatencyMetrics] reads [dims] and [histograms] of one family. *)
Definition collectLatencyMetrics (now : Z) (p : connectorImp) (f : metricFamily) (prefix : string)
    : option (option (list Metric) * metricFamily) :=
  if Z.of_nat (size (mf_histograms f)) =? 0 then Some (Some [], f)
  else
    '(metrics, dims) ←
      match ci_metricsType p with
      | MetricsProm => collectPromLatencyMetrics now p (mf_keyToDimensions f) (mf_histograms f) prefix
      | MetricsVm => collectVmLatencyMetrics now (mf_keyToDimensions f) (mf_histograms f) prefix
      end;
    Some (metrics, {| mf_histograms := mf_histograms f; mf_keyToDimensions := dims |}).

(** [for key := range histograms { if !dims.Contains(key) { delete(histograms, key) } }] *)
Definition drop_uncached (dims : Cache (K := string) (V := AMap)) (histograms : gmap string Histogram)
    : gmap string Histogram :=
  filter (λ kh, Cache_Contains kh.1 dims = true) histograms.

(** The clean-up at the end of [buildMetrics].  The histograms of external calls
    are kept by the dimensions of the database calls, as in the source. *)
Definition clean_evicted (p : connectorImp) : connectorImp :=
  let server := RemoveEvictedItems (mf_keyToDimensions (ci_server p)) in
  let db := RemoveEvictedItems (mf_keyToDimensions (ci_dbCall p)) in
  let external := RemoveEvictedItems (mf_keyToDimensions (ci_externalCall p)) in
  let mq := RemoveEvictedItems (mf_keyToDimensions (ci_mqCall p)) in
  set_keyed (ci_keyValue p)
    {| mf_histograms := drop_uncached server (mf_histograms (ci_server p)); mf_keyToDimensions := server |}
    {| mf_histograms := drop_uncached db (mf_histograms (ci_dbCall p)); mf_keyToDimensions := db |}
    {| mf_histograms := drop_uncached db (mf_histograms (ci_externalCall p)); mf_keyToDimensions := external |}
    {| mf_histograms := drop_uncached mq (mf_histograms (ci_mqCall p)); mf_keyToDimensions := mq |} p.

(** The metrics, [None] for the error, and the connector; an error returns before
    the families that follow are read. *)
Definition buildMetrics (now : Z) (p : connectorImp) : option (option (list Metric) * connectorImp) :=
  let kv := ci_keyValue p in
  '(m1, server) ← collectLatencyMetrics now p (ci_server p) "kindling_span_trace_duration_nanoseconds";
  let p := set_keyed kv server (ci_dbCall p) (ci_externalCall p) (ci_mqCall p) p in
  match m1 with None => Some (None, p) | Some m1 =>
  '(m2, db) ← collectLatencyMetrics now p (ci_dbCall p) "kindling_db_duration_nanoseconds";
  let p := set_keyed kv (ci_server p) db (ci_externalCall p) (ci_mqCall p) p in
  match m2 with None => Some (None, p) | Some m2 =>
  '(m3, external) ← collectLatencyMetrics now p (ci_externalCall p) "kindling_external_duration_nanoseconds";
  let p := set_keyed kv (ci_server p) (ci_dbCall p) external (ci_mqCall p) p in
  match m3 with None => Some (None, p) | Some m3 =>
  '(m4, mq) ← collectLatencyMetrics now p (ci_mqCall p) "kindling_mq_duration_nanoseconds";
  let p := set_keyed kv (ci_server p) (ci_dbCall p) (ci_externalCall p) mq p in
  match m4 with None => Some (None, p) | Some m4 =>
  Some (Some (m1 ++ m2 ++ m3 ++ m4), clean_evicted p)
  end end end end.

(** [exportMetrics]: what the next consumer is given, no metrics after an error. *)
Definition exportMetrics (now : Z) (p : connectorImp) : option (list Metric * connectorImp) :=
  '(m, p) ← buildMetrics now p;
  Some (default [] m, p).

(** ** What a span is measured under

    The labels of the series, read off the span alone: the reference for the
    parsers, which work on the shared key-value. *)

Inductive MetricKind := KServer | KExternal | KDb | KMq.

#[global] Instance MetricKind_eq_dec : EqDecision MetricKind.
Proof. solve_decision. Defined.

Definition family_of (k : MetricKind) (p : connectorImp) : metricFamily :=
  match k with
  | KServer => ci_server p | KExternal => ci_externalCall p | KDb => ci_dbCall p | KMq => ci_mqCall p
  end.

Definition kind_no (k : MetricKind) : Z :=
  match k with KServer => 0 | KExternal => 1 | KDb => 2 | KMq => 3 end.

Definition tracked_service (serviceName : string) (p : connectorImp) : string :=
  if Z.of_nat (size (ci_serviceToOperations p)) >? ci_maxNumberOfServicesToTrack p
  then overflowServiceName else serviceName.

Definition server_args (pid containerId serviceName : string) (span : Span) (p : connectorImp)
    : option KeyArgs :=
  let kind := Span_Kind span in
  let entry := match Map_Get AttributeSkywalkingSpanID (Span_Attributes span) with
               | None => true | Some id => Value_Int id =? 0 end in
  if (SpanKind_eqb kind SpanKindServer || SpanKind_eqb kind SpanKindConsumer) && entry then
    Some (ServerKey pid containerId (tracked_service serviceName p) (Span_Name span)
            (SpanID_IsEmpty (Span_ParentSpanID span)) (isError (Span_Status span)))
  else None.

Definition db_args (pid containerId serviceName entryUrl : string) (span : Span) : option KeyArgs :=
  let attr := Span_Attributes span in
  if SpanKind_eqb (Span_Kind span) SpanKindClient then
    (λ dbSystemAttr,
       let dbSystem := Value_Str dbSystemAttr in
       let dbName := getAttrValueWithDefault attr AttributeDBName "" in
       let name := if bool_decide (dbSystem ∈ ["redis"; "memcached"; "aerospike"]) then ""
                   else default "" (db_name attr dbName) in
       DbKey pid containerId serviceName entryUrl dbSystem dbName
         (if bool_decide (name = "") then Span_Name span else name)
         (GetClientPeer attr) (isError (Span_Status span)))
    <$> Map_Get AttributeDBSystem attr
  else None.

(** A client span is an http call, else an rpc call, else neither a database nor
    a message call. *)
Definition external_args (http : HttpParser) (pid containerId serviceName entryUrl : string) (span : Span)
    : option KeyArgs :=
  let attr := Span_Attributes span in
  let key name system := ExternalKey pid containerId serviceName entryUrl name (GetClientPeer attr) system
                           (isError (Span_Status span)) in
  if SpanKind_eqb (Span_Kind span) SpanKindClient then
    if negb (bool_decide (getHttpMethod attr = "")) then
      Some (key (Http_parse http (getHttpMethod attr) (getHttpUrl attr)) "http")
    else match Map_Get AttributeRPCSystem attr with
         | Some rpcSystem => Some (key (Span_Name span) (Value_Str rpcSystem))
         | None => match Map_Get AttributeDBSystem attr, Map_Get AttributeMessagingSystem attr with
                   | None, None => Some (key (Span_Name span) "unknown")
                   | _, _ => None
                   end
         end
  else None.

Definition mq_args (pid containerId serviceName entryUrl : string) (span : Span) : option KeyArgs :=
  let attr := Span_Attributes span in
  let key name system := MqKey pid containerId serviceName entryUrl name (GetClientPeer attr) system
                           (isError (Span_Status span)) (ToLower (SpanKind_String (Span_Kind span))) in
  match Span_Kind span with
  | SpanKindClient => (λ system, key (Span_Name span) (Value_Str system)) <$> Map_Get AttributeMessagingSystem attr
  | SpanKindProducer | SpanKindConsumer =>
      Some (key (getMessageDest attr Unknown)
                (from_option Value_Str Unknown (Map_Get AttributeMessagingSystem attr)))
  | _ => None
  end.

Definition enabled (k : MetricKind) (cfg : RedConfig) : bool :=
  match k with
  | KServer => rc_ServerEnabled cfg | KExternal => rc_ExternalEnabled cfg
  | KDb => rc_DbEnabled cfg | KMq => rc_MqEnabled cfg
  end.

Definition args_of (k : MetricKind) (pid containerId serviceName entryUrl : string) (span : Span)
    (p : connectorImp) : option KeyArgs :=
  if enabled k (ci_config p) && (Span_StartTimestamp span <? Span_EndTimestamp span) then
    match k with
    | KServer => server_args pid containerId serviceName span p
    | KExternal => external_args (ci_httpParser p) pid containerId serviceName entryUrl span
    | KDb => db_args pid containerId serviceName entryUrl span
    | KMq => mq_args pid containerId serviceName entryUrl span
    end
  else None.

(** A parser builds the key of its arguments. *)
Definition parsed (args : option KeyArgs) (kv : ReusedKeyValue) : option (string * ReusedKeyValue) :=
  match args with None => Some ("", kv) | Some a => build_key a kv end.

Lemma db_name_Some attr dbName : is_Some (db_name attr dbName).
Proof.
  unfold db_name. assert (∀ q, ∃ r, SQLParseOperationAndTableNEW q = Some r) as Hq
    by (intros q; apply SQLParse_NEW_total).
  destruct (Map_Get AttributeDBStatement attr) as [st|].
  - destruct (Hq (Value_Str st)) as [[op t] ->]. repeat case_match; by eexists.
  - repeat case_match; by eexists.
Qed.

Lemma Db_Parse_spec pid cid svc url span kv :
  Db_Parse pid cid svc url span (Span_Attributes span) kv = parsed (db_args pid cid svc url span) kv.
Proof.
  unfold Db_Parse, db_args. destruct (SpanKind_eqb _ _); simpl; [|done].
  destruct (Map_Get AttributeDBSystem _) as [sys|]; simpl; [|done].
  set (dbName := getAttrValueWithDefault _ _ _). clearbody dbName.
  destruct (db_name_Some (Span_Attributes span) dbName) as [n ->]. simpl.
  assert (bool_decide (Value_Str sys = "redis") || bool_decide (Value_Str sys = "memcached")
          || bool_decide (Value_Str sys = "aerospike")
          = bool_decide (Value_Str sys ∈ ["redis"; "memcached"; "aerospike"])) as ->.
  { apply eq_bool_prop_intro. rewrite !orb_True, !bool_decide_spec, !elem_of_cons, elem_of_nil. tauto. }
  by destruct (bool_decide (Value_Str sys ∈ _)).
Qed.

Lemma external_spec http pid cid svc url span kv l :
  SpanKind_eqb (Span_Kind span) SpanKindClient = true →
  kv_rep kv l → 11 <= kv_maxAttribute kv →
  externalKey_of http pid cid svc url span (Span_Attributes span) kv =
    parsed (external_args http pid cid svc url span) kv.
Proof.
  intros Hk Hr Hm. unfold externalKey_of, external_args, Http_Parse, Rpc_Parse. rewrite Hk. simpl.
  assert (∀ pid cid svc url name peer sys err rest,
            ('(key, kv) ← BuildExternalKey kv pid cid svc url name peer sys err;
             if negb (bool_decide (key = "")) then Some (key, kv) else rest kv)
            = BuildExternalKey kv pid cid svc url name peer sys err) as Hb.
  { intros pid' cid' svc' url' name peer sys err rest.
    destruct (build_key_rep (ExternalKey pid' cid' svc' url' name peer sys err) kv l Hr Hm)
      as (kv' & E & _ & _). simpl in E. rewrite E. simpl.
    rewrite bool_decide_eq_false_2; [done|apply key_string_nonempty]. }
  destruct (bool_decide (getHttpMethod _ = "")); simpl.
  - destruct (Map_Get AttributeRPCSystem _); simpl.
    + apply Hb.
    + by destruct (Map_Get AttributeDBSystem (Span_Attributes span)),
        (Map_Get AttributeMessagingSystem (Span_Attributes span)).
  - apply Hb.
Qed.

Lemma Mq_Parse_spec pid cid svc url span kv :
  Mq_Parse pid cid svc url span (Span_Attributes span) kv = parsed (mq_args pid cid svc url span) kv.
Proof.
  unfold Mq_Parse, mq_args. destruct (Span_Kind span); simpl; try done.
  all: by destruct (Map_Get AttributeMessagingSystem _).
Qed.
End connector.
