(* ===== verification/RedSeries.v ===== *)
(** * RedSeries: every span is one sample of its series

    The invariant of the RED-metrics connector and the effect of
    [aggregateMetricsForSpan] on the counts of its four families. *)

From S2P Require Import Prelude GoStrings Float64 PData Cache FillProc EntryUrl SqlPrune RedParsers Histogram LruCache RedConnector.

Section series.
Context `{PD : PData} `{NE : NodeEnv} `{SP : SqlParser} `{GP : GoPlatform} `{VML : VmMathLaws}
  `{LL : !SimpleLRULaws (L : SimpleLRU string AMap)}.

(** ** Histograms *)

(** [h] has taken [n] samples. *)
Definition hist_ok (mt : MetricsType) (bounds : list float64) (n : Z) (h : Histogram) : Prop :=
  match h with
  | HProm h => mt = MetricsProm ∧ ph_latencyBounds h = bounds ∧
               length (ph_bucketCounts h) = (length bounds + 1)%nat ∧ ph_count h = u64 n
  | HVm h => mt = MetricsVm ∧ ∃ vs, vm_rep vs h ∧ countb counted vs = n
  end.

Definition count_of (h : Histogram) : Z := from_option GetCount 0 (Read h).

Lemma NewHistogram_ok mt bounds : hist_ok mt bounds 0 (NewHistogram mt bounds).
Proof.
  destruct mt; simpl; [rewrite length_replicate; done|].
  split; [done|]. exists []. split; [apply New_vm_rep|done].
Qed.

Lemma Update_ok mt bounds n h v :
  hist_ok mt bounds n h → counted v = true →
  ∃ h', Update v h = Some h' ∧ hist_ok mt bounds (n + 1) h'.
Proof.
  intros Hh Hv. destruct h as [h|h]; simpl in *.
  - destruct Hh as (-> & Hb & Hl & Hc). unfold Prom_Update. rewrite Hb.
    pose proof (SearchFloat64s_range bounds v) as Hr. set (k := SearchFloat64s bounds v) in *. clearbody k.
    assert (0 <= k < len (ph_bucketCounts h)) as Hk by (unfold len in *; lia).
    destruct (slice_get_Some (ph_bucketCounts h) k Hk) as [c ->].
    rewrite slice_set_Some by done. eexists. split; [done|]. simpl.
    rewrite length_insert, Hc, u64_add_l. done.
  - destruct Hh as (-> & vs & Hr & Hn). destruct (Vm_Update_rep vs v h Hr) as (h' & -> & Hr').
    eexists. split; [done|]. split; [done|]. exists (vs ++ [v]). split; [done|].
    rewrite countb_app, Hn. simpl. rewrite Hv. lia.
Qed.

Lemma Read_ok mt bounds n h : hist_ok mt bounds n h → ∃ v, Read h = Some v ∧ GetCount v = u64 n.
Proof.
  destruct h as [h|h]; simpl.
  - intros (_ & _ & _ & Hc). by eexists.
  - intros (_ & vs & Hr & <-). destruct (Vm_Read_rep vs h Hr) as (values & -> & Hc & _). by eexists.
Qed.

Lemma count_of_ok mt bounds n h : hist_ok mt bounds n h → count_of h = u64 n.
Proof. intros Hh. unfold count_of. by destruct (Read_ok _ _ _ _ Hh) as (v & -> & Hc). Qed.

(** ** Families *)

(** The series of the labels [a] is in the family with just those labels. *)
Definition dims_ok (k : MetricKind) (view : gmap string AMap) : Prop :=
  ∀ key d, view !! key = Some d →
    ∃ a, family a = kind_no k ∧ key = key_string a ∧ d = dims_of (labels_of a) Map_New.

Definition fam_ok (k : MetricKind) (p : connectorImp) (f : metricFamily) : Prop :=
  dims_ok k (view (mf_keyToDimensions f)) ∧
  ∀ key h, mf_histograms f !! key = Some h →
    is_Some (view (mf_keyToDimensions f) !! key) ∧
    ∃ n, hist_ok (ci_metricsType p) (ci_bounds p) n h.

(** The samples of a series, as they are reported. *)
Definition fam_count (f : metricFamily) (key : string) : Z :=
  from_option count_of 0 (mf_histograms f !! key).

Lemma updateHistogram_ok p histograms key v :
  (∀ key h, histograms !! key = Some h → ∃ n, hist_ok (ci_metricsType p) (ci_bounds p) n h) →
  counted v = true →
  ∃ histograms', updateHistogram p histograms key v = Some histograms' ∧
    (∀ key', key' ≠ key → histograms' !! key' = histograms !! key') ∧
    ∃ h' n, histograms' !! key = Some h' ∧ hist_ok (ci_metricsType p) (ci_bounds p) n h' ∧
      count_of h' = u64 (from_option count_of 0 (histograms !! key) + 1).
Proof.
  intros Hall Hv. unfold updateHistogram.
  set (h := match histograms !! key with Some h => h | None => NewHistogram (ci_metricsType p) (ci_bounds p) end).
  assert (∃ n, hist_ok (ci_metricsType p) (ci_bounds p) n h ∧
               count_of h = from_option count_of 0 (histograms !! key)) as (n & Hn & Hc).
  { unfold h. destruct (histograms !! key) as [h0|] eqn:E.
    - destruct (Hall _ _ E) as [n Hn]. by exists n.
    - exists 0. split; [apply NewHistogram_ok|]. simpl.
      by rewrite (count_of_ok _ _ _ _ (NewHistogram_ok _ _)). }
  clearbody h. destruct (Update_ok _ _ _ _ _ Hn Hv) as (h' & -> & Hh'). simpl.
  eexists. split; [done|]. split; [intros; by rewrite lookup_insert_ne|].
  exists h', (n + 1). split; [apply lookup_insert_eq|]. split; [done|].
  rewrite (count_of_ok _ _ _ _ Hh'), <- Hc, (count_of_ok _ _ _ _ Hn). by rewrite u64_add_l.
Qed.

Lemma record_latency_ok k p f a kv v :
  fam_ok k p f → kv_rep kv (labels_of a) → family a = kind_no k → counted v = true →
  ∃ f', record_latency p (key_string a) v kv f = Some f' ∧ fam_ok k p f' ∧
    (∀ key, fam_count f' key = if decide (key = key_string a) then u64 (fam_count f key + 1) else fam_count f key) ∧
    (∀ key, key ≠ key_string a → view (mf_keyToDimensions f') !! key = view (mf_keyToDimensions f) !! key) ∧
    (∀ key, is_Some (mf_histograms f' !! key) ↔ is_Some (mf_histograms f !! key) ∨ key = key_string a).
Proof.
  intros [Hd Hh] Hr Hfam Hv. unfold record_latency.
  destruct (Cache_Get_spec (key_string a) (mf_keyToDimensions f)) as [Hg Hw].
  destruct (Cache_Get (key_string a) (mf_keyToDimensions f)) as [has dims]. simpl in *.
  assert (∃ dims', match has with
                   | Some _ => Some dims
                   | None => (λ m, (Cache_Add (key_string a) m dims).2) <$> GetMap kv
                   end = Some dims' ∧ dims_ok k (view dims') ∧ is_Some (view dims' !! key_string a) ∧
                   (∀ key, key ≠ key_string a → view dims' !! key = view (mf_keyToDimensions f) !! key) ∧
                   ∀ key, is_Some (view (mf_keyToDimensions f) !! key) → is_Some (view dims' !! key))
    as (dims' & -> & Hd' & Hin & Hother & Hmono).
  { destruct has as [d|].
    - exists dims. split; [done|]. rewrite Hw. split; [done|]. split; [by rewrite <- Hg|]. done.
    - rewrite (GetMap_spec _ _ Hr). simpl. eexists. split; [done|].
      rewrite Cache_Add_view, Hw. split_and!.
      + intros key d. destruct (decide (key = key_string a)) as [->|Hne]; simplify_map_eq.
        * intros [= <-]. by exists a.
        * apply Hd.
      + rewrite lookup_insert_eq. by eexists.
      + intros key Hne. by rewrite lookup_insert_ne.
      + intros key Hk. destruct (decide (key = key_string a)) as [->|]; simplify_map_eq; [by eexists|done]. }
  simpl. destruct (updateHistogram_ok p (mf_histograms f) (key_string a) v)
    as (hs & -> & Hsame & h' & n & Hk & Hn & Hc); [|done|].
  { intros key h E. by destruct (Hh key h E) as [_ ?]. }
  simpl. eexists. split; [done|]. split_and!; simpl.
  - split; [done|]. intros key h E. simpl in *. destruct (decide (key = key_string a)) as [->|Hne].
    + split; [done|]. rewrite Hk in E. injection E as <-. by exists n.
    + rewrite Hsame in E by done. destruct (Hh key h E) as [? ?]. split; [by apply Hmono|done].
  - intros key. unfold fam_count. simpl. case_decide as Hkey; [subst key; rewrite Hk; apply Hc|].
    by rewrite Hsame.
  - done.
  - intros key. destruct (decide (key = key_string a)) as [->|Hne].
    + rewrite Hk. split; [by right|by eexists].
    + rewrite Hsame by done. naive_solver.
Qed.

(** ** The connector *)

Definition conn_ok (p : connectorImp) : Prop :=
  (∃ l, kv_rep (ci_keyValue p) l) ∧ kv_maxAttribute (ci_keyValue p) = 100 ∧
  ∀ k, fam_ok k p (family_of k p).

(** What no part of [aggregateMetricsForSpan] but the tracking changes. *)
Definition same_env (p p' : connectorImp) : Prop :=
  ci_config p' = ci_config p ∧ ci_httpParser p' = ci_httpParser p ∧
  ci_metricsType p' = ci_metricsType p ∧ ci_bounds p' = ci_bounds p ∧
  ci_maxNumberOfServicesToTrack p' = ci_maxNumberOfServicesToTrack p ∧
  ci_maxNumberOfOperationsToTrackPerService p' = ci_maxNumberOfOperationsToTrackPerService p ∧
  ci_startTimestamp p' = ci_startTimestamp p ∧ ci_entryUrlCache p' = ci_entryUrlCache p.

#[global] Instance same_env_preorder : PreOrder same_env.
Proof. split; [done|]. unfold same_env. intros a b c. intuition congruence. Qed.

Definition put (k : MetricKind) (f : metricFamily) (kv : ReusedKeyValue) (p : connectorImp) : connectorImp :=
  set_keyed kv (match k with KServer => f | _ => ci_server p end)
    (match k with KDb => f | _ => ci_dbCall p end)
    (match k with KExternal => f | _ => ci_externalCall p end)
    (match k with KMq => f | _ => ci_mqCall p end) p.

Lemma put_env k f kv p : same_env p (put k f kv p).
Proof. done. Qed.

Lemma family_of_put k j f kv p :
  family_of j (put k f kv p) = if decide (j = k) then f else family_of j p.
Proof. by destruct j, k. Qed.

(** The common shape of the four parts. *)
Definition run_stage (k : MetricKind) (args : option KeyArgs) (v : float64) (p : connectorImp)
    : option connectorImp :=
  '(key, kv) ← parsed args (ci_keyValue p);
  if bool_decide (key = "") then Some (put k (family_of k p) kv p)
  else
    f ← record_latency p key v kv (family_of k p);
    Some (put k f kv p).

(** One more sample of the series of [args]. *)
Definition bump (args : option KeyArgs) (key : string) (c : Z) : Z :=
  match args with
  | Some a => if decide (key = key_string a) then u64 (c + 1) else c
  | None => c
  end.

(** The effect of one part: [args] of kind [k] and nothing else. *)
Definition stage_effect (k : MetricKind) (args : option KeyArgs) (p p' : connectorImp) : Prop :=
  conn_ok p' ∧ same_env p p' ∧
  (∀ j, j ≠ k → family_of j p' = family_of j p) ∧
  (∀ key, fam_count (family_of k p') key = bump args key (fam_count (family_of k p) key)) ∧
  (∀ key, is_Some (mf_histograms (family_of k p') !! key) ↔
            is_Some (mf_histograms (family_of k p) !! key) ∨ key_string <$> args = Some key).

Lemma run_stage_ok k args v p :
  conn_ok p → counted v = true →
  (∀ a, args = Some a → family a = kind_no k) →
  ∃ p', run_stage k args v p = Some p' ∧ stage_effect k args p p' ∧
        ci_serviceToOperations p' = ci_serviceToOperations p.
Proof.
  intros ([l Hl] & Hm & Hf) Hv Ha. unfold run_stage.
  assert (∀ j f kv, fam_ok j p f → fam_ok j (put k (family_of k p) kv p) f) as Hput by done.
  destruct args as [a|]; simpl.
  - pose proof (Ha a eq_refl) as Hk.
    destruct (build_key_rep a (ci_keyValue p) l Hl) as (kv & -> & Hr & Hm'); [lia|]. simpl.
    rewrite bool_decide_eq_false_2 by apply key_string_nonempty.
    destruct (record_latency_ok k p (family_of k p) a kv v (Hf k) Hr Hk Hv)
      as (f & -> & Hfok & Hc & _ & Hin). simpl.
    eexists. split; [done|]. split; [|done]. split_and!.
    + split; [by exists (labels_of a)|]. split; [simpl; lia|]. intros j. rewrite family_of_put.
      case_decide as Hj; [subst j; apply Hfok|apply Hf].
    + apply put_env.
    + intros j Hj. rewrite family_of_put. by rewrite decide_False.
    + intros key. rewrite family_of_put, decide_True by done. apply Hc.
    + intros key. rewrite family_of_put, decide_True by done. rewrite Hin. simpl. naive_solver.
  - eexists. split; [done|]. split; [|done]. split_and!.
    + split; [by exists l|]. split; [done|]. intros j. rewrite family_of_put.
      case_decide as Hj; [subst j|]; apply Hf.
    + apply put_env.
    + intros j Hj. rewrite family_of_put. by rewrite decide_False.
    + intros key. by rewrite family_of_put, decide_True.
    + intros key. rewrite family_of_put, decide_True by done. simpl. naive_solver.
Qed.

Lemma put_id k p : put k (family_of k p) (ci_keyValue p) p = p.
Proof. by destruct p, k. Qed.

Lemma set_keyed_id p :
  set_keyed (ci_keyValue p) (ci_server p) (ci_dbCall p) (ci_externalCall p) (ci_mqCall p) p = p.
Proof. by destruct p. Qed.

(** Each part is its stage, when the metric is enabled. *)
Definition stage (k : MetricKind) (args : option KeyArgs) (v : float64) (p : connectorImp) : option connectorImp :=
  run_stage k (if enabled k (ci_config p) then args else None) v p.

Lemma stage_None k v p : run_stage k None v p = Some p.
Proof. unfold run_stage. simpl. by rewrite put_id. Qed.

Lemma aggregate_db_stage pid cid svc url span v p :
  aggregate_db pid cid svc url span v p = stage KDb (db_args pid cid svc url span) v p.
Proof.
  unfold aggregate_db, stage. simpl. destruct (rc_DbEnabled (ci_config p)) eqn:E.
  - destruct (SpanKind_eqb _ _) eqn:Ek; simpl.
    + unfold run_stage. rewrite Db_Parse_spec. by destruct (parsed _ _) as [[key kv]|].
    + unfold db_args. by rewrite Ek, stage_None.
  - rewrite andb_false_r. by rewrite stage_None.
Qed.

Lemma aggregate_mq_stage pid cid svc url span v p :
  aggregate_mq pid cid svc url span v p = stage KMq (mq_args pid cid svc url span) v p.
Proof.
  unfold aggregate_mq, stage. simpl. destruct (rc_MqEnabled (ci_config p)); [|by rewrite stage_None].
  unfold run_stage. rewrite Mq_Parse_spec. by destruct (parsed _ _) as [[key kv]|].
Qed.

Lemma aggregate_external_stage pid cid svc url span v p :
  conn_ok p →
  aggregate_external pid cid svc url span v p =
    stage KExternal (external_args (ci_httpParser p) pid cid svc url span) v p.
Proof.
  intros ([l Hl] & Hm & _). unfold aggregate_external, stage. simpl.
  destruct (rc_ExternalEnabled (ci_config p)).
  - destruct (SpanKind_eqb _ _) eqn:Ek; simpl.
    + unfold run_stage. rewrite (external_spec _ _ _ _ _ _ _ l) by (done || lia).
      by destruct (parsed _ _) as [[key kv]|].
    + unfold external_args. by rewrite Ek, stage_None.
  - rewrite andb_false_r. by rewrite stage_None.
Qed.

(** The tracking of services and operations. *)
Definition track (serviceName : string) (span : Span) (p : connectorImp) : connectorImp :=
  let serviceName := tracked_service serviceName p in
  let operations := default ∅ (ci_serviceToOperations p !! serviceName) in
  let spanName :=
    if Z.of_nat (size operations) >? ci_maxNumberOfOperationsToTrackPerService p
    then overflowOperation else Span_Name span in
  set_serviceToOperations (<[serviceName := {[spanName]} ∪ operations]> (ci_serviceToOperations p)) p.

Lemma track_ok svc span p : conn_ok p → conn_ok (track svc span p) ∧ same_env p (track svc span p) ∧
  ∀ k, family_of k (track svc span p) = family_of k p.
Proof.
  intros (Hkv & Hm & Hf). split_and!; [split_and!; [done..|]|done|by intros []].
  intros k. specialize (Hf k). by destruct k.
Qed.

Lemma aggregate_server_stage pid cid svc span v p :
  conn_ok p →
  aggregate_server pid cid svc span v p =
    match (if enabled KServer (ci_config p) then server_args pid cid svc span p else None) with
    | Some a => run_stage KServer (Some a) v (track svc span p)
    | None => Some p
    end.
Proof.
  intros ([l Hl] & Hm & _). unfold aggregate_server, server_args. simpl enabled.
  destruct (rc_ServerEnabled (ci_config p)); [|done]. destruct (_ || _); [|done]. simpl andb. cbv iota.
  match goal with |- (if ?b then _ else _) = _ => destruct b; [|done] end.
  unfold buildServerKey, run_stage. fold (tracked_service svc p). fold (track svc span p).
  set (a := ServerKey _ _ _ _ _ _).
  destruct (build_key_rep a (ci_keyValue (track svc span p)) l) as (kv & E & _ & _); [done|simpl; lia|].
  simpl parsed. change (BuildServerKey _ _ _ _ _ _ _) with (build_key a (ci_keyValue (track svc span p))).
  rewrite E. simpl. by rewrite bool_decide_eq_false_2 by apply key_string_nonempty.
Qed.

Lemma args_of_family k pid cid svc url span p a :
  args_of k pid cid svc url span p = Some a → family a = kind_no k.
Proof.
  unfold args_of. case_match; [|done].
  destruct k; unfold server_args, external_args, db_args, mq_args; simpl;
    repeat case_match; intros E; simplify_eq; try done; by apply fmap_Some in E as (? & _ & ->).
Qed.

(** The arguments are those of the environment. *)
Lemma args_of_env k pid cid svc url span p p' :
  k ≠ KServer → same_env p p' →
  args_of k pid cid svc url span p' = args_of k pid cid svc url span p.
Proof. intros Hk (E1 & E2 & _). unfold args_of. rewrite E1, E2. by destruct k. Qed.

Lemma stage_effect_None k p : conn_ok p → stage_effect k None p p.
Proof. intros Hp. split_and!; [done..|]. intros key. simpl. naive_solver. Qed.

(** The parts after the first, on the arguments of the span. *)
Lemma later_stage k pid cid svc url span v p p0 :
  k ≠ KServer → conn_ok p0 → same_env p p0 → counted v = true →
  ∃ p', run_stage k (args_of k pid cid svc url span p) v p0 = Some p' ∧
        stage_effect k (args_of k pid cid svc url span p) p0 p' ∧
        ci_serviceToOperations p' = ci_serviceToOperations p0.
Proof.
  intros Hk Hok He Hv. apply run_stage_ok; [done..|]. intros a Ea. by eapply args_of_family.
Qed.

Lemma args_of_measured k pid cid svc url span p :
  Span_StartTimestamp span < Span_EndTimestamp span →
  args_of k pid cid svc url span p =
    if enabled k (ci_config p) then
      match k with
      | KServer => server_args pid cid svc span p
      | KExternal => external_args (ci_httpParser p) pid cid svc url span
      | KDb => db_args pid cid svc url span
      | KMq => mq_args pid cid svc url span
      end else None.
Proof.
  intros Hlt. unfold args_of. destruct (Z.ltb_spec (Span_StartTimestamp span) (Span_EndTimestamp span)); [|lia].
  by rewrite andb_true_r.
Qed.

Lemma later_stages pid cid svc url span v p p0 :
  Span_StartTimestamp span < Span_EndTimestamp span → conn_ok p0 → same_env p p0 →
  aggregate_db pid cid svc url span v p0 = run_stage KDb (args_of KDb pid cid svc url span p) v p0 ∧
  aggregate_external pid cid svc url span v p0 =
    run_stage KExternal (args_of KExternal pid cid svc url span p) v p0 ∧
  aggregate_mq pid cid svc url span v p0 = run_stage KMq (args_of KMq pid cid svc url span p) v p0.
Proof.
  intros Hlt Hok (E1 & E2 & _). rewrite !args_of_measured by done.
  rewrite aggregate_db_stage, aggregate_external_stage, aggregate_mq_stage by done.
  unfold stage. by rewrite E1, E2.
Qed.

Lemma server_stage_ok pid cid svc url span v p :
  Span_StartTimestamp span < Span_EndTimestamp span →
  conn_ok p → counted v = true →
  ∃ p', aggregate_server pid cid svc span v p = Some p' ∧
    stage_effect KServer (args_of KServer pid cid svc url span p) p p' ∧
    ci_serviceToOperations p' =
      ci_serviceToOperations (if args_of KServer pid cid svc url span p is Some _ then track svc span p else p).
Proof.
  intros Hlt Hok Hv. rewrite aggregate_server_stage by done.
  pose proof (args_of_family KServer pid cid svc url span p) as Hfam.
  rewrite (args_of_measured KServer) in * by done.
  destruct (if enabled KServer (ci_config p) then server_args pid cid svc span p else None) as [a|] eqn:Ea.
  - destruct (track_ok svc span p Hok) as (Hok' & He & Hf).
    destruct (run_stage_ok KServer (Some a) v (track svc span p)) as (p' & E & Heff & Hs); [done..| |].
    { intros a' [= <-]. by apply Hfam. }
    exists p'. split; [done|]. split; [|done]. unfold stage_effect in *. setoid_rewrite Hf in Heff.
    destruct Heff as (? & ? & ? & ? & ?). split_and!; [done|by etrans|done..].
  - exists p. split; [done|]. split; [by apply stage_effect_None|done].
Qed.

Lemma aggregate_ok pid cid svc url span p :
  conn_ok p →
  ∃ p', aggregateMetricsForSpan pid cid svc url span p = Some p' ∧ conn_ok p' ∧ same_env p p' ∧
    (∀ k key, fam_count (family_of k p') key =
       bump (args_of k pid cid svc url span p) key (fam_count (family_of k p) key)) ∧
    (∀ k key, is_Some (mf_histograms (family_of k p') !! key) ↔
       is_Some (mf_histograms (family_of k p) !! key) ∨
       key_string <$> args_of k pid cid svc url span p = Some key) ∧
    ci_serviceToOperations p' =
      ci_serviceToOperations (if args_of KServer pid cid svc url span p is Some _ then track svc span p else p).
Proof.
  intros Hok. unfold aggregateMetricsForSpan.
  destruct (Z.leb_spec (Span_EndTimestamp span) (Span_StartTimestamp span)) as [Hle|Hlt].
  { assert (∀ k, args_of k pid cid svc url span p = None) as Hn.
    { intros k. unfold args_of. destruct (Z.ltb_spec (Span_StartTimestamp span) (Span_EndTimestamp span)); [lia|].
      by rewrite andb_false_r. }
    exists p. split; [done|]. split; [done|]. split; [done|]. setoid_rewrite Hn. simpl. naive_solver. }
  set (v := F_of_Z (u64 (Span_EndTimestamp span - Span_StartTimestamp span))).
  assert (counted v = true) as Hv.
  { destruct (F_of_Z_nonneg (u64 (Span_EndTimestamp span - Span_StartTimestamp span))) as [E1 E2];
      [apply u64_range|]. unfold counted, v. by rewrite E1, E2. }
  clearbody v.
  destruct (server_stage_ok pid cid svc url span v p Hlt Hok Hv) as (p1 & -> & (Hok1 & He1 & Ho1 & Hc1 & Hi1) & Hs1).
  destruct (later_stage KDb pid cid svc url span v p p1) as (p2 & E2 & (Hok2 & He2 & Ho2 & Hc2 & Hi2) & Hs2); [done..|].
  assert (same_env p p2) as He2' by (by etrans).
  destruct (later_stage KExternal pid cid svc url span v p p2)
    as (p3 & E3 & (Hok3 & He3 & Ho3 & Hc3 & Hi3) & Hs3); [done..|].
  assert (same_env p p3) as He3' by (by etrans).
  destruct (later_stage KMq pid cid svc url span v p p3)
    as (p4 & E4 & (Hok4 & He4 & Ho4 & Hc4 & Hi4) & Hs4); [done..|].
  simpl. rewrite (proj1 (later_stages pid cid svc url span v p p1 Hlt Hok1 He1)), E2. simpl.
  rewrite (proj1 (proj2 (later_stages pid cid svc url span v p p2 Hlt Hok2 He2'))), E3. simpl.
  rewrite (proj2 (proj2 (later_stages pid cid svc url span v p p3 Hlt Hok3 He3'))), E4.
  exists p4. split; [done|]. split; [done|]. split; [by etrans|]. split_and!.
  - intros []; intros key;
      rewrite ?(Ho4 KServer), ?(Ho4 KExternal), ?(Ho4 KDb), ?(Ho3 KServer), ?(Ho3 KDb), ?(Ho2 KServer) by done;
      rewrite ?Hc4, ?Hc3, ?Hc2, ?Hc1, ?(Ho3 KMq), ?(Ho2 KMq), ?(Ho1 KMq), ?(Ho2 KExternal),
        ?(Ho1 KExternal), ?(Ho1 KDb) by done; done.
  - intros []; intros key;
      rewrite ?(Ho4 KServer), ?(Ho4 KExternal), ?(Ho4 KDb), ?(Ho3 KServer), ?(Ho3 KDb), ?(Ho2 KServer) by done;
      rewrite ?Hi4, ?Hi3, ?Hi2, ?Hi1, ?(Ho3 KMq), ?(Ho2 KMq), ?(Ho1 KMq), ?(Ho2 KExternal),
        ?(Ho1 KExternal), ?(Ho1 KDb) by done; done.
  - congruence.
Qed.
End series.
