(* ===== verification/RedExport.v ===== *)
(** * RedExport: the export of the RED metrics

    The export writes one point per series and never fails. *)

From S2P Require Import Prelude GoStrings Float64 PData Cache FillProc EntryUrl SqlPrune RedParsers Histogram LruCache RedConnector RedSeries.

Section export.
Context `{PD : PData} `{NE : NodeEnv} `{SP : SqlParser} `{GP : GoPlatform} `{VML : VmMathLaws}
  `{LL : !SimpleLRULaws (L : SimpleLRU string AMap)}.
Context (border : gmap string Z → list string) (horder : gmap string Histogram → list string).

(** ** The points of a family, read off its view *)

Definition prom_point (p : connectorImp) (timestamp : Z) (dims : gmap string AMap)
    (histograms : gmap string Histogram) (key : string) : option HistogramPoint :=
  h ← histograms !! key;
  d ← dims !! key;
  values ← Read h;
  counts ← GetBucketCounts values;
  Some {| hp_StartTimestamp := ci_startTimestamp p; hp_Timestamp := timestamp;
          hp_ExplicitBounds := ci_bounds p; hp_BucketCounts := counts;
          hp_Count := GetCount values; hp_Sum := GetSum values; hp_Attributes := d |}.

Definition vm_point (timestamp : Z) (dims : gmap string AMap) (histograms : gmap string Histogram)
    (key : string) : option (list NumberPoint * list NumberPoint * list NumberPoint) :=
  h ← histograms !! key;
  d ← dims !! key;
  values ← Read h;
  buckets ← GetBuckets values;
  let point n := {| np_Timestamp := timestamp; np_IntValue := n; np_Attributes := d |} in
  Some (bucket_points border timestamp d buckets,
        if GetCount values >? 0 then [point (i64 (GetCount values))] else [],
        if GetCount values >? 0 then [point (int64_of_float (GetSum values))] else []).

Definition family_metrics (now : Z) (p : connectorImp) (f : metricFamily) (prefix : string) : list Metric :=
  if Z.of_nat (size (mf_histograms f)) =? 0 then []
  else
    let dims := view (mf_keyToDimensions f) in
    match ci_metricsType p with
    | MetricsProm =>
        [MetricHistogram prefix "ns"
           (omap (prom_point p (u64 now) dims (mf_histograms f)) (horder (mf_histograms f)))]
    | MetricsVm =>
        let points := omap (vm_point (u64 now) dims (mf_histograms f)) (horder (mf_histograms f)) in
        [MetricGauge (prefix +:+ "_bucket") (mjoin ((λ t, t.1.1) <$> points));
         MetricGauge (prefix +:+ "_count") (mjoin ((λ t, t.1.2) <$> points));
         MetricGauge (prefix +:+ "_sum") (mjoin ((λ t, t.2) <$> points))]
    end.

(** The series have their dimensions and are of the type of the connector. *)
Definition series_ok (mt : MetricsType) (bounds : list float64) (dims : gmap string AMap)
    (histograms : gmap string Histogram) : Prop :=
  ∀ key h, histograms !! key = Some h → is_Some (dims !! key) ∧ ∃ n, hist_ok mt bounds n h.

Lemma omap_cons_eq {A B} (f : A → option B) x l :
  omap f (x :: l) = match f x with Some y => y :: omap f l | None => omap f l end.
Proof. done. Qed.

Lemma prom_points_ok p ts bounds histograms keys dims :
  series_ok MetricsProm bounds (view dims) histograms →
  ∃ dims', prom_points p ts histograms keys dims =
             Some (Some (omap (prom_point p ts (view dims) histograms) keys), dims') ∧
           view dims' = view dims.
Proof.
  revert dims. induction keys as [|key keys IH]; intros dims Hs; [by exists dims|].
  cbn [prom_points omap list_omap]. unfold prom_point at 1.
  destruct (histograms !! key) as [h|] eqn:Eh; simpl; [|by apply IH].
  destruct (Hs key h Eh) as [[d Hd] [n Hn]]. rewrite Hd. simpl.
  destruct (Cache_Get_spec key dims) as [Hg Hw]. destruct (Cache_Get key dims) as [r dims1].
  simpl in Hg, Hw. rewrite Hd in Hg. subst r.
  destruct h as [h|h]; [|by destruct Hn]. simpl.
  destruct (IH dims1) as (dims' & -> & Hw'); [by rewrite Hw|]. simpl. rewrite Hw in *. by exists dims'.
Qed.

Lemma vm_points_ok ts bounds histograms keys dims :
  series_ok MetricsVm bounds (view dims) histograms →
  ∃ dims', vm_points border ts histograms keys dims =
             Some (Some (let points := omap (vm_point ts (view dims) histograms) keys in
                         (mjoin ((λ t, t.1.1) <$> points), mjoin ((λ t, t.1.2) <$> points),
                          mjoin ((λ t, t.2) <$> points))), dims') ∧
           view dims' = view dims.
Proof.
  revert dims. induction keys as [|key keys IH]; intros dims Hs; [by exists dims|].
  cbn [vm_points]. rewrite omap_cons_eq. destruct (histograms !! key) as [h|] eqn:Eh.
  2: { assert (vm_point ts (view dims) histograms key = None) as -> by (unfold vm_point; by rewrite Eh). by apply IH. }
  destruct (Hs key h Eh) as [[d Hd] [n Hn]].
  destruct h as [h|h]; [by destruct Hn|]. destruct Hn as (_ & vs & Hr & _).
  destruct (Vm_Read_rep vs h Hr) as (values & Er & _).
  destruct (Cache_Get_spec key dims) as [Hg Hw].
  assert (vm_point ts (view dims) histograms key = _) as ->
    by (unfold vm_point; rewrite Eh; simpl; rewrite Hd; simpl; rewrite Er; reflexivity).
  destruct (Cache_Get key dims) as [r dims1]. simpl in Hg, Hw. rewrite Hd in Hg. subst r.
  destruct (IH dims1) as (dims' & E' & Hw'); [by rewrite Hw|].
  simpl. rewrite Er. simpl. rewrite E'. simpl. rewrite Hw in *. by exists dims'.
Qed.

Lemma collect_ok k now p f prefix :
  fam_ok k p f →
  ∃ f', collectLatencyMetrics border horder now p f prefix = Some (Some (family_metrics now p f prefix), f') ∧
        mf_histograms f' = mf_histograms f ∧
        view (mf_keyToDimensions f') = view (mf_keyToDimensions f).
Proof.
  intros [Hd Hh]. unfold collectLatencyMetrics, family_metrics.
  destruct (Z.of_nat (size (mf_histograms f)) =? 0); [by exists f|].
  destruct (ci_metricsType p) eqn:Et.
  - destruct (prom_points_ok p (u64 now) (ci_bounds p) (mf_histograms f) (horder (mf_histograms f))
                (mf_keyToDimensions f)) as (dims' & E & Hw); [exact Hh|].
    unfold collectPromLatencyMetrics. rewrite E. simpl. eexists. done.
  - destruct (vm_points_ok (u64 now) (ci_bounds p) (mf_histograms f) (horder (mf_histograms f))
                (mf_keyToDimensions f)) as (dims' & E & Hw); [exact Hh|].
    unfold collectVmLatencyMetrics. rewrite E. simpl. eexists. done.
Qed.

(** ** The clean-up *)

(** What is left of the histograms of a family whose dimensions become [dims]. *)
Definition kept (dims : gmap string AMap) (histograms : gmap string Histogram) : gmap string Histogram :=
  filter (λ kh, is_Some (dims !! kh.1)) histograms.

Lemma drop_uncached_kept c histograms :
  drop_uncached (RemoveEvictedItems c) histograms = kept (view (RemoveEvictedItems c)) histograms.
Proof.
  unfold drop_uncached, kept. apply map_filter_ext. intros key h _. simpl.
  rewrite Cache_Contains_view. apply bool_decide_eq_true.
Qed.

Lemma RemoveEvictedItems_sub c key d :
  view (RemoveEvictedItems c) !! key = Some d → view c !! key = Some d.
Proof. rewrite RemoveEvictedItems_view. intros Hk. apply lookup_union_Some_l, Hk. Qed.

(** Keeping the histograms by the cache of the family, or by any other. *)
Lemma clean_fam_ok k p f c :
  fam_ok k p f → (∀ key, is_Some (view (RemoveEvictedItems c) !! key) → is_Some (mf_histograms f !! key) →
                         is_Some (view (RemoveEvictedItems (mf_keyToDimensions f)) !! key)) →
  fam_ok k p {| mf_histograms := drop_uncached (RemoveEvictedItems c) (mf_histograms f);
                mf_keyToDimensions := RemoveEvictedItems (mf_keyToDimensions f) |}.
Proof.
  intros [Hd Hh] Hc. split; simpl.
  - intros key d Hk. by apply Hd, RemoveEvictedItems_sub.
  - intros key h Hk. rewrite drop_uncached_kept in Hk. unfold kept in Hk.
    apply map_lookup_filter_Some in Hk as [Hk Hin]. simpl in Hin.
    split; [by apply Hc; [|eexists]|]. by apply (Hh key h).
Qed.

(** No key of a call to a database is the key of an external call: it has one
    label more. *)
Lemma external_not_db p q key :
  dims_ok KDb p → dims_ok KExternal q → is_Some (p !! key) → is_Some (q !! key) →
  ∀ a, family a = kind_no KExternal → nul_free a → key ≠ key_string a.
Proof.
  intros Hp Hq [d Hd] [d' Hd'] a Ha Hnul ->. destruct (Hp _ _ Hd) as (b & Hb & E & _).
  unfold key_string in E. apply Join_inj in E; [by destruct a, b|by destruct a|by destruct a, b; simpl; try lia|done].
Qed.

(** ** The whole export *)

Definition prefix_of (k : MetricKind) : string :=
  match k with
  | KServer => "kindling_span_trace_duration_nanoseconds"
  | KDb => "kindling_db_duration_nanoseconds"
  | KExternal => "kindling_external_duration_nanoseconds"
  | KMq => "kindling_mq_duration_nanoseconds"
  end.

Definition metrics_of (now : Z) (p : connectorImp) : list Metric :=
  mjoin ((λ k, family_metrics now p (family_of k p) (prefix_of k)) <$> [KServer; KDb; KExternal; KMq]).

(** The external series are named by labels without a NUL. *)
Definition ext_free (p : connectorImp) : Prop :=
  ∀ key, is_Some (mf_histograms (ci_externalCall p) !! key) →
    ∃ a, family a = kind_no KExternal ∧ nul_free a ∧ key = key_string a.

(** The families after they were read: the same series, their dimensions where
    they were. *)
Definition same_series (f f' : metricFamily) : Prop :=
  mf_histograms f' = mf_histograms f ∧
  view (mf_keyToDimensions f') = view (mf_keyToDimensions f).

Lemma fam_ok_same k p p' f f' :
  same_env p p' → same_series f f' → fam_ok k p f → fam_ok k p' f'.
Proof. unfold fam_ok. intros (_ & _ & E1 & E2 & _) [-> ->]. by rewrite E1, E2. Qed.

(** The clean-up of a connector each family of which was read. *)
Lemma clean_evicted_ok p q :
  conn_ok p → ext_free p → same_env p q → ci_keyValue q = ci_keyValue p →
  (∀ k, same_series (family_of k p) (family_of k q)) →
  conn_ok (clean_evicted q) ∧ ext_free (clean_evicted q) ∧ same_env p (clean_evicted q) ∧
  (∀ k, k ≠ KExternal → mf_histograms (family_of k (clean_evicted q)) =
     kept (view (mf_keyToDimensions (family_of k (clean_evicted q)))) (mf_histograms (family_of k p))) ∧
  mf_histograms (ci_externalCall (clean_evicted q)) = ∅.
Proof.
  intros (Hkv & Hm & Hf) Hx He Ekv Hs.
  assert (∀ k, fam_ok k q (family_of k q)) as Hfq by (intros k; by eapply fam_ok_same).
  assert (mf_histograms (ci_externalCall (clean_evicted q)) = ∅) as Hext.
  { simpl. apply map_empty. intros key. rewrite drop_uncached_kept.
    apply map_lookup_filter_None_2. right. intros h Hk Hin. simpl in Hin.
    destruct (Hs KExternal) as [Eh _]. simpl in Eh. rewrite Eh in Hk.
    destruct (Hx key) as (a & Ha & Hnul & Ek); [by eexists|].
    assert (is_Some (view (mf_keyToDimensions (ci_dbCall q)) !! key)) as Hdb
      by (destruct Hin as [d Hd]; eexists; by apply RemoveEvictedItems_sub).
    destruct (Hf KExternal) as [Hdx Hhx]. destruct (Hhx key h Hk) as [Hsome _].
    by destruct (external_not_db _ _ key (proj1 (Hfq KDb)) Hdx Hdb Hsome a Ha Hnul). }
  split_and!; [|intros key Hk; rewrite Hext in Hk; by destruct Hk|done| |done].
  - split; [simpl; by rewrite Ekv|]. split; [simpl; by rewrite Ekv|]. intros k.
    assert (fam_ok k q (family_of k (clean_evicted q))) as Hk.
    { destruct k; simpl; try (apply clean_fam_ok; [apply (Hfq KServer) || apply (Hfq KDb) || apply (Hfq KMq)|done]).
      split; [intros key d Hd; by apply (proj1 (Hfq KExternal)), RemoveEvictedItems_sub|].
      intros key h Hk. simpl in Hk, Hext. by rewrite Hext in Hk. }
    by destruct k.
  - intros k Hk. destruct (Hs k) as [Eh _]. rewrite <- Eh.
    destruct k; [|done|..]; simpl; apply drop_uncached_kept.
Qed.

Lemma family_metrics_env now p q f prefix : same_env p q → family_metrics now q f prefix = family_metrics now p f prefix.
Proof.
  intros (_ & _ & E1 & E2 & _ & _ & E3 & _). unfold family_metrics, prom_point. by rewrite E1, E2, E3.
Qed.

Lemma collect_env k now p q f prefix :
  same_env p q → fam_ok k p f →
  ∃ f', collectLatencyMetrics border horder now q f prefix = Some (Some (family_metrics now p f prefix), f') ∧
        same_series f f'.
Proof.
  intros He Hf. destruct (collect_ok k now q f prefix) as (f' & E & Hs); [by eapply fam_ok_same|].
  exists f'. split; [|done]. by rewrite E, (family_metrics_env now p q).
Qed.

Lemma exportMetrics_ok now p :
  conn_ok p → ext_free p →
  ∃ p', exportMetrics border horder now p = Some (metrics_of now p, p') ∧
    conn_ok p' ∧ ext_free p' ∧ same_env p p' ∧ ci_serviceToOperations p' = ci_serviceToOperations p ∧
    (∀ k, k ≠ KExternal → mf_histograms (family_of k p') =
       kept (view (mf_keyToDimensions (family_of k p'))) (mf_histograms (family_of k p))) ∧
    mf_histograms (ci_externalCall p') = ∅.
Proof.
  intros Hok Hx. pose proof Hok as (_ & _ & Hf).
  set (kv := ci_keyValue p). unfold exportMetrics, buildMetrics.
  destruct (collect_env KServer now p p (ci_server p) (prefix_of KServer)) as (f1 & E1 & S1); [done|apply (Hf KServer)|].
  set (p1 := set_keyed kv f1 (ci_dbCall p) (ci_externalCall p) (ci_mqCall p) p).
  destruct (collect_env KDb now p p1 (ci_dbCall p) (prefix_of KDb)) as (f2 & E2 & S2); [done|apply (Hf KDb)|].
  set (p2 := set_keyed kv f1 f2 (ci_externalCall p) (ci_mqCall p) p).
  destruct (collect_env KExternal now p p2 (ci_externalCall p) (prefix_of KExternal)) as (f3 & E3 & S3);
    [done|apply (Hf KExternal)|].
  set (p3 := set_keyed kv f1 f2 f3 (ci_mqCall p) p).
  destruct (collect_env KMq now p p3 (ci_mqCall p) (prefix_of KMq)) as (f4 & E4 & S4); [done|apply (Hf KMq)|].
  set (q := set_keyed kv f1 f2 f3 f4 p).
  destruct (clean_evicted_ok p q Hok Hx) as (Hok' & Hx' & He & Hk & Hext); [done|done|by intros []|].
  exists (clean_evicted q). split; [|done]. simpl prefix_of in *.
  rewrite E1. cbn [mbind option_bind]. fold kv. fold p1. change (ci_dbCall p1) with (ci_dbCall p). rewrite E2.
  cbn [mbind option_bind]. change (set_keyed kv (ci_server p1) f2 (ci_externalCall p1) (ci_mqCall p1) p1) with p2.
  change (ci_externalCall p2) with (ci_externalCall p). rewrite E3. cbn [mbind option_bind].
  change (set_keyed kv (ci_server p2) (ci_dbCall p2) f3 (ci_mqCall p2) p2) with p3.
  change (ci_mqCall p3) with (ci_mqCall p). rewrite E4. cbn [mbind option_bind].
  unfold metrics_of. simpl. by rewrite app_nil_r.
Qed.

(** ** The points of a Prometheus family *)

Lemma family_points k now p f prefix :
  fam_ok k p f → ci_metricsType p = MetricsProm → mf_histograms f ≠ ∅ →
  range_order (mf_histograms f) (horder (mf_histograms f)) →
  ∃ points, family_metrics now p f prefix = [MetricHistogram prefix "ns" points] ∧
    length points = size (mf_histograms f) ∧
    ∀ key h, mf_histograms f !! key = Some h →
      ∃ pt, pt ∈ points ∧ hp_Count pt = count_of h ∧ view (mf_keyToDimensions f) !! key = Some (hp_Attributes pt).
Proof.
  intros [Hd Hh] Et Hne Ho. unfold family_metrics. rewrite Et in *.
  destruct (Z.eqb_spec (Z.of_nat (size (mf_histograms f))) 0) as [Hz|_].
  { destruct Hne. apply map_size_empty_inv. lia. }
  set (dims := view (mf_keyToDimensions f)) in *.
  set (point := prom_point p (u64 now) dims (mf_histograms f)).
  assert (∀ key h, mf_histograms f !! key = Some h →
            ∃ pt, point key = Some pt ∧ hp_Count pt = count_of h ∧ dims !! key = Some (hp_Attributes pt)) as Hpt.
  { intros key h Hk. destruct (Hh key h Hk) as [[d Ed] [n Hn]]. destruct h as [h|h]; [|by destruct Hn].
    unfold point, prom_point. rewrite Hk. simpl. rewrite Ed. simpl. by eexists. }
  eexists. split; [done|]. split.
  - transitivity (length (horder (mf_histograms f))).
    + assert (∀ key, key ∈ horder (mf_histograms f) → is_Some (point key)) as Hall.
      { intros key Hin. apply (range_order_elem _ _ _ Ho) in Hin as [h Hk].
        destruct (Hpt key h Hk) as (pt & -> & _). by eexists. }
      revert Hall. generalize (horder (mf_histograms f)). intros l. induction l as [|key l IH]; intros Hall; [done|].
      rewrite omap_cons_eq. destruct (Hall key) as [pt ->]; [by left|]. simpl. rewrite IH; [done|].
      intros key' Hin. apply Hall. by right.
    + unfold range_order in Ho. by rewrite Ho, length_fmap, length_map_to_list.
  - intros key h Hk. destruct (Hpt key h Hk) as (pt & E & Hc & Hv). exists pt. split; [|done].
    apply list_elem_of_omap. exists key. split; [|done]. apply (range_order_elem _ _ _ Ho). by eexists.
Qed.

(** ** The points of a VictoriaMetrics family *)

Definition sum_of (h : Histogram) : float64 := from_option GetSum F_zero (Read h).
Definition buckets_of (h : Histogram) : gmap string Z := default ∅ (Read h ≫= GetBuckets).

(** The dimensions of a series and the points it has in the three gauges: one for each
    bucket that was hit, and, once it has samples, its count and its sum. *)
Definition dims_at (f : metricFamily) (key : string) : AMap :=
  default Map_New (view (mf_keyToDimensions f) !! key).

Definition number (now n : Z) (attributes : AMap) : NumberPoint :=
  {| np_Timestamp := u64 now; np_IntValue := n; np_Attributes := attributes |}.

Definition series_buckets (now : Z) (f : metricFamily) (kh : string * Histogram) : list NumberPoint :=
  (λ rc, number now (i64 rc.2) (Map_PutStr "vmrange" rc.1 (dims_at f kh.1))) <$> map_to_list (buckets_of kh.2).
Definition series_count (now : Z) (f : metricFamily) (kh : string * Histogram) : list NumberPoint :=
  if 0 <? count_of kh.2 then [number now (i64 (count_of kh.2)) (dims_at f kh.1)] else [].
Definition series_sum (now : Z) (f : metricFamily) (kh : string * Histogram) : list NumberPoint :=
  if 0 <? count_of kh.2 then [number now (int64_of_float (sum_of kh.2)) (dims_at f kh.1)] else [].

Lemma omap_pairs {A V B} (f : A → option B) (g : A * V → B) (l : list (A * V)) :
  (∀ x, x ∈ l → f x.1 = Some (g x)) → omap f l.*1 = g <$> l.
Proof.
  induction l as [|x l IH]; intros Hf; [done|]. rewrite !fmap_cons, omap_cons_eq, Hf by left.
  f_equal. apply IH. intros y Hy. apply Hf. by right.
Qed.

Lemma bucket_points_perm now d buckets :
  range_order buckets (border buckets) →
  bucket_points border (u64 now) d buckets ≡ₚ
    (λ rc, number now (i64 rc.2) (Map_PutStr "vmrange" rc.1 d)) <$> map_to_list buckets.
Proof.
  unfold bucket_points, range_order. intros ->.
  rewrite (omap_pairs _ (λ rc, number now (i64 rc.2) (Map_PutStr "vmrange" rc.1 d))); [done|].
  intros [range c] Hin%elem_of_map_to_list. simpl. by rewrite Hin.
Qed.

(** What the points of the keys, in any order, join up to. *)
Lemma joined_perm {B} (pt : string → option B) (part : B → list NumberPoint)
    (F : string * Histogram → list NumberPoint) (hs : gmap string Histogram) :
  range_order hs (horder hs) →
  (∀ key h, hs !! key = Some h → ∃ t, pt key = Some t ∧ part t ≡ₚ F (key, h)) →
  mjoin (part <$> omap pt (horder hs)) ≡ₚ map_to_list hs ≫= F.
Proof.
  unfold range_order. intros -> Hpt.
  assert (∀ x, x ∈ map_to_list hs → ∃ t, pt x.1 = Some t ∧ part t ≡ₚ F x) as Hl
    by (intros [key h] Hin%elem_of_map_to_list; by apply Hpt).
  clear Hpt. induction (map_to_list hs) as [|x l IH]; [done|].
  rewrite fmap_cons, omap_cons_eq, bind_cons. destruct (Hl x) as (t & -> & Ht); [left|].
  rewrite fmap_cons. cbn [mjoin list_join]. rewrite Ht. f_equiv. apply IH. intros y Hy. apply Hl. by right.
Qed.

Lemma vm_family_points k now p f prefix :
  fam_ok k p f → ci_metricsType p = MetricsVm → mf_histograms f ≠ ∅ →
  (∀ buckets, range_order buckets (border buckets)) →
  range_order (mf_histograms f) (horder (mf_histograms f)) →
  ∃ bs cs ss, family_metrics now p f prefix =
      [MetricGauge (prefix +:+ "_bucket") bs; MetricGauge (prefix +:+ "_count") cs; MetricGauge (prefix +:+ "_sum") ss] ∧
    bs ≡ₚ map_to_list (mf_histograms f) ≫= series_buckets now f ∧
    cs ≡ₚ map_to_list (mf_histograms f) ≫= series_count now f ∧
    ss ≡ₚ map_to_list (mf_histograms f) ≫= series_sum now f.
Proof.
  intros [Hd Hh] Et Hne Hb Ho. unfold family_metrics. rewrite Et in *.
  destruct (Z.eqb_spec (Z.of_nat (size (mf_histograms f))) 0) as [Hz|_].
  { destruct Hne. apply map_size_empty_inv. lia. }
  set (point := vm_point (u64 now) (view (mf_keyToDimensions f)) (mf_histograms f)).
  assert (∀ key h, mf_histograms f !! key = Some h → ∃ t, point key = Some t ∧
            t.1.1 ≡ₚ series_buckets now f (key, h) ∧ t.1.2 ≡ₚ series_count now f (key, h) ∧
            t.2 ≡ₚ series_sum now f (key, h)) as Hpt.
  { intros key h Hk. destruct (Hh key h Hk) as [[d Ed] [n Hn]]. destruct h as [h|h]; [by destruct Hn|].
    destruct Hn as (_ & vs & Hr & _). destruct (Vm_Read_rep vs h Hr) as (values & Er & _).
    unfold point, vm_point. rewrite Hk. simpl. rewrite Ed. simpl. rewrite Er. simpl. eexists. split; [done|].
    unfold series_buckets, series_count, series_sum, count_of, sum_of, buckets_of, dims_at.
    cbn [fst snd Read]. rewrite Er, Ed. simpl. rewrite Z.gtb_ltb.
    split_and!; [by apply bucket_points_perm|by case_match..]. }
  eexists _, _, _. split; [done|]. split_and!; apply joined_perm; try done;
    intros key h Hk; destruct (Hpt key h Hk) as (t & E & ? & ? & ?); by exists t.
Qed.
End export.
