(* ===== verification/RedRuns.v ===== *)
(** * RedRuns: runs of the RED-metrics connector

    What the calls of the connector do under its lock, as a step relation: the
    aggregation of one span and exports, in any order, so that calls of traces, ticks of
    the entry-url cache and exports may be interleaved in any way.  The invariant of
    the reachable states and what it gives: the counts, the exports and the bounds of
    the tracking. *)

From stdpp Require Import fin_sets.
From S2P Require Import Prelude GoStrings Float64 PData Cache FillProc EntryUrl SqlPrune RedParsers Histogram LruCache RedConnector RedSeries RedExport.

Section runs.
Context `{PD : PData} `{NE : NodeEnv} `{SP : SqlParser} `{GP : GoPlatform} `{VML : VmMathLaws}
  `{LL : !SimpleLRULaws (L : SimpleLRU string AMap)}.
Implicit Types (p : connectorImp) (r : ResourceSpan).

(** ** The spans a call measures *)

Definition plain_spans_of (rss : ResourceSpans) : list ResourceSpan :=
  let '(pid, serviceName, containerId) := GetResourceAttribute rss in
  if bool_decide (pid = "") || bool_decide (serviceName = "") then []
  else NewResourceSpan 0 pid containerId serviceName "" <$> spansOf rss.

Definition measured (gorder : gmap TraceID (list Span) → list TraceID) (now : Z) (td : Traces) (p : connectorImp)
    : option (list ResourceSpan * option EntryUrlCache) :=
  match ci_entryUrlCache p with
  | Some cache => '(rs, cache) ← GetMatchedResourceSpans gorder now td cache; Some (rs, Some cache)
  | None => Some (td ≫= plain_spans_of, None)
  end.

Definition timed_out (now : Z) (p : connectorImp) : option (list ResourceSpan * option EntryUrlCache) :=
  cache ← ci_entryUrlCache p;
  cache ← CleanExpireBuckets cache;
  let '(rs, cache) := CleanUnMatchedSpans now cache in
  Some (SetEntryUrl "_unknown_" <$> rs, Some cache).

Lemma set_entryUrlCache_id p : set_entryUrlCache (ci_entryUrlCache p) p = p.
Proof. by destruct p. Qed.

Lemma aggregate_plain rss p : aggregate_resource rss p = run_all aggregate_matched (plain_spans_of rss) p.
Proof.
  unfold aggregate_resource, plain_spans_of. destruct (GetResourceAttribute rss) as [[pid svc] cid].
  destruct (_ || _); [done|]. by rewrite run_all_fmap.
Qed.

Lemma red_ConsumeTraces_measured gorder now td p :
  red_ConsumeTraces gorder now td p =
    '(rs, c) ← measured gorder now td p; run_all aggregate_matched rs (set_entryUrlCache c p).
Proof.
  unfold red_ConsumeTraces, measured. destruct (ci_entryUrlCache p) as [cache|] eqn:E.
  - by destruct (GetMatchedResourceSpans gorder now td cache) as [[rs cache']|].
  - simpl. rewrite <- E, set_entryUrlCache_id. rewrite run_all_bind.
    apply run_all_ext. intros rss q. apply aggregate_plain.
Qed.

Lemma cleanUnMatcheOnTick_timed_out now p :
  cleanUnMatcheOnTick now p =
    '(rs, c) ← timed_out now p; run_all aggregate_matched rs (set_entryUrlCache c p).
Proof.
  unfold cleanUnMatcheOnTick, timed_out. destruct (ci_entryUrlCache p) as [cache|]; [simpl|done].
  destruct (CleanExpireBuckets cache) as [cache1|]; [simpl|done].
  by rewrite run_all_fmap.
Qed.

(** ** Steps *)

(** The labels of the external call of a span, if it is one, hold no NUL. *)
Definition external_free (cfg : RedConfig) (r : ResourceSpan) : Prop :=
  ∀ a, external_args (NewHttpParser (rc_HttpParser cfg)) (rsp_Pid r) (rsp_ContainerId r) (rsp_ServiceName r)
         (rsp_EntryUrl r) (rsp_Span r) = Some a → nul_free a.

(** What the connector's lock protects: the aggregation of one span, and the export.
    The cache of entry urls has a lock of its own, and is changed between any two of
    these steps, to whatever it becomes. *)
Inductive conn_step : connectorImp → connectorImp → Prop :=
  | step_aggregate r p p' :
      external_free (ci_config p) r → aggregate_matched r p = Some p' → conn_step p p'
  | step_cache c p : conn_step p (set_entryUrlCache c p)
  | step_export border horder now p ms p' :
      exportMetrics border horder now p = Some (ms, p') → conn_step p p'.

Definition conn_reachable (now : Z) (cfg : RedConfig) (p : connectorImp) : Prop :=
  ∃ p0, newConnector now cfg = inl p0 ∧ rtc conn_step p0 p.

(** The services and operations tracked besides the overflow ones. *)
Definition tracked_ok (cfg : RedConfig) (m : gmap string (gset string)) : Prop :=
  Z.of_nat (size (delete overflowServiceName m)) <= Z.max 0 (rc_MaxServicesToTrack cfg + 1) ∧
  ∀ svc ops, m !! svc = Some ops →
    Z.of_nat (size (ops ∖ {[overflowOperation]})) <= Z.max 0 (rc_MaxOperationsToTrackPerService cfg + 1).

Definition configured (cfg : RedConfig) (p : connectorImp) : Prop :=
  ci_config p = cfg ∧ ci_httpParser p = NewHttpParser (rc_HttpParser cfg) ∧
  ci_maxNumberOfServicesToTrack p = rc_MaxServicesToTrack cfg ∧
  ci_maxNumberOfOperationsToTrackPerService p = rc_MaxOperationsToTrackPerService cfg ∧
  ci_metricsType p = GetMetricsType (rc_MetricsType cfg).

Definition conn_inv (cfg : RedConfig) (p : connectorImp) : Prop :=
  conn_ok p ∧ ext_free p ∧ configured cfg p ∧ tracked_ok cfg (ci_serviceToOperations p).

(** ** The invariant *)

Lemma overflow_insert {A} (mx : Z) (m : gmap string A) ov s x :
  Z.of_nat (size (delete ov m)) <= Z.max 0 (mx + 1) →
  Z.of_nat (size (delete ov (<[(if Z.of_nat (size m) >? mx then ov else s) := x]> m))) <= Z.max 0 (mx + 1).
Proof.
  intros Hm. destruct (Z.gtb_spec (Z.of_nat (size m)) mx) as [?|Hle]; [by rewrite delete_insert_eq|].
  destruct (decide (s = ov)) as [->|Hne]; [by rewrite delete_insert_eq|].
  rewrite delete_insert_ne by done. rewrite map_size_insert.
  pose proof (map_size_delete ov m) as Hd. destruct (delete ov m !! s), (m !! ov); simpl in *; lia.
Qed.

Lemma overflow_add (mx : Z) (ops : gset string) ov n :
  Z.of_nat (size (ops ∖ {[ov]})) <= Z.max 0 (mx + 1) →
  Z.of_nat (size (({[if Z.of_nat (size ops) >? mx then ov else n]} ∪ ops) ∖ {[ov]})) <= Z.max 0 (mx + 1).
Proof.
  intros Ho. destruct (Z.gtb_spec (Z.of_nat (size ops)) mx) as [?|Hle].
  - assert (size (({[ov]} ∪ ops) ∖ {[ov]}) <= size (ops ∖ {[ov]}))%nat by (apply subseteq_size; set_solver). lia.
  - assert (size (({[n]} ∪ ops) ∖ {[ov]}) <= size ({[n]} ∪ ops : gset string))%nat as H1
      by (apply subseteq_size; set_solver).
    rewrite (size_union_alt {[n]} ops), size_singleton in H1.
    assert (size (ops ∖ {[n]}) <= size ops)%nat as H2 by (apply subseteq_size; set_solver). lia.
Qed.

Lemma track_tracked cfg svc span p :
  configured cfg p → tracked_ok cfg (ci_serviceToOperations p) →
  tracked_ok cfg (ci_serviceToOperations (track svc span p)).
Proof.
  intros (_ & _ & E1 & E2 & _) [Hs Ho]. unfold track. simpl. unfold tracked_service. rewrite E1, E2.
  split; [by apply overflow_insert|].
  set (s := if _ >? _ then overflowServiceName else svc). intros svc' ops Hl.
  destruct (decide (svc' = s)) as [->|Hne]; simplify_map_eq; [|by eapply Ho].
  apply overflow_add. destruct (ci_serviceToOperations p !! s) as [ops|] eqn:E; cbn [default from_option id]; [by eapply Ho|].
  assert (∅ ∖ {[overflowOperation]} = (∅ : gset string)) as -> by set_solver. rewrite size_empty. lia.
Qed.

Lemma configured_env cfg p p' : same_env p p' → configured cfg p → configured cfg p'.
Proof. unfold same_env, configured. intuition congruence. Qed.

Lemma set_entryUrlCache_inv cfg c p : conn_inv cfg p → conn_inv cfg (set_entryUrlCache c p).
Proof.
  intros ((Hkv & Hm & Hf) & Hx & Hc & Ht). split_and!; [|done..]. split_and!; [done..|].
  intros k. specialize (Hf k). by destruct k.
Qed.

(** The effect of one span, in every state of the invariant. *)
Definition matched_args (k : MetricKind) (r : ResourceSpan) (p : connectorImp) : option KeyArgs :=
  args_of k (rsp_Pid r) (rsp_ContainerId r) (rsp_ServiceName r) (rsp_EntryUrl r) (rsp_Span r) p.

Lemma external_args_matched cfg r p a :
  configured cfg p → matched_args KExternal r p = Some a → external_free cfg r → nul_free a.
Proof.
  intros (_ & Eh & _) E Hr. unfold matched_args, args_of in E. case_match; [|done]. rewrite Eh in E. by apply Hr.
Qed.

Lemma aggregate_inv cfg r p :
  conn_inv cfg p → external_free cfg r →
  ∃ p', aggregate_matched r p = Some p' ∧ conn_inv cfg p' ∧ same_env p p' ∧
    (∀ k key, fam_count (family_of k p') key = bump (matched_args k r p) key (fam_count (family_of k p) key)) ∧
    (∀ k key, is_Some (mf_histograms (family_of k p') !! key) ↔
       is_Some (mf_histograms (family_of k p) !! key) ∨ key_string <$> matched_args k r p = Some key).
Proof.
  intros (Hok & Hx & Hc & Ht) Hr.
  destruct (aggregate_ok (rsp_Pid r) (rsp_ContainerId r) (rsp_ServiceName r) (rsp_EntryUrl r) (rsp_Span r) p Hok)
    as (p' & E & Hok' & He & Hcount & Hin & Hs).
  exists p'. split; [exact E|]. split; [|done]. split_and!; [done| |by eapply configured_env|].
  - intros key Hk. apply (Hin KExternal) in Hk as [Hk|Hk]; [by apply Hx|].
    apply fmap_Some in Hk as (a & Ha & ->). exists a.
    split; [by eapply args_of_family|]. split; [|done]. by eapply external_args_matched.
  - rewrite Hs. case_match; [by apply track_tracked|done].
Qed.

Lemma aggregate_all_inv cfg rs p :
  conn_inv cfg p → Forall (external_free cfg) rs →
  ∃ p', run_all aggregate_matched rs p = Some p' ∧ conn_inv cfg p' ∧ same_env p p'.
Proof.
  intros Hp Hall. apply (run_all_rep (λ _ q, conn_inv cfg q ∧ same_env p q)) with (P := external_free cfg); [|done|done].
  intros _ r q [Hq He] Hr. destruct (aggregate_inv cfg r q Hq Hr) as (q' & E & Hq' & He' & _).
  exists q'. split; [done|]. split; [done|]. by etrans.
Qed.

Lemma conn_step_inv cfg p p' : conn_inv cfg p → conn_step p p' → conn_inv cfg p'.
Proof.
  intros Hp Hs. assert (ci_config p = cfg) as Ec by apply Hp.
  destruct Hs as [r p p' Hr Es|c p|border horder now p ms p' Es].
  - rewrite Ec in Hr. destruct (aggregate_inv cfg r p Hp Hr) as (q & Eq & Hq & _). congruence.
  - by apply set_entryUrlCache_inv.
  - destruct Hp as (Hok & Hx & Hc & Ht).
    destruct (exportMetrics_ok border horder now p Hok Hx) as (q & Eq & Hok' & Hx' & He & Et & _).
    assert (q = p') as <- by congruence. split_and!; [done|done|by eapply configured_env|by rewrite Et].
Qed.

(** The calls of the connector, alone or interleaved, are runs of these steps. *)
Lemma aggregate_all_steps cfg rs p p' :
  conn_inv cfg p → Forall (external_free cfg) rs → run_all aggregate_matched rs p = Some p' → rtc conn_step p p'.
Proof.
  intros Hp Hall. revert p Hp. induction Hall as [|r rs Hr _ IH]; intros p Hp; cbn [run_all]; [by intros [= <-]|].
  destruct (aggregate_inv cfg r p Hp Hr) as (q & E & Hq & _). rewrite E. cbn [mbind option_bind]. intros Hrun.
  eapply rtc_l; [|exact (IH q Hq Hrun)]. apply (step_aggregate r); [|exact E]. assert (ci_config p = cfg) as -> by apply Hp. done.
Qed.

Lemma consume_steps cfg gorder now td p p' rs c :
  conn_inv cfg p → measured gorder now td p = Some (rs, c) → Forall (external_free cfg) rs →
  red_ConsumeTraces gorder now td p = Some p' → rtc conn_step p p'.
Proof.
  intros Hp Hm Hall. rewrite red_ConsumeTraces_measured, Hm. cbn [mbind option_bind]. intros Hrun.
  eapply rtc_l; [apply (step_cache c)|]. eapply aggregate_all_steps; [by apply set_entryUrlCache_inv|done|done].
Qed.

Lemma tick_steps cfg now p p' rs c :
  conn_inv cfg p → timed_out now p = Some (rs, c) → Forall (external_free cfg) rs →
  cleanUnMatcheOnTick now p = Some p' → rtc conn_step p p'.
Proof.
  intros Hp Hm Hall. rewrite cleanUnMatcheOnTick_timed_out, Hm. cbn [mbind option_bind]. intros Hrun.
  eapply rtc_l; [apply (step_cache c)|]. eapply aggregate_all_steps; [by apply set_entryUrlCache_inv|done|done].
Qed.

Lemma newConnector_inv now cfg p : newConnector now cfg = inl p → conn_inv cfg p.
Proof.
  unfold newConnector, newFamily.
  destruct (Z.leb_spec (rc_DimensionsCacheSize cfg) 0) as [|Hpos]; [done|].
  destruct (NewCache_view (rc_DimensionsCacheSize cfg) Hpos) as (c & -> & Hv). simpl.
  assert (∀ k q, fam_ok k q {| mf_histograms := ∅; mf_keyToDimensions := c |}) as Hf.
  { intros k q. split; simpl; [rewrite Hv; intros key d Hk|intros key h Hk]; by rewrite lookup_empty in Hk. }
  intros E. assert (ci_keyValue p = NewReusedKeyValue 100 ∧ configured cfg p ∧ ci_serviceToOperations p = ∅ ∧
    ∀ k, family_of k p = {| mf_histograms := ∅; mf_keyToDimensions := c |}) as (Ek & Hc & Es & Efam).
  { destruct (rc_ClientEntryUrlEnabled cfg); [destruct (NewEntryUrlCache _ _) as [u|]; [|done]|]; injection E as <-;
      (split_and!; [done..|by intros []]). }
  split_and!; [|intros key; rewrite (Efam KExternal : ci_externalCall p = _); simpl; rewrite lookup_empty; by intros []|done|].
  - split_and!; [exists []; rewrite Ek; by apply NewReusedKeyValue_rep|by rewrite Ek|]. intros k. by rewrite Efam.
  - rewrite Es. split; [rewrite delete_empty, map_size_empty; lia|]. intros svc ops Hk. by rewrite lookup_empty in Hk.
Qed.

Lemma reachable_inv now cfg p : conn_reachable now cfg p → conn_inv cfg p.
Proof.
  intros (p0 & E & Hr). apply newConnector_inv in E.
  revert E Hr. apply rtc_invariant. intros a b. apply conn_step_inv.
Qed.

(** ** The spans of one call *)

Lemma fam_count_u64 k p f key : fam_ok k p f → fam_count f key = u64 (fam_count f key).
Proof.
  intros [_ Hh]. unfold fam_count. destruct (mf_histograms f !! key) as [h|] eqn:E; simpl; [|done].
  destruct (Hh key h E) as [_ [n Hn]]. by rewrite (count_of_ok _ _ _ _ Hn), u64_idem.
Qed.

(** Whether a span is a sample of the series [key]. *)
Definition sample_of (k : MetricKind) (key : string) (p : connectorImp) (r : ResourceSpan) : bool :=
  bool_decide (key_string <$> matched_args k r p = Some key).

(** The connector with the service and the operation of a span tracked, if it is served. *)
Definition tracked_by (r : ResourceSpan) (p : connectorImp) : connectorImp :=
  if matched_args KServer r p is Some _ then track (rsp_ServiceName r) (rsp_Span r) p else p.

(** The labels the spans of a call are counted with in a family, in order: each with the
    services and operations that are tracked when it comes. *)
Fixpoint samples (k : MetricKind) (p : connectorImp) (rs : list ResourceSpan) : list KeyArgs :=
  match rs with
  | [] => []
  | r :: rs' => option_list (matched_args k r p) ++ samples k (tracked_by r p) rs'
  end.

(** The spans the server family is about: entry spans that took time - of those
    SkyWalking sends, the first of its segment. *)
Definition served (cfg : RedConfig) (r : ResourceSpan) : bool :=
  let span := rsp_Span r in
  rc_ServerEnabled cfg && (Span_StartTimestamp span <? Span_EndTimestamp span) &&
  match Span_Kind span with SpanKindServer | SpanKindConsumer => true | _ => false end &&
  match Map_Get AttributeSkywalkingSpanID (Span_Attributes span) with
  | Some id => Value_Int id =? 0
  | None => true
  end.

(** The labels of a served span: its own, but for the service, which may be the overflow one. *)
Definition server_sample (r : ResourceSpan) (a : KeyArgs) : Prop :=
  ∃ svc, (svc = rsp_ServiceName r ∨ svc = overflowServiceName) ∧
    a = ServerKey (rsp_Pid r) (rsp_ContainerId r) svc (Span_Name (rsp_Span r))
          (SpanID_IsEmpty (Span_ParentSpanID (rsp_Span r))) (isError (Span_Status (rsp_Span r))).

(** What the labels depend on. *)
Definition same_args (p q : connectorImp) : Prop :=
  ci_config q = ci_config p ∧ ci_httpParser q = ci_httpParser p ∧
  ci_maxNumberOfServicesToTrack q = ci_maxNumberOfServicesToTrack p ∧
  ci_maxNumberOfOperationsToTrackPerService q = ci_maxNumberOfOperationsToTrackPerService p ∧
  ci_serviceToOperations q = ci_serviceToOperations p.

Lemma matched_args_same k r p q : same_args p q → matched_args k r q = matched_args k r p.
Proof.
  intros (E1 & E2 & E3 & E4 & E5). unfold matched_args, args_of, server_args, tracked_service.
  by rewrite E1, E2, E3, E5.
Qed.

Lemma tracked_by_same r p q : same_args p q → same_args (tracked_by r p) (tracked_by r q).
Proof.
  intros Hs. unfold tracked_by. rewrite (matched_args_same _ _ _ _ Hs). case_match; [|done].
  destruct Hs as (E1 & E2 & E3 & E4 & E5). unfold same_args, track, tracked_service. simpl.
  by rewrite E1, E2, E3, E4, E5.
Qed.

Lemma samples_same k rs p q : same_args p q → samples k q rs = samples k p rs.
Proof.
  revert p q. induction rs as [|r rs IH]; intros p q Hs; [done|]. cbn [samples].
  by rewrite (matched_args_same _ _ _ _ Hs), (IH _ _ (tracked_by_same r _ _ Hs)).
Qed.

Lemma matched_args_server r p :
  match matched_args KServer r p with
  | Some a => served (ci_config p) r = true ∧ server_sample r a
  | None => served (ci_config p) r = false
  end.
Proof.
  unfold matched_args, args_of, served, server_args. simpl enabled.
  destruct (rc_ServerEnabled (ci_config p)), (_ <? _); cbn [andb]; try done.
  assert (SpanKind_eqb (Span_Kind (rsp_Span r)) SpanKindServer || SpanKind_eqb (Span_Kind (rsp_Span r)) SpanKindConsumer =
          match Span_Kind (rsp_Span r) with SpanKindServer | SpanKindConsumer => true | _ => false end) as ->
    by (by destruct (Span_Kind (rsp_Span r))).
  destruct (match Span_Kind (rsp_Span r) with SpanKindServer | SpanKindConsumer => true | _ => false end); [|done].
  cbn [andb]. destruct (Map_Get _ _) as [id|]; [destruct (Value_Int id =? 0); [|done]|];
    (split; [done|]; eexists; split; [|done]; unfold tracked_service; case_match; auto).
Qed.

Lemma samples_server rs p :
  Forall2 server_sample (filter (λ r, served (ci_config p) r = true) rs) (samples KServer p rs).
Proof.
  revert p. induction rs as [|r rs IH]; intros p; [constructor|]. cbn [samples]. rewrite filter_cons.
  pose proof (matched_args_server r p) as Hm. specialize (IH (tracked_by r p)).
  assert (ci_config (tracked_by r p) = ci_config p) as Ec by (unfold tracked_by; by case_match). rewrite Ec in IH.
  destruct (matched_args KServer r p) as [a|].
  - destruct Hm as [-> Ha]. rewrite decide_True by done. by constructor.
  - rewrite Hm, decide_False by done. done.
Qed.

(** Without an overflow the labels do not depend on what is tracked. *)
Definition fits (p : connectorImp) : Prop :=
  Z.of_nat (size (ci_serviceToOperations p)) <= ci_maxNumberOfServicesToTrack p.

Definition tracked_all (rs : list ResourceSpan) (p : connectorImp) : connectorImp := foldS tracked_by rs p.

Lemma tracked_by_fits r p : fits (tracked_by r p) → fits p.
Proof.
  unfold tracked_by, fits. case_match; [|done]. unfold track. cbn [ci_serviceToOperations set_serviceToOperations ci_maxNumberOfServicesToTrack].
  rewrite map_size_insert. destruct (ci_serviceToOperations p !! _); cbn; lia.
Qed.

Lemma tracked_all_fits rs p : fits (tracked_all rs p) → fits p.
Proof.
  revert p. induction rs as [|r rs IH]; intros p; [done|]. unfold tracked_all. cbn [foldS].
  intros Hf. by eapply tracked_by_fits, IH.
Qed.

Lemma matched_args_fits k r r' p :
  k ≠ KServer ∨ fits (tracked_by r' p) → matched_args k r (tracked_by r' p) = matched_args k r p.
Proof.
  intros Hk. assert (ci_config (tracked_by r' p) = ci_config p ∧ ci_httpParser (tracked_by r' p) = ci_httpParser p ∧
    ci_maxNumberOfServicesToTrack (tracked_by r' p) = ci_maxNumberOfServicesToTrack p) as (E1 & E2 & E3)
    by (unfold tracked_by; by case_match).
  unfold matched_args, args_of. rewrite E1, E2. destruct Hk as [Hk|Hk]; [by destruct k|].
  pose proof (tracked_by_fits r' p Hk) as Hp. unfold server_args, tracked_service, fits in *. rewrite E3 in *.
  rewrite !Z.gtb_ltb. destruct (Z.ltb_spec (ci_maxNumberOfServicesToTrack p) (Z.of_nat (size (ci_serviceToOperations (tracked_by r' p)))));
    [lia|]. by destruct (Z.ltb_spec (ci_maxNumberOfServicesToTrack p) (Z.of_nat (size (ci_serviceToOperations p)))); [lia|].
Qed.

Definition labelled (key : string) (a : KeyArgs) : bool := bool_decide (key_string a = key).

Lemma samples_fits k rs p key :
  k ≠ KServer ∨ fits (tracked_all rs p) → countb (labelled key) (samples k p rs) = countb (sample_of k key p) rs.
Proof.
  revert p. induction rs as [|r rs IH]; intros p Hk; [done|]. cbn [samples]. rewrite countb_app. cbn [countb].
  assert (k ≠ KServer ∨ fits (tracked_by r p)) as Hr
    by (destruct Hk as [Hk|Hk]; [by left|right; by apply (tracked_all_fits rs)]).
  rewrite IH by exact Hk. f_equal.
  - unfold sample_of, labelled. destruct (matched_args k r p) as [a|]; cbn; [|done].
    rewrite (bool_decide_ext (Some (key_string a) = Some key) (key_string a = key)) by naive_solver.
    by case_bool_decide.
  - apply countb_ext. intros r'. unfold sample_of. by rewrite matched_args_fits.
Qed.

Lemma bump_sample args key n :
  bump args key (u64 n) = u64 (n + countb (labelled key) (option_list args)).
Proof.
  unfold bump, labelled. destruct args as [a|]; simpl; [|by rewrite Z.add_0_r].
  destruct (decide (key = key_string a)) as [->|Hne].
  - by rewrite bool_decide_eq_true_2, u64_add_l.
  - rewrite bool_decide_eq_false_2 by congruence. by rewrite Z.add_0_r.
Qed.

(** The run of a call: [p] follows what is tracked, [q] is the connector. *)
Lemma aggregate_all_samples rs p q :
  conn_ok q → same_args p q →
  ∃ q', run_all aggregate_matched rs q = Some q' ∧ conn_ok q' ∧ same_args (tracked_all rs p) q' ∧
    ∀ k key, fam_count (family_of k q') key =
      u64 (fam_count (family_of k q) key + countb (labelled key) (samples k p rs)).
Proof.
  revert p q. induction rs as [|r rs IH]; intros p q Hq Hs.
  - exists q. split_and!; [done..|]. intros k key. simpl. rewrite Z.add_0_r.
    destruct Hq as (_ & _ & Hf). by eapply fam_count_u64.
  - destruct (aggregate_ok (rsp_Pid r) (rsp_ContainerId r) (rsp_ServiceName r) (rsp_EntryUrl r) (rsp_Span r) q Hq)
      as (q1 & E1 & Hq1 & He1 & Hc1 & _ & Ht1).
    assert (same_args (tracked_by r p) q1) as Hs1.
    { pose proof (tracked_by_same r p q Hs) as Hs'. unfold same_args in *. fold (matched_args KServer r q) in Ht1.
      change (ci_serviceToOperations q1 = ci_serviceToOperations (tracked_by r q)) in Ht1.
      assert (same_env q (tracked_by r q)) as He by (unfold tracked_by; by case_match).
      unfold same_env in *. intuition congruence. }
    destruct (IH _ _ Hq1 Hs1) as (q' & E' & Hq' & Hs' & Hc'). exists q'. cbn [run_all]. change (aggregate_matched r q = Some q1) in E1. rewrite E1.
    split_and!; [exact E'|done|done|]. intros k key. rewrite Hc', Hc1. fold (matched_args k r q).
    rewrite (matched_args_same _ _ _ _ Hs), (fam_count_u64 k q (family_of k q) key) by apply Hq.
    rewrite bump_sample, u64_add_l. cbn [samples]. rewrite countb_app, u64_add_l. f_equal. lia.
Qed.

Lemma aggregate_all_counts rs p :
  conn_ok p →
  ∃ p', run_all aggregate_matched rs p = Some p' ∧ conn_ok p' ∧
    ∀ k key, k ≠ KServer →
      fam_count (family_of k p') key = u64 (fam_count (family_of k p) key + countb (sample_of k key p) rs).
Proof.
  intros Hp. destruct (aggregate_all_samples rs p p Hp) as (p' & E & Hp' & _ & Hc); [done|].
  exists p'. split_and!; [done..|]. intros k key Hk. by rewrite Hc, samples_fits by (by left).
Qed.

(** ** The connector in its reachable states *)

(** C9: Every span is measured once.  In every reachable state the aggregation
    of a span succeeds: in each of the four families the one series of its labels
    gains one sample, every other series keeps its count, and that series carries
    exactly those labels as its dimensions, whatever was counted, exported and
    evicted before. *)
Theorem aggregate_counts now cfg p r :
  conn_reachable now cfg p →
  ∃ p', aggregate_matched r p = Some p' ∧
    (∀ k key, fam_count (family_of k p') key = bump (matched_args k r p) key (fam_count (family_of k p) key)) ∧
    (∀ k a, matched_args k r p = Some a → nul_free a →
       view (mf_keyToDimensions (family_of k p')) !! key_string a = Some (dims_of (labels_of a) Map_New)).
Proof.
  intros Hr. destruct (reachable_inv now cfg p Hr) as (Hok & _).
  destruct (aggregate_ok (rsp_Pid r) (rsp_ContainerId r) (rsp_ServiceName r) (rsp_EntryUrl r) (rsp_Span r) p Hok)
    as (p' & E & Hok' & _ & Hc & Hin & _).
  exists p'. split; [exact E|]. split; [exact Hc|]. intros k a Ea Hnul. unfold matched_args in Ea.
  destruct (Hin k (key_string a)) as [_ [h Hh]]; [right; by rewrite Ea|].
  destruct Hok' as (_ & _ & Hf). destruct (Hf k) as [Hd Hs]. destruct (Hs _ _ Hh) as [[d Hk] _].
  destruct (Hd _ _ Hk) as (b & Hb & Ekey & ->).
  rewrite Hk, (key_string_inj a b); [done| |done|done]. by rewrite Hb, (args_of_family _ _ _ _ _ _ _ _ Ea).
Qed.

(** C11: [ConsumeTraces] measures each span it is due to measure once: in every
    reachable state it succeeds on the spans that are measured now - all of them, or
    those matched to an entry url - and in each of the four families the count of every
    series grows, modulo 2^64, by the number of those spans that are counted with its
    labels.  The labels of a database, external or message call are those of the span
    alone.  Every entry span is counted once in the server family, with its own labels
    but for the service, which is its own or, where too many are tracked, the overflow
    one; as long as no more services are tracked than the configuration allows it is
    its own. *)
Theorem consume_counts now cfg p gorder now' td rs c :
  conn_reachable now cfg p → measured gorder now' td p = Some (rs, c) →
  ∃ p', red_ConsumeTraces gorder now' td p = Some p' ∧
    (∀ k key, fam_count (family_of k p') key =
       u64 (fam_count (family_of k p) key + countb (labelled key) (samples k p rs))) ∧
    Forall2 server_sample (filter (λ r, served cfg r = true) rs) (samples KServer p rs) ∧
    ∀ k key, k ≠ KServer ∨ Z.of_nat (size (ci_serviceToOperations p')) <= rc_MaxServicesToTrack cfg →
      fam_count (family_of k p') key = u64 (fam_count (family_of k p) key + countb (sample_of k key p) rs).
Proof.
  intros Hr Hm. pose proof (reachable_inv now cfg p Hr) as Hp. pose proof (set_entryUrlCache_inv cfg c p Hp) as (Hok & _).
  destruct (aggregate_all_samples rs p (set_entryUrlCache c p) Hok) as (p' & E & _ & Hs & Hc); [done|].
  destruct Hp as (_ & _ & (Ecfg & _ & Emax & _) & _).
  assert (∀ k, family_of k (set_entryUrlCache c p) = family_of k p) as Ef by (by intros []). setoid_rewrite Ef in Hc.
  exists p'. rewrite red_ConsumeTraces_measured, Hm. split_and!; [exact E|exact Hc| |].
  - rewrite <- Ecfg. apply samples_server.
  - intros k key Hk. rewrite Hc, samples_fits; [done|]. destruct Hk as [Hk|Hk]; [by left|right].
    destruct Hs as (_ & _ & _ & _ & Es). unfold fits. rewrite <- Es.
    assert (ci_maxNumberOfServicesToTrack (tracked_all rs p) = rc_MaxServicesToTrack cfg) as ->; [|done].
    rewrite <- Emax. apply (foldS_inv (λ t, ci_maxNumberOfServicesToTrack t = ci_maxNumberOfServicesToTrack p)); [|done].
    intros r t _ <-. unfold tracked_by. by case_match.
Qed.

(** What an export says of a family [f]: nothing of one without series.  A Prometheus
    family is one histogram with one point per series, that holds the count and the
    dimensions of the series.  A VictoriaMetrics family is three gauges; they hold, for
    each series, a point per bucket that was hit, and one with the count and one with
    the sum once there are samples. *)
Definition family_reported (now : Z) (p : connectorImp) (k : MetricKind) (ms : list Metric) : Prop :=
  let f := family_of k p in
  let series := map_to_list (mf_histograms f) in
  if decide (mf_histograms f = ∅) then ms = []
  else
    match ci_metricsType p with
    | MetricsProm =>
        ∃ points, ms = [MetricHistogram (prefix_of k) "ns" points] ∧
          length points = size (mf_histograms f) ∧
          ∀ key, is_Some (mf_histograms f !! key) →
            ∃ pt, pt ∈ points ∧ hp_Count pt = fam_count f key ∧
                  view (mf_keyToDimensions f) !! key = Some (hp_Attributes pt)
    | MetricsVm =>
        ∃ bs cs ss, ms = [MetricGauge (prefix_of k +:+ "_bucket") bs; MetricGauge (prefix_of k +:+ "_count") cs;
                          MetricGauge (prefix_of k +:+ "_sum") ss] ∧
          bs ≡ₚ series ≫= series_buckets now f ∧ cs ≡ₚ series ≫= series_count now f ∧
          ss ≡ₚ series ≫= series_sum now f ∧
          ∀ key, is_Some (mf_histograms f !! key) → is_Some (view (mf_keyToDimensions f) !! key)
    end.

Lemma family_metrics_reported k now p border horder :
  fam_ok k p (family_of k p) → (∀ buckets, range_order buckets (border buckets)) → (∀ hs, range_order hs (horder hs)) →
  family_reported now p k (family_metrics border horder now p (family_of k p) (prefix_of k)).
Proof.
  intros Hf Hb Hh. unfold family_reported. case_decide as He.
  { unfold family_metrics. by rewrite He, map_size_empty. }
  destruct (ci_metricsType p) eqn:Et.
  - destruct (family_points border horder k now p (family_of k p) (prefix_of k) Hf Et He (Hh _))
      as (points & Em & Hl & Hpts).
    exists points. split_and!; [done..|]. intros key [h Hk]. destruct (Hpts key h Hk) as (pt & Hin & Hc & Hd).
    exists pt. split_and!; [done| |done]. rewrite Hc. unfold fam_count. by rewrite Hk.
  - destruct (vm_family_points border horder k now p (family_of k p) (prefix_of k) Hf Et He Hb (Hh _))
      as (bs & cs & ss & Em & ? & ? & ?).
    exists bs, cs, ss. split_and!; [done..|]. intros key [h Hk]. by apply (proj2 Hf key h).
Qed.

(** C10: An export never fails and leaves no series out: in every reachable state it
    succeeds with the metrics of the four families - server, database, external and
    message calls -, each of them reported with the counts and the cached dimensions of
    its series, one point per series for Prometheus and a point per bucket that was hit
    with a count and a sum for VictoriaMetrics, in whatever order Go ranges over the
    maps.  A series outlives the export exactly when its dimensions stay cached - but for
    the external ones, none of which does. *)
Theorem export_reports now cfg p border horder now' :
  conn_reachable now cfg p →
  ∃ p' (ms : MetricKind → list Metric),
    exportMetrics border horder now' p = Some (ms KServer ++ ms KDb ++ ms KExternal ++ ms KMq, p') ∧
    ((∀ buckets, range_order buckets (border buckets)) → (∀ hs, range_order hs (horder hs)) →
     ∀ k, family_reported now' p k (ms k)) ∧
    (∀ k key, mf_histograms (family_of k p') !! key =
       if decide (k ≠ KExternal ∧ is_Some (view (mf_keyToDimensions (family_of k p')) !! key))
       then mf_histograms (family_of k p) !! key else None).
Proof.
  intros Hr. destruct (reachable_inv now cfg p Hr) as (Hok & Hx & _).
  destruct (exportMetrics_ok border horder now' p Hok Hx) as (p' & E & _ & _ & _ & _ & Hk & Hext).
  exists p', (λ k, family_metrics border horder now' p (family_of k p) (prefix_of k)). split_and!.
  - rewrite E. unfold metrics_of. simpl. by rewrite app_nil_r.
  - intros Hb Hh k. apply family_metrics_reported; [apply Hok|done..].
  - intros k key. case_decide as Hc.
    + destruct Hc as [Hne Hin]. rewrite Hk by done. unfold kept.
      destruct (mf_histograms (family_of k p) !! key) as [h|] eqn:Eh.
      * by apply map_lookup_filter_Some.
      * apply map_lookup_filter_None. by left.
    + destruct (decide (k = KExternal)) as [->|Hne]; [simpl; by rewrite Hext, lookup_empty|].
      rewrite Hk by done. apply map_lookup_filter_None. right. intros h _ Hin. simpl in Hin. tauto.
Qed.

Lemma delete_size {A} (m : gmap string A) k : (size m <= S (size (delete k m)))%nat.
Proof. rewrite map_size_delete. destruct (m !! k); simpl; lia. Qed.

(** The tracking is bounded: in every reachable state the connector tracks
    at most [max_services_to_track] + 2 services, the overflow service included,
    and at most [max_operations_to_track_per_service] + 2 operations of each. *)
Theorem tracked_bounded now cfg p :
  conn_reachable now cfg p →
  Z.of_nat (size (ci_serviceToOperations p)) <= Z.max 0 (rc_MaxServicesToTrack cfg + 1) + 1 ∧
  ∀ svc ops, ci_serviceToOperations p !! svc = Some ops →
    Z.of_nat (size ops) <= Z.max 0 (rc_MaxOperationsToTrackPerService cfg + 1) + 1.
Proof.
  intros Hr. destruct (reachable_inv now cfg p Hr) as (_ & _ & _ & Hs & Ho). split.
  - pose proof (delete_size (ci_serviceToOperations p) overflowServiceName). lia.
  - intros svc ops E. specialize (Ho svc ops E).
    assert (size ops <= size ({[overflowOperation]} ∪ ops))%nat as H1 by (apply subseteq_size; set_solver).
    rewrite (size_union_alt {[overflowOperation]} ops), size_singleton in H1. lia.
Qed.
End runs.

(** ** A run *)

Import RefPData RefEnv RefSql AMD64 RefVm RefLRU.

Definition ex_red_config : RedConfig := {|
  rc_ServerEnabled := true; rc_ExternalEnabled := true; rc_DbEnabled := true;
  rc_MqEnabled := true; rc_ClientEntryUrlEnabled := false; rc_CacheEntryUrlTime := 0;
  rc_UnMatchUrlExpireTime := 60 * 1000000000; rc_DimensionsCacheSize := 1000;
  rc_MetricsFlushInterval := 60 * 1000000000; rc_MaxServicesToTrack := 256;
  rc_MaxOperationsToTrackPerService := 2048; rc_HttpParser := ""; rc_MetricsType := "prom";
  rc_LatencyHistogramBuckets := None;
|}.

Definition keys_of {V} (m : gmap string V) : list string := (map_to_list m).*1.

Definition ex_rsp : ResourceSpan := NewResourceSpan 0 "7" "" "svc" "" ex_exit.

Definition ex_external : KeyArgs := ExternalKey "7" "" "svc" "" "GET" "" "unknown" false.

Lemma ex_exit_measured p : ci_entryUrlCache p = None → measured keys_of 100 ex_exit_td p = Some ([ex_rsp], None).
Proof. intros E. unfold measured. by rewrite E. Qed.

Lemma ex_rsp_free : external_free ex_red_config ex_rsp.
Proof.
  intros a E. assert (a = ex_external) as -> by (vm_compute in E; injection E as <-; reflexivity).
  apply (bool_decide_unpack _). by vm_compute.
Qed.

Lemma ex_start : ∃ p, newConnector 1000 ex_red_config = inl p ∧ ci_entryUrlCache p = None.
Proof. eexists. split; reflexivity. Qed.

(** A span was measured: its external series exists. *)
Lemma ex_run :
  ∃ p, conn_reachable 1000 ex_red_config p ∧ is_Some (mf_histograms (ci_externalCall p) !! key_string ex_external).
Proof.
  destruct ex_start as (p0 & E & Eu). pose proof (newConnector_inv _ _ _ E) as Hinv.
  destruct (aggregate_inv _ ex_rsp p0 Hinv ex_rsp_free) as (p1 & E1 & _ & _ & _ & Hin).
  exists p1. split.
  - exists p0. split; [done|]. apply rtc_once. apply (step_aggregate ex_rsp); [|done].
    assert (ci_config p0 = ex_red_config) as -> by apply Hinv. apply ex_rsp_free.
  - apply (Hin KExternal). right. destruct Hinv as (_ & _ & (Ec & Eh & _) & _).
    unfold matched_args, args_of. rewrite Ec, Eh. reflexivity.
Qed.

Lemma aggregate_counts_witness :
  ∃ p, conn_reachable 1000 ex_red_config p ∧ ∃ p', aggregate_matched ex_rsp p = Some p' ∧
    fam_count (ci_externalCall p') (key_string ex_external) =
      bump (matched_args KExternal ex_rsp p) (key_string ex_external)
        (fam_count (ci_externalCall p) (key_string ex_external)).
Proof.
  destruct ex_run as (p & Hr & _).
  destruct (aggregate_counts 1000 ex_red_config p ex_rsp Hr) as (p' & E & Hc & _).
  exists p. split; [done|]. exists p'. split; [done|]. apply (Hc KExternal).
Defined.

Lemma consume_counts_witness :
  ∃ p, conn_reachable 1000 ex_red_config p ∧ ∃ p', red_ConsumeTraces keys_of 100 ex_exit_td p = Some p' ∧
    fam_count (ci_externalCall p') (key_string ex_external) =
      u64 (fam_count (ci_externalCall p) (key_string ex_external) +
           countb (sample_of KExternal (key_string ex_external) p) [ex_rsp]).
Proof.
  destruct ex_start as (p & E & Eu).
  assert (conn_reachable 1000 ex_red_config p) as Hr by (exists p; split; [done|constructor]).
  destruct (consume_counts 1000 ex_red_config p keys_of 100 ex_exit_td [ex_rsp] None Hr (ex_exit_measured p Eu))
    as (p' & Ec & _ & _ & Hc).
  exists p. split; [done|]. exists p'. split; [done|]. apply (Hc KExternal). by left.
Defined.

Lemma export_reports_witness :
  ∃ p, conn_reachable 1000 ex_red_config p ∧ is_Some (mf_histograms (ci_externalCall p) !! key_string ex_external) ∧
    ∃ p' ms, exportMetrics keys_of keys_of 2000 p = Some (ms KServer ++ ms KDb ++ ms KExternal ++ ms KMq, p') ∧
          family_reported 2000 p KExternal (ms KExternal) ∧
          mf_histograms (ci_externalCall p') !! key_string ex_external = None.
Proof.
  destruct ex_run as (p & Hr & Hin).
  destruct (export_reports 1000 ex_red_config p keys_of keys_of 2000 Hr) as (p' & ms & E & Hrep & Hk).
  exists p. split; [done|]. split; [done|]. exists p', ms. split; [done|]. split.
  - apply Hrep; intros m; exact (range_order_canon m).
  - etrans; [exact (Hk KExternal (key_string ex_external))|]. done.
Defined.

Lemma tracked_bounded_witness :
  ∃ p, conn_reachable 1000 ex_red_config p ∧ Z.of_nat (size (ci_serviceToOperations p)) <= 258.
Proof.
  destruct ex_run as (p & Hr & _). exists p. split; [done|].
  by destruct (tracked_bounded 1000 ex_red_config p Hr) as [Hs _].
Defined.
