(* ===== verification/SwIds.v ===== *)
(** * SwIds: the identifiers of the SkyWalking receiver

    Models the conversions of SkyWalking trace and segment ids to the 16- and
    8-byte ids of the collector ([skywalkingproto_to_traces.go] from
    [swTraceIDToTraceID] on).  [uuid.Parse] is not part of the repository and is
    the class [UuidLib].  [None] is a run-time panic. *)

From S2P Require Import Prelude GoStrings PData.

Class UuidLib := {
  (** [uuid.Parse]: the 16 bytes, [None] for the error *)
  uuid_Parse : string → option string;
}.

(** [string] of a byte array. *)
Definition bytes_string (l : list Z) : string := of_byte_list ((λ b, ascii_of_N (Z.to_N b)) <$> l).

Definition NewTraceIDEmpty : TraceID := bytes_string (replicate 16 0).
Definition NewSpanIDEmpty : SpanID := bytes_string (replicate 8 0).

(** [hex.Decode]: what was decoded before the first error, and whether there was
    none. *)
Fixpoint hex_Decode (src : list ascii) : list Z * bool :=
  match src with
  | p :: q :: src' =>
      match hexDigit p, hexDigit q with
      | Some a, Some b => let '(l, ok) := hex_Decode src' in (a * 16 + b :: l, ok)
      | _, _ => ([], false)
      end
  | [_] => ([], false)
  | [] => ([], true)
  end.

(** [for i := i; i < i + n; i++ { uid[i] ^= byte(v); v >>= 8 }] *)
Fixpoint xor_le (uid : list Z) (i n : nat) (v : Z) : list Z :=
  match n with
  | O => uid
  | S n' => xor_le (<[i := Z.lxor (uid !!! i) (u8 v)]> uid) (S i) n' (Z.shiftr v 8)
  end.

(** [s[low:high]] *)
Definition substring_of (s : string) (low high : Z) : option string :=
  if (0 <=? low) && (low <=? high) && (high <=? slen s)
  then Some (of_byte_list (take (Z.to_nat (high - low)) (drop (Z.to_nat low) (byte_list s))))
  else None.

Definition dot : ascii := "."%char.

Definition zero_uuid : list Z := replicate 16 0.

Definition swStringToUUID (s : string) (extra : Z) : option (list Z) :=
  if slen s <? 32 then Some zero_uuid
  else
    let '(d, ok) := hex_Decode (take 32 (byte_list s)) in
    let uid := take 16 (d ++ zero_uuid) in
    if negb ok then Some uid
    else
      let uid := xor_le uid 0 4 extra in
      if slen s =? 32 then Some uid
      else
        let index1 := IndexByte s dot in
        let index2 := LastIndexByte s dot in
        if negb (index1 =? 32) || (index2 <? 0) then Some zero_uuid
        else
          m ← substring_of s (index1 + 1) index2;
          match Atoi m with
          | None => Some zero_uuid
          | Some mid =>
              l ← substring_of s (index2 + 1) (slen s);
              match Atoi l with
              | None => Some zero_uuid
              | Some last => Some (xor_le (xor_le uid 4 4 mid) 8 8 last)
              end
          end.

Definition uuidTo8Bytes (uuid : list Z) : list Z := zip_with Z.lxor (take 8 uuid) (drop 8 uuid).

Definition swTraceIDToTraceID `{UuidLib} (traceID : string) : option TraceID :=
  if slen traceID <=? 36 then Some (default NewTraceIDEmpty (uuid_Parse traceID))
  else bytes_string <$> swStringToUUID traceID 0.

Definition segmentIDToSpanID (segmentID : string) (spanID : Z) : option SpanID :=
  if slen segmentID <? 32 then Some NewSpanIDEmpty
  else (λ uuid, bytes_string (uuidTo8Bytes uuid)) <$> swStringToUUID segmentID spanID.

(** ** Byte arrays *)

Definition le_byte (v : Z) (i : nat) : Z := u8 (Z.shiftr v (8 * Z.of_nat i)).

Lemma u8_range v : 0 <= u8 v < 256.
Proof. unfold u8. by apply Z.mod_pos_bound. Qed.

Lemma byte_bits a : 0 <= a < 256 ↔ 0 <= a ∧ ∀ i, 8 <= i → Z.testbit a i = false.
Proof.
  split.
  - intros Ha. split; [lia|]. intros i Hi. rewrite <- (Z.mod_small a (2 ^ 8)) by done.
    by apply Z.mod_pow2_bits_high.
  - intros [H0 Hb]. split; [done|]. assert (a = a mod 2 ^ 8) as ->; [|by apply Z.mod_pos_bound].
    apply Z.bits_inj'. intros i Hi. destruct (Z.lt_ge_cases i 8).
    + by rewrite Z.mod_pow2_bits_low.
    + rewrite Z.mod_pow2_bits_high by lia. by apply Hb.
Qed.

Lemma lxor_byte a b : 0 <= a < 256 → 0 <= b < 256 → 0 <= Z.lxor a b < 256.
Proof.
  rewrite !byte_bits. intros [Ha Hab] [Hb Hbb]. split; [by apply Z.lxor_nonneg|].
  intros i Hi. by rewrite Z.lxor_spec, Hab, Hbb.
Qed.

Lemma lxor_cancel_r a b c : Z.lxor a c = Z.lxor b c → a = b.
Proof.
  intros E. apply (f_equal (λ z, Z.lxor z c)) in E. by rewrite !Z.lxor_assoc, Z.lxor_nilpotent, !Z.lxor_0_r in E.
Qed.

Lemma lxor_cancel_l c a b : Z.lxor c a = Z.lxor c b → a = b.
Proof. rewrite !(Z.lxor_comm c). apply lxor_cancel_r. Qed.

(** The bytes of an integer give it back. *)
Lemma le_bytes_u32 a b : (∀ i, (i < 4)%nat → le_byte a i = le_byte b i) → u32 a = u32 b.
Proof.
  intros Hb. unfold u32. change two32 with (2 ^ 32). apply Z.bits_inj'. intros i Hi.
  destruct (Z.lt_ge_cases i 32); [|by rewrite !Z.mod_pow2_bits_high by lia].
  rewrite !Z.mod_pow2_bits_low by lia.
  pose proof (Z.div_mod i 8 ltac:(done)) as Hd. pose proof (Z.mod_pos_bound i 8 ltac:(done)) as Hr.
  assert (0 <= i / 8 < 4) as Hq by (split; [by apply Z.div_pos|by apply Z.div_lt_upper_bound]).
  specialize (Hb (Z.to_nat (i / 8)) ltac:(lia)). unfold le_byte, u8 in Hb. change 256 with (2 ^ 8) in Hb.
  rewrite Z2Nat.id in Hb by lia. apply (f_equal (λ z, Z.testbit z (i mod 8))) in Hb.
  rewrite !Z.mod_pow2_bits_low, !Z.shiftr_spec in Hb by lia.
  by replace (i mod 8 + 8 * (i / 8)) with i in Hb by lia.
Qed.

Lemma length_xor_le uid i n v : length (xor_le uid i n v) = length uid.
Proof. revert uid i v. induction n as [|n IH]; intros uid i v; simpl; [done|]. by rewrite IH, length_insert. Qed.

Lemma xor_le_lookup n uid i v j :
  xor_le uid i n v !! j =
    (λ x, if (i <=? j)%nat && (j <? i + n)%nat then Z.lxor x (le_byte v (j - i)) else x) <$> uid !! j.
Proof.
  revert uid i v. induction n as [|n IH]; intros uid i v; simpl.
  - destruct (Nat.leb_spec i j), (Nat.ltb_spec j (i + 0)); simpl; try lia; by destruct (uid !! j).
  - rewrite IH. destruct (decide (j = i)) as [->|Hne].
    + destruct (Nat.leb_spec (S i) i); [lia|]. simpl. destruct (Nat.leb_spec i i); [|lia].
      destruct (Nat.ltb_spec i (i + S n)); [|lia]. simpl. rewrite Nat.sub_diag.
      destruct (uid !! i) as [x|] eqn:E.
      * rewrite list_lookup_insert_eq by (by eapply lookup_lt_Some). simpl.
        by rewrite (list_lookup_total_correct _ _ _ E).
      * rewrite lookup_ge_None_2; [done|]. rewrite length_insert. by apply lookup_ge_None.
    + rewrite list_lookup_insert_ne by done. apply option_fmap_ext. intros x.
      assert (((S i <=? j) && (j <? S i + n))%nat = ((i <=? j) && (j <? i + S n))%nat) as ->
        by (apply eq_bool_prop_intro; rewrite !andb_True, !Is_true_true, !Nat.leb_le, !Nat.ltb_lt; lia).
      destruct (_ && _) eqn:Ec; [|done]. apply andb_true_iff in Ec as [Ec%Nat.leb_le _].
      f_equal. unfold le_byte. rewrite Z.shiftr_shiftr by lia. do 2 f_equal. lia.
Qed.

Lemma xor_le_0 uid i n : xor_le uid i n 0 = uid.
Proof.
  apply list_eq. intros j. rewrite xor_le_lookup. destruct (uid !! j) as [x|]; simpl; [|done].
  f_equal. case_match; [|done]. unfold le_byte. by rewrite Z.shiftr_0_l, Z.lxor_0_r.
Qed.

Lemma bytes_string_inj l1 l2 :
  Forall (λ b, 0 <= b < 256) l1 → Forall (λ b, 0 <= b < 256) l2 → bytes_string l1 = bytes_string l2 → l1 = l2.
Proof.
  intros H1 H2 E. apply (f_equal byte_list) in E. unfold bytes_string in E. rewrite !byte_list_inv in E.
  revert l2 H2 E. induction H1 as [|a l1 Ha _ IH]; intros l2 H2 E; destruct H2 as [|b l2 Hb H2]; simpl in E; try done.
  injection E as Ea E. f_equal; [|by apply IH].
  apply (f_equal N_of_ascii) in Ea. rewrite !N_ascii_embedding in Ea by lia. lia.
Qed.

(** ** The two formats of an id *)

(** [s] is 32 hex digits, the bytes [d], alone or before ".mid.last". *)
Definition sw_format (s : string) (d : list Z) (mid last : Z) : Prop :=
  ∃ start, String.length start = 32%nat ∧ hex_Decode (byte_list start) = (d, true) ∧
    ((s = start ∧ mid = 0 ∧ last = 0) ∨
     ∃ m l, s = start +:+ String dot (m +:+ String dot l) ∧ Atoi m = Some mid ∧ Atoi l = Some last).

Lemma hex_Decode_ok l d :
  hex_Decode l = (d, true) → length l = (2 * length d)%nat ∧ Forall (λ b, 0 <= b < 256) d ∧ dot ∉ l.
Proof.
  assert (∀ a v, hexDigit a = Some v → 0 <= v < 16 ∧ dot ≠ a) as Hdig.
  { intros a v E. split; [|by intros <-]. unfold hexDigit in E. repeat case_match; simplify_eq; bool_facts; lia. }
  revert d. induction l as [|a|a b l IH _] using list_ind2; intros d; simpl.
  - intros [= <-]. split; [done|]. split; [constructor|apply not_elem_of_nil].
  - done.
  - destruct (hexDigit a) as [x|] eqn:Ea; [|done]. destruct (hexDigit b) as [y|] eqn:Eb; [|done].
    destruct (hex_Decode l) as [d' ok] eqn:El. intros [= <- ->].
    apply Hdig in Ea as [Hx Ha], Eb as [Hy Hb].
    destruct (IH d' eq_refl) as (Hl & Hf & Hd). simpl. split; [lia|].
    split; [constructor; [lia|done]|]. by rewrite !not_elem_of_cons.
Qed.

Lemma digits_value_no_dot l acc v : digits_value decDigit 10 l acc = Some v → dot ∉ l.
Proof.
  revert acc. induction l as [|a l IH]; intros acc; simpl; [intros _; apply not_elem_of_nil|].
  destruct (decDigit a) as [x|] eqn:Ea; [|done]. intros E. apply not_elem_of_cons.
  split; [by intros <-|by eapply IH].
Qed.

Lemma Atoi_no_dot s v : Atoi s = Some v → dot ∉ byte_list s.
Proof.
  assert (∀ neg l, (match l with
    | [] => None
    | _ => match digits_value decDigit 10 l 0 with
           | Some v => let v := if neg : bool then - v else v in
                       if (minInt64 <=? v) && (v <=? maxInt64) then Some v else None
           | None => None end end) = Some v → dot ∉ l) as Hp.
  { intros neg [|a l]; [done|]. destruct (digits_value _ _ _ _) eqn:E; [|done]. intros _.
    by eapply digits_value_no_dot. }
  unfold Atoi. destruct (byte_list s) as [|a l]; [intros _; apply not_elem_of_nil|].
  destruct (decide (a = "-"%char)) as [->|Hm];
    [intros E; apply not_elem_of_cons; split; [done|]; by eapply (Hp true)|].
  destruct (decide (a = "+"%char)) as [->|Hq];
    [intros E; apply not_elem_of_cons; split; [done|]; by eapply (Hp false)|].
  intros E. apply (Hp false). by destruct a as [[] [] [] [] [] [] [] []].
Qed.

Lemma IndexByte_from_app c l1 l2 i :
  c ∉ l1 → IndexByte_from c (l1 ++ c :: l2) i = i + len l1.
Proof.
  unfold len. revert i. induction l1 as [|a l1 IH]; intros i; simpl; [rewrite Ascii.eqb_refl; lia|].
  intros [Hne Hc]%not_elem_of_cons. destruct (Ascii.eqb_spec a c); [congruence|]. rewrite IH by done. lia.
Qed.

(** The bytes of an id, from those of its format. *)
Definition sw_uuid (d : list Z) (mid last extra : Z) : list Z :=
  xor_le (xor_le (xor_le d 0 4 extra) 4 4 mid) 8 8 last.

(** The parts of a dotted id. *)
Lemma dotted_parts start m l :
  String.length start = 32%nat → dot ∉ byte_list start → dot ∉ byte_list m → dot ∉ byte_list l →
  let s := start +:+ String dot (m +:+ String dot l) in
  32 < slen s ∧ take 32 (byte_list s) = byte_list start ∧ IndexByte s dot = 32 ∧ 32 < LastIndexByte s dot ∧
  substring_of s 33 (LastIndexByte s dot) = Some m ∧ substring_of s (LastIndexByte s dot + 1) (slen s) = Some l.
Proof.
  intros Hlen Hdot Hmd Hld s. pose proof (length_byte_list start) as Hb. rewrite Hlen in Hb.
  assert (byte_list s = byte_list start ++ dot :: byte_list m ++ dot :: byte_list l) as Hbytes
    by (unfold s; rewrite byte_list_app; simpl; by rewrite byte_list_app).
  assert (slen s = 34 + len (byte_list m) + len (byte_list l)) as Hsl.
  { unfold slen, len. rewrite <- length_byte_list, Hbytes, !length_app. simpl. rewrite length_app. simpl. lia. }
  assert (LastIndexByte s dot = 33 + len (byte_list m)) as Hi2.
  { unfold LastIndexByte. rewrite Hbytes, app_comm_cons, app_assoc, LastIndexByte_from_app by done.
    unfold len. rewrite length_app. simpl. lia. }
  pose proof (len_nonneg (byte_list m)). pose proof (len_nonneg (byte_list l)). rewrite Hi2.
  split; [lia|]. split; [by rewrite Hbytes, take_app_length' by lia|].
  split; [unfold IndexByte; rewrite Hbytes, IndexByte_from_app by done; unfold len; lia|]. split; [lia|]. split.
  - unfold substring_of. rewrite Hsl. cond_lia. f_equal.
    rewrite Hbytes, cons_middle, app_assoc, drop_app_length' by (rewrite length_app; simpl; lia).
    rewrite take_app_length' by (unfold len; lia). apply of_byte_list_inv.
  - unfold substring_of. rewrite Hsl. cond_lia. f_equal.
    rewrite Hbytes, app_comm_cons, app_assoc, (cons_middle dot), (app_assoc _ [dot]), drop_app_length'
      by (unfold len; rewrite !length_app; simpl; lia).
    rewrite take_ge by (unfold len; lia). apply of_byte_list_inv.
Qed.

Lemma swStringToUUID_format s d mid last extra :
  sw_format s d mid last → swStringToUUID s extra = Some (sw_uuid d mid last extra) ∧
  length d = 16%nat ∧ Forall (λ b, 0 <= b < 256) d ∧ 32 <= slen s.
Proof.
  intros (start & Hlen & Hd & Hs). destruct (hex_Decode_ok _ _ Hd) as (Hl & Hf & Hdot).
  rewrite length_byte_list, Hlen in Hl. assert (length d = 16%nat) as Hd16 by lia.
  assert (take 16 (d ++ zero_uuid) = d) as Htake by (by rewrite take_app_le, take_ge by lia).
  unfold swStringToUUID, sw_uuid. destruct Hs as [(-> & -> & ->)|(m & l & -> & Hm & Hlast)].
  - rewrite take_ge, Hd, !xor_le_0 by (rewrite length_byte_list; lia).
    unfold slen. rewrite Hlen. simpl. rewrite Htake. done.
  - destruct (dotted_parts start m l Hlen Hdot (Atoi_no_dot _ _ Hm) (Atoi_no_dot _ _ Hlast))
      as (Hsl & Hstart & Hi1 & Hi2 & Hsub1 & Hsub2).
    set (s := start +:+ _) in *. clearbody s.
    destruct (Z.ltb_spec (slen s) 32); [lia|]. split; [|split; [done|split; [done|lia]]].
    rewrite Hstart, Hd. cbn [negb]. rewrite Htake. destruct (Z.eqb_spec (slen s) 32); [lia|].
    rewrite Hi1. change (32 + 1) with 33. destruct (Z.ltb_spec (LastIndexByte s dot) 0); [lia|]. simpl orb. cbv iota.
    rewrite Hsub1. cbn [mbind option_bind]. rewrite Hm, Hsub2. cbn [mbind option_bind]. by rewrite Hlast.
Qed.

Lemma sw_uuid_lookup d mid last extra j :
  sw_uuid d mid last extra !! j =
    (λ x, if (j <? 4)%nat then Z.lxor x (le_byte extra j)
          else if (j <? 8)%nat then Z.lxor x (le_byte mid (j - 4))
          else if (j <? 16)%nat then Z.lxor x (le_byte last (j - 8)) else x) <$> d !! j.
Proof.
  unfold sw_uuid. rewrite !xor_le_lookup. destruct (d !! j) as [x|]; cbn [fmap option_fmap option_map]; [|done]. f_equal.
  rewrite Nat.sub_0_r. change (0 + 4)%nat with 4%nat. change (4 + 4)%nat with 8%nat. change (8 + 8)%nat with 16%nat.
  destruct (Nat.leb_spec 8 j), (Nat.leb_spec 4 j), (Nat.ltb_spec j 4), (Nat.ltb_spec j 8), (Nat.ltb_spec j 16);
    simpl; try lia; done.
Qed.

Lemma sw_uuid_bytes d mid last extra :
  length d = 16%nat → Forall (λ b, 0 <= b < 256) d →
  length (sw_uuid d mid last extra) = 16%nat ∧ Forall (λ b, 0 <= b < 256) (sw_uuid d mid last extra).
Proof.
  intros Hd Hf. split; [unfold sw_uuid; by rewrite !length_xor_le|].
  apply Forall_lookup. intros j y. rewrite sw_uuid_lookup. intros (x & Hx & ->)%fmap_Some.
  assert (0 <= x < 256) by (exact (Forall_lookup_1 _ _ _ _ Hf Hx)).
  repeat case_match; try done; by apply lxor_byte; [|apply u8_range].
Qed.

Lemma uuidTo8Bytes_ok u :
  length u = 16%nat → Forall (λ b, 0 <= b < 256) u →
  length (uuidTo8Bytes u) = 8%nat ∧ Forall (λ b, 0 <= b < 256) (uuidTo8Bytes u) ∧
  ∀ i, (i < 8)%nat → ∃ x y, u !! i = Some x ∧ u !! (i + 8)%nat = Some y ∧ uuidTo8Bytes u !! i = Some (Z.lxor x y).
Proof.
  intros Hl Hf. assert (∀ i, (i < 8)%nat → ∃ x y, u !! i = Some x ∧ u !! (i + 8)%nat = Some y ∧
    uuidTo8Bytes u !! i = Some (Z.lxor x y)) as Hi.
  { intros i Hi. destruct (lookup_lt_is_Some_2 u i) as [x Hx]; [lia|].
    destruct (lookup_lt_is_Some_2 u (i + 8)) as [y Hy]; [lia|]. exists x, y. split; [done|]. split; [done|].
    unfold uuidTo8Bytes. rewrite lookup_zip_with, lookup_take, lookup_drop, decide_True by lia.
    rewrite Hx, (Nat.add_comm 8 i), Hy. done. }
  assert (length (uuidTo8Bytes u) = 8%nat) as Hl8
    by (unfold uuidTo8Bytes; rewrite length_zip_with, length_take, length_drop; lia).
  split; [done|]. split; [|done]. apply Forall_lookup. intros i z Hz.
  pose proof (lookup_lt_Some _ _ _ Hz). destruct (Hi i) as (x & y & Hx & Hy & E); [lia|].
  rewrite E in Hz. injection Hz as <-. apply lxor_byte; [exact (Forall_lookup_1 _ _ _ _ Hf Hx)|exact (Forall_lookup_1 _ _ _ _ Hf Hy)].
Qed.

Lemma segmentIDToSpanID_ok s d mid last :
  sw_format s d mid last →
  (∀ a, ∃ id, segmentIDToSpanID s a = Some id ∧ String.length id = 8%nat) ∧
  (∀ a b, segmentIDToSpanID s a = segmentIDToSpanID s b → u32 a = u32 b).
Proof.
  intros Hs.
  assert (∀ a, segmentIDToSpanID s a = Some (bytes_string (uuidTo8Bytes (sw_uuid d mid last a)))) as Ha.
  { intros a. destruct (swStringToUUID_format s d mid last a Hs) as (E & _ & _ & Hl).
    unfold segmentIDToSpanID. rewrite E. destruct (Z.ltb_spec (slen s) 32); [lia|done]. }
  destruct (swStringToUUID_format s d mid last 0 Hs) as (_ & Hl & Hf & _).
  assert (∀ a, _) as Hu by (intros a; destruct (sw_uuid_bytes d mid last a Hl Hf) as [H1 H2];
                             exact (uuidTo8Bytes_ok _ H1 H2)).
  split.
  - intros a. eexists. split; [apply Ha|]. unfold bytes_string.
    rewrite <- length_byte_list, byte_list_inv, length_fmap. apply Hu.
  - intros a b. rewrite !Ha. intros [= E]. apply bytes_string_inj in E; [|apply Hu..].
    apply le_bytes_u32. intros i Hi.
    destruct (proj2 (proj2 (Hu a)) i) as (x & y & Hx & Hy & Exy); [lia|].
    destruct (proj2 (proj2 (Hu b)) i) as (x' & y' & Hx' & Hy' & Exy'); [lia|].
    rewrite E, Exy' in Exy. injection Exy as Exy. rewrite sw_uuid_lookup in Hx, Hx', Hy, Hy'.
    destruct (Nat.ltb_spec i 4), (Nat.ltb_spec (i + 8) 4), (Nat.ltb_spec (i + 8) 8), (Nat.ltb_spec (i + 8) 16); try lia.
    destruct (d !! i) as [x0|]; simpl in Hx, Hx'; [|done].
    destruct (d !! (i + 8)%nat) as [y0|]; simpl in Hy, Hy'; [|done]. simplify_eq.
    symmetry. by apply lxor_cancel_r, (lxor_cancel_l x0) in Exy.
Qed.

Lemma segmentIDToSpanID_inj s d mid last a b :
  sw_format s d mid last → segmentIDToSpanID s a = segmentIDToSpanID s b → u32 a = u32 b.
Proof. intros Hs. by apply (segmentIDToSpanID_ok s d mid last Hs). Qed.

(** ** Panics *)

Lemma LastIndexByte_from_range c l i last :
  last < i → IndexByte_from c l i ≠ -1 → 0 <= i →
  IndexByte_from c l i <= LastIndexByte_from c l i last < i + len l.
Proof.
  intros Hlast Hne Hi. assert (∀ l i last, last < i → last <= LastIndexByte_from c l i last < i + len l) as Hmono.
  { clear. unfold len. induction l as [|a l IH]; intros i last Hl; simpl; [lia|].
    specialize (IH (i + 1)). case_match; [specialize (IH i)|specialize (IH last)]; lia. }
  revert i last Hlast Hne Hi. induction l as [|a l IH]; intros i last Hlast Hne Hi; simpl in *; [done|].
  destruct (Ascii.eqb_spec a c).
  - specialize (Hmono l (i + 1) i). unfold len in *. simpl. lia.
  - specialize (IH (i + 1) last). unfold len in *. simpl. lia.
Qed.

Lemma substring_of_None s low high : high < low → substring_of s low high = None.
Proof. intros. unfold substring_of. destruct (Z.leb_spec low high); [lia|]. by rewrite andb_false_r. Qed.

Lemma substring_of_Some s low high : 0 <= low <= high → high <= slen s → is_Some (substring_of s low high).
Proof. intros. unfold substring_of. cond_lia. by eexists. Qed.

(** 32 hex digits, then the first and only dot. *)
Definition one_dot (s : string) : bool :=
  (32 <? slen s) && (hex_Decode (take 32 (byte_list s))).2 && (IndexByte s dot =? 32) && (LastIndexByte s dot =? 32).

(** The slice between the first and the last dot is then taken backwards. *)
Lemma swStringToUUID_panics s extra : swStringToUUID s extra = None ↔ one_dot s = true.
Proof.
  transitivity (32 < slen s ∧ (hex_Decode (take 32 (byte_list s))).2 = true ∧
                IndexByte s dot = 32 ∧ LastIndexByte s dot = 32);
    [|unfold one_dot; rewrite !andb_true_iff, Z.ltb_lt, !Z.eqb_eq; tauto].
  unfold swStringToUUID. destruct (Z.ltb_spec (slen s) 32); [split; [done|lia]|].
  destruct (hex_Decode _) as [d [|]]; cbn [negb snd]; [|split; [done|by intros (_ & ? & _)]].
  destruct (Z.eqb_spec (slen s) 32); [split; [done|lia]|].
  destruct (Z.eqb_spec (IndexByte s dot) 32) as [Hi|]; cbn [negb orb]; [|split; [done|by intros (_ & _ & ? & _)]].
  pose proof (LastIndexByte_from_range dot (byte_list s) 0 (-1)) as Hr.
  fold (IndexByte s dot) in Hr. fold (LastIndexByte s dot) in Hr.
  specialize (Hr ltac:(lia) ltac:(lia) ltac:(lia)).
  assert (slen s = len (byte_list s)) as Hs by (unfold slen, len; by rewrite length_byte_list).
  destruct (Z.ltb_spec (LastIndexByte s dot) 0); [lia|]. rewrite Hi.
  destruct (Z.eq_dec (LastIndexByte s dot) 32) as [E|E].
  - rewrite E, (substring_of_None s (32 + 1) 32) by lia. split; [|done]. intros _. split; [lia|done].
  - split; [|by intros (_ & _ & _ & ?)]. destruct (substring_of_Some s (32 + 1) (LastIndexByte s dot)) as [m ->]; [lia..|].
    destruct (substring_of_Some s (LastIndexByte s dot + 1) (slen s)) as [l ->]; [lia..|].
    cbn [mbind option_bind]. destruct (Atoi m); [|done]. by destruct (Atoi l).
Qed.

Definition segment_id_ok (s : string) : bool := negb (one_dot s).
Definition trace_id_ok (s : string) : bool := (slen s <=? 36) || negb (one_dot s).

Lemma segmentIDToSpanID_total s x : is_Some (segmentIDToSpanID s x) ↔ segment_id_ok s = true.
Proof.
  unfold segmentIDToSpanID, segment_id_ok. rewrite negb_true_iff. destruct (Z.ltb_spec (slen s) 32) as [Hl|Hl].
  - split; [|by eexists]. intros _. unfold one_dot. by destruct (Z.ltb_spec 32 (slen s)); [lia|].
  - rewrite fmap_is_Some, <- not_eq_None_Some, swStringToUUID_panics. destruct (one_dot s); naive_solver.
Qed.

Lemma swTraceIDToTraceID_total `{UuidLib} s : is_Some (swTraceIDToTraceID s) ↔ trace_id_ok s = true.
Proof.
  unfold swTraceIDToTraceID, trace_id_ok. destruct (slen s <=? 36); simpl; [split; [done|by eexists]|].
  rewrite fmap_is_Some, <- not_eq_None_Some, swStringToUUID_panics. destruct (one_dot s); naive_solver.
Qed.

Definition ex_segment : string := "56a5e1c519ae4c76a2b8b11d92cead7f.12.16563474296430001".

Lemma ex_segment_format :
  sw_format ex_segment [86; 165; 225; 197; 25; 174; 76; 118; 162; 184; 177; 29; 146; 206; 173; 127] 12 16563474296430001.
Proof.
  exists "56a5e1c519ae4c76a2b8b11d92cead7f". split; [reflexivity|]. split; [reflexivity|]. right.
  exists "12", "16563474296430001". split; [reflexivity|]. split; reflexivity.
Qed.

(** One dot is enough to stop the receiver. *)
Example one_dot_panics : swStringToUUID "56a5e1c519ae4c76a2b8b11d92cead7f.12345" 0 = None.
Proof. reflexivity. Qed.

(** A parser of one of the formats, for the witnesses. *)
Module RefUuid.
#[export] Instance lib : UuidLib := {|
  uuid_Parse s := match hex_Decode (byte_list s) with
                  | (d, true) => if slen s =? 32 then Some (bytes_string d) else None
                  | _ => None
                  end;
|}.
End RefUuid.
