(* ===== verification/SwComponents.v ===== *)
(** * SwComponents: the components of the SkyWalking agents

    The table of [componment_mapping.go] and its two look-ups.  The source fills
    the maps at the first look-up and never changes them afterwards: they are the
    constants [componentIdMap] and [nameToServerMap].  What look-ups see while the maps
    are being filled is in the file ComponentRace. *)

From S2P Require Import Prelude GoStrings.

Record SwComponment := {
  sc_Id : Z;
  sc_Name : string;
  sc_Server : string;      (* empty when the component is its own server *)
}.

Definition swc (id : Z) (name server : string) : SwComponment :=
  {| sc_Id := id; sc_Name := name; sc_Server := server |}.

(** The libraries of Java and the ones that all languages share. *)
Definition shared_components : list SwComponment := [
  swc 0 "Unknown" ""; swc 1 "Tomcat" ""; swc 2 "HttpClient" ""; swc 3 "Dubbo" ""; swc 4 "H2" "";
  swc 5 "Mysql" ""; swc 6 "ORACLE" ""; swc 7 "Redis" ""; swc 8 "Motan" ""; swc 9 "MongoDB" "";
  swc 10 "Resin" ""; swc 11 "Feign" ""; swc 12 "OKHttp" ""; swc 13 "SpringRestTemplate" "";
  swc 14 "SpringMVC" ""; swc 15 "Struts2" ""; swc 16 "NutzMVC" ""; swc 17 "NutzHttp" "";
  swc 18 "JettyClient" ""; swc 19 "JettyServer" ""; swc 20 "Memcached" ""; swc 21 "ShardingJDBC" "";
  swc 22 "PostgreSQL" ""; swc 23 "GRPC" ""; swc 24 "ElasticJob" ""; swc 25 "RocketMQ" "";
  swc 26 "httpasyncclient" ""; swc 27 "Kafka" ""; swc 28 "ServiceComb" ""; swc 29 "Hystrix" "";
  swc 30 "Jedis" "Redis"; swc 31 "SQLite" ""; swc 32 "h2-jdbc-driver" "H2";
  swc 33 "mysql-connector-java" "Mysql"; swc 34 "ojdbc" ""; swc 35 "Spymemcached" "Memcached";
  swc 36 "Xmemcached" "Memcached"; swc 37 "postgresql-jdbc-driver" "PostgreSQL";
  swc 38 "rocketMQ-producer" "RocketMQ"; swc 39 "rocketMQ-consumer" "RocketMQ";
  swc 40 "kafka-producer" "Kafka"; swc 41 "kafka-consumer" "Kafka"; swc 42 "mongodb-driver" "MongoDB";
  swc 43 "SOFARPC" ""; swc 44 "ActiveMQ" ""; swc 45 "activemq-producer" "ActiveMQ";
  swc 46 "activemq-consumer" "ActiveMQ"; swc 47 "Elasticsearch" "";
  swc 48 "transport-client" "Elasticsearch"; swc 49 "http" ""; swc 50 "rpc" ""; swc 51 "RabbitMQ" "";
  swc 52 "rabbitmq-producer" "RabbitMQ"; swc 53 "rabbitmq-consumer" "RabbitMQ"; swc 54 "Canal" "";
  swc 55 "Gson" ""; swc 56 "Redisson" "Redis"; swc 57 "Lettuce" "Redis"; swc 58 "Zookeeper" "Zookeeper";
  swc 59 "Vertx" ""; swc 60 "ShardingSphere" ""; swc 61 "spring-cloud-gateway" ""; swc 62 "RESTEasy" "";
  swc 63 "SolrJ" "Solr"; swc 64 "Solr" ""; swc 65 "SpringAsync" ""; swc 66 "JdkHttp" "";
  swc 67 "spring-webflux" ""; swc 68 "Play" ""; swc 69 "cassandra-java-driver" "Cassandra";
  swc 70 "Cassandra" ""; swc 71 "Light4J" ""; swc 72 "Pulsar" ""; swc 73 "pulsar-producer" "Pulsar";
  swc 74 "pulsar-consumer" "Pulsar"; swc 75 "Ehcache" ""; swc 76 "SocketIO" "";
  swc 77 "rest-high-level-client" "Elasticsearch"; swc 78 "spring-tx" ""; swc 79 "Armeria" "";
  swc 80 "JdkThreading" ""; swc 81 "KotlinCoroutine" ""; swc 82 "AvroServer" ""; swc 83 "AvroClient" "";
  swc 84 "Undertow" ""; swc 85 "Finagle" ""; swc 86 "Mariadb" ""; swc 87 "mariadb-jdbc" "Mariadb";
  swc 88 "quasar" ""; swc 89 "InfluxDB" ""; swc 90 "influxdb-java" "InfluxDB"; swc 91 "brpc-java" "";
  swc 92 "GraphQL" ""; swc 93 "spring-annotation" ""; swc 94 "HBase" "";
  swc 95 "spring-kafka-consumer" "kafka-consumer"; swc 96 "SpringScheduled" ""; swc 97 "quartz-scheduler" "";
  swc 98 "xxl-job" ""; swc 99 "spring-webflux-webclient" ""; swc 100 "thrift-server" "";
  swc 101 "thrift-client" ""; swc 102 "AsyncHttpClient" ""; swc 103 "dbcp" "";
  swc 104 "mssql-jdbc-driver" "SqlServer"; swc 105 "Apache-CXF" ""; swc 106 "dolphinscheduler" "";
  swc 107 "JsonRpc" ""; swc 108 "seata" ""; swc 109 "MyBatis" ""; swc 110 "tcp" "";
  swc 111 "AzureHttpTrigger" ""; swc 112 "Neo4j" ""; swc 113 "Sentinel" ""; swc 114 "GuavaCache" "";
  swc 115 "AlibabaDruId" ""; swc 116 "HikariCP" ""; swc 117 "Fastjson" ""; swc 118 "Jackson" "";
  swc 119 "ClickHouse-jdbc-driver" "ClickHouse"; swc 120 "ClickHouse" "";
  swc 121 "Apache-Kylin-jdbc-driver" "Apache-Kylin"; swc 122 "Apache-Kylin" ""; swc 123 "GuavaEventBus" "";
  swc 124 "AWSLambdaTrigger" ""; swc 125 "AWSLambdaGatewayAPIHTTP" ""; swc 126 "AWSLambdaGatewayAPIREST" "";
  swc 127 "Apache-ShenYu" ""; swc 128 "Hutool" ""; swc 129 "https" ""; swc 130 "tls" "";
  swc 131 "Micronaut" ""; swc 132 "NATS" ""; swc 133 "Impala-jdbc-driver" "Impala"; swc 134 "Impala" "";
  swc 135 "EventMesh" ""; swc 136 "eventmesh-producer" "EventMesh"; swc 137 "eventmesh-consumer" "EventMesh";
  swc 138 "AWSDynamoDB" ""; swc 139 "AWSSNS" ""; swc 140 "AWSSQS" ""; swc 141 "Micrometer" "";
  swc 142 "mtls" ""; swc 143 "amqp" ""; swc 144 "amqp-producer" "amqp"; swc 145 "amqp-consumer" "amqp";
  swc 146 "Jersey" ""; swc 147 "Grizzly" ""; swc 148 "WebSphere" ""; swc 149 "Aerospike" "";
  swc 150 "Nacos" ""; swc 151 "Netty-http" ""; swc 152 "c3p0" ""; swc 153 "Derby-jdbc-driver" "";
  swc 154 "Sqlite-jdbc-driver" ""; swc 155 "Db2-jdbc-driver" ""; swc 156 "Sybase-jdbc-driver" "";
  swc 157 "OceanBase-jdbc-driver" ""; swc 158 "SolonMVC" ""; swc 159 "DNS" ""
].

(** Those of the other agents, whose numbers start at 3000. *)
Definition agent_components : list SwComponment := [
  swc 3001 "AspNetCore" "";
  swc 3002 "EntityFrameworkCore" ""; swc 3003 "SqlClient" "SqlServer"; swc 3004 "CAP" "";
  swc 3005 "StackExchange.Redis" "Redis"; swc 3006 "SqlServer" ""; swc 3007 "Npgsql" "PostgreSQL";
  swc 3008 "MySqlConnector" "Mysql"; swc 3009 "EntityFrameworkCore.InMemory" "InMemoryDatabase";
  swc 3010 "EntityFrameworkCore.SqlServer" "SqlServer"; swc 3011 "EntityFrameworkCore.Sqlite" "SQLite";
  swc 3012 "Pomelo.EntityFrameworkCore.MySql" "Mysql";
  swc 3013 "Npgsql.EntityFrameworkCore.PostgreSQL" "PostgreSQL"; swc 3014 "InMemoryDatabase" "";
  swc 3015 "AspNet" ""; swc 3016 "SmartSql" ""; swc 3017 "FreeSql" ""; swc 3018 "FreeRedis" "Redis";
  swc 4001 "HttpServer" ""; swc 4002 "Express" ""; swc 4003 "Egg" ""; swc 4004 "Koa" ""; swc 4005 "Axios" "";
  swc 4006 "Mongoose" ""; swc 5001 "ServiceCombMesher" ""; swc 5002 "ServiceCombServiceCenter" "";
  swc 5003 "MOSN" ""; swc 5004 "GoHttpServer" ""; swc 5005 "GoHttpClient" ""; swc 5006 "Gin" "";
  swc 5007 "Gear" ""; swc 5008 "GoMicroClient" ""; swc 5009 "GoMicroServer" ""; swc 5010 "Kratos" "";
  swc 5012 "GoMysql" "Mysql"; swc 5013 "OpenFunction" ""; swc 5014 "GoRedis" "Redis"; swc 5015 "Echo" "";
  swc 5016 "Lock" ""; swc 5017 "GoMuxServer" ""; swc 5018 "Iris" ""; swc 5019 "GoFastHttpClient" "";
  swc 5020 "GoFastHttpServer" ""; swc 5021 "Fiber" ""; swc 5022 "GoFrame" ""; swc 5023 "GoZero" "";
  swc 6000 "Nginx" ""; swc 6001 "Kong" ""; swc 6002 "APISIX" ""; swc 7000 "Python" ""; swc 7001 "Flask" "";
  swc 7002 "Requests" ""; swc 7003 "PyMysql" "Mysql"; swc 7004 "Django" ""; swc 7005 "Tornado" "";
  swc 7006 "Urllib3" ""; swc 7007 "Sanic" ""; swc 7008 "AioHttp" ""; swc 7009 "PyramId" "";
  swc 7010 "Psychopg" "PostgreSQL"; swc 7011 "Celery" ""; swc 7012 "Falcon" "";
  swc 7013 "MysqlClient" "Mysql"; swc 7014 "FastAPI" ""; swc 7015 "Bottle" "";
  swc 7016 "AsyncPG" "PostgreSQL"; swc 7017 "AIORedis" "Redis"; swc 7018 "Websockets" "";
  swc 7019 "HTTPX" ""; swc 8001 "PHP" ""; swc 8002 "cURL" ""; swc 8003 "PDO" ""; swc 8004 "Mysqli" "Mysql";
  swc 8005 "Yar" ""; swc 8006 "Predis" "Redis"; swc 9000 "EnvoyProxy" ""; swc 10000 "JavaScript" "";
  swc 10001 "ajax" ""; swc 11000 "Rust" ""
].

Definition components : list SwComponment := shared_components ++ agent_components.

Definition componentIdMap : gmap Z SwComponment :=
  foldS (λ componment m, <[sc_Id componment := componment]> m) components ∅.

Definition nameToServerMap : gmap string string :=
  foldS (λ componment m, if bool_decide (sc_Server componment = "") then m
                         else <[sc_Name componment := sc_Server componment]> m) components ∅.

Definition GetComponent (componmentId : Z) : string :=
  match componentIdMap !! componmentId with
  | Some componment => if bool_decide (sc_Server componment = "") then sc_Name componment else sc_Server componment
  | None => "Unknown"
  end.

Definition GetServerName (componmentName : string) : string :=
  default componmentName (nameToServerMap !! componmentName).

(** ** The look-ups answer by the table *)

Lemma ids_NoDup : NoDup (sc_Id <$> components).
Proof. apply (bool_decide_unpack _). by vm_compute. Qed.

Lemma names_NoDup : NoDup (sc_Name <$> components).
Proof. apply (bool_decide_unpack _). by vm_compute. Qed.

(** A map filled from a list. *)
Section filled.
Context {A K V : Type} `{Countable K} (key : A → K) (val : A → V) (f : A → bool).
Implicit Types (l : list A) (m : gmap K V).

Definition filled l m : gmap K V := foldS (λ a m, if f a then m else <[key a := val a]> m) l m.

Lemma filled_absent l m k : k ∉ key <$> l → filled l m !! k = m !! k.
Proof.
  unfold filled. revert m. induction l as [|c l IH]; intros m; [done|]. rewrite fmap_cons, not_elem_of_cons.
  intros [Hne Hk]. simpl. rewrite IH by done. destruct (f c); [done|]. by rewrite lookup_insert_ne.
Qed.

Lemma filled_lookup l m a :
  NoDup (key <$> l) → a ∈ l → filled l m !! key a = if f a then m !! key a else Some (val a).
Proof.
  intros Hnd Hin. unfold filled. revert m. induction l as [|b l IH]; intros m; [by apply not_elem_of_nil in Hin|].
  rewrite fmap_cons in Hnd. apply list.NoDup_cons in Hnd as [Hb Hnd]. simpl.
  apply elem_of_cons in Hin as [->|Hin].
  - etrans; [by apply (filled_absent l)|]. destruct (f b); [done|]. apply lookup_insert_eq.
  - rewrite IH by done. destruct (f a); [|done]. destruct (f b); [done|].
    rewrite lookup_insert_ne; [done|]. intros E. apply Hb. rewrite E. by apply list_elem_of_fmap_2.
Qed.
End filled.

Lemma componentIdMap_filled : componentIdMap = filled sc_Id (λ c, c) (λ _, false) components ∅.
Proof. unfold componentIdMap, filled. reflexivity. Qed.

Lemma nameToServerMap_filled :
  nameToServerMap = filled sc_Name sc_Server (λ c, bool_decide (sc_Server c = "")) components ∅.
Proof. unfold nameToServerMap, filled. reflexivity. Qed.

Lemma GetComponent_entry c :
  c ∈ components → GetComponent (sc_Id c) = if bool_decide (sc_Server c = "") then sc_Name c else sc_Server c.
Proof.
  intros Hc. unfold GetComponent. rewrite componentIdMap_filled.
  rewrite (filled_lookup sc_Id (λ c, c) (λ _, false) components ∅ c ids_NoDup Hc). done.
Qed.

Lemma GetServerName_entry c :
  c ∈ components → GetServerName (sc_Name c) = if bool_decide (sc_Server c = "") then sc_Name c else sc_Server c.
Proof.
  intros Hc. unfold GetServerName. rewrite nameToServerMap_filled.
  rewrite (filled_lookup sc_Name sc_Server (λ c, bool_decide (sc_Server c = "")) components ∅ c names_NoDup Hc). by case_bool_decide.
Qed.

(** The server of a component is a component that is its own server, one aside. *)
Definition settled (c : SwComponment) : Prop :=
  sc_Server c = "" ∨ Exists (λ d, sc_Name d = sc_Server c ∧ (sc_Server d = "" ∨ sc_Server d = sc_Server c)) components.

Lemma servers_settled : Forall (λ c, settled c ∨ sc_Name c = "spring-kafka-consumer") components.
Proof. apply (bool_decide_unpack _). by vm_compute. Qed.

Lemma settled_server c :
  c ∈ components → settled c → GetServerName (GetServerName (sc_Name c)) = GetServerName (sc_Name c).
Proof.
  intros Hc Hs. rewrite GetServerName_entry by done. case_bool_decide as He.
  - rewrite GetServerName_entry by done. by rewrite bool_decide_eq_true_2.
  - destruct Hs as [?|(d & Hd & <- & Ed)%list.Exists_exists]; [done|]. rewrite GetServerName_entry by done.
    case_bool_decide; [done|]. by destruct Ed.
Qed.

(** A component is answered by the server it stands for, the same one from
    its id and from its name, and that server is its own server - but for
    spring-kafka-consumer, whose server kafka-consumer stands for Kafka; an id
    that is not in the table is Unknown and a name that is not in it is left as
    it is. *)
Theorem component_servers :
  (∀ c, c ∈ components →
     GetComponent (sc_Id c) = GetServerName (sc_Name c) ∧
     (sc_Server c ≠ "" → GetComponent (sc_Id c) = sc_Server c) ∧
     (GetServerName (GetServerName (sc_Name c)) = GetServerName (sc_Name c) ∨
      sc_Name c = "spring-kafka-consumer")) ∧
  GetServerName (GetServerName "spring-kafka-consumer") ≠ GetServerName "spring-kafka-consumer" ∧
  (∀ id, id ∉ sc_Id <$> components → GetComponent id = "Unknown") ∧
  (∀ name, name ∉ sc_Name <$> components → GetServerName name = name).
Proof.
  split_and!.
  - intros c Hc. split; [by rewrite GetComponent_entry, GetServerName_entry|].
    split; [intros; rewrite GetComponent_entry by done; by rewrite bool_decide_eq_false_2|].
    pose proof servers_settled as Hall. rewrite list.Forall_forall in Hall.
    destruct (Hall c Hc) as [Hs|?]; [left; by apply settled_server|by right].
  - by vm_compute.
  - intros id Hid. unfold GetComponent. rewrite componentIdMap_filled.
    by rewrite (filled_absent sc_Id (λ c, c) (λ _, false) components ∅ id Hid).
  - intros name Hn. unfold GetServerName. rewrite nameToServerMap_filled.
    by rewrite (filled_absent sc_Name sc_Server (λ c, bool_decide (sc_Server c = "")) components ∅ name Hn).
Qed.
