(* ===== verification/ComponentRace.v ===== *)
(** * ComponentRace: the first look-ups of the component table

    [GetComponent] and [GetServerName] of [componment_mapping.go] fill a global map at
    their first call, without a lock, and are called by handlers that run at the same
    time.  SwComponents has what they answer once the maps are filled; here a step is
    one access of a call to the map, and a run any interleaving of any number of calls.
    That an access is a step of its own is more than Go promises: it is what the code
    could hope for at best. *)

From S2P Require Import Prelude GoStrings SwComponents.

(** The table behind a look-up: the rows, the entry each of them gives unless it is
    skipped, and what is answered for a key. *)
Record LazyTable (A K V : Type) := {
  lt_rows : list A;
  lt_key : A → K;
  lt_val : A → V;
  lt_skip : A → bool;
  lt_answer : K → option V → string;
}.
Arguments lt_rows {A K V}. Arguments lt_key {A K V}. Arguments lt_val {A K V}.
Arguments lt_skip {A K V}. Arguments lt_answer {A K V}.

(** A call: before [len], before [make], in the loop, before the look-up, after it. *)
Inductive lcall (A K : Type) :=
  | L_start (k : K)
  | L_make (k : K)
  | L_fill (todo : list A) (k : K)
  | L_read (k : K)
  | L_done (k : K) (answer : string).
Arguments L_start {A K}. Arguments L_make {A K}. Arguments L_fill {A K}.
Arguments L_read {A K}. Arguments L_done {A K}.

Record lookups (A K V : Type) `{Countable K} := { lk_calls : list (lcall A K); lk_map : gmap K V }.
Arguments lk_calls {A K V _ _}. Arguments lk_map {A K V _ _}. Arguments Build_lookups {A K V _ _}.

(** The accesses of a call to the variable and its map. *)
Inductive access := Reads | Writes.

Section table.
Context {A K V : Type} `{Countable K} (t : LazyTable A K V).
Implicit Types (m : gmap K V) (x : lcall A K) (s : lookups A K V).

Definition put_row (a : A) m : gmap K V := if lt_skip t a then m else <[lt_key t a := lt_val t a]> m.

Definition lstep x m : option (lcall A K * gmap K V) :=
  match x with
  | L_start k => Some (if bool_decide (m = ∅) then L_make k else L_read k, m)
  | L_make k => Some (L_fill (lt_rows t) k, ∅)
  | L_fill (a :: todo) k => Some (L_fill todo k, put_row a m)
  | L_fill [] k => Some (L_read k, m)
  | L_read k => Some (L_done k (lt_answer t k (m !! k)), m)
  | L_done _ _ => None
  end.

Definition next_access x : option access :=
  match x with
  | L_start _ | L_read _ => Some Reads
  | L_make _ => Some Writes
  | L_fill (a :: _) _ => if lt_skip t a then None else Some Writes
  | L_fill [] _ | L_done _ _ => None
  end.

(** A handler begins a look-up, or a call goes on. *)
Inductive lookup_step : lookups A K V → lookups A K V → Prop :=
  | step_arrive s k : lookup_step s (Build_lookups (lk_calls s ++ [L_start k]) (lk_map s))
  | step_run s i x x' m' :
      lk_calls s !! i = Some x → lstep x (lk_map s) = Some (x', m') →
      lookup_step s (Build_lookups (<[i := x']> (lk_calls s)) m').

(** Two calls are about to touch the map, one of them to write. *)
Definition race s : Prop :=
  ∃ i j x y a b, i ≠ j ∧ lk_calls s !! i = Some x ∧ lk_calls s !! j = Some y ∧
    next_access x = Some a ∧ next_access y = Some b ∧ (a = Writes ∨ b = Writes).

Definition full : gmap K V := filled (lt_key t) (lt_val t) (lt_skip t) (lt_rows t) ∅.

Definition at_start : lookups A K V := Build_lookups [] ∅.
Definition once_filled : lookups A K V := Build_lookups [] full.

(** What a look-up answers by the whole table. *)
Definition answer_of (k : K) : string := lt_answer t k (full !! k).

(** A call that runs alone. *)
Fixpoint run_alone (n : nat) x m : lcall A K * gmap K V :=
  match n with
  | O => (x, m)
  | S n => match lstep x m with Some (x', m') => run_alone n x' m' | None => (x, m) end
  end.

Lemma run_fill todo k m n :
  run_alone (length todo + n) (L_fill todo k) m = run_alone n (L_fill [] k) (foldS put_row todo m).
Proof. revert m. induction todo as [|a todo IH]; intros m; [done|]. cbn [length Nat.add run_alone lstep foldS]. apply IH. Qed.

Lemma alone_is_lookup k m :
  m = ∅ ∨ m = full → full ≠ ∅ →
  run_alone (length (lt_rows t) + 4) (L_start k) m = (L_done k (answer_of k), full).
Proof.
  intros Hm Hf. replace (length (lt_rows t) + 4)%nat with (S (S (length (lt_rows t) + 2))) by lia. destruct Hm as [->| ->].
  - cbn [run_alone lstep]. rewrite bool_decide_eq_true_2 by done. cbn [run_alone lstep]. rewrite run_fill. done.
  - cbn [run_alone lstep]. rewrite bool_decide_eq_false_2 by done. cbn [run_alone lstep]. rewrite Nat.add_comm. done.
Qed.

(** ** Calls that come after the map was filled *)

Definition calm x : Prop :=
  match x with
  | L_start _ | L_read _ => True
  | L_done k b => b = answer_of k
  | L_make _ | L_fill _ _ => False
  end.

Lemma once_filled_calm s :
  full ≠ ∅ → rtc lookup_step once_filled s → lk_map s = full ∧ Forall calm (lk_calls s).
Proof.
  intros Hf. apply (rtc_invariant lookup_step (λ s, lk_map s = full ∧ Forall calm (lk_calls s))); [|by repeat constructor].
  intros s1 s2 [Em Hc] Hs. destruct Hs as [s0 k|s0 i x x' m' Hi Hx].
  - split; [done|]. cbn [lk_calls]. apply Forall_app. split; [done|]. by repeat constructor.
  - pose proof (Forall_lookup_1 _ _ _ _ Hc Hi) as Hcx. rewrite Em in Hx. cbn [lk_map lk_calls].
    destruct x; cbn [lstep] in Hx; try done; injection Hx as <- <-; (split; [done|]); apply Forall_insert; try done.
    by rewrite bool_decide_eq_false_2.
Qed.

(** Then no two calls race. *)
Lemma calm_no_race s : Forall calm (lk_calls s) → ¬ race s.
Proof.
  intros Hc (i & j & x & y & a & b & _ & Hi & Hj & Ha & Hb & Hw).
  pose proof (Forall_lookup_1 _ _ _ _ Hc Hi). pose proof (Forall_lookup_1 _ _ _ _ Hc Hj).
  destruct x, y; try done; cbn in Ha, Hb; simplify_eq; by destruct Hw.
Qed.

Lemma calm_answer s k b : Forall calm (lk_calls s) → L_done k b ∈ lk_calls s → b = answer_of k.
Proof. intros Hc Hin. rewrite list.Forall_forall in Hc. exact (Hc _ Hin). Qed.

(** ** Any calls *)

Context (Hnd : NoDup (lt_key t <$> lt_rows t)) (Hfull : full ≠ ∅).

Definition fill_of (rows : list A) : gmap K V := filled (lt_key t) (lt_val t) (lt_skip t) rows ∅.

Lemma fill_of_snoc rows a : fill_of (rows ++ [a]) = put_row a (fill_of rows).
Proof. unfold fill_of, filled. by rewrite foldS_app. Qed.

Lemma full_row a : a ∈ lt_rows t → lt_skip t a = false → full !! lt_key t a = Some (lt_val t a).
Proof. intros Ha Hs. unfold full. rewrite filled_lookup by done. by rewrite Hs. Qed.

Lemma put_row_subseteq a m m' : m ⊆ m' → put_row a m ⊆ put_row a m'.
Proof. unfold put_row. destruct (lt_skip t a); [done|]. apply insert_mono. Qed.

Lemma put_row_full a m : a ∈ lt_rows t → m ⊆ full → m ⊆ put_row a m ∧ put_row a m ⊆ full.
Proof.
  intros Ha Hm. unfold put_row. destruct (lt_skip t a) eqn:Es; [done|]. pose proof (full_row a Ha Es) as Hrow. split.
  - apply map_subseteq_spec. intros k v Hk. destruct (decide (lt_key t a = k)) as [<-|Hne]; [|by rewrite lookup_insert_ne].
    rewrite lookup_insert_eq. rewrite <- Hrow. by eapply lookup_weaken.
  - apply map_subseteq_spec. intros k v Hk. apply lookup_insert_Some in Hk as [[<- <-]|[_ Hk]]; [done|by eapply lookup_weaken].
Qed.

(** What may be said of a call at any time. *)
Definition fair x : Prop :=
  match x with
  | L_fill todo _ => ∃ fore, lt_rows t = fore ++ todo
  | L_done k b => b = answer_of k ∨ b = lt_answer t k None
  | _ => True
  end.

Definition not_yet x : Prop := match x with L_start _ | L_make _ => True | _ => False end.

(** Nobody has begun to fill the map, or it is full, or somebody fills it and has put
    every row he has passed. *)
Definition filling s : Prop :=
  (lk_map s = ∅ ∧ Forall not_yet (lk_calls s)) ∨ lk_map s = full ∨
  ∃ i todo k fore, lk_calls s !! i = Some (L_fill todo k) ∧ lt_rows t = fore ++ todo ∧ fill_of fore ⊆ lk_map s.

Definition lookups_inv s : Prop := lk_map s ⊆ full ∧ Forall fair (lk_calls s) ∧ filling s.

Lemma lookups_inv_arrive s k : lookups_inv s → lookups_inv (Build_lookups (lk_calls s ++ [L_start k]) (lk_map s)).
Proof.
  intros (Hm & Hc & Hf). split; [done|]. cbn [lk_calls lk_map]. split; [apply Forall_app; split; [done|by repeat constructor]|].
  destruct Hf as [[Em Hn]|[Em|(i & todo & k' & fore & Hi & Er & Hs)]]; [left|by right; left|right; right].
  - split; [done|]. cbn [lk_calls]. apply Forall_app. split; [done|by repeat constructor].
  - exists i, todo, k', fore. split; [|done]. cbn [lk_calls]. by apply lookup_app_l_Some.
Qed.

Lemma filling_keep s i x x' m' :
  lk_calls s !! i = Some x → ¬ not_yet x → (∀ todo k, x ≠ L_fill todo k) → lk_map s ⊆ m' → (lk_map s = full → m' = full) →
  filling s → filling (Build_lookups (<[i := x']> (lk_calls s)) m').
Proof.
  intros Hi Hn Hx Hm Hm' [[_ Hall]|[Em|(j & todo & k & fore & Hj & Er & Hs)]].
  - destruct Hn. by apply (Forall_lookup_1 _ _ _ _ Hall Hi).
  - right. left. by apply Hm'.
  - right. right. exists j, todo, k, fore. cbn [lk_calls lk_map]. split; [|split; [done|by etrans]].
    rewrite list_lookup_insert_ne; [done|]. intros ->. rewrite Hi in Hj. injection Hj as ->. by destruct (Hx todo k).
Qed.

(** A row is put: by the call that has put all before it, or by another. *)
Lemma filling_row s i a todo k :
  lookups_inv s → lk_calls s !! i = Some (L_fill (a :: todo) k) →
  lookups_inv (Build_lookups (<[i := L_fill todo k]> (lk_calls s)) (put_row a (lk_map s))).
Proof.
  intros (Hm & Hc & Hf) Hi. destruct (Forall_lookup_1 _ _ _ _ Hc Hi) as [fore Er].
  destruct (put_row_full a (lk_map s)) as [Hle Hge]; [rewrite Er; set_solver|done|].
  split; [done|]. cbn [lk_calls lk_map]. split; [apply Forall_insert; [done|]; exists (fore ++ [a]); by rewrite <- app_assoc|].
  destruct Hf as [[_ Hn]|[Em|(j & todo' & k' & fore' & Hj & Er' & Hs)]].
  - by destruct (Forall_lookup_1 _ _ _ _ Hn Hi).
  - right. left. cbn [lk_map]. apply (anti_symm (⊆)); [done|by rewrite <- Em].
  - right. right. destruct (decide (i = j)) as [->|Hne].
    + rewrite Hi in Hj. injection Hj as <- <-. exists j, todo, k, (fore' ++ [a]). cbn [lk_calls lk_map].
      split; [by rewrite list_lookup_insert_eq by (by eapply lookup_lt_Some)|]. split; [by rewrite <- app_assoc|].
      rewrite fill_of_snoc. by apply put_row_subseteq.
    + exists j, todo', k', fore'. cbn [lk_calls lk_map]. rewrite list_lookup_insert_ne by done. split; [done|]. split; [done|by etrans].
Qed.

Lemma lookups_inv_run s i x x' m' :
  lookups_inv s → lk_calls s !! i = Some x → lstep x (lk_map s) = Some (x', m') →
  lookups_inv (Build_lookups (<[i := x']> (lk_calls s)) m').
Proof.
  intros Hinv Hi Hx. pose proof Hinv as (Hm & Hc & Hf).
  destruct x as [k|k|[|a todo] k|k|k b]; cbn [lstep] in Hx; try done; injection Hx as <- <-.
  - split; [done|]. cbn [lk_calls lk_map]. split; [apply Forall_insert; [done|]; by case_bool_decide|].
    destruct Hf as [[Em Hn]|[Em|(j & todo & k' & fore & Hj & Er & Hs)]]; [left|by right; left|right; right].
    + split; [done|]. cbn [lk_calls]. apply Forall_insert; [done|]. by rewrite bool_decide_eq_true_2.
    + exists j, todo, k', fore. cbn [lk_calls lk_map]. rewrite list_lookup_insert_ne by congruence. done.
  - split; [apply map_empty_subseteq|]. cbn [lk_calls lk_map]. split; [apply Forall_insert; [done|]; by exists []|].
    right. right. exists i, (lt_rows t), k, []. cbn [lk_calls lk_map].
    by rewrite list_lookup_insert_eq by (by eapply lookup_lt_Some).
  - split; [done|]. cbn [lk_calls lk_map]. split; [by apply Forall_insert|].
    destruct Hf as [[_ Hn]|[Em|(j & todo & k' & fore & Hj & Er & Hs)]].
    + by destruct (Forall_lookup_1 _ _ _ _ Hn Hi).
    + by right; left.
    + destruct (decide (i = j)) as [->|Hne].
      * rewrite Hi in Hj. injection Hj as <- <-. right. left. cbn [lk_map]. apply (anti_symm (⊆)); [done|].
        rewrite app_nil_r in Er. unfold full. by rewrite Er.
      * right. right. exists j, todo, k', fore. cbn [lk_calls lk_map]. by rewrite list_lookup_insert_ne.
  - by apply filling_row.
  - split; [done|]. cbn [lk_calls lk_map]. split; [|eapply filling_keep; [exact Hi|by intros []|done|done|done|exact Hf]].
    apply Forall_insert; [done|]. cbn [fair]. destruct (lk_map s !! k) as [v|] eqn:Ek; [left|by right].
    unfold answer_of. by rewrite (lookup_weaken _ _ _ _ Ek Hm).
Qed.

Lemma lookups_inv_reachable s : rtc lookup_step at_start s → lookups_inv s.
Proof.
  apply (rtc_invariant lookup_step lookups_inv).
  - intros s1 s2 Hinv Hs. destruct Hs; [by apply lookups_inv_arrive|by eapply lookups_inv_run].
  - split; [apply map_empty_subseteq|]. split; [constructor|]. left. split; [done|constructor].
Qed.

(** Once every call is answered, the map is full. *)
Definition answered s : Prop := Forall (λ x, ∃ k b, x = L_done k b) (lk_calls s).

Lemma lookups_end_full s :
  rtc lookup_step at_start s → answered s → lk_calls s ≠ [] → lk_map s = full.
Proof.
  intros Hr Ha Hne. destruct (lookups_inv_reachable s Hr) as (_ & _ & [[_ Hn]|[Em|(j & todo & k & fore & Hj & _)]]); [|done|].
  - destruct (lk_calls s) as [|x l] eqn:El; [done|]. apply list.Forall_cons in Hn as [Hn _]. unfold answered in Ha. rewrite El in Ha.
    by apply list.Forall_cons in Ha as [(k & b & ->) _].
  - by destruct (Forall_lookup_1 _ _ _ _ Ha Hj) as (k' & b & ?).
Qed.

End table.

(** ** Two first calls *)

Section first_calls.
Context {A K V : Type} `{Countable K} (t : LazyTable A K V).
#[local] Notation lookup_step := (lookup_step t).
#[local] Notation lstep := (lstep t).
#[local] Notation put_row := (put_row t).

Lemma run_once (calls : list (lcall A K)) m i x x' m' :
  calls !! i = Some x → lstep x m = Some (x', m') → lookup_step (Build_lookups calls m) (Build_lookups (<[i := x']> calls) m').
Proof. intros Hi Hx. exact (step_run t (Build_lookups calls m) i x x' m' Hi Hx). Qed.

Lemma two_arrive (k1 k2 : K) : rtc lookup_step at_start (Build_lookups [L_start k1; L_start k2] ∅).
Proof.
  eapply rtc_l; [exact (step_arrive t at_start k1)|]. apply rtc_once. exact (step_arrive t (Build_lookups [L_start k1] ∅) k2).
Qed.

(** Both find the map empty, and both are about to make a new one. *)
Lemma first_calls_race (k1 k2 : K) : ∃ s, rtc lookup_step at_start s ∧ race t s.
Proof.
  exists (Build_lookups [L_make k1; L_make k2] ∅). split.
  - etrans; [apply (two_arrive k1 k2)|]. eapply rtc_l; [by eapply (run_once _ _ 0)|].
    rewrite bool_decide_eq_true_2 by done. apply rtc_once.
    exact (run_once [L_make k1; L_start k2] ∅ 1 _ (L_make k2) ∅ eq_refl eq_refl).
  - exists 0%nat, 1%nat, (L_make k1), (L_make k2), Writes, Writes. split_and!; try done. by left.
Qed.

Lemma fill_through l1 l2 k y m :
  rtc lookup_step (Build_lookups [L_fill (l1 ++ l2) k; y] m) (Build_lookups [L_fill l2 k; y] (foldS put_row l1 m)).
Proof.
  revert m. induction l1 as [|a l1 IH]; intros m; [done|]. eapply rtc_l; [|apply IH].
  exact (run_once [L_fill ((a :: l1) ++ l2) k; y] m 0 _ _ _ eq_refl eq_refl).
Qed.

(** The second comes when the first has put one row, and looks into that. *)
Lemma half_filled_answer l1 a l2 (k1 k2 : K) :
  lt_rows t = l1 ++ a :: l2 → Forall (λ r, lt_skip t r = true) l1 → lt_skip t a = false → lt_key t a ≠ k2 →
  ∃ s, rtc lookup_step at_start s ∧ L_done k2 (lt_answer t k2 None) ∈ lk_calls s.
Proof.
  intros Er Hl Ha Hk. set (m := <[lt_key t a := lt_val t a]> (∅ : gmap K V)).
  assert (foldS put_row l1 ∅ = ∅) as E1.
  { clear Er. induction Hl as [|r l1 Hr _ IH]; [done|]. cbn [foldS]. unfold put_row at 2. by rewrite Hr. }
  assert (foldS put_row (l1 ++ [a]) ∅ = m) as Em by (rewrite foldS_app, E1; cbn [foldS]; unfold put_row; by rewrite Ha).
  exists (Build_lookups [L_fill l2 k1; L_done k2 (lt_answer t k2 (m !! k2))] m). split.
  - etrans; [apply (two_arrive k1 k2)|]. eapply rtc_l; [by eapply (run_once _ _ 0)|].
    rewrite bool_decide_eq_true_2 by done. eapply rtc_l; [by eapply (run_once _ _ 0)|]. cbn [insert list_insert].
    replace (lt_rows t) with ((l1 ++ [a]) ++ l2) by (rewrite Er; by rewrite <- app_assoc).
    etrans; [apply fill_through|]. rewrite Em. eapply rtc_l; [by eapply (run_once _ _ 1)|].
    rewrite bool_decide_eq_false_2 by apply insert_non_empty. cbn [insert list_insert].
    apply rtc_once. by apply (run_once [L_fill l2 k1; L_read k2] m 1 (L_read k2)).
  - cbn [lk_calls]. unfold m. rewrite lookup_insert_ne, lookup_empty by done. set_solver.
Qed.
End first_calls.

(** ** The two look-ups *)

Definition id_table : LazyTable SwComponment Z SwComponment := {|
  lt_rows := components; lt_key := sc_Id; lt_val := λ c, c; lt_skip := λ _, false;
  lt_answer := λ _ componment,
    match componment with
    | Some componment => if bool_decide (sc_Server componment = "") then sc_Name componment else sc_Server componment
    | None => "Unknown"
    end;
|}.

Definition name_table : LazyTable SwComponment string string := {|
  lt_rows := components; lt_key := sc_Name; lt_val := sc_Server; lt_skip := λ c, bool_decide (sc_Server c = "");
  lt_answer := λ componmentName server, default componmentName server;
|}.

Lemma id_answer id : answer_of id_table id = GetComponent id.
Proof. unfold answer_of, GetComponent. by rewrite componentIdMap_filled. Qed.

Lemma name_answer name : answer_of name_table name = GetServerName name.
Proof. unfold answer_of, GetServerName. by rewrite nameToServerMap_filled. Qed.

Lemma id_full : full id_table ≠ ∅.
Proof.
  intros E. pose proof (full_row id_table ids_NoDup (swc 0 "Unknown" "")) as Hr. rewrite E, lookup_empty in Hr.
  discriminate Hr; [by apply (list_elem_of_lookup_2 components 0)|done].
Qed.

Definition jedis : SwComponment := swc 30 "Jedis" "Redis".

Lemma name_full : full name_table ≠ ∅.
Proof.
  intros E. pose proof (full_row name_table names_NoDup jedis) as Hr. rewrite E, lookup_empty in Hr.
  discriminate Hr; [by apply (list_elem_of_lookup_2 components 30)|done].
Qed.

(** The first component with a server other than itself. *)
Lemma name_rows : ∃ l1 l2, components = l1 ++ jedis :: l2 ∧ Forall (λ c, lt_skip name_table c = true) l1.
Proof.
  exists (take 30 components), (drop 31 components). split; [by vm_compute|]. apply (bool_decide_unpack _). by vm_compute.
Qed.

(** C25: The look-ups of the component table, from any number of handlers at the same
    time and in any interleaving of their accesses.  Once the map is filled no two of them
    race and all answer by the table.  Before that, whatever happens, an answer is the one
    of the table or that of an unknown key, and when all are answered the map is the
    whole table; but two first look-ups can race, both about to write, and for all keys
    but one there is a run in which a look-up answers as if the key were not in the table. *)
Theorem component_race :
  (∀ s, rtc (lookup_step id_table) (once_filled id_table) s →
     ¬ race id_table s ∧ ∀ id n, L_done id n ∈ lk_calls s → n = GetComponent id) ∧
  (∀ s, rtc (lookup_step name_table) (once_filled name_table) s →
     ¬ race name_table s ∧ ∀ name n, L_done name n ∈ lk_calls s → n = GetServerName name) ∧
  (∀ s, rtc (lookup_step id_table) at_start s →
     (∀ id n, L_done id n ∈ lk_calls s → n = GetComponent id ∨ n = "Unknown") ∧
     (answered s → lk_calls s ≠ [] → lk_map s = componentIdMap)) ∧
  (∀ s, rtc (lookup_step name_table) at_start s →
     (∀ name n, L_done name n ∈ lk_calls s → n = GetServerName name ∨ n = name) ∧
     (answered s → lk_calls s ≠ [] → lk_map s = nameToServerMap)) ∧
  (∃ s, rtc (lookup_step id_table) at_start s ∧ race id_table s) ∧
  (∀ id, id ≠ 0 → ∃ s, rtc (lookup_step id_table) at_start s ∧ L_done id "Unknown" ∈ lk_calls s) ∧
  (∃ s, rtc (lookup_step name_table) at_start s ∧ race name_table s) ∧
  (∀ name, name ≠ "Jedis" → ∃ s, rtc (lookup_step name_table) at_start s ∧ L_done name name ∈ lk_calls s).
Proof.
  split_and!.
  - intros s Hr. destruct (once_filled_calm id_table s id_full Hr) as [_ Hc]. split; [by apply calm_no_race|].
    intros id n Hin. rewrite <- id_answer. by eapply calm_answer.
  - intros s Hr. destruct (once_filled_calm name_table s name_full Hr) as [_ Hc]. split; [by apply calm_no_race|].
    intros name n Hin. rewrite <- name_answer. by eapply calm_answer.
  - intros s Hr. split.
    + intros id n Hin. destruct (lookups_inv_reachable id_table ids_NoDup id_full s Hr) as (_ & Hf & _).
      rewrite <- id_answer. rewrite list.Forall_forall in Hf. exact (Hf _ Hin).
    + intros Ha Hne. rewrite (lookups_end_full id_table ids_NoDup id_full s Hr Ha Hne). by rewrite componentIdMap_filled.
  - intros s Hr. split.
    + intros name n Hin. destruct (lookups_inv_reachable name_table names_NoDup name_full s Hr) as (_ & Hf & _).
      rewrite <- name_answer. rewrite list.Forall_forall in Hf. exact (Hf _ Hin).
    + intros Ha Hne. rewrite (lookups_end_full name_table names_NoDup name_full s Hr Ha Hne). by rewrite nameToServerMap_filled.
  - apply (first_calls_race id_table 0 1).
  - intros id Hid. destruct components as [|a l] eqn:Ec; [by vm_compute in Ec|].
    assert (sc_Id a = 0) as Ea by (vm_compute in Ec; by injection Ec as <- _).
    apply (half_filled_answer id_table [] a l id id); [exact Ec|constructor|done|]. cbn [lt_key id_table]. congruence.
  - apply (first_calls_race name_table "" "").
  - intros name Hn. destruct name_rows as (l1 & l2 & Er & Hl).
    apply (half_filled_answer name_table l1 jedis l2 name name Er Hl); [done|]. cbn. congruence.
Qed.
