(* ===== verification/SwTraces.v ===== *)
(** * SwTraces: SkyWalking segments as traces

    Models [skywalkingproto_to_traces.go] but for the ids of SwIds: the tags, the
    spans with their events and links, the resource.  The messages are those of
    the SkyWalking protocol.  An [option] is a pointer or a slice that may be [nil]: the
    elements of the lists too, since a JSON body may hold [null] where the protocol has a
    message; enumerations are the numbers of the protocol.  [None] as a result is a
    panic: of an id with one dot, or of a field of a [nil] message.  The generated getters
    answer the zero value on [nil]. *)

From S2P Require Import Prelude GoStrings PData FillProc SqlPrune RedParsers SwIds SwComponents.

(** ** The messages *)

Definition SpanType_Entry : Z := 0.
Definition SpanType_Exit : Z := 1.
Definition SpanType_Local : Z := 2.
Definition SpanLayer_RPCFramework : Z := 2.
Definition SpanLayer_MQ : Z := 4.

Class SwProto := {
  (** [RefType.String()] of the generated code *)
  RefType_String : Z → string;
}.

Record KeyStringValuePair := { kv_Key : string; kv_Value : string }.

Record SwLog := { lg_Time : Z; lg_Data : list (option KeyStringValuePair) }.

Record SegmentReference := {
  sr_RefType : Z;
  sr_TraceId : string;
  sr_ParentTraceSegmentId : string;
  sr_ParentSpanId : Z;                 (* int32 *)
  sr_ParentService : string;
  sr_ParentServiceInstance : string;
  sr_ParentEndpoint : string;
  sr_NetworkAddressUsedAtPeer : string;
}.

Record SpanObject := {
  sw_SpanId : Z;                       (* int32 *)
  sw_ParentSpanId : Z;
  sw_StartTime : Z;                    (* int64, ms *)
  sw_EndTime : Z;
  sw_Refs : list (option SegmentReference);
  sw_OperationName : string;
  sw_Peer : string;
  sw_SpanType : Z;
  sw_SpanLayer : Z;
  sw_ComponentId : Z;
  sw_IsError : bool;
  sw_Tags : option (list (option KeyStringValuePair));
  sw_Logs : list (option SwLog);
}.

Record SegmentObject := {
  sg_TraceId : string;
  sg_TraceSegmentId : string;
  sg_Spans : option (list (option SpanObject));
  sg_Service : string;
  sg_ServiceInstance : string;
}.

(** ** Attribute names *)

Definition AttributeRefType : string := "refType".
Definition AttributeParentService : string := "parent.service".
Definition AttributeParentInstance : string := "parent.service.instance".
Definition AttributeParentEndpoint : string := "parent.endpoint".
Definition sw_AttributeSkywalkingSpanID : string := "sw8.span_id".
Definition AttributeSkywalkingTraceID : string := "sw8.trace_id".
Definition AttributeSkywalkingSegmentID : string := "sw8.segment_id".
Definition AttributeSkywalkingParentSpanID : string := "sw8.parent_span_id".
Definition AttributeSkywalkingParentSegmentID : string := "sw8.parent_segment_id".
Definition AttributeNetworkAddressUsedAtPeer : string := "network.AddressUsedAtPeer".

(** Names of the semantic conventions. *)
Definition AttributeHTTPStatusCode : string := "http.status_code".
Definition AttributeMessagingDestinationName : string := "messaging.destination.name".
Definition AttributeServiceName : string := "service.name".
Definition AttributeServiceInstanceID : string := "service.instance.id".

Definition otSpanResourcesMapping : gmap string string :=
  list_to_map [("url", AttributeHttpUrl); ("status_code", AttributeHTTPStatusCode)].

Definition otSpanTagsMapping : gmap string string :=
  list_to_map [("url", AttributeHttpUrl); ("db.type", AttributeDBSystem);
               ("db.instance", AttributeDBName); ("db.statement", AttributeDBStatement)].

Section traces.
Context `{PData} `{SqlParser} `{UuidLib} `{SwProto}.

(** ** Tags *)

Definition setCacheAttribute (dest : AMap) (key value : string) (spanType : Z) : bool * AMap :=
  if negb (HasPrefix key "cache.") then (true, dest)
  else
    (false,
     if spanType =? SpanType_Local then Map_PutStr key value dest
     else if bool_decide (key = "cache.type") then
       Map_PutStr AttributeDBSystem (ToLower (GetServerName value)) dest
     else if bool_decide (key = "cache.cmd") then Map_PutStr AttributeDBStatement value dest
     else if bool_decide (key = "cache.op") then Map_PutStr AttributeDBOperation value dest
     else Map_PutStr key value dest).

Definition setDbAttribute (dest : AMap) (key value : string) : option (bool * AMap) :=
  if negb (HasPrefix key "db.") then Some (true, dest)
  else if bool_decide (key = "db.type") then Some (false, Map_PutStr AttributeDBSystem (ToLower value) dest)
  else if bool_decide (key = "db.instance") then Some (false, Map_PutStr AttributeDBName value dest)
  else if bool_decide (key = "db.statement") then
    let dest := Map_PutStr AttributeDBStatement value dest in
    if bool_decide (value = "") then Some (false, dest)
    else
      '(operation, table) ← SQLParseOperationAndTableNEW value;
      Some (false,
            if bool_decide (operation = "") then dest
            else Map_PutStr AttributeDBSQLTable table (Map_PutStr AttributeDBOperation operation dest))
  else Some (false, Map_PutStr key value dest).

Definition setMqAttribute (dest : AMap) (key value : string) : bool * AMap :=
  if negb (HasPrefix key "mq.") then (true, dest)
  else
    (false,
     if bool_decide (key = "mq.queue") then Map_PutStr AttributeMessagingDestinationName value dest
     else if bool_decide (key = "mq.topic") then
       match Map_Get AttributeMessagingDestinationName dest with
       | Some _ => dest
       | None => Map_PutStr AttributeMessagingDestinationName value dest
       end
     else if bool_decide (key = "mq.broker") then Map_PutStr AttributeNetPeerName value dest
     else Map_PutStr key value dest).

(** The loop over a slice of pointers whose body reads a field of each. *)
Definition deref {A S} (f : A → S → option S) (a : option A) (s : S) : option S := a ← a; f a s.

(** The body of the loop over the tags. *)
Definition tag_attribute (spanType : Z) (tag : KeyStringValuePair) (dest : AMap) : option AMap :=
  let '(notCache, dest) := setCacheAttribute dest (kv_Key tag) (kv_Value tag) spanType in
  if negb notCache then Some dest
  else
    '(notDb, dest) ← setDbAttribute dest (kv_Key tag) (kv_Value tag);
    if negb notDb then Some dest
    else
      let '(notMq, dest) := setMqAttribute dest (kv_Key tag) (kv_Value tag) in
      if negb notMq then Some dest
      else Some (Map_PutStr (default (kv_Key tag) (otSpanTagsMapping !! kv_Key tag)) (kv_Value tag) dest).

Definition swToTags (span : SpanObject) (dest : AMap) : option AMap :=
  let component := ToLower (GetComponent (sw_ComponentId span)) in
  let dest :=
    if sw_SpanType span =? SpanType_Exit then
      let dest := Map_PutStr AttributeNetPeerName (sw_Peer span) dest in
      if sw_SpanLayer span =? SpanLayer_RPCFramework then Map_PutStr AttributeRPCSystem component dest else dest
    else dest in
  match sw_Tags span with
  | None => Some dest
  | Some tags =>
      let dest :=
        if (sw_SpanLayer span =? SpanLayer_MQ)
           && ((sw_SpanType span =? SpanType_Exit) || (sw_SpanType span =? SpanType_Entry))
        then Map_PutStr AttributeMessagingSystem component dest else dest in
      run_all (deref (tag_attribute (sw_SpanType span))) tags dest
  end.

(** ** Spans *)

Record SpanEvent := { se_Name : string; se_Timestamp : Z; se_Attributes : AMap }.

Record SpanLink := {
  sl_TraceID : TraceID;
  sl_SpanID : SpanID;
  sl_TraceState : string;
  sl_Attributes : AMap;
}.

(** A span with its status message, events and links. *)
Record SwSpan := {
  ss_Span : Span;
  ss_StatusMessage : string;
  ss_Events : list SpanEvent;
  ss_Links : list SpanLink;
}.

(** [microsecondsToTimestamp] - the argument is in milliseconds. *)
Definition microsecondsToTimestamp (ms : Z) : Z := u64 (i64 (ms * 1000000)).

Definition put_pair (pair : KeyStringValuePair) (dest : AMap) : option AMap :=
  Some (Map_PutStr (kv_Key pair) (kv_Value pair) dest).

Definition swKvPairsToInternalAttributes (pairs : list (option KeyStringValuePair)) (dest : AMap) : option AMap :=
  run_all (deref put_pair) pairs dest.

(** A log that is [nil] has the time zero and no data. *)
Definition log_event (log : option SwLog) : option SpanEvent :=
  attrs ← swKvPairsToInternalAttributes (from_option lg_Data [] log) Map_New;
  Some {| se_Name := "logs"; se_Timestamp := microsecondsToTimestamp (from_option lg_Time 0 log);
          se_Attributes := attrs |}.

Definition swLogsToSpanEvents (logs : list (option SwLog)) : option (list SpanEvent) := mapM log_event logs.

(** The attributes of a link. *)
Definition link_pairs (ref : SegmentReference) : list KeyStringValuePair :=
  [{| kv_Key := AttributeParentService; kv_Value := sr_ParentService ref |};
   {| kv_Key := AttributeParentInstance; kv_Value := sr_ParentServiceInstance ref |};
   {| kv_Key := AttributeParentEndpoint; kv_Value := sr_ParentEndpoint ref |};
   {| kv_Key := AttributeNetworkAddressUsedAtPeer; kv_Value := sr_NetworkAddressUsedAtPeer ref |};
   {| kv_Key := AttributeRefType; kv_Value := RefType_String (sr_RefType ref) |};
   {| kv_Key := AttributeSkywalkingTraceID; kv_Value := sr_TraceId ref |};
   {| kv_Key := AttributeSkywalkingParentSegmentID; kv_Value := sr_ParentTraceSegmentId ref |};
   {| kv_Key := AttributeSkywalkingParentSpanID; kv_Value := FormatInt (sr_ParentSpanId ref) |}].

(** [None] is a panic in one of the elements. *)
Definition ref_link (ref : SegmentReference) : option SpanLink :=
  tid ← swTraceIDToTraceID (sr_TraceId ref);
  sid ← segmentIDToSpanID (sr_ParentTraceSegmentId ref) (u32 (sr_ParentSpanId ref));
  attrs ← swKvPairsToInternalAttributes (Some <$> link_pairs ref) Map_New;
  Some {| sl_TraceID := tid; sl_SpanID := sid; sl_TraceState := ""; sl_Attributes := attrs |}.

Definition swReferencesToSpanLinks (refs : list (option SegmentReference)) : option (list SpanLink) :=
  mapM (λ ref, ref ← ref; ref_link ref) refs.

Definition setInternalSpanStatus (span : SpanObject) : StatusCode * string :=
  if sw_IsError span then (StatusCodeError, "ERROR") else (StatusCodeOk, "SUCCESS").

Definition setSwSpanIDToAttributes (span : SpanObject) (dest : AMap) : AMap :=
  let dest := Map_PutInt sw_AttributeSkywalkingSpanID (sw_SpanId span) dest in
  if negb (sw_ParentSpanId span =? -1)
  then Map_PutInt AttributeSkywalkingParentSpanID (sw_ParentSpanId span) dest else dest.

(** The switch at the end of [swSpanToSpan]. *)
Definition span_kind (span : SpanObject) : SpanKind :=
  let t := sw_SpanType span in
  if sw_SpanLayer span =? SpanLayer_MQ then
    if t =? SpanType_Entry then SpanKindConsumer
    else if t =? SpanType_Exit then SpanKindProducer
    else SpanKindUnspecified
  else if t =? SpanType_Exit then SpanKindClient
  else if t =? SpanType_Entry then SpanKindServer
  else if t =? SpanType_Local then SpanKindInternal
  else SpanKindUnspecified.

Definition swSpanToSpan (traceID segmentID : string) (span : SpanObject) : option SwSpan :=
  tid ← swTraceIDToTraceID traceID;
  sid ← segmentIDToSpanID segmentID (u32 (sw_SpanId span));
  parent ←
    (if negb (sw_ParentSpanId span =? -1) then segmentIDToSpanID segmentID (u32 (sw_ParentSpanId span))
     else match sw_Refs span with
          | [ref] => segmentIDToSpanID (from_option sr_ParentTraceSegmentId "" ref)
                       (u32 (from_option sr_ParentSpanId 0 ref))
          | _ => Some NewSpanIDEmpty
          end);
  attrs ← swToTags span Map_New;
  let attrs := Map_PutStr AttributeSkywalkingSegmentID segmentID attrs in
  let attrs := setSwSpanIDToAttributes span attrs in
  events ← swLogsToSpanEvents (sw_Logs span);
  links ← swReferencesToSpanLinks (sw_Refs span);
  Some {| ss_Span := {| Span_TraceID := tid; Span_SpanID := sid; Span_ParentSpanID := parent;
                        Span_Name := sw_OperationName span; Span_Kind := span_kind span;
                        Span_StartTimestamp := microsecondsToTimestamp (sw_StartTime span);
                        Span_EndTimestamp := microsecondsToTimestamp (sw_EndTime span);
                        Span_Attributes := attrs; Span_Status := (setInternalSpanStatus span).1 |};
          ss_StatusMessage := (setInternalSpanStatus span).2;
          ss_Events := events; ss_Links := links |}.

(** The spans that are nil are skipped. *)
Definition swSpansToSpanSlice (traceID segmentID : string) (spans : list (option SpanObject))
    : option (list SwSpan) :=
  mapM (swSpanToSpan traceID segmentID) (omap id spans).

(** ** Resources *)

Definition resource_attribute (tag : KeyStringValuePair) (attrs : AMap) : option AMap :=
  Some (match otSpanResourcesMapping !! kv_Key tag with
        | Some otKey => Map_PutStr otKey (kv_Value tag) attrs
        | None => attrs
        end).

(** Every span starts from a cleared resource. *)
Definition swTagsToInternalResource (span : option SpanObject) (dest : AMap) : option AMap :=
  match span with
  | None => Some dest
  | Some span =>
      match sw_Tags span with
      | None => Some Map_New
      | Some tags => run_all (deref resource_attribute) tags Map_New
      end
  end.

(** [ptrace.Traces] as the receiver builds them: under each resource the groups
    of spans. *)
Record SwResource := { sres_Attributes : AMap; sres_Scopes : list (list SwSpan) }.

Definition ProtoToTraces (segment : SegmentObject) (pid : Z) (containerId : string)
    : option (list SwResource) :=
  match sg_Spans segment with
  | None => Some []
  | Some swSpans =>
      rs ← run_all swTagsToInternalResource swSpans Map_New;
      let rs := if pid >? 0 then Map_PutInt KEY_PID pid rs else rs in
      let rs := if slen containerId >? 0 then Map_PutStr KEY_CONTAINERID containerId rs else rs in
      let rs := Map_PutStr AttributeServiceName (sg_Service segment) rs in
      let rs := Map_PutStr AttributeServiceInstanceID (sg_ServiceInstance segment) rs in
      let rs := Map_PutStr AttributeSkywalkingTraceID (sg_TraceId segment) rs in
      spans ← swSpansToSpanSlice (sg_TraceId segment) (sg_TraceSegmentId segment) swSpans;
      Some [{| sres_Attributes := rs; sres_Scopes := [spans] |}]
  end.
End traces.

Module RefProto.
#[export] Instance proto : SwProto := {|
  RefType_String n := if n =? 0 then "CrossProcess" else if n =? 1 then "CrossThread" else FormatInt n;
|}.
End RefProto.
