(* ===== verification/SwProps.v ===== *)
(** * SwProps: what a segment becomes

    When the translation of SwTraces panics, the tree its spans form, the
    destination of a message, and what else of a span its translation says. *)

From S2P Require Import Prelude GoStrings PData FillProc SqlPrune RedParsers SwIds SwComponents SwTraces.

(** ** Slices of pointers *)

Definition no_nil {A} (l : list (option A)) : Prop := Forall is_Some l.

Lemma not_no_nil {A} (l : list (option A)) : ¬ no_nil l ↔ None ∈ l.
Proof.
  unfold no_nil. split.
  - intros (x & Hx & Hn)%not_Forall_Exists%list.Exists_exists; [|apply _]. destruct x; [by destruct Hn|done].
  - intros Hin Hf. rewrite list.Forall_forall in Hf. by destruct (Hf None Hin).
Qed.

(** A loop that reads a field of each element ends just when none is [nil]. *)
Lemma run_deref_Some {A S} (f : A → S → option S) l s d :
  run_all (deref f) l s = Some d → no_nil l ∧ run_all f (omap id l) s = Some d.
Proof.
  revert s. induction l as [|[a|] l IH]; intros s; [by intros [= <-]; split; [constructor|]| |done].
  cbn [omap list_omap id]. simpl. destruct (f a s) as [s1|] eqn:E; simpl; [|done].
  intros [Hl Hr]%IH. split; [constructor; [by eexists|done]|done].
Qed.

Lemma run_deref_total {A S} (f : A → S → option S) l s :
  (∀ a s, is_Some (f a s)) → is_Some (run_all (deref f) l s) ↔ no_nil l.
Proof.
  intros Hf. split; [intros [d Hd]; by apply run_deref_Some in Hd as [? _]|]. intros Hl. revert s.
  induction Hl as [|x l [a ->] Hl IH]; intros s; [by eexists|].
  simpl. destruct (Hf a s) as [s1 ->]. apply IH.
Qed.

Lemma omap_Some {A} (l : list A) : omap id (Some <$> l) = l.
Proof. induction l as [|a l IH]; [done|]. rewrite fmap_cons. cbn. by rewrite IH. Qed.

Lemma no_nil_fmap {A} (l : list (option A)) : no_nil l → l = Some <$> omap id l.
Proof. induction 1 as [|x l [a ->] Hl IH]; [done|]. cbn. by rewrite <- IH. Qed.

Section props.
Context `{PD : PData} `{SP : SqlParser} `{UL : UuidLib} `{SWP : SwProto}.

(** ** Panics *)

Lemma tag_attribute_total t tag dest : is_Some (tag_attribute t tag dest).
Proof.
  unfold tag_attribute. destruct (setCacheAttribute _ _ _ _) as [[|] d]; simpl; [|by eexists].
  assert (is_Some (setDbAttribute d (kv_Key tag) (kv_Value tag))) as [[notDb d'] ->].
  { unfold setDbAttribute. repeat (case_match; try by eexists).
    destruct (SQLParse_NEW_total (kv_Value tag)) as [[op table] ->]. by eexists. }
  destruct notDb; simpl; [|by eexists]. destruct (setMqAttribute _ _ _) as [[|] ?]; by eexists.
Qed.

Lemma swToTags_total span dest : is_Some (swToTags span dest) ↔ no_nil (default [] (sw_Tags span)).
Proof.
  unfold swToTags. destruct (sw_Tags span) as [tags|]; [|split; [constructor|by eexists]].
  apply run_deref_total. apply tag_attribute_total.
Qed.

Lemma pairs_total pairs dest : is_Some (swKvPairsToInternalAttributes pairs dest) ↔ no_nil pairs.
Proof. apply run_deref_total. by eexists. Qed.

Lemma resource_total spans dest :
  is_Some (run_all swTagsToInternalResource spans dest) ↔
  Forall (λ span, no_nil (default [] (sw_Tags span))) (omap id spans).
Proof.
  assert (∀ span dest, is_Some (swTagsToInternalResource (Some span) dest) ↔ no_nil (default [] (sw_Tags span))) as Hr.
  { intros span d. cbn. destruct (sw_Tags span) as [tags|]; [apply run_deref_total; by eexists|split; [constructor|by eexists]]. }
  revert dest. induction spans as [|[span|] spans IH]; intros dest; [split; [constructor|by eexists]| |].
  - cbn [omap list_omap id]. rewrite list.Forall_cons, <- (Hr span dest), <- (IH (default dest (swTagsToInternalResource (Some span) dest))).
    cbn [run_all]. destruct (swTagsToInternalResource (Some span) dest); cbn; [|by split; [intros []|intros [[]]]].
    split; [intros ?; split; [by eexists|done]|by intros [_ ?]].
  - apply IH.
Qed.

Definition ref_ids_ok (ref : SegmentReference) : bool :=
  trace_id_ok (sr_TraceId ref) && segment_id_ok (sr_ParentTraceSegmentId ref).

Lemma segment_id_bad s : segment_id_ok s = false ↔ one_dot s = true.
Proof. unfold segment_id_ok. by destruct (one_dot s). Qed.

Lemma trace_id_bad s : trace_id_ok s = false ↔ 36 < slen s ∧ one_dot s = true.
Proof. unfold trace_id_ok. rewrite orb_false_iff, negb_false_iff, Z.leb_gt. done. Qed.

Lemma ref_ids_bad ref :
  ref_ids_ok ref = false ↔
  (36 < slen (sr_TraceId ref) ∧ one_dot (sr_TraceId ref) = true) ∨ one_dot (sr_ParentTraceSegmentId ref) = true.
Proof. unfold ref_ids_ok. by rewrite andb_false_iff, trace_id_bad, segment_id_bad. Qed.

Lemma not_Forall_Exists_bool {A} (f : A → bool) l :
  ¬ Forall (λ x, f x = true) l ↔ Exists (λ x, f x = false) l.
Proof.
  split.
  - intros Hn. apply not_Forall_Exists in Hn; [|apply _]. apply list.Exists_exists in Hn as (x & Hx & Hn). apply list.Exists_exists. exists x. split; [done|].
    by apply not_true_is_false.
  - intros He Hf. apply list.Exists_exists in He as (x & Hx & E). rewrite list.Forall_forall in Hf.
    rewrite (Hf x Hx) in E. done.
Qed.

Definition log_ok (log : option SwLog) : Prop := no_nil (from_option lg_Data [] log).
Definition ref_ok (ref : option SegmentReference) : bool := from_option ref_ids_ok false ref.

(** What a span is converted with: the ids, and no [nil] in its tags, the data of its logs
    and what it refers to. *)
Definition span_ok (segment : SegmentObject) (span : SpanObject) : Prop :=
  trace_id_ok (sg_TraceId segment) = true ∧ segment_id_ok (sg_TraceSegmentId segment) = true ∧
  no_nil (default [] (sw_Tags span)) ∧ Forall log_ok (sw_Logs span) ∧
  Forall (λ ref, ref_ok ref = true) (sw_Refs span).

#[global] Instance span_ok_dec segment span : Decision (span_ok segment span).
Proof. unfold span_ok, log_ok, no_nil. apply _. Defined.

Lemma bind_is_Some {A B} (o : option A) (f : A → option B) :
  is_Some (o ≫= f) ↔ ∃ x, o = Some x ∧ is_Some (f x).
Proof. destruct o; simpl; split; [eauto|by intros (? & [= <-] & ?)|by intros [? ?]|by intros (? & ? & ?)]. Qed.

Lemma ref_link_total ref : is_Some (ref_link ref) ↔ ref_ids_ok ref = true.
Proof.
  unfold ref_link, ref_ids_ok.
  rewrite andb_true_iff, <- swTraceIDToTraceID_total, <- (segmentIDToSpanID_total _ (u32 (sr_ParentSpanId ref))).
  assert (is_Some (swKvPairsToInternalAttributes (Some <$> link_pairs ref) Map_New)) as [attrs ->]
    by (apply pairs_total; repeat constructor; by eexists).
  destruct (swTraceIDToTraceID _), (segmentIDToSpanID _ _); simpl; unfold is_Some; naive_solver.
Qed.

Lemma swReferencesToSpanLinks_total refs :
  is_Some (swReferencesToSpanLinks refs) ↔ Forall (λ ref, ref_ok ref = true) refs.
Proof.
  unfold swReferencesToSpanLinks. rewrite mapM_is_Some. apply Forall_iff. intros [ref|]; [apply ref_link_total|].
  split; [by intros []|done].
Qed.

Lemma log_event_total log : is_Some (log_event log) ↔ log_ok log.
Proof.
  unfold log_event, log_ok. rewrite <- (pairs_total _ Map_New).
  destruct (swKvPairsToInternalAttributes _ _); simpl; [split; intros _; by eexists|]. by split; intros [].
Qed.

Lemma swLogsToSpanEvents_total logs : is_Some (swLogsToSpanEvents logs) ↔ Forall log_ok logs.
Proof. unfold swLogsToSpanEvents. rewrite mapM_is_Some. apply Forall_iff. intros log. apply log_event_total. Qed.

(** The parent of a span, when it is in its own segment or in another one. *)
Definition parent_id (segmentID : string) (span : SpanObject) : option SpanID :=
  if negb (sw_ParentSpanId span =? -1) then segmentIDToSpanID segmentID (u32 (sw_ParentSpanId span))
  else match sw_Refs span with
       | [ref] => segmentIDToSpanID (from_option sr_ParentTraceSegmentId "" ref) (u32 (from_option sr_ParentSpanId 0 ref))
       | _ => Some NewSpanIDEmpty
       end.

Lemma parent_id_total segment span :
  span_ok segment span → is_Some (parent_id (sg_TraceSegmentId segment) span).
Proof.
  intros (_ & Hs & _ & _ & Hr). unfold parent_id. destruct (negb _); [by apply segmentIDToSpanID_total|].
  destruct (sw_Refs span) as [|ref [|? ?]]; [by eexists| |by eexists].
  apply Forall_cons_1 in Hr as [Hr _]. destruct ref as [ref|]; [|done]. cbn in *.
  unfold ref_ids_ok in Hr. apply andb_true_iff in Hr as [_ Hr]. by apply segmentIDToSpanID_total.
Qed.

Lemma swSpanToSpan_total segment span :
  is_Some (swSpanToSpan (sg_TraceId segment) (sg_TraceSegmentId segment) span) ↔ span_ok segment span.
Proof.
  unfold swSpanToSpan. fold (parent_id (sg_TraceSegmentId segment) span). split.
  - intros (tid & Et & Hx)%bind_is_Some. apply bind_is_Some in Hx as (sid & Es & Hx).
    apply bind_is_Some in Hx as (parent & Ep & Hx). apply bind_is_Some in Hx as (attrs & Ea & Hx).
    apply bind_is_Some in Hx as (events & Ev & Hx). apply bind_is_Some in Hx as (links & El & _).
    split_and!; [apply swTraceIDToTraceID_total; eauto|eapply segmentIDToSpanID_total; eauto|
      eapply swToTags_total; eauto|apply swLogsToSpanEvents_total; eauto|apply swReferencesToSpanLinks_total; eauto].
  - intros Hok. pose proof Hok as (Ht & Hs & Ha & Hv & Hr).
    apply swTraceIDToTraceID_total in Ht as [tid ->].
    apply (segmentIDToSpanID_total _ (u32 (sw_SpanId span))) in Hs as [sid ->].
    apply swReferencesToSpanLinks_total in Hr as [links Hl]. apply swLogsToSpanEvents_total in Hv as [events Hv].
    destruct (parent_id_total segment span Hok) as [parent Ep]. apply (swToTags_total span Map_New) in Ha as [attrs Ea].
    simpl. rewrite Ep. simpl. rewrite Ea. simpl. rewrite Hv. simpl. rewrite Hl. by eexists.
Qed.

(** The spans of a segment that are there. *)
Definition real_spans (segment : SegmentObject) : list SpanObject := from_option (omap id) [] (sg_Spans segment).

Lemma not_Forall_ids segment :
  ¬ Forall (span_ok segment) (real_spans segment) ↔
  ∃ span, span ∈ real_spans segment ∧ ¬ span_ok segment span.
Proof.
  split.
  - intros Hn. apply not_Forall_Exists in Hn; [|apply _]. by apply list.Exists_exists in Hn.
  - intros (span & Hs & Hn) Hf. rewrite list.Forall_forall in Hf. by apply Hn, Hf.
Qed.

Lemma span_bad segment span :
  ¬ span_ok segment span ↔
  trace_id_ok (sg_TraceId segment) = false ∨ segment_id_ok (sg_TraceSegmentId segment) = false ∨
  ¬ no_nil (default [] (sw_Tags span)) ∨ ¬ Forall log_ok (sw_Logs span) ∨
  ¬ Forall (λ ref, ref_ok ref = true) (sw_Refs span).
Proof.
  assert (Decision (Forall log_ok (sw_Logs span))) as Hl by (unfold log_ok, no_nil; apply _).
  assert (Decision (no_nil (default [] (sw_Tags span)))) as Ht by (unfold no_nil; apply _).
  assert (Decision (Forall (λ ref, ref_ok ref = true) (sw_Refs span))) as Hr by apply _.
  unfold span_ok. destruct (trace_id_ok _), (segment_id_ok _), Hl, Ht, Hr; naive_solver.
Qed.

Lemma tags_bad span : ¬ no_nil (default [] (sw_Tags span)) ↔ ∃ tags, sw_Tags span = Some tags ∧ None ∈ tags.
Proof. rewrite not_no_nil. destruct (sw_Tags span) as [tags|]; cbn; [naive_solver|]. split; [by intros ?%not_elem_of_nil|naive_solver]. Qed.

Lemma logs_bad span : ¬ Forall log_ok (sw_Logs span) ↔ ∃ log, Some log ∈ sw_Logs span ∧ None ∈ lg_Data log.
Proof.
  split.
  - intros (x & Hx & Hn)%not_Forall_Exists%list.Exists_exists; [|unfold log_ok, no_nil; apply _].
    change (¬ no_nil (from_option lg_Data [] x)) in Hn. rewrite not_no_nil in Hn. destruct x as [log|]; [by exists log|by apply not_elem_of_nil in Hn].
  - intros (log & Hin & Hn) Hf. rewrite list.Forall_forall in Hf. by apply not_no_nil in Hn; apply Hn, (Hf (Some log)).
Qed.

Lemma refs_bad span :
  ¬ Forall (λ ref, ref_ok ref = true) (sw_Refs span) ↔
  None ∈ sw_Refs span ∨ ∃ ref, Some ref ∈ sw_Refs span ∧
    ((36 < slen (sr_TraceId ref) ∧ one_dot (sr_TraceId ref) = true) ∨ one_dot (sr_ParentTraceSegmentId ref) = true).
Proof.
  rewrite not_Forall_Exists_bool, list.Exists_exists. setoid_rewrite <- ref_ids_bad. split.
  - intros ([ref|] & Hin & Hb); [right; by exists ref|by left].
  - intros [Hin|(ref & Hin & Hb)]; [by exists None|by exists (Some ref)].
Qed.

Lemma ProtoToTraces_total segment pid containerId :
  is_Some (ProtoToTraces segment pid containerId) ↔ Forall (span_ok segment) (real_spans segment).
Proof.
  unfold ProtoToTraces, real_spans. destruct (sg_Spans segment) as [spans|]; simpl; [|split; [constructor|by eexists]].
  assert (is_Some (swSpansToSpanSlice (sg_TraceId segment) (sg_TraceSegmentId segment) spans) ↔
          Forall (span_ok segment) (omap id spans)) as Hs.
  { unfold swSpansToSpanSlice. rewrite mapM_is_Some. apply Forall_iff. intros span. apply swSpanToSpan_total. }
  rewrite bind_is_Some. split.
  - intros (rs & _ & (l & El & _)%bind_is_Some). apply Hs. eauto.
  - intros Hall. assert (is_Some (run_all swTagsToInternalResource spans Map_New)) as [rs ->].
    { apply resource_total. eapply list.Forall_impl; [exact Hall|]. by intros span (_ & _ & ? & _). }
    exists rs. split; [done|]. apply Hs in Hall as [l ->]. by eexists.
Qed.

(** C21: When the receiver stops: the translation of a segment panics exactly when one
    of its spans is there and is converted with an id - of its trace, its segment or
    what it refers to - of 32 hex digits before its only dot, for a trace id in more
    than 36 characters, or with a [nil] among its tags, the data of its logs or its
    references, where the JSON of a request over http says [null]. *)
Theorem ProtoToTraces_panics segment pid containerId :
  ProtoToTraces segment pid containerId = None ↔
  ∃ span, span ∈ real_spans segment ∧
    ((36 < slen (sg_TraceId segment) ∧ one_dot (sg_TraceId segment) = true) ∨
     one_dot (sg_TraceSegmentId segment) = true ∨
     (∃ tags, sw_Tags span = Some tags ∧ None ∈ tags) ∨
     (∃ log, Some log ∈ sw_Logs span ∧ None ∈ lg_Data log) ∨
     None ∈ sw_Refs span ∨
     ∃ ref, Some ref ∈ sw_Refs span ∧
       ((36 < slen (sr_TraceId ref) ∧ one_dot (sr_TraceId ref) = true) ∨
        one_dot (sr_ParentTraceSegmentId ref) = true)).
Proof.
  rewrite eq_None_not_Some, ProtoToTraces_total, not_Forall_ids. apply exist_proper. intros span.
  apply and_iff_compat_l. rewrite span_bad, trace_id_bad, segment_id_bad, tags_bad, logs_bad, refs_bad. tauto.
Qed.

(** ** The tree of spans *)

Definition spans_out (td : list SwResource) : list SwSpan := td ≫= λ r, mjoin (sres_Scopes r).

Lemma ProtoToTraces_spans segment pid containerId td :
  ProtoToTraces segment pid containerId = Some td →
  Forall2 (λ span o, swSpanToSpan (sg_TraceId segment) (sg_TraceSegmentId segment) span = Some o)
    (real_spans segment) (spans_out td).
Proof.
  unfold ProtoToTraces, real_spans. destruct (sg_Spans segment) as [spans|]; simpl; [|by intros [= <-]].
  destruct (run_all swTagsToInternalResource spans Map_New) as [rs|]; simpl; [|done].
  destruct (swSpansToSpanSlice _ _ _) as [l|] eqn:E; simpl; [|done]. intros [= <-].
  unfold spans_out. simpl. rewrite !app_nil_r. by apply mapM_Some.
Qed.

Context `{PDL : !PDataLaws PD}.

Lemma swSpanToSpan_fields t s span o :
  swSpanToSpan t s span = Some o →
  swTraceIDToTraceID t = Some (Span_TraceID (ss_Span o)) ∧
  segmentIDToSpanID s (u32 (sw_SpanId span)) = Some (Span_SpanID (ss_Span o)) ∧
  parent_id s span = Some (Span_ParentSpanID (ss_Span o)) ∧
  Span_Name (ss_Span o) = sw_OperationName span ∧
  Map_Get sw_AttributeSkywalkingSpanID (Span_Attributes (ss_Span o)) = Some (ValueInt (sw_SpanId span)) ∧
  isError (Span_Status (ss_Span o)) = sw_IsError span.
Proof.
  unfold swSpanToSpan. fold (parent_id s span).
  destruct (swTraceIDToTraceID t) as [tid|]; simpl; [|done].
  destruct (segmentIDToSpanID s (u32 (sw_SpanId span))) as [sid|]; simpl; [|done].
  destruct (parent_id s span) as [parent|]; simpl; [|done].
  destruct (swToTags span Map_New) as [attrs|]; simpl; [|done].
  destruct (swLogsToSpanEvents (sw_Logs span)) as [events|]; simpl; [|done].
  destruct (swReferencesToSpanLinks (sw_Refs span)) as [links|]; simpl; [|done]. intros [= <-]. simpl.
  split_and!; [done..| |].
  - unfold setSwSpanIDToAttributes, Map_PutInt. destruct (negb _); rewrite ?Map_Get_Put_ne by done; apply Map_Get_Put.
  - unfold setInternalSpanStatus. by destruct (sw_IsError span).
Qed.

(** [b] names [a] as its parent: by the span id when they are in one segment, by
    its only reference when [b] is the first of its segment. *)
Definition child_of (sA : SegmentObject) (a : SpanObject) (sB : SegmentObject) (b : SpanObject) : Prop :=
  if decide (sw_ParentSpanId b = -1) then
    ∃ ref, sw_Refs b = [Some ref] ∧ sr_ParentTraceSegmentId ref = sg_TraceSegmentId sA ∧ sr_ParentSpanId ref = sw_SpanId a
  else sg_TraceSegmentId sB = sg_TraceSegmentId sA ∧ sw_ParentSpanId b = sw_SpanId a.

Definition int32_range (z : Z) : Prop := - two31 <= z < two31.

Lemma u32_int32_inj a b : int32_range a → int32_range b → u32 a = u32 b → a = b.
Proof.
  unfold int32_range, u32, two31, two32. intros Ha Hb E.
  Z.to_euclidean_division_equations. lia.
Qed.

Lemma child_parent_id sA a sB b :
  child_of sA a sB b → parent_id (sg_TraceSegmentId sB) b = segmentIDToSpanID (sg_TraceSegmentId sA) (u32 (sw_SpanId a)).
Proof.
  unfold child_of, parent_id. case_decide as Hp.
  - intros (ref & -> & Es & Ei). rewrite Hp. cbn. by rewrite Es, Ei.
  - intros [-> <-]. by destruct (Z.eqb_spec (sw_ParentSpanId b) (-1)).
Qed.

Lemma parent_id_child s a b d mid last :
  sw_format s d mid last → int32_range (sw_SpanId a) → int32_range (sw_ParentSpanId b) → sw_ParentSpanId b ≠ -1 →
  parent_id s b = segmentIDToSpanID s (u32 (sw_SpanId a)) → sw_ParentSpanId b = sw_SpanId a.
Proof.
  intros Hs Ha Hb Hne. unfold parent_id. destruct (Z.eqb_spec (sw_ParentSpanId b) (-1)); [done|]. simpl.
  intros E. apply (segmentIDToSpanID_inj s d mid last _ _ Hs) in E. unfold u32 in E.
  rewrite !Zmod_mod in E. by apply u32_int32_inj.
Qed.

(** C19: The tree of a trace survives: when two segments are translated, every
    span of theirs has its counterpart, in order, with its name, its error and
    its own span id as an attribute; a span that names another one as its parent
    - in its segment or across segments - gets the id of that one's counterpart
    as its parent id, and inside a segment whose id has one of the formats no
    other span does. *)
Theorem segments_tree sA pA cA tdA sB pB cB tdB i j a b :
  ProtoToTraces sA pA cA = Some tdA → ProtoToTraces sB pB cB = Some tdB →
  real_spans sA !! i = Some a → real_spans sB !! j = Some b →
  length (spans_out tdB) = length (real_spans sB) ∧
  ∃ oa ob, spans_out tdA !! i = Some oa ∧ spans_out tdB !! j = Some ob ∧
    (Span_Name (ss_Span ob) = sw_OperationName b ∧ isError (Span_Status (ss_Span ob)) = sw_IsError b ∧
     Map_Get sw_AttributeSkywalkingSpanID (Span_Attributes (ss_Span ob)) = Some (ValueInt (sw_SpanId b))) ∧
    (sg_TraceId sA = sg_TraceId sB → Span_TraceID (ss_Span oa) = Span_TraceID (ss_Span ob)) ∧
    (child_of sA a sB b → Span_ParentSpanID (ss_Span ob) = Span_SpanID (ss_Span oa)) ∧
    (∀ d mid last, sw_format (sg_TraceSegmentId sA) d mid last → sg_TraceSegmentId sB = sg_TraceSegmentId sA →
       int32_range (sw_SpanId a) → int32_range (sw_ParentSpanId b) → sw_ParentSpanId b ≠ -1 →
       Span_ParentSpanID (ss_Span ob) = Span_SpanID (ss_Span oa) → sw_ParentSpanId b = sw_SpanId a).
Proof.
  intros EA EB Ha Hb. apply ProtoToTraces_spans in EA as HA, EB as HB.
  split; [symmetry; by eapply Forall2_length|].
  destruct (Forall2_lookup_l _ _ _ _ _ HA Ha) as (oa & Hoa & Ea).
  destruct (Forall2_lookup_l _ _ _ _ _ HB Hb) as (ob & Hob & Eb).
  apply swSpanToSpan_fields in Ea as (Ta & Sa & Pa & _), Eb as (Tb & Sb & Pb & Nb & Ab & Rb).
  exists oa, ob. split_and!; [done..| | |].
  - intros Et. rewrite Et, Tb in Ta. congruence.
  - intros Hc. apply child_parent_id in Hc. rewrite Pb, Sa in Hc. congruence.
  - intros d mid last Hs Eseg Hra Hrb Hne Ep. eapply parent_id_child; [done..|].
    rewrite <- Eseg at 1. rewrite Pb, Sa. congruence.
Qed.

(** ** The destination of a message *)

Definition values_of (key : string) (tags : list KeyStringValuePair) : list string :=
  kv_Value <$> filter (λ t, kv_Key t = key) tags.

Lemma values_of_cons key t tags :
  values_of key (t :: tags) = if decide (kv_Key t = key) then kv_Value t :: values_of key tags else values_of key tags.
Proof. unfold values_of. rewrite filter_cons. by case_decide. Qed.

Notation dst := AttributeMessagingDestinationName (only parsing).

Lemma mapped_key_ne key : key ≠ dst → default key (otSpanTagsMapping !! key) ≠ dst.
Proof.
  intros Hk. destruct (otSpanTagsMapping !! key) as [k|] eqn:E; simpl; [|done].
  unfold otSpanTagsMapping in E. apply elem_of_list_to_map_2 in E.
  repeat (apply elem_of_cons in E as [[= -> ->]|E]; [done|]). by apply elem_of_nil in E.
Qed.

Lemma Map_PutStr_ne k v m : k ≠ dst → Map_Get dst (Map_PutStr k v m) = Map_Get dst m.
Proof. intros. by apply Map_Get_Put_ne. Qed.

Lemma setDbAttribute_dst dest key value b d :
  key ≠ dst → setDbAttribute dest key value = Some (b, d) → Map_Get dst d = Map_Get dst dest.
Proof.
  intros Hk. unfold setDbAttribute.
  destruct (negb _); [by intros [= _ <-]|]. destruct (bool_decide (key = "db.type"));
    [intros [= _ <-]; by apply Map_PutStr_ne|].
  destruct (bool_decide (key = "db.instance")); [intros [= _ <-]; by apply Map_PutStr_ne|].
  destruct (bool_decide (key = "db.statement")); [|intros [= _ <-]; by apply Map_PutStr_ne].
  destruct (bool_decide (value = "")); [intros [= _ <-]; by apply Map_PutStr_ne|].
  destruct (SQLParseOperationAndTableNEW value) as [[op table]|]; simpl; [|done].
  intros [= _ <-]. case_match; by rewrite ?Map_PutStr_ne.
Qed.

Lemma setCacheAttribute_dst dest key value t : key ≠ dst → Map_Get dst (setCacheAttribute dest key value t).2 = Map_Get dst dest.
Proof.
  intros Hk. unfold setCacheAttribute. destruct (negb _); [done|]. simpl.
  repeat case_match; by rewrite Map_PutStr_ne.
Qed.

(** What one tag does to the destination. *)
Definition dst_after (key value : string) (old : option Value) : option Value :=
  if decide (key = "mq.queue") then Some (ValueStr value)
  else if decide (key = "mq.topic") then match old with Some x => Some x | None => Some (ValueStr value) end
  else old.

Lemma tag_attribute_dst t tag dest d :
  kv_Key tag ≠ dst → tag_attribute t tag dest = Some d →
  Map_Get dst d = dst_after (kv_Key tag) (kv_Value tag) (Map_Get dst dest).
Proof.
  destruct tag as [key value]. simpl. intros Hk. unfold dst_after.
  destruct (decide (key = "mq.queue")) as [->|Hq]; [intros [= <-]; apply Map_Get_Put|].
  destruct (decide (key = "mq.topic")) as [->|Ht].
  { unfold tag_attribute. simpl. intros [= <-].
    destruct (Map_Get dst dest) eqn:E; [done|]. apply Map_Get_Put. }
  unfold tag_attribute. cbn [kv_Key kv_Value]. pose proof (setCacheAttribute_dst dest key value t Hk) as Hc.
  destruct (setCacheAttribute dest key value t) as [[|] d1]; simpl in Hc |- *; [|by intros [= <-]].
  destruct (setDbAttribute d1 key value) as [[nd d2]|] eqn:Ed; simpl; [|done].
  apply setDbAttribute_dst in Ed; [|done]. destruct nd; simpl; [|intros [= <-]; congruence].
  unfold setMqAttribute. destruct (negb (HasPrefix key "mq.")); simpl.
  - intros [= <-]. rewrite Map_PutStr_ne by (by apply mapped_key_ne). congruence.
  - rewrite !bool_decide_eq_false_2 by done. intros [= <-]. case_match; rewrite Map_PutStr_ne by done; congruence.
Qed.

Lemma tags_dst t tags dest d :
  Forall (λ tag, kv_Key tag ≠ dst) tags → run_all (tag_attribute t) tags dest = Some d →
  Map_Get dst d = match list.last (values_of "mq.queue" tags) with
                  | Some q => Some (ValueStr q)
                  | None => match Map_Get dst dest with
                            | Some x => Some x
                            | None => ValueStr <$> head (values_of "mq.topic" tags)
                            end
                  end.
Proof.
  intros Hall. revert dest. induction Hall as [|tag tags Hk _ IH]; intros dest; simpl.
  - intros [= <-]. by destruct (Map_Get dst dest).
  - destruct (tag_attribute t tag dest) as [d1|] eqn:E; simpl; [|done]. intros Hr. rewrite (IH _ Hr).
    rewrite (tag_attribute_dst _ _ _ _ Hk E). rewrite !values_of_cons. unfold dst_after.
    destruct (decide (kv_Key tag = "mq.queue")) as [Eq|Hq].
    + rewrite last_cons. by destruct (list.last _).
    + destruct (list.last _); [done|]. destruct (decide (kv_Key tag = "mq.topic")); [|done].
      by destruct (Map_Get dst dest).
Qed.

(** The destination of a message does not depend on the order of its tags:
    as long as no tag is named as the attribute itself, the translated span has
    the last queue of its tags as its destination, or else their first topic, or
    else none. *)
Theorem mq_destination span tags :
  sw_Tags span = Some (Some <$> tags) → Forall (λ tag, kv_Key tag ≠ AttributeMessagingDestinationName) tags →
  ∃ attrs, swToTags span Map_New = Some attrs ∧
    Map_Get AttributeMessagingDestinationName attrs =
      ValueStr <$> match list.last (values_of "mq.queue" tags) with
                   | Some q => Some q
                   | None => head (values_of "mq.topic" tags)
                   end.
Proof.
  intros Et Hall. assert (is_Some (swToTags span Map_New)) as [attrs E].
  { apply swToTags_total. rewrite Et. apply list.Forall_fmap, Forall_true. by eexists. }
  exists attrs. split; [done|].
  unfold swToTags in E. rewrite Et in E. apply run_deref_Some in E as [_ E]. rewrite omap_Some in E.
  match type of E with run_all _ _ ?D = _ => assert (Map_Get dst D = None) as HD end.
  { destruct (_ && _); [rewrite Map_PutStr_ne by done|]; (destruct (_ =? _); [destruct (_ =? _)|]);
      rewrite ?Map_PutStr_ne by done; apply Map_Get_New. }
  eapply tags_dst in E; [|done]. rewrite E, HD. by destruct (list.last _).
Qed.
(** ** The other fields *)

(** A span that a reference names, in whatever segment. *)
Definition names_span (ref : SegmentReference) (segment : SegmentObject) (a : SpanObject) : Prop :=
  sr_TraceId ref = sg_TraceId segment ∧ sr_ParentTraceSegmentId ref = sg_TraceSegmentId segment ∧
  sr_ParentSpanId ref = sw_SpanId a.

(** Milliseconds whose nanoseconds have 63 bits: up to the year 2262. *)
Definition time_range (ms : Z) : Prop := 0 <= ms <= 9223372036854.

Lemma microsecondsToTimestamp_spec ms : time_range ms → microsecondsToTimestamp ms = ms * 1000000.
Proof.
  unfold time_range, microsecondsToTimestamp, u64, i64, two64, two63. intros Hms.
  rewrite (Z.mod_small (ms * 1000000 + _)) by lia. rewrite Z.mod_small; lia.
Qed.

Lemma pairs_get pairs m d key :
  run_all put_pair pairs m = Some d →
  Map_Get key d = match list.last (values_of key pairs) with
                  | Some v => Some (ValueStr v)
                  | None => Map_Get key m
                  end.
Proof.
  revert m. induction pairs as [|p pairs IH]; intros m; cbn [run_all]; [by intros [= <-]|].
  unfold put_pair at 1. cbn [mbind option_bind]. intros E%IH. rewrite E, values_of_cons.
  unfold Map_PutStr. case_decide as Hk.
  - rewrite <- Hk, Map_Get_Put, last_cons. by destruct (list.last (values_of (kv_Key p) pairs)).
  - destruct (list.last _); [done|]. by apply Map_Get_Put_ne.
Qed.

Lemma nil_pairs_get pairs d key :
  swKvPairsToInternalAttributes pairs Map_New = Some d →
  Map_Get key d = ValueStr <$> list.last (values_of key (omap id pairs)).
Proof.
  intros [_ E]%run_deref_Some. rewrite (pairs_get _ _ _ key E), Map_Get_New. by destruct (list.last _).
Qed.

(** The event of a log: its time and, for each key of its data, the last value. *)
Definition event_of (log : option SwLog) (ev : SpanEvent) : Prop :=
  se_Name ev = "logs" ∧
  (time_range (from_option lg_Time 0 log) → se_Timestamp ev = from_option lg_Time 0 log * 1000000) ∧
  ∀ key, Map_Get key (se_Attributes ev) = ValueStr <$> list.last (values_of key (omap id (from_option lg_Data [] log))).

(** The link of a reference: to the counterpart of the span it names, in whatever segment
    that is, with what the reference says of it. *)
Definition link_of (ref : option SegmentReference) (link : SpanLink) : Prop :=
  ∃ r, ref = Some r ∧
    (∀ segment pid containerId td j a oa,
       ProtoToTraces segment pid containerId = Some td → real_spans segment !! j = Some a → spans_out td !! j = Some oa →
       names_span r segment a →
       sl_TraceID link = Span_TraceID (ss_Span oa) ∧ sl_SpanID link = Span_SpanID (ss_Span oa)) ∧
    Forall (λ kv, Map_Get kv.1 (sl_Attributes link) = Some (ValueStr kv.2))
      [("parent.service", sr_ParentService r); ("parent.service.instance", sr_ParentServiceInstance r);
       ("parent.endpoint", sr_ParentEndpoint r); ("network.AddressUsedAtPeer", sr_NetworkAddressUsedAtPeer r);
       ("refType", RefType_String (sr_RefType r)); ("sw8.trace_id", sr_TraceId r);
       ("sw8.parent_segment_id", sr_ParentTraceSegmentId r); ("sw8.parent_span_id", FormatInt (sr_ParentSpanId r))].

Lemma log_event_of log ev : log_event log = Some ev → event_of log ev.
Proof.
  unfold log_event. destruct (swKvPairsToInternalAttributes _ Map_New) as [attrs|] eqn:E; simpl; [|done].
  intros [= <-]. split_and!; [done|apply microsecondsToTimestamp_spec|]. intros key. by apply nil_pairs_get.
Qed.

Lemma ref_link_of r link : ref_link r = Some link → link_of (Some r) link.
Proof.
  unfold ref_link. destruct (swTraceIDToTraceID (sr_TraceId r)) as [tid|] eqn:Et; cbn [mbind option_bind]; [|done].
  destruct (segmentIDToSpanID _ _) as [sid|] eqn:Es; cbn [mbind option_bind]; [|done].
  destruct (swKvPairsToInternalAttributes _ Map_New) as [attrs|] eqn:Ea; cbn [mbind option_bind]; [|done]. intros [= <-].
  exists r. split; [done|]. split.
  - intros segment pid cid td j a oa E Ha Hoa (H1 & H2 & H3). apply ProtoToTraces_spans in E.
    pose proof (Forall2_lookup_lr _ _ _ _ _ _ E Ha Hoa) as Eo. apply swSpanToSpan_fields in Eo as (T & S & _).
    rewrite H1, T in Et. rewrite H2, H3, S in Es. cbn. split; congruence.
  - pose proof (λ key, nil_pairs_get _ _ key Ea) as Hg. cbn [sl_Attributes].
    repeat constructor; rewrite Hg, omap_Some; reflexivity.
Qed.

(** What a translation has besides the ids. *)
Lemma swSpanToSpan_rest t s span o :
  swSpanToSpan t s span = Some o →
  Span_Kind (ss_Span o) = span_kind span ∧
  Span_StartTimestamp (ss_Span o) = microsecondsToTimestamp (sw_StartTime span) ∧
  Span_EndTimestamp (ss_Span o) = microsecondsToTimestamp (sw_EndTime span) ∧
  (Span_Status (ss_Span o), ss_StatusMessage o) = setInternalSpanStatus span ∧
  swLogsToSpanEvents (sw_Logs span) = Some (ss_Events o) ∧ swReferencesToSpanLinks (sw_Refs span) = Some (ss_Links o) ∧
  Map_Get AttributeSkywalkingSegmentID (Span_Attributes (ss_Span o)) = Some (ValueStr s).
Proof.
  unfold swSpanToSpan. fold (parent_id s span).
  destruct (swTraceIDToTraceID t) as [tid|]; simpl; [|done].
  destruct (segmentIDToSpanID s (u32 (sw_SpanId span))) as [sid|]; simpl; [|done].
  destruct (parent_id s span) as [parent|]; simpl; [|done].
  destruct (swToTags span Map_New) as [attrs|]; simpl; [|done].
  destruct (swLogsToSpanEvents (sw_Logs span)) as [events|]; simpl; [|done].
  destruct (swReferencesToSpanLinks (sw_Refs span)) as [links|]; simpl; [|done]. intros [= <-]. simpl.
  split_and!; try done; [by destruct (setInternalSpanStatus span)|].
  unfold setSwSpanIDToAttributes, Map_PutInt, Map_PutStr. destruct (negb _); rewrite !Map_Get_Put_ne by done; apply Map_Get_Put.
Qed.

(** C23: What a span says survives its translation: its counterpart has the kind of its
    type - of messages where its layer is that -, its times in nanoseconds, its error as
    the status, the segment as an attribute, one event per log with the time and the
    data of the log, and one link per reference: with the ids of the counterpart of the
    span it names, in whatever segment that is translated, and what the reference says
    of it. *)
Theorem span_translated segment pid containerId td i span :
  ProtoToTraces segment pid containerId = Some td → real_spans segment !! i = Some span →
  ∃ o, spans_out td !! i = Some o ∧
    (let kind := Span_Kind (ss_Span o) in let mq := sw_SpanLayer span = SpanLayer_MQ in
     (kind = SpanKindConsumer ↔ mq ∧ sw_SpanType span = SpanType_Entry) ∧
     (kind = SpanKindProducer ↔ mq ∧ sw_SpanType span = SpanType_Exit) ∧
     (kind = SpanKindServer ↔ ¬ mq ∧ sw_SpanType span = SpanType_Entry) ∧
     (kind = SpanKindClient ↔ ¬ mq ∧ sw_SpanType span = SpanType_Exit) ∧
     (kind = SpanKindInternal ↔ ¬ mq ∧ sw_SpanType span = SpanType_Local)) ∧
    (time_range (sw_StartTime span) → Span_StartTimestamp (ss_Span o) = sw_StartTime span * 1000000) ∧
    (time_range (sw_EndTime span) → Span_EndTimestamp (ss_Span o) = sw_EndTime span * 1000000) ∧
    (Span_Status (ss_Span o), ss_StatusMessage o) =
      (if sw_IsError span then (StatusCodeError, "ERROR") else (StatusCodeOk, "SUCCESS")) ∧
    Map_Get "sw8.segment_id" (Span_Attributes (ss_Span o)) = Some (ValueStr (sg_TraceSegmentId segment)) ∧
    Forall2 event_of (sw_Logs span) (ss_Events o) ∧ Forall2 link_of (sw_Refs span) (ss_Links o).
Proof.
  intros E Hs. apply ProtoToTraces_spans in E. destruct (Forall2_lookup_l _ _ _ _ _ E Hs) as (o & Ho & Eo).
  apply swSpanToSpan_rest in Eo as (Ek & Es & Ee & Est & Ev & El & Eseg). exists o. rewrite Ek, Es, Ee, Est.
  split_and!; [done| |apply microsecondsToTimestamp_spec|apply microsecondsToTimestamp_spec|done|exact Eseg| |].
  - unfold span_kind. destruct (Z.eqb_spec (sw_SpanLayer span) SpanLayer_MQ) as [Hl|Hl];
      destruct (Z.eqb_spec (sw_SpanType span) SpanType_Entry) as [->|H1]; [naive_solver| |naive_solver|];
      (destruct (Z.eqb_spec (sw_SpanType span) SpanType_Exit) as [->|H2]; [naive_solver|]);
      [naive_solver|]. destruct (Z.eqb_spec (sw_SpanType span) SpanType_Local) as [->|H3]; naive_solver.
  - apply mapM_Some in Ev. eapply list.Forall2_impl; [exact Ev|]. intros log ev. apply log_event_of.
  - apply mapM_Some in El. eapply list.Forall2_impl; [exact El|]. intros [ref|] link; [apply ref_link_of|done].
Qed.
End props.

(** ** Two segments of one trace *)

Import RefPData RefSql RefUuid RefProto.

Definition ex_segA : string := "56a5e1c519ae4c76a2b8b11d92cead7f.12.16563474296430001".
Definition ex_segB : string := "0123456789abcdef0123456789abcdef.7.16563474296430002".

Definition ex_sw_span (id parent : Z) (refs : list (option SegmentReference)) (name : string) (t layer : Z)
    (tags : list KeyStringValuePair) : SpanObject := {|
  sw_SpanId := id; sw_ParentSpanId := parent; sw_StartTime := 1000; sw_EndTime := 1010; sw_Refs := refs;
  sw_OperationName := name; sw_Peer := "host:80"; sw_SpanType := t; sw_SpanLayer := layer;
  sw_ComponentId := 5014; sw_IsError := false; sw_Tags := Some (Some <$> tags); sw_Logs := [] |}.

Definition ex_tags : list KeyStringValuePair :=
  [{| kv_Key := "mq.topic"; kv_Value := "t" |}; {| kv_Key := "mq.queue"; kv_Value := "q" |};
   {| kv_Key := "mq.topic"; kv_Value := "t2" |}].

Definition ex_exit_span : SpanObject := ex_sw_span 1 0 [] "send" SpanType_Exit SpanLayer_MQ ex_tags.

Definition ex_entry_span : SpanObject :=
  ex_sw_span 0 (-1) [Some {| sr_RefType := 0; sr_TraceId := ex_segA; sr_ParentTraceSegmentId := ex_segA;
    sr_ParentSpanId := 1; sr_ParentService := "a"; sr_ParentServiceInstance := "a1"; sr_ParentEndpoint := "send";
    sr_NetworkAddressUsedAtPeer := "host:80" |}] "receive" SpanType_Entry SpanLayer_MQ [].

Definition ex_sA : SegmentObject := {|
  sg_TraceId := ex_segA; sg_TraceSegmentId := ex_segA;
  sg_Spans := Some [Some (ex_sw_span 0 (-1) [] "GET" SpanType_Entry 3 []); None; Some ex_exit_span];
  sg_Service := "a"; sg_ServiceInstance := "a1" |}.

Definition ex_sB : SegmentObject := {|
  sg_TraceId := ex_segA; sg_TraceSegmentId := ex_segB; sg_Spans := Some [Some ex_entry_span];
  sg_Service := "b"; sg_ServiceInstance := "b1" |}.

Lemma ex_translated segment :
  bool_decide (Forall (span_ok segment) (real_spans segment)) = true → ∃ td, ProtoToTraces segment 7 "" = Some td.
Proof. intros Hd. apply bool_decide_eq_true in Hd. by apply (ProtoToTraces_total segment 7 "") in Hd. Qed.

Lemma segments_tree_witness :
  ∃ tdA tdB oa ob, ProtoToTraces ex_sA 7 "" = Some tdA ∧ ProtoToTraces ex_sB 7 "" = Some tdB ∧
    spans_out tdA !! 1%nat = Some oa ∧ spans_out tdB !! 0%nat = Some ob ∧
    Span_ParentSpanID (ss_Span ob) = Span_SpanID (ss_Span oa).
Proof.
  destruct (ex_translated ex_sA) as [tdA EA]; [by vm_compute|].
  destruct (ex_translated ex_sB) as [tdB EB]; [by vm_compute|].
  destruct (segments_tree ex_sA 7 "" tdA ex_sB 7 "" tdB 1 0 ex_exit_span ex_entry_span EA EB)
    as (_ & oa & ob & Ha & Hb & _ & _ & Hc & _); [reflexivity|reflexivity|].
  exists tdA, tdB, oa, ob. split_and!; [done..|]. apply Hc. unfold child_of. simpl. by eexists.
Defined.

Lemma span_translated_witness :
  ∃ td o, ProtoToTraces ex_sB 7 "" = Some td ∧ spans_out td !! 0%nat = Some o ∧
    Span_Kind (ss_Span o) = SpanKindConsumer ∧ Forall2 link_of (sw_Refs ex_entry_span) (ss_Links o).
Proof.
  destruct (ex_translated ex_sB) as [td E]; [by vm_compute|].
  destruct (span_translated ex_sB 7 "" td 0 ex_entry_span E) as (o & Ho & (Hk & _) & _ & _ & _ & _ & _ & Hl); [reflexivity|].
  exists td, o. split_and!; [done|done|by apply Hk|done].
Defined.

Lemma mq_destination_witness :
  ∃ attrs, swToTags ex_exit_span Map_New = Some attrs ∧
    Map_Get AttributeMessagingDestinationName attrs = Some (ValueStr "q").
Proof.
  destruct (mq_destination ex_exit_span ex_tags eq_refl) as (attrs & E & Hd).
  - by repeat constructor.
  - exists attrs. split; [done|]. by rewrite Hd.
Defined.
