(* ===== verification/Undertow.v ===== *)
(** * Undertow: the SkyWalking receiver

    Models [undertow_trace.go] and [tracing_report_service.go]: a request served by
    Undertow arrives as two segments, one of the I/O thread and one of the task,
    in either order; the cache holds the first until the other is there.  What
    the receiver hands to the next consumer is the output; whether the consumer
    accepts it is the argument [accepts].  [None] is a panic. *)

From S2P Require Import Prelude GoStrings PData FillProc SqlPrune RedParsers SwIds SwComponents SwTraces SwProps.

Definition sw_ComponentUndertow : Z := 84.
Definition ComponentSpringMVC : Z := 14.
Definition OperateNameUndertow : string := "UndertowDispatch".

Section undertow.
Context `{PD : PData} `{SP : SqlParser} `{UL : UuidLib} `{SWP : SwProto}.

Record UndertowCache := {
  uc_ioTraceMap : gmap string (list SwResource);
  uc_routeUrlMap : gmap string string;
}.

(** The variables of the loop: [isUndertow], [routeUrl], [parentSegmentId]. *)
Definition scan_span (span : option SpanObject) (s : bool * string * string) : option (bool * string * string) :=
  let '(isUndertow, routeUrl, parentSegmentId) := s in
  span ← span;
  '(isUndertow, parentSegmentId) ←
    (if (sw_ComponentId span =? sw_ComponentUndertow) && (sw_SpanId span =? 0) then
       if bool_decide (sw_OperationName span = OperateNameUndertow) then
         ref ← head (sw_Refs span);
         ref ← ref;
         Some (true, sr_ParentTraceSegmentId ref)
       else Some (true, parentSegmentId)
     else Some (isUndertow, parentSegmentId));
  let routeUrl :=
    if (sw_SpanType span =? SpanType_Entry) && (sw_ComponentId span =? ComponentSpringMVC)
    then sw_OperationName span else routeUrl in
  Some (isUndertow, routeUrl, parentSegmentId).

Definition scan_segment (segment : SegmentObject) : option (bool * string * string) :=
  run_all scan_span (default [] (sg_Spans segment)) (false, "", "").

Definition set_span_name (name : string) (s : SwSpan) : SwSpan :=
  let o := ss_Span s in
  {| ss_Span := {| Span_TraceID := Span_TraceID o; Span_SpanID := Span_SpanID o;
                   Span_ParentSpanID := Span_ParentSpanID o; Span_Name := name; Span_Kind := Span_Kind o;
                   Span_StartTimestamp := Span_StartTimestamp o; Span_EndTimestamp := Span_EndTimestamp o;
                   Span_Attributes := Span_Attributes o; Span_Status := Span_Status o |};
     ss_StatusMessage := ss_StatusMessage s; ss_Events := ss_Events s; ss_Links := ss_Links s |}.

(** [spans.At(0).SetName(name)] *)
Definition name_first (name : string) (spans : list SwSpan) : option (list SwSpan) :=
  match spans with
  | [] => None
  | s :: spans' => Some (set_span_name name s :: spans')
  end.

(** [ptd.ResourceSpans().At(0).ScopeSpans().At(0).Spans()], and the assignment to it *)
Definition first_spans (td : list SwResource) : option (list SwSpan) :=
  r ← head td; head (sres_Scopes r).

Definition set_first_spans (spans : list SwSpan) (td : list SwResource) : list SwResource :=
  match td with
  | r :: td' => {| sres_Attributes := sres_Attributes r; sres_Scopes := spans :: tail (sres_Scopes r) |} :: td'
  | [] => []
  end.

(** [ptd.ResourceSpans().At(0).ScopeSpans().AppendEmpty()], filled with [spans] *)
Definition append_scope (spans : list SwSpan) (td : list SwResource) : option (list SwResource) :=
  match td with
  | r :: td' =>
      Some ({| sres_Attributes := sres_Attributes r; sres_Scopes := sres_Scopes r ++ [spans] |} :: td')
  | [] => None
  end.

Definition undertow_key (traceId segmentId : string) : string := traceId +:+ "-" +:+ segmentId.

(** What is to be forwarded, if anything, and the cache. *)
Definition CheckUndertow (segment : SegmentObject) (ptd : list SwResource) (c : UndertowCache)
    : option (option (list SwResource) * UndertowCache) :=
  '(isUndertow, routeUrl, parentSegmentId) ← scan_segment segment;
  if negb isUndertow then Some (Some ptd, c)
  else if bool_decide (routeUrl = "") then
    let key := undertow_key (sg_TraceId segment) (sg_TraceSegmentId segment) in
    match uc_routeUrlMap c !! key with
    | Some cachedRouteUrl =>
        spans ← first_spans ptd;
        spans ← name_first cachedRouteUrl spans;
        Some (Some (set_first_spans spans ptd),
              {| uc_ioTraceMap := uc_ioTraceMap c; uc_routeUrlMap := delete key (uc_routeUrlMap c) |})
    | None =>
        Some (None, {| uc_ioTraceMap := <[key := ptd]> (uc_ioTraceMap c); uc_routeUrlMap := uc_routeUrlMap c |})
    end
  else
    let key := undertow_key (sg_TraceId segment) parentSegmentId in
    match uc_ioTraceMap c !! key with
    | Some cachedTrace =>
        spans ← first_spans cachedTrace;
        spans ← name_first routeUrl spans;
        ptd ← append_scope spans ptd;
        Some (Some ptd, {| uc_ioTraceMap := delete key (uc_ioTraceMap c); uc_routeUrlMap := uc_routeUrlMap c |})
    | None =>
        Some (Some ptd,
              {| uc_ioTraceMap := uc_ioTraceMap c; uc_routeUrlMap := <[key := routeUrl]> (uc_routeUrlMap c) |})
    end.

(** ** The receiver *)

Context (accepts : list SwResource → bool).

(** [consumeTraces] and [consumeHttpTraces], with what the extension found for
    the call, [None] when there is no extension: what is handed to the next
    consumer, and whether there was no error. *)
Definition sw_consumeTraces (fill : option (Z * string)) (segment : option SegmentObject) (c : UndertowCache)
    : option (list (list SwResource) * bool * UndertowCache) :=
  match segment with
  | None => Some ([], true, c)
  | Some segment =>
      let '(pid, containerId) := default (0, "") fill in
      ptd ← ProtoToTraces segment pid containerId;
      '(result, c) ← CheckUndertow segment ptd c;
      Some (match result with
            | Some td => ([td], accepts td, c)
            | None => ([], true, c)
            end)
  end.

(** [CollectInSync] and the loop of [HTTPHandler]: errors are only printed. *)
Fixpoint CollectInSync (fill : option (Z * string)) (segments : list (option SegmentObject)) (c : UndertowCache)
    : option (list (list SwResource) * UndertowCache) :=
  match segments with
  | [] => Some ([], c)
  | segment :: segments' =>
      '(out, _, c) ← sw_consumeTraces fill segment c;
      '(outs, c) ← CollectInSync fill segments' c;
      Some (out ++ outs, c)
  end.

(** What [stream.Recv] returns. *)
Inductive Recv := RecvSegment (segment : option SegmentObject) | RecvEOF | RecvError.

(** [Collect]: the loop over the stream, which ends at its first error, [false]
    when the call returns an error. *)
Fixpoint Collect (fill : option (Z * string)) (stream : list Recv) (c : UndertowCache)
    : option (list (list SwResource) * bool * UndertowCache) :=
  match stream with
  | RecvSegment segment :: stream' =>
      '(out, ok, c) ← sw_consumeTraces fill segment c;
      if (ok : bool) then
        '(outs, r, c) ← Collect fill stream' c; Some (out ++ outs, r, c)
      else Some (out, true, c)
  | RecvEOF :: _ => Some ([], true, c)
  | RecvError :: _ => Some ([], false, c)
  | [] => Some ([], true, c)
  end.

(** ** The two segments of a request *)

Lemma scan_true segment url parent :
  scan_segment segment = Some (true, url, parent) → real_spans segment ≠ [].
Proof.
  unfold scan_segment, real_spans. destruct (sg_Spans segment) as [[|span spans]|]; simpl; [done| |done].
  destruct span as [span|]; [done|]. simpl. done.
Qed.

(** The translation of a segment with spans. *)
Lemma ProtoToTraces_shape segment pid containerId td :
  ProtoToTraces segment pid containerId = Some td → real_spans segment ≠ [] →
  ∃ attrs s spans, td = [{| sres_Attributes := attrs; sres_Scopes := [s :: spans] |}] ∧ spans_out td = s :: spans.
Proof.
  intros E Hne. pose proof (ProtoToTraces_spans _ _ _ _ E) as Hf. apply Forall2_length in Hf.
  unfold ProtoToTraces in E. destruct (sg_Spans segment) as [spans|] eqn:Es; [|by unfold real_spans in Hne; rewrite Es in Hne].
  simpl in E. destruct (run_all swTagsToInternalResource spans Map_New) as [rs|]; [|done]. simpl in E.
  destruct (swSpansToSpanSlice _ _ _) as [l|]; simpl in E; [|done]. injection E as <-.
  unfold spans_out in *. simpl in *. rewrite !app_nil_r in *. destruct l as [|s l]; [|by eexists _, s, l].
  by destruct (real_spans segment).
Qed.

Definition renamed (name : string) (spans : list SwSpan) : list SwSpan :=
  match spans with [] => [] | s :: spans' => set_span_name name s :: spans' end.

(** [io] is the segment of the I/O thread of a request, [task] that of its task. *)
Definition request (io task : SegmentObject) (url : string) : Prop :=
  (∃ p, scan_segment io = Some (true, "", p)) ∧ url ≠ "" ∧
  scan_segment task = Some (true, url, sg_TraceSegmentId io) ∧ sg_TraceId task = sg_TraceId io.

Definition no_entry (key : string) (c : UndertowCache) : Prop :=
  uc_ioTraceMap c !! key = None ∧ uc_routeUrlMap c !! key = None.

Lemma io_first io task url td_io td_task c :
  request io task url → no_entry (undertow_key (sg_TraceId io) (sg_TraceSegmentId io)) c →
  ∃ c1, CheckUndertow io td_io c = Some (None, c1) ∧
    ∀ attrs s spans r, td_io = [{| sres_Attributes := attrs; sres_Scopes := [s :: spans] |}] → td_task = [r] →
      CheckUndertow task td_task c1 =
        Some (Some [{| sres_Attributes := sres_Attributes r;
                       sres_Scopes := sres_Scopes r ++ [set_span_name url s :: spans] |}], c).
Proof.
  intros ((p & Hio) & Hurl & Htask & Etid) [Hi Hu]. unfold CheckUndertow. rewrite Hio, Htask, Etid. simpl.
  rewrite Hu. eexists. split; [done|]. intros attrs s spans r -> ->.
  rewrite bool_decide_eq_false_2 by done. simpl. rewrite lookup_insert_eq. simpl.
  rewrite delete_insert_id by done. by destruct c.
Qed.

Lemma task_first io task url td_io td_task c :
  request io task url → no_entry (undertow_key (sg_TraceId io) (sg_TraceSegmentId io)) c →
  ∃ c1, CheckUndertow task td_task c = Some (Some td_task, c1) ∧
    ∀ attrs s spans, td_io = [{| sres_Attributes := attrs; sres_Scopes := [s :: spans] |}] →
      CheckUndertow io td_io c1 =
        Some (Some [{| sres_Attributes := attrs; sres_Scopes := [set_span_name url s :: spans] |}], c).
Proof.
  intros ((p & Hio) & Hurl & Htask & Etid) [Hi Hu]. unfold CheckUndertow. rewrite Hio, Htask, Etid. simpl.
  rewrite bool_decide_eq_false_2 by done. rewrite Hi. eexists. split; [done|]. intros attrs s spans ->.
  simpl. rewrite lookup_insert_eq. simpl. rewrite delete_insert_id by done. by destruct c.
Qed.

(** C20: A request served by Undertow is put together whichever of its segments
    comes first: the spans of both are handed on, the first span of the I/O
    segment under the route of the request and every other as it was translated,
    and the cache is what it was before. *)
Theorem undertow_pairs fill io task url td_io td_task c :
  request io task url → no_entry (undertow_key (sg_TraceId io) (sg_TraceSegmentId io)) c →
  ProtoToTraces io (default (0, "") fill).1 (default (0, "") fill).2 = Some td_io →
  ProtoToTraces task (default (0, "") fill).1 (default (0, "") fill).2 = Some td_task →
  ∀ segments, segments ≡ₚ [Some io; Some task] →
  ∃ outs, CollectInSync fill segments c = Some (outs, c) ∧
          outs ≫= spans_out ≡ₚ renamed url (spans_out td_io) ++ spans_out td_task.
Proof.
  intros Hr Hc Eio Etask segments Hp.
  destruct (ProtoToTraces_shape _ _ _ _ Eio) as (attrs & s & spans & Eshape & Eout).
  { destruct Hr as ((p & Hio) & _). by eapply scan_true. }
  destruct (ProtoToTraces_shape _ _ _ _ Etask) as (attrs2 & s2 & spans2 & Eshape2 & Eout2).
  { destruct Hr as (_ & _ & Htask & _). by eapply scan_true. }
  destruct (default (0, "") fill) as [pid cid] eqn:Efill. cbn [fst snd] in *.
  assert (segments = [Some io; Some task] ∨ segments = [Some task; Some io]) as [-> | ->].
  { apply Permutation_length_2_inv. by symmetry. }
  - destruct (io_first io task url td_io td_task c Hr Hc) as (c1 & E1 & E2).
    specialize (E2 _ _ _ _ Eshape Eshape2). eexists. split.
    + cbn [CollectInSync]. unfold sw_consumeTraces. rewrite Efill, Eio. simpl. rewrite E1. simpl.
      rewrite Etask. simpl. rewrite E2. done.
    + rewrite Eout, Eout2. unfold spans_out. simpl. rewrite !app_nil_r.
      by rewrite (Permutation_app_comm (s2 :: spans2) (set_span_name url s :: spans)).
  - destruct (task_first io task url td_io td_task c Hr Hc) as (c1 & E1 & E2).
    specialize (E2 _ _ _ Eshape). eexists. split.
    + cbn [CollectInSync]. unfold sw_consumeTraces. rewrite Efill, Etask. simpl. rewrite E1. simpl.
      rewrite Eio. simpl. rewrite E2. done.
    + rewrite Eout, Eout2. simpl. rewrite Eout2. unfold spans_out. simpl. rewrite !app_nil_r.
      apply (Permutation_app_comm (s2 :: spans2) (set_span_name url s :: spans)).
Qed.
End undertow.

(** ** A request *)

Import RefPData RefSql RefUuid RefProto.

Definition ex_undertow_span (id parent component : Z) (refs : list (option SegmentReference)) (name : string) (t : Z)
    : SpanObject := {|
  sw_SpanId := id; sw_ParentSpanId := parent; sw_StartTime := 1000; sw_EndTime := 1010; sw_Refs := refs;
  sw_OperationName := name; sw_Peer := ""; sw_SpanType := t; sw_SpanLayer := 3;
  sw_ComponentId := component; sw_IsError := false; sw_Tags := None; sw_Logs := [] |}.

Definition ex_io : SegmentObject := {|
  sg_TraceId := ex_segA; sg_TraceSegmentId := ex_segA;
  sg_Spans := Some [Some (ex_undertow_span 0 (-1) 84 [] "GET:/" SpanType_Entry)];
  sg_Service := "a"; sg_ServiceInstance := "a1" |}.

Definition ex_task : SegmentObject := {|
  sg_TraceId := ex_segA; sg_TraceSegmentId := ex_segB;
  sg_Spans := Some [Some (ex_undertow_span 0 (-1) 84
      [Some {| sr_RefType := 1; sr_TraceId := ex_segA; sr_ParentTraceSegmentId := ex_segA; sr_ParentSpanId := 0;
          sr_ParentService := "a"; sr_ParentServiceInstance := "a1"; sr_ParentEndpoint := "";
          sr_NetworkAddressUsedAtPeer := "" |}] "UndertowDispatch" SpanType_Local);
    Some (ex_undertow_span 1 0 14 [] "GET:/users/{id}" SpanType_Entry)];
  sg_Service := "a"; sg_ServiceInstance := "a1" |}.

Lemma undertow_pairs_witness :
  let c := {| uc_ioTraceMap := ∅; uc_routeUrlMap := ∅ |} in
  ∃ outs, CollectInSync (λ _, true) (Some (7, "")) [Some ex_task; Some ex_io] c = Some (outs, c) ∧
          length (outs ≫= spans_out) = 3%nat.
Proof.
  destruct (ex_translated ex_io) as [td_io Eio]; [by vm_compute|].
  destruct (ex_translated ex_task) as [td_task Etask]; [by vm_compute|].
  destruct (undertow_pairs (λ _, true) (Some (7, "")) ex_io ex_task "GET:/users/{id}" td_io td_task
              {| uc_ioTraceMap := ∅; uc_routeUrlMap := ∅ |}) with (segments := [Some ex_task; Some ex_io])
    as (outs & E & Hp).
  - split; [exists ""; reflexivity|]. split; [done|]. split; reflexivity.
  - split; apply lookup_empty.
  - exact Eio.
  - exact Etask.
  - apply Permutation_swap.
  - exists outs. split; [exact E|]. rewrite (Permutation_length Hp), length_app.
    apply ProtoToTraces_spans, Forall2_length in Eio, Etask. revert Eio Etask.
    generalize (spans_out td_io), (spans_out td_task). intros [|s l] l'; simpl; intros E1 E2; lia.
Defined.
