(* ===== verification/PromRW.v ===== *)
(** * PromRW: the Prometheus remote-write receiver

    Models [prometheus_to_otel.go], [internal/prometheus_spec_utils.go] and the
    handler of [server.go] over a decoded request; the exemplars and native
    histograms of a series are copied into [metricData] and never read, and are
    left out.  The order of the range over the partitions is an argument. *)

From S2P Require Import Prelude GoStrings Float64 PData.

(** ** The request *)

Record Label := { lb_Name : string; lb_Value : string }.
Record Sample := { sm_Value : float64; sm_Timestamp : Z }.           (* int64, ms *)
Record TimeSeries := { ts_Labels : list Label; ts_Samples : list Sample }.
(** [prompb.WriteRequest]: the series, and how many metadata entries. *)
Record WriteRequest := { wr_Timeseries : list TimeSeries; wr_Metadata : Z }.

Inductive MetricMetadata_MetricType :=
  | MetricMetadata_COUNTER | MetricMetadata_GAUGE | MetricMetadata_HISTOGRAM | MetricMetadata_GAUGEHISTOGRAM
  | MetricMetadata_SUMMARY | MetricMetadata_INFO | MetricMetadata_STATESET.

#[global] Instance MetricType_eq_dec : EqDecision MetricMetadata_MetricType.
Proof. solve_decision. Defined.

Definition type_number (t : MetricMetadata_MetricType) : Z :=
  match t with
  | MetricMetadata_COUNTER => 1 | MetricMetadata_GAUGE => 2 | MetricMetadata_HISTOGRAM => 3
  | MetricMetadata_GAUGEHISTOGRAM => 4 | MetricMetadata_SUMMARY => 5 | MetricMetadata_INFO => 6
  | MetricMetadata_STATESET => 7
  end.

Definition type_of_number (n : Z) : MetricMetadata_MetricType :=
  if n =? 1 then MetricMetadata_COUNTER else if n =? 2 then MetricMetadata_GAUGE
  else if n =? 3 then MetricMetadata_HISTOGRAM else if n =? 4 then MetricMetadata_GAUGEHISTOGRAM
  else if n =? 5 then MetricMetadata_SUMMARY else if n =? 6 then MetricMetadata_INFO
  else MetricMetadata_STATESET.

#[global] Instance MetricType_countable : Countable MetricMetadata_MetricType.
Proof. apply (inj_countable' type_number type_of_number). by intros []. Defined.

(** ** prometheus_spec_utils.go *)

Fixpoint getLabelValue (labels : list Label) (name : string) : option string :=
  match labels with
  | [] => None
  | label :: labels' => if bool_decide (lb_Name label = name) then Some (lb_Value label) else getLabelValue labels' name
  end.

(** [None] is the error; the name is then empty. *)
Definition ExtractMetricNameLabel (labels : list Label) : option string := getLabelValue labels "__name__".

Definition is_some {A} (o : option A) : bool := match o with Some _ => true | None => false end.

Definition DetermineMetricTypeByConvention (metricName : string) (labels : list Label) : MetricMetadata_MetricType :=
  let hasLe := is_some (getLabelValue labels "le") in
  let hasQuantile := is_some (getLabelValue labels "quantile") in
  let hasMetricName := is_some (getLabelValue labels metricName) in
  if hasLe && (HasSuffix metricName "_gsum" || HasSuffix metricName "_gcount") then MetricMetadata_GAUGEHISTOGRAM
  else if hasLe then MetricMetadata_HISTOGRAM
  else if hasQuantile then MetricMetadata_SUMMARY
  else if hasMetricName then MetricMetadata_STATESET
  else if HasSuffix metricName "_total" || HasSuffix metricName "_count" || HasSuffix metricName "_counter"
          || HasSuffix metricName "_created" then MetricMetadata_COUNTER
  else if HasSuffix metricName "_bucket" then MetricMetadata_HISTOGRAM
  else if HasSuffix metricName "_info" then MetricMetadata_INFO
  else MetricMetadata_GAUGE.

(** ** prometheus_to_otel.go *)

Record metricData := { md_MetricName : string; md_Labels : list Label; md_Samples : list Sample }.

(** The counters are [atomic.Int64]. *)
Record prometheusRemoteOtelParser := {
  pr_totalNans : Z;
  pr_totalInvalidRequests : Z;
  pr_totalBadMetrics : Z;
}.

Definition newPrometheusRemoteOtelParser : prometheusRemoteOtelParser :=
  {| pr_totalNans := 0; pr_totalInvalidRequests := 0; pr_totalBadMetrics := 0 |}.

Definition add_counters (nans invalid bad : Z) (p : prometheusRemoteOtelParser) : prometheusRemoteOtelParser :=
  {| pr_totalNans := i64 (pr_totalNans p + nans);
     pr_totalInvalidRequests := i64 (pr_totalInvalidRequests p + invalid);
     pr_totalBadMetrics := i64 (pr_totalBadMetrics p + bad) |}.

Inductive PrwError := ErrNoMetricName | ErrNoSamples (metricName : string).

Section promrw.
Context `{PData} `{GoPlatform}.

Record PrwPoint := {
  pp_StartTimestamp : Z;
  pp_Timestamp : Z;
  pp_Value : NumberValue;
  pp_Attributes : AMap;
}.

(** A sum is cumulative and monotonic. *)
Inductive PrwKind := PrwGauge | PrwSum.

Record PrwMetric := { pm_Name : string; pm_Kind : PrwKind; pm_Points : list PrwPoint }.

Definition setAttributes (labels : list Label) : AMap :=
  foldS (λ attr m, if bool_decide (lb_Name attr = "__name__") then m else Map_PutStr (lb_Name attr) (lb_Value attr) m)
    labels Map_New.

(** For a value that is not NaN: the caller skips those. *)
Definition setFloatOrInt (v : float64) : NumberValue :=
  if F_eqb (F_of_Z (int64_of_float v)) v then IntValue (int64_of_float v) else DoubleValue v.

Definition prometheusToOtelTimestamp (ts : Z) : Z := u64 (i64 (ts * 1000000)).

(** The loop over the samples, common to [addGaugeMetrics] and [addCounterMetrics]. *)
Definition add_sample (labels : list Label) (sample : Sample) (p : prometheusRemoteOtelParser)
    : list PrwPoint * prometheusRemoteOtelParser :=
  if IsNaN (sm_Value sample) then ([], add_counters 1 0 0 p)
  else ([{| pp_StartTimestamp := prometheusToOtelTimestamp (sm_Timestamp sample);
            pp_Timestamp := prometheusToOtelTimestamp (sm_Timestamp sample);
            pp_Value := setFloatOrInt (sm_Value sample);
            pp_Attributes := setAttributes labels |}], p).

Definition add_series (kind : PrwKind) (md : metricData) (p : prometheusRemoteOtelParser)
    : list PrwMetric * prometheusRemoteOtelParser :=
  if bool_decide (md_MetricName md = "") then ([], add_counters 0 0 1 p)
  else
    let '(points, p) := foldOut (add_sample (md_Labels md)) (md_Samples md) p in
    ([{| pm_Name := md_MetricName md; pm_Kind := kind; pm_Points := points |}], p).

Definition addGaugeMetrics : list metricData → prometheusRemoteOtelParser →
    list PrwMetric * prometheusRemoteOtelParser := foldOut (add_series PrwGauge).
Definition addCounterMetrics : list metricData → prometheusRemoteOtelParser →
    list PrwMetric * prometheusRemoteOtelParser := foldOut (add_series PrwSum).

Definition addMetrics (metricType : MetricMetadata_MetricType) (metrics : list metricData)
    (p : prometheusRemoteOtelParser) : list PrwMetric * prometheusRemoteOtelParser :=
  match metricType with
  | MetricMetadata_COUNTER | MetricMetadata_HISTOGRAM | MetricMetadata_GAUGEHISTOGRAM => addCounterMetrics metrics p
  | _ => addGaugeMetrics metrics p
  end.

#[local] Notation partitions := (gmap MetricMetadata_MetricType (list metricData)).

(** The body of the loop over the series: the partitions and the errors. *)
Definition partition_series (ts : TimeSeries) (s : partitions * list PrwError * prometheusRemoteOtelParser)
    : partitions * list PrwError * prometheusRemoteOtelParser :=
  let '(parts, errors, p) := s in
  let '(metricName, errors) :=
    match ExtractMetricNameLabel (ts_Labels ts) with
    | Some name => (name, errors)
    | None => ("", errors ++ [ErrNoMetricName])
    end in
  let metricType := DetermineMetricTypeByConvention metricName (ts_Labels ts) in
  let md := {| md_MetricName := metricName; md_Labels := ts_Labels ts; md_Samples := ts_Samples ts |} in
  let '(errors, p) :=
    if len (md_Samples md) <? 1 then (errors ++ [ErrNoSamples metricName], add_counters 0 1 0 p) else (errors, p) in
  (<[metricType := default [] (parts !! metricType) ++ [md]]> parts, errors, p).

Definition partitionWriteRequest (req : WriteRequest) (p : prometheusRemoteOtelParser)
    : partitions * list PrwError * prometheusRemoteOtelParser :=
  foldS partition_series (wr_Timeseries req) (∅, [], p).

(** The order of the range over the partitions. *)
Variable porder : partitions → list MetricMetadata_MetricType.

Definition transformPrometheusRemoteWriteToOtel (parts : partitions) (p : prometheusRemoteOtelParser)
    : list PrwMetric * prometheusRemoteOtelParser :=
  foldOut (λ metricType p, addMetrics metricType (default [] (parts !! metricType)) p) (porder parts) p.

(** The smallest and the largest timestamp, -1 and -1 without samples. *)
Definition getSampleTimestampBounds (samples : list Sample) : Z * Z :=
  if len samples <? 1 then (-1, -1)
  else foldS (λ sample b, (if b.1 >? sm_Timestamp sample then sm_Timestamp sample else b.1,
                           if b.2 <? sm_Timestamp sample then sm_Timestamp sample else b.2))
         samples (maxInt64, minInt64).

Definition getWriteRequestTimestampBounds (req : WriteRequest) : Z * Z :=
  foldS (λ ts b, let '(sampleMin, sampleMax) := getSampleTimestampBounds (ts_Samples ts) in
                 (if sampleMin <? b.1 then sampleMin else b.1, if sampleMax >? b.2 then sampleMax else b.2))
    (wr_Timeseries req) (maxInt64, minInt64).

(** [addBadRequests], [addNanDataPoints] and [addMetricsWithMissingName] differ in
    the name and the counter. *)
Definition counter_metric (name : string) (count : Z) (bounds : Z * Z) : PrwMetric :=
  {| pm_Name := name; pm_Kind := PrwSum;
     pm_Points := [{| pp_StartTimestamp := prometheusToOtelTimestamp bounds.1;
                      pp_Timestamp := prometheusToOtelTimestamp bounds.2;
                      pp_Value := IntValue count; pp_Attributes := Map_New |}] |}.

Definition addBadRequests (p : prometheusRemoteOtelParser) : Z * Z → PrwMetric :=
  counter_metric "prometheus.invalid_requests" (pr_totalInvalidRequests p).
Definition addNanDataPoints (p : prometheusRemoteOtelParser) : Z * Z → PrwMetric :=
  counter_metric "prometheus.total_NAN_samples" (pr_totalNans p).
Definition addMetricsWithMissingName (p : prometheusRemoteOtelParser) : Z * Z → PrwMetric :=
  counter_metric "prometheus.total_bad_datapoints" (pr_totalBadMetrics p).

Definition fromPrometheusWriteRequestMetrics (req : WriteRequest) (p : prometheusRemoteOtelParser)
    : list PrwMetric * list PrwError * prometheusRemoteOtelParser :=
  let '(parts, errors, p) := partitionWriteRequest req p in
  let '(metrics, p) := transformPrometheusRemoteWriteToOtel parts p in
  let bounds := getWriteRequestTimestampBounds req in
  (metrics ++ [addBadRequests p bounds; addNanDataPoints p bounds; addMetricsWithMissingName p bounds], errors, p).

(** ** server.go: the handler, after the request was decoded ([None]: it was not);
    the status and what is put on the channel. *)
Definition newHandler (decoded : option WriteRequest) (p : prometheusRemoteOtelParser)
    : Z * option (list PrwMetric) * prometheusRemoteOtelParser :=
  match decoded with
  | None => (400, None, p)
  | Some req =>
      if (len (wr_Timeseries req) =? 0) && (wr_Metadata req =? 0) then (204, None, p)
      else
        let '(results, errors, p) := fromPrometheusWriteRequestMetrics req p in
        match errors with
        | [] => (202, Some results, p)
        | _ => (400, None, p)
        end
  end.

(** ** The translation, series by series

    The reference: what one series becomes, without partitions and counters. *)

Definition name_of (ts : TimeSeries) : string := default "" (ExtractMetricNameLabel (ts_Labels ts)).

Definition data_of (ts : TimeSeries) : metricData :=
  {| md_MetricName := name_of ts; md_Labels := ts_Labels ts; md_Samples := ts_Samples ts |}.

Definition data_type (md : metricData) : MetricMetadata_MetricType :=
  DetermineMetricTypeByConvention (md_MetricName md) (md_Labels md).

Definition kind_of (t : MetricMetadata_MetricType) : PrwKind :=
  match t with
  | MetricMetadata_COUNTER | MetricMetadata_HISTOGRAM | MetricMetadata_GAUGEHISTOGRAM => PrwSum
  | _ => PrwGauge
  end.

(** Every sample that is a number is a point with its labels. *)
Definition points_of (labels : list Label) (samples : list Sample) : list PrwPoint :=
  (λ sample, {| pp_StartTimestamp := prometheusToOtelTimestamp (sm_Timestamp sample);
                pp_Timestamp := prometheusToOtelTimestamp (sm_Timestamp sample);
                pp_Value := setFloatOrInt (sm_Value sample);
                pp_Attributes := setAttributes labels |})
    <$> filter (λ sample, IsNaN (sm_Value sample) = false) samples.

(** Every series with a name is a metric. *)
Definition metric_of (md : metricData) : list PrwMetric :=
  if bool_decide (md_MetricName md = "") then []
  else [{| pm_Name := md_MetricName md; pm_Kind := kind_of (data_type md);
           pm_Points := points_of (md_Labels md) (md_Samples md) |}].

Definition nans_of (md : metricData) : Z :=
  if bool_decide (md_MetricName md = "") then 0 else countb (λ s, IsNaN (sm_Value s)) (md_Samples md).
Definition nameless (md : metricData) : Z := if bool_decide (md_MetricName md = "") then 1 else 0.
Definition sampleless (md : metricData) : Z := if len (md_Samples md) <? 1 then 1 else 0.

(** ** Counters *)

Definition counters_ok (p : prometheusRemoteOtelParser) : Prop := add_counters 0 0 0 p = p.

Lemma add_counters_add a b c a' b' c' p :
  add_counters a b c (add_counters a' b' c' p) = add_counters (a' + a) (b' + b) (c' + c) p.
Proof. unfold add_counters. simpl. rewrite !i64_add_l. f_equal; f_equal; lia. Qed.

Lemma counters_ok_add a b c p : counters_ok (add_counters a b c p).
Proof. unfold counters_ok. rewrite add_counters_add. f_equal; lia. Qed.

(** A loop whose rounds emit and count. *)
Lemma foldOut_counted {A O} (f : A → prometheusRemoteOtelParser → list O * prometheusRemoteOtelParser)
    (g : A → list O) (a b c : A → Z) l p :
  (∀ x p, counters_ok p → f x p = (g x, add_counters (a x) (b x) (c x) p)) → counters_ok p →
  foldOut f l p = (mjoin (g <$> l), add_counters (sumZ (a <$> l)) (sumZ (b <$> l)) (sumZ (c <$> l)) p).
Proof.
  intros Hf. revert p. induction l as [|x l IH]; intros p Hp; [exact (f_equal (pair []) (eq_sym Hp))|].
  cbn [foldOut]. rewrite Hf by done. rewrite IH by apply counters_ok_add.
  by rewrite add_counters_add, mjoin_fmap_cons, !fmap_cons, !sumZ_cons.
Qed.

Lemma add_series_counted kind md p :
  counters_ok p → kind = kind_of (data_type md) →
  add_series kind md p = (metric_of md, add_counters (nans_of md) 0 (nameless md) p).
Proof.
  intros Hp ->. unfold add_series, metric_of, nans_of, nameless. case_bool_decide; [done|].
  rewrite (foldOut_counted _ (λ s, points_of (md_Labels md) [s])
             (λ s, if IsNaN (sm_Value s) then 1 else 0) (λ _, 0) (λ _, 0)); [| |done].
  - rewrite !sumZ_const0. f_equal; [do 2 f_equal|f_equal].
    + unfold points_of. induction (md_Samples md) as [|s l IH]; [done|].
      rewrite mjoin_fmap_cons, IH, !filter_cons, filter_nil. by case_decide.
    + induction (md_Samples md) as [|s l IH]; [done|]. rewrite fmap_cons, sumZ_cons, IH. done.
  - intros s q Hq. unfold add_sample, points_of. rewrite filter_cons, filter_nil.
    destruct (IsNaN (sm_Value s)); simpl; [done|]. by rewrite (Hq : add_counters 0 0 0 q = q).
Qed.

Lemma addMetrics_counted t mds p :
  counters_ok p → Forall (λ md, data_type md = t) mds →
  addMetrics t mds p = (mjoin (metric_of <$> mds), add_counters (sumZ (nans_of <$> mds)) 0 (sumZ (nameless <$> mds)) p).
Proof.
  intros Hp Hall.
  assert (addMetrics t mds p = foldOut (add_series (kind_of t)) mds p) as -> by (by destruct t).
  assert (∀ p, counters_ok p → foldOut (add_series (kind_of t)) mds p =
    (mjoin (metric_of <$> mds), add_counters (sumZ (nans_of <$> mds)) (sumZ ((λ _, 0) <$> mds)) (sumZ (nameless <$> mds)) p))
    as ->; [|by rewrite sumZ_const0|done].
  clear Hp p. induction Hall as [|md mds Ht _ IH]; intros p Hp; [exact (f_equal (pair []) (eq_sym Hp))|].
  cbn [foldOut]. rewrite add_series_counted by congruence. rewrite IH by apply counters_ok_add.
  by rewrite add_counters_add, mjoin_fmap_cons, !fmap_cons, !sumZ_cons.
Qed.

(** ** Partitions *)

Definition errors_of (ts : TimeSeries) : list PrwError :=
  (if is_some (ExtractMetricNameLabel (ts_Labels ts)) then [] else [ErrNoMetricName]) ++
  (if len (ts_Samples ts) <? 1 then [ErrNoSamples (name_of ts)] else []).

Definition part_add (md : metricData) (parts : partitions) : partitions :=
  <[data_type md := default [] (parts !! data_type md) ++ [md]]> parts.

Lemma partition_series_counted ts parts errors p :
  counters_ok p →
  partition_series ts (parts, errors, p) =
    (part_add (data_of ts) parts, errors ++ errors_of ts, add_counters 0 (sampleless (data_of ts)) 0 p).
Proof.
  intros Hp. unfold partition_series, errors_of, sampleless, part_add, data_type, data_of, name_of. simpl.
  destruct (ExtractMetricNameLabel (ts_Labels ts)) as [name|]; simpl;
    (destruct (len (ts_Samples ts) <? 1); [by rewrite <- ?app_assoc|]);
    by rewrite (Hp : add_counters 0 0 0 p = p), ?app_nil_r.
Qed.

Lemma partition_counted series parts errors p :
  counters_ok p →
  foldS partition_series series (parts, errors, p) =
    (foldS part_add (data_of <$> series) parts, errors ++ mjoin (errors_of <$> series),
     add_counters 0 (sumZ (sampleless <$> (data_of <$> series))) 0 p).
Proof.
  revert parts errors p. induction series as [|ts series IH]; intros parts errors p Hp.
  - rewrite fmap_nil, fmap_nil, app_nil_r. exact (f_equal (pair _) (eq_sym Hp)).
  - cbn [foldS]. rewrite partition_series_counted by done. rewrite IH by apply counters_ok_add.
    rewrite mjoin_fmap_cons, !fmap_cons, sumZ_cons, <- app_assoc, add_counters_add. done.
Qed.

Lemma partition_lookup mds (parts : partitions) t :
  default [] (foldS part_add mds parts !! t) = default [] (parts !! t) ++ filter (λ md, data_type md = t) mds ∧
  (is_Some (foldS part_add mds parts !! t) ↔ is_Some (parts !! t) ∨ ∃ md, md ∈ mds ∧ data_type md = t).
Proof.
  revert parts. induction mds as [|md mds IH]; intros parts.
  - simpl. rewrite app_nil_r. split; [done|]. split; [by left|]. intros [?|(md & Hin & _)]; [done|by apply elem_of_nil in Hin].
  - cbn [foldS]. destruct (IH (part_add md parts)) as [E1 E2]. rewrite E1, E2. unfold part_add. rewrite filter_cons.
    setoid_rewrite elem_of_cons. case_decide as Ht.
    + subst t. rewrite lookup_insert_eq. simpl. rewrite <- app_assoc. split; [done|]. naive_solver.
    + rewrite lookup_insert_ne by done. split; [done|]. naive_solver.
Qed.

(** Partition by partition is series by series. *)
Lemma mjoin_groups {K A B} (h : A → list B) (g : K → list A) ks :
  mjoin ((λ k, mjoin (h <$> g k)) <$> ks) = mjoin (h <$> mjoin (g <$> ks)).
Proof. induction ks as [|k ks IH]; [done|]. by rewrite !mjoin_fmap_cons, IH, mjoin_fmap_app. Qed.

Lemma sumZ_groups {K A} (f : A → Z) (g : K → list A) ks :
  sumZ ((λ k, sumZ (f <$> g k)) <$> ks) = sumZ (f <$> mjoin (g <$> ks)).
Proof. induction ks as [|k ks IH]; [done|]. by rewrite mjoin_fmap_cons, fmap_cons, sumZ_cons, IH, fmap_app, sumZ_app. Qed.

(** No error is that every series has a name label and a sample. *)
Lemma errors_nil series :
  mjoin (errors_of <$> series) = [] ↔
  Forall (λ ts, is_Some (ExtractMetricNameLabel (ts_Labels ts)) ∧ ts_Samples ts ≠ []) series.
Proof.
  induction series as [|ts series IH]; [done|].
  rewrite mjoin_fmap_cons, list.Forall_cons, <- IH, app_nil. apply and_iff_compat_r.
  unfold errors_of. rewrite app_nil. unfold is_Some.
  assert (len (ts_Samples ts) <? 1 = bool_decide (ts_Samples ts = [])) as ->.
  { destruct (ts_Samples ts) as [|x l]; [done|]. unfold len. apply Z.ltb_ge. simpl. lia. }
  destruct (ExtractMetricNameLabel (ts_Labels ts)); case_bool_decide; simpl; naive_solver.
Qed.

(** The metrics, the errors and the counters of a request. *)
Lemma fromPrometheusWriteRequestMetrics_ok req p :
  (∀ m, range_order m (porder m)) → counters_ok p →
  let mds := data_of <$> wr_Timeseries req in
  let p' := add_counters (sumZ (nans_of <$> mds)) (sumZ (sampleless <$> mds)) (sumZ (nameless <$> mds)) p in
  let bounds := getWriteRequestTimestampBounds req in
  ∃ body,
    body ≡ₚ mjoin (metric_of <$> mds) ∧
    fromPrometheusWriteRequestMetrics req p =
      (body ++ [addBadRequests p' bounds; addNanDataPoints p' bounds; addMetricsWithMissingName p' bounds],
       mjoin (errors_of <$> wr_Timeseries req), p').
Proof.
  intros Ho Hp. cbv zeta. set (mds := data_of <$> wr_Timeseries req).
  set (parts := foldS part_add mds ∅). specialize (Ho parts).
  assert (mjoin ((λ t, filter (λ md, data_type md = t) mds) <$> porder parts) ≡ₚ mds) as Hgroups.
  { apply group_Permutation; [by eapply range_order_NoDup|]. intros md Hin. apply (range_order_elem _ _ _ Ho).
    apply partition_lookup. right. by exists md. }
  assert (∀ p, counters_ok p → transformPrometheusRemoteWriteToOtel parts p =
    (mjoin ((λ t, mjoin (metric_of <$> filter (λ md, data_type md = t) mds)) <$> porder parts),
     add_counters (sumZ ((λ t, sumZ (nans_of <$> filter (λ md, data_type md = t) mds)) <$> porder parts))
       (sumZ ((λ _, 0) <$> porder parts))
       (sumZ ((λ t, sumZ (nameless <$> filter (λ md, data_type md = t) mds)) <$> porder parts)) p)) as Ht.
  { intros q Hq. unfold transformPrometheusRemoteWriteToOtel. apply foldOut_counted; [|done].
    intros t q' Hq'. destruct (partition_lookup mds ∅ t) as [Et _]. fold parts in Et. rewrite Et. simpl.
    apply addMetrics_counted; [done|]. apply list.Forall_forall. intros md Hin. by apply list_elem_of_filter in Hin as [? _]. }
  exists (mjoin ((λ t, mjoin (metric_of <$> filter (λ md, data_type md = t) mds)) <$> porder parts)).
  split; [by rewrite (mjoin_groups metric_of (λ t, filter (λ md, data_type md = t) mds)), Hgroups|].
  assert (∀ f, sumZ ((λ t, sumZ (f <$> filter (λ md, data_type md = t) mds)) <$> porder parts) = sumZ (f <$> mds)) as Hsum.
  { intros f. etransitivity; [apply (sumZ_groups f (λ t, filter (λ md, data_type md = t) mds))|].
    apply sumZ_Permutation, fmap_Permutation, Hgroups. }
  unfold fromPrometheusWriteRequestMetrics, partitionWriteRequest.
  rewrite partition_counted by done. fold mds. fold parts. rewrite Ht by apply counters_ok_add.
  rewrite add_counters_add, sumZ_const0, !Hsum, Z.add_0_r, !Z.add_0_l. reflexivity.
Qed.

(** C27: The remote-write receiver loses and invents nothing: whatever the order
    in which the partitions are visited, a request becomes one metric per series
    that has a name, with one point per sample that is a number, and the three
    counters of the receiver, which grow by the samples that are not numbers, the
    series without samples and the series without a name, and are reported; the
    handler answers 202 with those metrics when every series has a name label
    and a sample, and drops all of them with 400 otherwise. *)
Theorem prw_conserves req p :
  (∀ m, range_order m (porder m)) → counters_ok p →
  let mds := data_of <$> wr_Timeseries req in
  let p' := add_counters (sumZ (nans_of <$> mds)) (sumZ (sampleless <$> mds)) (sumZ (nameless <$> mds)) p in
  let bounds := getWriteRequestTimestampBounds req in
  ∃ body,
    body ≡ₚ mjoin (metric_of <$> mds) ∧
    fromPrometheusWriteRequestMetrics req p =
      (body ++ [addBadRequests p' bounds; addNanDataPoints p' bounds; addMetricsWithMissingName p' bounds],
       mjoin (errors_of <$> wr_Timeseries req), p') ∧
    (wr_Timeseries req ≠ [] →
     (Forall (λ ts, is_Some (ExtractMetricNameLabel (ts_Labels ts)) ∧ ts_Samples ts ≠ []) (wr_Timeseries req) →
        ∃ results, newHandler (Some req) p = (202, Some results, p')) ∧
     (¬ Forall (λ ts, is_Some (ExtractMetricNameLabel (ts_Labels ts)) ∧ ts_Samples ts ≠ []) (wr_Timeseries req) →
        newHandler (Some req) p = (400, None, p'))).
Proof.
  intros Ho Hp. destruct (fromPrometheusWriteRequestMetrics_ok req p Ho Hp) as (body & Hbody & Hfrom).
  exists body. split; [exact Hbody|]. split; [exact Hfrom|]. intros Hne. unfold newHandler. rewrite <- errors_nil.
  assert (len (wr_Timeseries req) =? 0 = false) as -> by (destruct (wr_Timeseries req); [done|by unfold len; apply Z.eqb_neq; simpl; lia]).
  cbn [andb]. rewrite Hfrom. destruct (mjoin (errors_of <$> wr_Timeseries req)); naive_solver.
Qed.
End promrw.

Import RefPData AMD64.

Definition ex_labels : list Label :=
  [{| lb_Name := "__name__"; lb_Value := "requests_total" |}; {| lb_Name := "pod"; lb_Value := "p1" |}].

(** A counter with a number and a NaN, a series with an empty name and one
    without samples. *)
Definition ex_request : WriteRequest := {|
  wr_Timeseries :=
    [{| ts_Labels := ex_labels;
        ts_Samples := [{| sm_Value := F_of_Z 5; sm_Timestamp := 1000 |}; {| sm_Value := S754_nan; sm_Timestamp := 2000 |}] |};
     {| ts_Labels := [{| lb_Name := "__name__"; lb_Value := "" |}];
        ts_Samples := [{| sm_Value := F_of_Z 5; sm_Timestamp := 1000 |}] |};
     {| ts_Labels := ex_labels; ts_Samples := [] |}];
  wr_Metadata := 0 |}.

Definition ex_porder (m : gmap MetricMetadata_MetricType (list metricData)) : list MetricMetadata_MetricType :=
  (map_to_list m).*1.

Lemma prw_conserves_witness :
  newHandler ex_porder (Some ex_request) newPrometheusRemoteOtelParser =
    (400, None, {| pr_totalNans := 1; pr_totalInvalidRequests := 1; pr_totalBadMetrics := 1 |}) ∧
  ∃ m, mjoin (metric_of <$> (data_of <$> take 1 (wr_Timeseries ex_request))) = [m] ∧ length (pm_Points m) = 1%nat.
Proof.
  split; [|by eexists].
  destruct (prw_conserves ex_porder ex_request newPrometheusRemoteOtelParser) as (body & _ & _ & Hcode).
  - intros m. apply range_order_canon.
  - reflexivity.
  - destruct (Hcode ltac:(done)) as [_ Hbad]. apply Hbad. intros Hall. vm_compute in Hall.
    inversion_clear Hall as [|? ? _ Hall2]. inversion_clear Hall2 as [|? ? _ Hall3]. inversion_clear Hall3 as [|? ? Hlast _].
    by destruct Hlast.
Defined.
