(* ===== verification/PrwReceiver.v ===== *)
(** * PrwReceiver: the life of the remote-write receiver

    Models [prometheusremotewritereceiver/receiver.go], [server.go], [config.go] and
    [factory.go]: the receiver, the servers it starts, and the goroutines of a server,
    which meet at a buffered channel: the handlers put what a request became on it
    (with [PromRW.newHandler]), and [manageServerLifecycle] takes it off and flushes
    it.  A step is what one goroutine does between two points where it may wait; a
    run is any interleaving of them.  Reading a body, snappy, the protobuf decoder, the
    sockets and the next consumer are arguments; the reporter is in [Startup]. *)

From S2P Require Import Prelude GoStrings Float64 PData OtlpTraces PromRW.

(** ** config.go, factory.go *)

Record PrwConfig := { pc_Endpoint : string; pc_ListenPath : string; pc_BufferSize : Z }.

Definition prw_createDefaultConfig : PrwConfig :=
  {| pc_Endpoint := "localhost:19291"; pc_ListenPath := "/metrics"; pc_BufferSize := 100 |}.

Definition prw_Validate (c : PrwConfig) : list string :=
  (if bool_decide (pc_Endpoint c = "") then ["endpoint must not be empty"] else []) ++
  (if pc_BufferSize c <? 0 then ["buffer size must be non-negative"] else []).

Section receiver.
Context `{PData} `{GoPlatform} `{GrpcErrors}.
Variable porder : gmap MetricMetadata_MetricType (list metricData) → list MetricMetadata_MetricType.

(** The third-party decoders. *)
Variable snappy_Decode : string → string + GoErr.
Variable proto_Unmarshal : string → WriteRequest + GoErr.

(** [r] is what [io.ReadAll] answers. *)
Definition DecodeWriteRequest (r : string + GoErr) : WriteRequest + GoErr :=
  match r with
  | inr err => inr err
  | inl compressed =>
      match snappy_Decode compressed with
      | inr err => inr err
      | inl reqBuf => proto_Unmarshal reqBuf
      end
  end.

(** ** A server, its channel and its goroutines *)

(** [pmetric.Metrics]. *)
Notation Mtr := (list PrwMetric).

(** A handler before it decodes, waiting at [mc <- results], and after. *)
Inductive handler :=
  | H_run (body : string + GoErr)
  | H_send (results : Mtr)
  | H_answered (code : Z) (sent : option Mtr)
  | H_panicked.

(** [manageServerLifecycle] at its [select], in [flush], and after it returned. *)
Inductive manager := Mg_select | Mg_flush (metrics : Mtr) | Mg_returned.

(** [listenAndServe] before [ToListener], in [Serve], and after it returned. *)
Inductive serve := Sv_started | Sv_serving | Sv_returned (err : option GoErr).

(** The record [prometheusRemoteWriteServer] with the channel, the context and the
    goroutines of its [Start]; [ss_flushed] is what the consumer was called with and
    answered, [ss_sent] what the handlers put on the channel, in order. *)
Record session := {
  ss_cap : nat;
  ss_mc : list Mtr;
  ss_closed : bool;             (* server closed, and then the channel *)
  ss_done : bool;               (* the context is cancelled *)
  ss_serve : serve;
  ss_listening : Z;             (* the wait group *)
  ss_manager : manager;
  ss_handlers : list handler;
  ss_parser : prometheusRemoteOtelParser;
  ss_sent : list Mtr;
  ss_flushed : list (Mtr * option GoErr);
}.

Definition new_session (cap : nat) : session :=
  {| ss_cap := cap; ss_mc := []; ss_closed := false; ss_done := false; ss_serve := Sv_started; ss_listening := 1;
     ss_manager := Mg_select; ss_handlers := []; ss_parser := newPrometheusRemoteOtelParser; ss_sent := [];
     ss_flushed := [] |}.

Definition set_serve (v : serve) (n : Z) (s : session) : session :=
  {| ss_cap := ss_cap s; ss_mc := ss_mc s; ss_closed := ss_closed s; ss_done := ss_done s; ss_serve := v;
     ss_listening := n; ss_manager := ss_manager s; ss_handlers := ss_handlers s; ss_parser := ss_parser s;
     ss_sent := ss_sent s; ss_flushed := ss_flushed s |}.

Definition set_flags (closed done : bool) (s : session) : session :=
  {| ss_cap := ss_cap s; ss_mc := ss_mc s; ss_closed := closed; ss_done := done; ss_serve := ss_serve s;
     ss_listening := ss_listening s; ss_manager := ss_manager s; ss_handlers := ss_handlers s;
     ss_parser := ss_parser s; ss_sent := ss_sent s; ss_flushed := ss_flushed s |}.

Definition set_handlers (l : list handler) (p : prometheusRemoteOtelParser) (s : session) : session :=
  {| ss_cap := ss_cap s; ss_mc := ss_mc s; ss_closed := ss_closed s; ss_done := ss_done s; ss_serve := ss_serve s;
     ss_listening := ss_listening s; ss_manager := ss_manager s; ss_handlers := l; ss_parser := p;
     ss_sent := ss_sent s; ss_flushed := ss_flushed s |}.

Definition set_channel (mc : list Mtr) (m : manager) (sent : list Mtr) (flushed : list (Mtr * option GoErr))
    (s : session) : session :=
  {| ss_cap := ss_cap s; ss_mc := mc; ss_closed := ss_closed s; ss_done := ss_done s; ss_serve := ss_serve s;
     ss_listening := ss_listening s; ss_manager := m; ss_handlers := ss_handlers s; ss_parser := ss_parser s;
     ss_sent := sent; ss_flushed := flushed |}.

(** *** listenAndServe: [ToListener], then [Serve], which returns the error of an
    [Accept], or because the server was closed: that one is swallowed. *)
Definition listenAndServe (answer : option GoErr) (s : session) : option session :=
  match ss_serve s, answer with
  | Sv_started, Some err => Some (set_serve (Sv_returned (Some err)) (ss_listening s) s)
  | Sv_started, None => Some (set_serve Sv_serving (ss_listening s - 1) s)
  | Sv_serving, Some err => Some (set_serve (Sv_returned (Some err)) (ss_listening s + 1) s)
  | Sv_serving, None => if ss_closed s then Some (set_serve (Sv_returned None) (ss_listening s + 1) s) else None
  | Sv_returned _, _ => None
  end.

(** *** The handlers *)

(** The server starts a handler for a request. *)
Definition serve_request (body : string + GoErr) (s : session) : option session :=
  match ss_serve s with
  | Sv_serving => if ss_closed s then None else Some (set_handlers (ss_handlers s ++ [H_run body]) (ss_parser s) s)
  | _ => None
  end.

(** A handler up to its send. *)
Definition handle (h : nat) (s : session) : option session :=
  match ss_handlers s !! h with
  | Some (H_run body) =>
      let decoded := match DecodeWriteRequest body with inl req => Some req | inr _ => None end in
      let '(code, results, p) := newHandler porder decoded (ss_parser s) in
      let hd := match results with Some results => H_send results | None => H_answered code None end in
      Some (set_handlers (<[h := hd]> (ss_handlers s)) p s)
  | _ => None
  end.

(** [mc <- results]: a send on a closed channel panics (and net/http recovers); it
    waits while the buffer is full, unless the receiver is there to take it. *)
Definition send (h : nat) (handoff : bool) (s : session) : option session :=
  match ss_handlers s !! h with
  | Some (H_send results) =>
      let answered (x : handler) := set_handlers (<[h := x]> (ss_handlers s)) (ss_parser s) s in
      let sent := ss_sent s ++ [results] in
      if ss_closed s then Some (answered H_panicked)
      else if handoff then
        match ss_manager s, ss_mc s with
        | Mg_select, [] =>
            Some (set_channel [] (Mg_flush results) sent (ss_flushed s) (answered (H_answered 202 (Some results))))
        | _, _ => None
        end
      else if (length (ss_mc s) <? ss_cap s)%nat then
        Some (set_channel (ss_mc s ++ [results]) (ss_manager s) sent (ss_flushed s)
                (answered (H_answered 202 (Some results))))
      else None
  | _ => None
  end.

(** *** manageServerLifecycle: the branch of the [select], or what the consumer
    answers to [flush] *)
Inductive lifecycle := L_receive | L_flush (err : option GoErr) | L_ctx_done.

Definition flush (err : option GoErr) (metrics : Mtr) (s : session) : session :=
  set_channel (ss_mc s) (ss_manager s) (ss_sent s) (ss_flushed s ++ [(metrics, err)]) s.

Definition set_manager (m : manager) (s : session) : session :=
  set_channel (ss_mc s) m (ss_sent s) (ss_flushed s) s.

Definition manageServerLifecycle (l : lifecycle) (s : session) : option session :=
  match ss_manager s, l with
  | Mg_select, L_receive =>
      match ss_mc s with
      | metrics :: mc => Some (set_channel mc (Mg_flush metrics) (ss_sent s) (ss_flushed s) s)
      | [] => if ss_closed s then Some (set_manager Mg_returned s) else None
      end
  | Mg_select, L_ctx_done => if ss_done s then Some (set_manager Mg_returned s) else None
  | Mg_flush metrics, L_flush err =>
      Some (set_manager (if err is Some _ then Mg_returned else Mg_select) (flush err metrics s))
  | _, _ => None
  end.

(** *** The steps of a server's goroutines *)
Inductive sevent :=
  | E_serve (answer : option GoErr)
  | E_request (body : string + GoErr)
  | E_handle (h : nat)
  | E_send (h : nat) (handoff : bool)
  | E_lifecycle (l : lifecycle).

Definition session_step (e : sevent) (s : session) : option session :=
  match e with
  | E_serve answer => listenAndServe answer s
  | E_request body => serve_request body s
  | E_handle h => handle h s
  | E_send h handoff => send h handoff s
  | E_lifecycle l => manageServerLifecycle l s
  end.

(** [close]: once closed, the channel stays closed.  The server and the channel are
    closed in one step: a handler that sends between the two is one that sent before. *)
Definition close (s : session) : session := set_flags true (ss_done s) s.
Definition cancel (s : session) : session := set_flags (ss_closed s) true s.

(** ** The receiver *)

(** [prometheusRemoteWriteReceiver]: the server and the context are positions in the
    list of sessions; [Some None] is the context of a [Start] that failed. *)
Record prwReceiver := {
  rc_config : PrwConfig;
  rc_server : option nat;
  rc_cancel : option (option nat);
  rc_sessions : list session;
}.

Definition newReceiver (config : PrwConfig) : prwReceiver :=
  {| rc_config := config; rc_server := None; rc_cancel := None; rc_sessions := [] |}.

Definition set_sessions (l : list session) (r : prwReceiver) : prwReceiver :=
  {| rc_config := rc_config r; rc_server := rc_server r; rc_cancel := rc_cancel r; rc_sessions := l |}.

(** What the library answers: of [ToServer] whether the server is not nil, and the
    error; of [Server.Close] the error. *)
Record StartEnv := { st_Close : option GoErr; st_server : bool; st_ToServer : option GoErr }.

(** [None] is the panic of [server.Addr = ...] on a nil server, before the error is
    looked at. *)
Definition newPrometheusRemoteWriteServer (env : StartEnv) (config : PrwConfig) : option (session + GoErr) :=
  if negb (st_server env) then None
  else Some (match st_ToServer env with
             | Some err => inr err
             | None => inl (new_session (Z.to_nat (pc_BufferSize config)))
             end).

(** The server, and then the context. *)
Definition close_server (r : prwReceiver) : prwReceiver :=
  match rc_server r with Some i => set_sessions (alter close i (rc_sessions r)) r | None => r end.

Definition cancel_ctx (r : prwReceiver) : prwReceiver :=
  match rc_cancel r with Some (Some i) => set_sessions (alter cancel i (rc_sessions r)) r | _ => r end.

(** [None] is a panic; [make] panics on a negative size. *)
Definition prw_Start (env : StartEnv) (r : prwReceiver) : option (option GoErr * prwReceiver) :=
  if pc_BufferSize (rc_config r) <? 0 then None
  else
    let err := match rc_server r with Some _ => st_Close env | None => None end in
    let r := close_server r in
    match err with
    | Some err => Some (Some err, r)
    | None =>
        let r := cancel_ctx r in
        server ← newPrometheusRemoteWriteServer env (rc_config r);
        Some match server with
        | inr err =>
            (Some err, {| rc_config := rc_config r; rc_server := rc_server r; rc_cancel := Some None;
                          rc_sessions := rc_sessions r |})
        | inl s =>
            let i := length (rc_sessions r) in
            (None, {| rc_config := rc_config r; rc_server := Some i; rc_cancel := Some (Some i);
                      rc_sessions := rc_sessions r ++ [s] |})
        end
    end.

(** [closeErr] is what [Server.Close] answers. *)
Definition prw_Shutdown (closeErr : option GoErr) (r : prwReceiver) : option GoErr * prwReceiver :=
  match rc_cancel r with
  | None => (None, r)
  | Some _ =>
      (match rc_server r with Some _ => closeErr | None => None end, cancel_ctx (close_server r))
  end.

(** ** The runs: the calls of the collector and the steps of all goroutines *)
Inductive rstep : prwReceiver → prwReceiver → Prop :=
  | R_start env r err r' : prw_Start env r = Some (err, r') → rstep r r'
  | R_shutdown closeErr r : rstep r (prw_Shutdown closeErr r).2
  | R_session i e s s' r :
      rc_sessions r !! i = Some s → session_step e s = Some s' → rstep r (set_sessions (<[i := s']> (rc_sessions r)) r)
  | R_parent i r : rstep r (set_sessions (alter cancel i (rc_sessions r)) r).

(** The same, to run. *)
Inductive revent := C_start (env : StartEnv) | C_shutdown (closeErr : option GoErr) | C_session (i : nat) (e : sevent).

Definition receiver_step (c : revent) (r : prwReceiver) : option prwReceiver :=
  match c with
  | C_start env => '(_, r') ← prw_Start env r; Some r'
  | C_shutdown closeErr => Some (prw_Shutdown closeErr r).2
  | C_session i e =>
      s ← rc_sessions r !! i; s' ← session_step e s; Some (set_sessions (<[i := s']> (rc_sessions r)) r)
  end.

Fixpoint receiver_run (l : list revent) (r : prwReceiver) : option prwReceiver :=
  match l with
  | [] => Some r
  | c :: l' => r ← receiver_step c r; receiver_run l' r
  end.

Lemma receiver_step_rstep c r r' : receiver_step c r = Some r' → rstep r r'.
Proof.
  destruct c as [env|closeErr|i e]; cbn [receiver_step].
  - destruct (prw_Start env r) as [[err r1]|] eqn:E; [|done]. intros [= <-]. by eapply R_start.
  - intros [= <-]. apply R_shutdown.
  - destruct (rc_sessions r !! i) as [s|] eqn:E; [|done]. cbn [mbind option_bind].
    destruct (session_step e s) as [s'|] eqn:E'; [|done]. intros [= <-]. by eapply R_session.
Qed.

Lemma receiver_run_rtc l r r' : receiver_run l r = Some r' → rtc rstep r r'.
Proof.
  revert r. induction l as [|c l IH]; intros r; cbn [receiver_run]; [by intros [= ->]|].
  destruct (receiver_step c r) as [r1|] eqn:E; [|done]. intros Hr. eapply rtc_l; [by eapply receiver_step_rstep|by apply IH].
Qed.

(** ** What a session has accepted *)

Definition accepted_by (x : handler) : option Mtr := match x with H_answered _ o => o | _ => None end.
Definition accepted (s : session) : list Mtr := omap accepted_by (ss_handlers s).

Definition in_flush (s : session) : list Mtr := match ss_manager s with Mg_flush m => [m] | _ => [] end.

Definition flush_ok (p : Mtr * option GoErr) : Prop := p.2 = None.

(** The last flush, and no other, answered an error. *)
Definition flush_failed (s : session) : Prop :=
  ss_manager s = Mg_returned ∧
  ∃ l m err, ss_flushed s = l ++ [(m, Some err)] ∧ Forall flush_ok l.

(** What was sent was flushed, is being flushed or is in the channel, in the order
    it was sent; it is what the handlers answered 202 for. *)
Record session_inv (s : session) : Prop := {
  si_sent : ss_sent s = (ss_flushed s).*1 ++ in_flush s ++ ss_mc s;
  si_accepted : accepted s ≡ₚ ss_sent s;
  si_cap : (length (ss_mc s) ≤ ss_cap s)%nat;
  si_flushed : Forall flush_ok (ss_flushed s) ∨ flush_failed s;
}.

Lemma new_session_inv n : session_inv (new_session n).
Proof. split; try done; [simpl; lia|by left]. Qed.

Lemma set_flags_inv c d s : session_inv s → session_inv (set_flags c d s).
Proof. by intros [? ? ? ?]; split. Qed.

(** A handler that goes on from a point where it has not answered. *)
Lemma omap_insert hs h x x' :
  hs !! h = Some x → accepted_by x = None →
  omap accepted_by (<[h := x']> hs) ≡ₚ omap accepted_by hs ++ (if accepted_by x' is Some m then [m] else []).
Proof.
  intros Hx Hn. rewrite <- (take_drop_middle _ _ _ Hx) at 2. rewrite insert_take_drop by by eapply lookup_lt_Some.
  rewrite !omap_app. cbn [omap list_omap]. rewrite Hn. destruct (accepted_by x'); [|by rewrite app_nil_r].
  change (?m :: ?l) with ([m] ++ l). rewrite <- !app_assoc. f_equiv. apply Permutation_app_comm.
Qed.

Lemma listenAndServe_inv answer s s' : session_inv s → listenAndServe answer s = Some s' → session_inv s'.
Proof.
  intros [? ? ? ?]. unfold listenAndServe. destruct (ss_serve s), answer; try done; try (destruct (ss_closed s); [|done]);
    intros [= <-]; by split.
Qed.

Lemma serve_request_inv body s s' : session_inv s → serve_request body s = Some s' → session_inv s'.
Proof.
  intros [? Ha ? ?]. unfold serve_request. destruct (ss_serve s), (ss_closed s); try done; intros [= <-].
  split; try done. unfold accepted. cbn [ss_handlers set_handlers]. rewrite omap_app. cbn. by rewrite app_nil_r.
Qed.

Lemma handle_inv h s s' : session_inv s → handle h s = Some s' → session_inv s'.
Proof.
  intros [? Ha ? ?]. unfold handle. destruct (ss_handlers s !! h) as [[body| | |]|] eqn:E; try done.
  destruct (newHandler porder _ _) as [[code results] p]. intros [= <-]. split; try done.
  unfold accepted. cbn [ss_handlers set_handlers]. rewrite (omap_insert _ _ _ _ E eq_refl).
  by destruct results; cbn [accepted_by]; rewrite app_nil_r.
Qed.

Lemma send_inv h handoff s s' : session_inv s → send h handoff s = Some s' → session_inv s'.
Proof.
  intros [Hs Ha Hc Hf]. unfold send. destruct (ss_handlers s !! h) as [[|m| |]|] eqn:E; try done.
  pose proof (λ x', omap_insert _ _ _ x' E eq_refl) as Ho.
  destruct (ss_closed s).
  { intros [= <-]. split; try done. unfold accepted. cbn [ss_handlers set_handlers]. rewrite Ho. cbn. by rewrite app_nil_r. }
  destruct handoff.
  - unfold in_flush in Hs. destruct (ss_manager s) eqn:Em; try done. destruct (ss_mc s) eqn:Ec; try done. intros [= <-]. split.
    + cbn. rewrite Hs, !app_nil_r. done.
    + unfold accepted. cbn [ss_handlers set_channel set_handlers ss_sent]. rewrite Ho. cbn. by rewrite Ha.
    + cbn. lia.
    + left. destruct Hf as [?|[? _]]; [done|congruence].
  - destruct (length (ss_mc s) <? ss_cap s)%nat eqn:El; [|done]. apply Nat.ltb_lt in El. intros [= <-]. split.
    + cbn. rewrite Hs. unfold in_flush. cbn. by rewrite <- !app_assoc.
    + unfold accepted. cbn [ss_handlers set_channel set_handlers ss_sent]. rewrite Ho. cbn. by rewrite Ha.
    + cbn. rewrite length_app. cbn. lia.
    + done.
Qed.

Lemma manageServerLifecycle_inv l s s' : session_inv s → manageServerLifecycle l s = Some s' → session_inv s'.
Proof.
  intros [Hs Ha Hc Hf]. unfold manageServerLifecycle. unfold in_flush in Hs. 
  destruct (ss_manager s) eqn:Em, l; try done.
  - assert (Forall flush_ok (ss_flushed s)) as Hok by (destruct Hf as [?|[? _]]; [done|congruence]).
    destruct (ss_mc s) as [|m mc] eqn:Ec.
    + destruct (ss_closed s); [|done]. intros [= <-].
      split; [by cbn; rewrite Ec|done|cbn; by rewrite Ec|by left].
    + intros [= <-]. split; try done; [cbn in *; lia|by left].
  - assert (Forall flush_ok (ss_flushed s)) as Hok by (destruct Hf as [?|[? _]]; [done|congruence]).
    destruct (ss_done s); [|done]. intros [= <-]. by split; [..|left].
  - assert (Forall flush_ok (ss_flushed s)) as Hok by (destruct Hf as [?|[? _]]; [done|congruence]).
    intros [= <-]. split; try done.
    + cbn. rewrite Hs, fmap_app. destruct err; cbn; by rewrite <- app_assoc.
    + destruct err as [err|]; [right|left].
      * split; [done|]. by exists (ss_flushed s), metrics, err.
      * cbn. apply Forall_app. split; [done|]. by apply Forall_singleton.
Qed.

Lemma session_step_inv e s s' : session_inv s → session_step e s = Some s' → session_inv s'.
Proof.
  destruct e; cbn [session_step];
    eauto using listenAndServe_inv, serve_request_inv, handle_inv, send_inv, manageServerLifecycle_inv.
Qed.

(** What a step keeps: the capacity, and that a manager that returned, a closed
    channel and a cancelled context stay so. *)
Record later (s s' : session) : Prop := {
  la_cap : ss_cap s' = ss_cap s;
  la_closed : ss_closed s = true → ss_closed s' = true ∧ ss_sent s' = ss_sent s;
  la_done : ss_done s = true → ss_done s' = true;
  la_returned : ss_manager s = Mg_returned →
    ss_manager s' = Mg_returned ∧ ss_flushed s' = ss_flushed s ∧
    ∃ new, ss_sent s' = ss_sent s ++ new ∧ ss_mc s' = ss_mc s ++ new;
}.

#[global] Instance later_preorder : PreOrder later.
Proof.
  split.
  - intros s. split; try done. intros ?. split_and!; [done..|]. exists []. by rewrite !app_nil_r.
  - intros s1 s2 s3 [Hc1 Hl1 Hd1 Hr1] [Hc2 Hl2 Hd2 Hr2]. split; [congruence| |by auto|].
    + intros [T1 E1]%Hl1. apply Hl2 in T1 as [? ?]. split; [done|congruence].
    + intros (T1 & F1 & n1 & S1 & M1)%Hr1. apply Hr2 in T1 as (? & F2 & n2 & S2 & M2). split_and!; [done|congruence|].
      exists (n1 ++ n2). by rewrite S2, M2, S1, M1, !app_assoc.
Qed.

(** Steps that leave the channel alone. *)
Lemma later_frame s s' :
  ss_cap s' = ss_cap s → (ss_closed s = true → ss_closed s' = true) → (ss_done s = true → ss_done s' = true) →
  ss_manager s' = ss_manager s → ss_sent s' = ss_sent s → ss_mc s' = ss_mc s → ss_flushed s' = ss_flushed s → later s s'.
Proof.
  intros Hc Hl Hd Hm Hs Hmc Hf. split; try done; [by auto|]. intros Hr. split_and!; [congruence|done|].
  exists []. by rewrite Hs, Hmc, !app_nil_r.
Qed.

Lemma close_later s : later s (close s).
Proof. by apply later_frame. Qed.
Lemma cancel_later s : later s (cancel s).
Proof. by apply later_frame. Qed.

Lemma send_later h handoff s s' : send h handoff s = Some s' → later s s'.
Proof.
  unfold send. destruct (ss_handlers s !! h) as [[|m| |]|]; try done. destruct (ss_closed s) eqn:Ec.
  { intros [= <-]. by apply later_frame. }
  destruct handoff.
  - destruct (ss_manager s) eqn:Em, (ss_mc s) eqn:Emc; try done. intros [= <-].
    split; [done|by rewrite Ec|done|by rewrite Em].
  - destruct (_ <? _)%nat; [|done]. intros [= <-]. split; [done|by rewrite Ec|done|]. intros Hr. split_and!; [done..|]. by exists [m].
Qed.

Lemma manageServerLifecycle_later l s s' : manageServerLifecycle l s = Some s' → later s s'.
Proof.
  unfold manageServerLifecycle. destruct (ss_manager s) eqn:Em, l; try done.
  - destruct (ss_mc s) as [|m mc]; [destruct (ss_closed s); [|done]|]; intros [= <-]; split; by rewrite ?Em.
  - destruct (ss_done s); [|done]. intros [= <-]. split; by rewrite ?Em.
  - intros [= <-]. split; by rewrite ?Em.
Qed.

Lemma session_step_later e s s' : session_step e s = Some s' → later s s'.
Proof.
  destruct e; cbn [session_step]; eauto using send_later, manageServerLifecycle_later.
  - unfold listenAndServe. destruct (ss_serve s), answer; try done; try (destruct (ss_closed s); [|done]);
      intros [= <-]; by apply later_frame.
  - unfold serve_request. destruct (ss_serve s), (ss_closed s); try done. intros [= <-]. by apply later_frame.
  - unfold handle. destruct (ss_handlers s !! h) as [[body| | |]|]; try done.
    destruct (newHandler porder _ _) as [[code results] p]. intros [= <-]. by apply later_frame.
Qed.

(** ** Runs of the receiver *)

(** Only the current server is open, and only the current context runs. *)
Record receiver_inv (r : prwReceiver) : Prop := {
  ri_sessions : ∀ i s, rc_sessions r !! i = Some s → session_inv s;
  ri_open : ∀ i s, rc_sessions r !! i = Some s → ss_closed s = false → rc_server r = Some i;
  ri_running : ∀ i s, rc_sessions r !! i = Some s → ss_done s = false → rc_cancel r = Some (Some i);
  ri_none : rc_cancel r = None → rc_sessions r = [];
}.

Lemma alter_lookup (f : session → session) (j : nat) (l : list session) (i : nat) s :
  alter f j l !! i = Some s → ∃ s0, l !! i = Some s0 ∧ s = (if decide (i = j) then f s0 else s0).
Proof.
  destruct (decide (i = j)) as [->|Hne].
  - rewrite list_lookup_alter_eq. intros (s0 & -> & ->)%fmap_Some. eauto.
  - rewrite list_lookup_alter_ne by done. eauto.
Qed.


(** Closing or cancelling one session. *)
Lemma set_flags_sessions_inv j f r :
  (∀ s, session_inv s → session_inv (f s)) → (∀ s, ss_closed s = true → ss_closed (f s) = true) →
  (∀ s, ss_done s = true → ss_done (f s) = true) →
  receiver_inv r → receiver_inv (set_sessions (alter f j (rc_sessions r)) r).
Proof.
  intros Hi Hc Hd [Hs Ho Hr Hn]. split; cbn [rc_sessions set_sessions rc_server rc_cancel].
  - intros i s (s0 & E & ->)%alter_lookup. case_decide; eauto.
  - intros i s (s0 & E & ->)%alter_lookup Hf. apply (Ho i s0 E). case_decide; [|done].
    destruct (ss_closed s0) eqn:E0; [|done]. apply Hc in E0. congruence.
  - intros i s (s0 & E & ->)%alter_lookup Hf. apply (Hr i s0 E). case_decide; [|done].
    destruct (ss_done s0) eqn:E0; [|done]. apply Hd in E0. congruence.
  - intros E. by rewrite (Hn E).
Qed.

Lemma close_server_inv r : receiver_inv r → receiver_inv (close_server r).
Proof.
  unfold close_server. destruct (rc_server r); [|done]. apply set_flags_sessions_inv; try done. intros ?. apply set_flags_inv.
Qed.

Lemma cancel_ctx_inv r : receiver_inv r → receiver_inv (cancel_ctx r).
Proof.
  unfold cancel_ctx. destruct (rc_cancel r) as [[]|]; try done. apply set_flags_sessions_inv; try done.
  intros ?. apply set_flags_inv.
Qed.

Lemma close_server_closed r i s :
  receiver_inv r → rc_sessions (close_server r) !! i = Some s → ss_closed s = true.
Proof.
  intros Hi. unfold close_server. destruct (rc_server r) as [j|] eqn:E.
  - intros (s0 & E0 & ->)%alter_lookup. case_decide; [done|]. destruct (ss_closed s0) eqn:Ec; [done|].
    apply (ri_open r Hi i s0 E0) in Ec. congruence.
  - intros E0. destruct (ss_closed s) eqn:Ec; [done|]. apply (ri_open r Hi i s E0) in Ec. congruence.
Qed.

Lemma cancel_ctx_done r i s :
  receiver_inv r → rc_sessions (cancel_ctx r) !! i = Some s → ss_done s = true.
Proof.
  intros Hi. unfold cancel_ctx. destruct (rc_cancel r) as [[j|]|] eqn:E.
  - intros (s0 & E0 & ->)%alter_lookup. case_decide; [done|]. destruct (ss_done s0) eqn:Ec; [done|].
    apply (ri_running r Hi i s0 E0) in Ec. congruence.
  - intros E0. destruct (ss_done s) eqn:Ec; [done|]. apply (ri_running r Hi i s E0) in Ec. congruence.
  - intros E0. by rewrite (ri_none r Hi E) in E0.
Qed.

(** Before the new server both are done; what cancelling changes. *)
Lemma stopped_closed r i s :
  receiver_inv r → rc_sessions (cancel_ctx (close_server r)) !! i = Some s → ss_closed s = true ∧ ss_done s = true.
Proof.
  intros Hi Hs. split; [|by eapply cancel_ctx_done, Hs; apply close_server_inv].
  unfold cancel_ctx in Hs. destruct (rc_cancel (close_server r)) as [[j|]|]; try by eapply close_server_closed.
  apply alter_lookup in Hs as (s0 & Hs0 & ->). apply close_server_closed in Hs0; [|done]. by case_decide.
Qed.

Lemma prw_Start_inv env r err r' : receiver_inv r → prw_Start env r = Some (err, r') → receiver_inv r'.
Proof.
  intros Hi. unfold prw_Start. destruct (_ <? 0); [done|].
  destruct (match rc_server r with Some _ => st_Close env | None => None end); [intros [= <- <-]; by apply close_server_inv|].
  destruct (newPrometheusRemoteWriteServer _ _) as [o|] eqn:Eo; [|done]. cbn [mbind option_bind].
  pose proof (cancel_ctx_inv _ (close_server_inv _ Hi)) as Hi'.
  destruct o as [s|e]; intros [= <- <-]; split; cbn [rc_sessions rc_server rc_cancel]; try done.
  - intros i s0 [H'|[_ [_ <-]%list_lookup_singleton_Some]]%lookup_app_Some; [by eapply ri_sessions|].
    unfold newPrometheusRemoteWriteServer in Eo. destruct (st_server env); [|done]. cbn [negb] in Eo.
    destruct (st_ToServer env); [done|]. injection Eo as <-. apply new_session_inv.
  - intros i s0 [H'|[? [? <-]%list_lookup_singleton_Some]]%lookup_app_Some Hc; [|f_equal; lia].
    apply stopped_closed in H'; [|done]. destruct H'. congruence.
  - intros i s0 [H'|[? [? <-]%list_lookup_singleton_Some]]%lookup_app_Some Hc; [|repeat f_equal; lia].
    apply stopped_closed in H'; [|done]. destruct H'. congruence.
  - by apply ri_sessions.
  - by apply ri_open.
  - intros i s0 H' Hc. apply stopped_closed in H'; [|done]. destruct H'. congruence.
Qed.

Lemma rstep_inv r r' : receiver_inv r → rstep r r' → receiver_inv r'.
Proof.
  intros Hi. destruct 1 as [env r err r' Hs|closeErr r|i e s s' r Hs Hstep|i r].
  - by eapply prw_Start_inv.
  - unfold prw_Shutdown. destruct (rc_cancel r); [|done]. by apply cancel_ctx_inv, close_server_inv.
  - pose proof (session_step_later _ _ _ Hstep) as Hl. pose proof Hi as [Hss Ho Hr Hn].
    assert (∀ j s0, <[i:=s']> (rc_sessions r) !! j = Some s0 →
              j = i ∧ s0 = s' ∨ j ≠ i ∧ rc_sessions r !! j = Some s0) as Hl'.
    { intros j s0. rewrite list_lookup_insert_Some. naive_solver. }
    split; cbn [rc_sessions set_sessions rc_server rc_cancel].
    + intros j s0 [[-> ->]|[_ ?]]%Hl'; [|by eauto]. eapply session_step_inv, Hstep; eauto.
    + intros j s0 [[-> ->]|[_ ?]]%Hl' Hc; [|by eauto]. apply (Ho i s Hs). destruct (ss_closed s) eqn:E; [|done].
      apply (la_closed _ _ Hl) in E as [? _]. congruence.
    + intros j s0 [[-> ->]|[_ ?]]%Hl' Hc; [|by eauto]. apply (Hr i s Hs). destruct (ss_done s) eqn:E; [|done].
      apply (la_done _ _ Hl) in E. congruence.
    + intros E. by rewrite (Hn E) in Hs.
  - apply set_flags_sessions_inv; try done. intros ?. apply set_flags_inv.
Qed.

Lemma prw_reachable_inv config r : rtc rstep (newReceiver config) r → receiver_inv r.
Proof. apply rtc_invariant; [eauto using rstep_inv|by split]. Qed.

Lemma alter_later (f : session → session) (j : nat) (l : list session) (i : nat) s :
  (∀ s, later s (f s)) → l !! i = Some s → ∃ s', alter f j l !! i = Some s' ∧ later s s'.
Proof.
  intros Hf Hs. destruct (decide (i = j)) as [->|Hne].
  - exists (f s). by rewrite list_lookup_alter_eq, Hs.
  - exists s. by rewrite list_lookup_alter_ne by done.
Qed.

Lemma stopped_later r i s :
  rc_sessions r !! i = Some s →
  (∃ s', rc_sessions (close_server r) !! i = Some s' ∧ later s s') ∧
  (∃ s', rc_sessions (cancel_ctx (close_server r)) !! i = Some s' ∧ later s s').
Proof.
  intros Hs. assert (∃ s', rc_sessions (close_server r) !! i = Some s' ∧ later s s') as (s1 & Hs1 & Hl1).
  { unfold close_server. destruct (rc_server r); [|by exists s]. by apply alter_later; [apply close_later|]. }
  split; [by exists s1|]. unfold cancel_ctx. destruct (rc_cancel (close_server r)) as [[j|]|]; try by exists s1.
  destruct (alter_later cancel j _ _ _ cancel_later Hs1) as (s2 & Hs2 & Hl2). exists s2. split; [done|by etrans].
Qed.

Lemma rstep_later r r' i s :
  rstep r r' → rc_sessions r !! i = Some s → ∃ s', rc_sessions r' !! i = Some s' ∧ later s s'.
Proof.
  destruct 1 as [env r err r' Hst|closeErr r|j e s0 s' r Hs0 Hstep|j r]; intros Hs;
    destruct (stopped_later _ _ _ Hs) as [Hclose (s2 & Hs2 & Hl2)].
  - unfold prw_Start in Hst. destruct (_ <? 0); [done|].
    destruct (match rc_server r with Some _ => st_Close env | None => None end); [by injection Hst as <- <-|].
    destruct (newPrometheusRemoteWriteServer _ _) as [[sn|e]|]; cbn [mbind option_bind] in Hst; [| |done];
      injection Hst as <- <-; exists s2; (split; [|done]); [by apply lookup_app_l_Some|done].
  - unfold prw_Shutdown. destruct (rc_cancel r); [by exists s2|by exists s].
  - destruct (decide (j = i)) as [->|Hne].
    + exists s'. simplify_eq. split; [|by eapply session_step_later]. apply list_lookup_insert_eq. by eapply lookup_lt_Some.
    + exists s. cbn [rc_sessions set_sessions]. by rewrite list_lookup_insert_ne by done.
  - by apply alter_later; [apply cancel_later|].
Qed.

Lemma run_later r r' i s :
  rtc rstep r r' → rc_sessions r !! i = Some s → ∃ s', rc_sessions r' !! i = Some s' ∧ later s s'.
Proof.
  intros Hr. revert s. induction Hr as [r|r r1 r2 Hstep Hr IH]; intros s Hs; [by exists s|].
  destruct (rstep_later _ _ _ _ Hstep Hs) as (s1 & Hs1 & Hl1). destruct (IH s1 Hs1) as (s2 & Hs2 & Hl2).
  exists s2. split; [done|by etrans].
Qed.

(** ** Draining the channel *)

Fixpoint lifecycle_run (l : list lifecycle) (s : session) : option session :=
  match l with
  | [] => Some s
  | a :: l' => s ← manageServerLifecycle a s; lifecycle_run l' s
  end.

(** A manager that has not returned flushes all there is, if the consumer takes it. *)
Definition drain (s : session) : list lifecycle :=
  match ss_manager s with Mg_flush _ => [L_flush None] | _ => [] end ++
  mjoin (replicate (length (ss_mc s)) [L_receive; L_flush None]).

Lemma drain_run s :
  ss_manager s ≠ Mg_returned →
  lifecycle_run (drain s) s =
    Some (set_channel [] Mg_select (ss_sent s) (ss_flushed s ++ ((λ m, (m, None)) <$> in_flush s ++ ss_mc s)) s).
Proof.
  intros Hm.
  assert (∀ s, ss_manager s = Mg_select → lifecycle_run (mjoin (replicate (length (ss_mc s)) [L_receive; L_flush None])) s =
    Some (set_channel [] Mg_select (ss_sent s) (ss_flushed s ++ ((λ m, (m, None)) <$> ss_mc s)) s)) as Hsel.
  { clear. intros s. remember (ss_mc s) as mc eqn:Emc. revert s Emc. induction mc as [|m mc IH]; intros s Emc Hm.
    - cbn. destruct s; cbn in *; subst. by rewrite app_nil_r.
    - cbn [length replicate mjoin list_join app lifecycle_run mbind option_bind].
      assert (manageServerLifecycle L_receive s = Some (set_channel mc (Mg_flush m) (ss_sent s) (ss_flushed s) s)) as ->
        by (unfold manageServerLifecycle; by rewrite Hm, <- Emc).
      cbn [manageServerLifecycle set_channel ss_manager mbind option_bind]. rewrite IH by done. f_equal. cbn. by rewrite <- app_assoc. }
  unfold drain, in_flush. destruct (ss_manager s) eqn:E; [by apply Hsel| |done].
  cbn [app lifecycle_run]. unfold manageServerLifecycle. rewrite E. cbn [mbind option_bind].
  etrans; [apply (Hsel (set_manager Mg_select (flush None metrics s)) eq_refl)|]. cbn. by rewrite <- app_assoc.
Qed.

(** ** Theorems *)

(** C28: In every interleaving of the handlers, the forwarding goroutine, [Start] and
    [Shutdown], what the handlers answered 202 for is, in the order it was sent, what
    the consumer was called with, then what is being flushed, then what is in the
    channel, which never holds more than [BufferSize]; and while the forwarding goroutine has not
    returned and the consumer takes what it is given, its steps alone flush all of it. *)
Theorem prw_accepted_is_flushed config r i s :
  rtc rstep (newReceiver config) r → rc_sessions r !! i = Some s →
  accepted s ≡ₚ ss_sent s ∧
  ss_sent s = (ss_flushed s).*1 ++ in_flush s ++ ss_mc s ∧
  (length (ss_mc s) ≤ ss_cap s)%nat ∧
  (ss_manager s ≠ Mg_returned →
     ∃ s', lifecycle_run (drain s) s = Some s' ∧ (ss_flushed s').*1 = ss_sent s ∧ ss_mc s' = []).
Proof.
  intros Hr Hs. destruct (ri_sessions _ (prw_reachable_inv _ _ Hr) _ _ Hs) as [Hsent Hacc Hcap _]. split_and!; [done..|].
  intros Hm. eexists. split; [by apply drain_run|]. split; [|done]. cbn [ss_flushed set_channel].
  by rewrite fmap_app, <- list_fmap_compose, list_fmap_id, Hsent.
Qed.

(** C29: After one error of the consumer nothing is ever flushed again, in any
    run: at most as many requests are still answered 202 as the channel has room for, and
    what they sent stays in it; and once it is full, no handler gets past its send
    while the server is open. *)
Theorem prw_flush_error_stops config r r' i s :
  rtc rstep (newReceiver config) r → rc_sessions r !! i = Some s → ¬ Forall flush_ok (ss_flushed s) →
  rtc rstep r r' →
  ∃ s', rc_sessions r' !! i = Some s' ∧ ss_flushed s' = ss_flushed s ∧
    (∃ new, ss_sent s' = ss_sent s ++ new ∧ ss_mc s' = ss_mc s ++ new ∧
       (length (ss_mc s) + length new ≤ ss_cap s)%nat) ∧
    (ss_closed s' = false → length (ss_mc s') = ss_cap s' →
     ∀ h results handoff, ss_handlers s' !! h = Some (H_send results) → session_step (E_send h handoff) s' = None).
Proof.
  intros Hr Hs Hbad Hr'. destruct (run_later _ _ _ _ Hr' Hs) as (s' & Hs' & Hl).
  destruct (ri_sessions _ (prw_reachable_inv _ _ Hr) _ _ Hs) as [_ _ _ [Hok|[Hm _]]]; [done|].
  destruct (la_returned _ _ Hl Hm) as (Hm' & Hf & new & Hsent & Hmc).
  assert (rtc rstep (newReceiver config) r') as Hrr by by etrans.
  pose proof (si_cap _ (ri_sessions _ (prw_reachable_inv _ _ Hrr) _ _ Hs')) as Hcap.
  exists s'. split_and!; [done..| |].
  - exists new. split_and!; [done..|]. by rewrite Hmc, length_app, (la_cap _ _ Hl) in Hcap.
  - intros Hc Hfull h results handoff Hh. cbn [session_step]. unfold send. rewrite Hh, Hc, Hm'. destruct handoff; [done|].
    by rewrite Hfull, Nat.ltb_irrefl.
Qed.

(** [Start] panics just when the buffer size is negative or when [ToServer]
    answers a nil server, which its library does on every error: so that the error of [ToServer] is
    never reported, and the only error is the one of closing the previous server.  At
    any time at most the current server is open and its context runs; after a
    [Shutdown] none is, and a session that is closed accepts nothing more. *)
Theorem prw_Start_Shutdown config r :
  rtc rstep (newReceiver config) r →
  (∀ env, let closeErr := match rc_server r with Some _ => st_Close env | None => None end in
     (prw_Start env r = None ↔ pc_BufferSize (rc_config r) < 0 ∨ closeErr = None ∧ st_server env = false) ∧
     ((is_Some (st_ToServer env) → st_server env = false) →
      ∀ err r', prw_Start env r = Some (err, r') → err = closeErr)) ∧
  (∀ i s, rc_sessions r !! i = Some s →
     (ss_closed s = false → rc_server r = Some i) ∧ (ss_done s = false → rc_cancel r = Some (Some i)) ∧
     (ss_closed s = true → ∀ r', rtc rstep r r' →
        ∃ s', rc_sessions r' !! i = Some s' ∧ ss_closed s' = true ∧ ss_sent s' = ss_sent s)) ∧
  (∀ closeErr i s, rc_sessions (prw_Shutdown closeErr r).2 !! i = Some s → ss_closed s = true ∧ ss_done s = true).
Proof.
  intros Hr. pose proof (prw_reachable_inv _ _ Hr) as Hi. split_and!.
  - intros env closeErr. unfold prw_Start. fold closeErr. unfold newPrometheusRemoteWriteServer.
    destruct (pc_BufferSize (rc_config r) <? 0) eqn:Eb; [apply Z.ltb_lt in Eb; naive_solver|]. apply Z.ltb_ge in Eb.
    destruct closeErr as [err|]; [split; [naive_solver lia|naive_solver]|].
    destruct (st_server env) eqn:Es; cbn [negb mbind option_bind]; [|naive_solver].
    split; [naive_solver lia|]. intros Hlaw err r'. destruct (st_ToServer env) as [e|]; [|by intros [= <- <-]].
    by specialize (Hlaw ltac:(by eexists)).
  - intros i s Hs. split_and!; [by eapply ri_open|by eapply ri_running|]. intros Hc r' Hr'.
    destruct (run_later _ _ _ _ Hr' Hs) as (s' & Hs' & Hl). exists s'. split; [done|]. by apply (la_closed _ _ Hl).
  - intros closeErr i s. unfold prw_Shutdown. destruct (rc_cancel r) as [c|] eqn:E.
    + by apply stopped_closed.
    + cbn [snd]. by rewrite (ri_none _ Hi E).
Qed.
End receiver.

(** ** An example: a consumer that fails once, and a channel of one *)

Import RefPData AMD64 RefErrors.

(** A request without series becomes the three counters. *)
Definition prw_ex_request : WriteRequest := {| wr_Timeseries := []; wr_Metadata := 1 |}.

Definition ex_snappy (b : string) : string + GoErr := inl b.
Definition ex_Unmarshal (b : string) : WriteRequest + GoErr := inl prw_ex_request.
Definition ex_err : GoErr := Plain "queue is full" false.
Definition ex_start : revent := C_start {| st_Close := None; st_server := true; st_ToServer := None |}.
Definition ex_config : PrwConfig := {| pc_Endpoint := "localhost:19291"; pc_ListenPath := "/metrics"; pc_BufferSize := 1 |}.

(** A request up to its answer. *)
Definition ex_post (h : nat) : list revent :=
  [C_session 0 (E_request (inl "")); C_session 0 (E_handle h); C_session 0 (E_send h false)].

(** The first flush fails. *)
Definition ex_fail : list revent :=
  [ex_start; C_session 0 (E_serve None)] ++ ex_post 0 ++
  [C_session 0 (E_lifecycle L_receive); C_session 0 (E_lifecycle (L_flush (Some ex_err)))].

(** Then a second request is accepted, and a third one waits. *)
Definition ex_more : list revent := ex_post 1 ++ take 2 (ex_post 2).

Notation ex_run := (receiver_run ex_porder ex_snappy ex_Unmarshal).
Definition ex_r1 : prwReceiver := default (newReceiver ex_config) (ex_run ex_fail (newReceiver ex_config)).
Definition ex_r2 : prwReceiver := default ex_r1 (ex_run ex_more ex_r1).
Definition ex_s (r : prwReceiver) : session := default (new_session 0) (rc_sessions r !! 0%nat).

Lemma is_some_default {A} (d : A) (o : option A) : is_some o = true → o = Some (default d o).
Proof. by destruct o. Qed.

Lemma ex_r1_run : rtc (rstep ex_porder ex_snappy ex_Unmarshal) (newReceiver ex_config) ex_r1.
Proof. apply (receiver_run_rtc _ _ _ ex_fail), is_some_default. vm_compute. reflexivity. Qed.

Lemma ex_r2_run : rtc (rstep ex_porder ex_snappy ex_Unmarshal) ex_r1 ex_r2.
Proof. apply (receiver_run_rtc _ _ _ ex_more), is_some_default. vm_compute. reflexivity. Qed.

Lemma ex_lookup r i : is_some (rc_sessions r !! i) = true → i = 0%nat → rc_sessions r !! i = Some (ex_s r).
Proof. intros Hs ->. by apply is_some_default. Qed.

Lemma flush_ok_forallb (l : list (list PrwMetric * option GoErr)) :
  Forall flush_ok l → forallb (λ p, negb (is_some p.2)) l = true.
Proof. induction 1 as [|[m o] l Ho _ IH]; [done|]. unfold flush_ok in Ho. cbn in *. by rewrite Ho. Qed.

Lemma ex_sending : ∃ m, ss_handlers (ex_s ex_r2) !! 2%nat = Some (H_send m).
Proof.
  assert (match ss_handlers (ex_s ex_r2) !! 2%nat with Some (H_send _) => true | _ => false end = true) as H
    by (vm_compute; reflexivity).
  destruct (ss_handlers (ex_s ex_r2) !! 2%nat) as [[| | |]|]; try discriminate H. by eexists.
Qed.

Lemma prw_accepted_is_flushed_witness :
  length (ss_sent (ex_s ex_r2)) = 2%nat ∧
  ss_sent (ex_s ex_r2) = (ss_flushed (ex_s ex_r2)).*1 ++ in_flush (ex_s ex_r2) ++ ss_mc (ex_s ex_r2).
Proof.
  split; [vm_compute; reflexivity|].
  refine (proj1 (proj2 (prw_accepted_is_flushed ex_porder ex_snappy ex_Unmarshal ex_config ex_r2 0 _ _ _))).
  - exact (rtc_trans _ _ _ ex_r1_run ex_r2_run).
  - apply ex_lookup; [vm_compute|]; reflexivity.
Defined.

Lemma prw_flush_error_stops_witness :
  length (ss_flushed (ex_s ex_r2)) = 1%nat ∧
  ∃ s', rc_sessions ex_r2 !! 0%nat = Some s' ∧
    session_step ex_porder ex_snappy ex_Unmarshal (E_send 2 false) s' = None.
Proof.
  split; [vm_compute; reflexivity|]. destruct ex_sending as [m Hm].
  destruct (prw_flush_error_stops ex_porder ex_snappy ex_Unmarshal ex_config ex_r1 ex_r2 0 (ex_s ex_r1))
    as (s' & Hs' & _ & _ & Hblock).
  - exact ex_r1_run.
  - apply ex_lookup; [vm_compute|]; reflexivity.
  - intros Hall%flush_ok_forallb. vm_compute in Hall. discriminate Hall.
  - exact ex_r2_run.
  - exists s'. split; [exact Hs'|].
    assert (s' = ex_s ex_r2) as -> by (unfold ex_s; rewrite Hs'; reflexivity).
    apply (Hblock ltac:(vm_compute; reflexivity) ltac:(vm_compute; reflexivity) 2%nat m false Hm).
Defined.

Lemma prw_Start_Shutdown_witness :
  is_some (rc_server ex_r2) = true ∧
  prw_Start {| st_Close := None; st_server := false; st_ToServer := Some ex_err |} ex_r2 = None.
Proof.
  split; [vm_compute; reflexivity|].
  refine (proj2 (proj1 (proj1 (prw_Start_Shutdown ex_porder ex_snappy ex_Unmarshal ex_config ex_r2 _) _)) _).
  - exact (rtc_trans _ _ _ ex_r1_run ex_r2_run).
  - right. split; [by destruct (rc_server ex_r2)|reflexivity].
Defined.
