(* ===== verification/SwMetrics.v ===== *)
(** * SwMetrics: the JVM metrics of the Skywalking receiver

    Models [skywalkingreceiver/internal/metrics]: the translation of the JVM
    metrics of an agent ([skywalkingproto_to_metrics.go]) and the service that
    consumes them ([metric_report_service.go]).  The messages are generated code:
    their fields are records, a sub-message that may be absent is an option, and the
    names of their enumerations are parameters. *)

From S2P Require Import Prelude GoStrings Float64 PData OtlpTraces.

(** ** The messages of the agent *)

(** [agent.PoolType]; the ones the code does not name are numbers. *)
Inductive PoolType :=
  | CODE_CACHE_USAGE | NEWGEN_USAGE | OLDGEN_USAGE | SURVIVOR_USAGE | PERMGEN_USAGE | METASPACE_USAGE
  | OTHER_USAGE (n : Z).

Record GC := { gc_Phase : Z; gc_Count : Z; gc_Time : Z }.
Record MemoryPool := { mp_Type : PoolType; mp_Init : Z; mp_Max : Z; mp_Used : Z; mp_Committed : Z }.
Record Thread := {
  th_LiveCount : Z; th_DaemonCount : Z; th_PeakCount : Z; th_RunnableStateThreadCount : Z;
  th_BlockedStateThreadCount : Z; th_WaitingStateThreadCount : Z; th_TimedWaitingStateThreadCount : Z;
}.
Record CPU := { cpu_UsagePercent : float64 }.

Record JVMMetric := {
  jm_Time : Z;
  jm_Gc : list GC;
  jm_MemoryPool : list MemoryPool;
  jm_Thread : option Thread;
  jm_Cpu : option CPU;
}.

Record JVMMetricCollection := { jc_Metrics : list JVMMetric; jc_Service : string; jc_ServiceInstance : string }.

(** ** skywalkingproto_to_metrics.go *)

Section jvm.
Context `{PData} `{GrpcErrors}.
(** The [String] methods of [agent.GCPhase] and [agent.PoolType]. *)
Variables (GCPhase_String : Z → string) (PoolType_String : PoolType → string).

Record JvmPoint := { jp_Attributes : AMap; jp_Timestamp : Z; jp_Value : NumberValue }.
(** Every metric is a gauge. *)
Record JvmMetric := { jv_Name : string; jv_Unit : string; jv_Points : list JvmPoint }.
Record JvmResource := { jr_Attributes : AMap; jr_ScopeName : string; jr_Metrics : list JvmMetric }.

Definition jvmScopeName : string := "runtime_metrics".
Definition gcCountMetricName : string := "sw.jvm.gc.count".
Definition gcDurationMetricName : string := "sw.jvm.gc.duration".
Definition MemoryPoolInitName : string := "jvm.memory.init".
Definition MemoryPoolMaxName : string := "jvm.memory.max".
Definition MemoryPoolUsedName : string := "jvm.memory.used".
Definition MemoryPoolCommittedName : string := "jvm.memory.committed".
Definition ThreadCountName : string := "jvm.thread.count".
Definition CPUUtilizationName : string := "jvm.cpu.recent_utilization".

(** [NewTimestampFromTime(time.UnixMilli(timestamp))]. *)
Definition milli_timestamp (timestamp : Z) : Z := u64 (i64 (timestamp * 1000000)).

Definition fillNumberDataPointIntValue (timestamp value : Z) (attrs : AMap) : JvmPoint :=
  {| jp_Attributes := attrs; jp_Timestamp := milli_timestamp timestamp; jp_Value := IntValue value |}.

Definition fillNumberDataPointDoubleValue (timestamp : Z) (value : float64) (attrs : AMap) : JvmPoint :=
  {| jp_Attributes := attrs; jp_Timestamp := milli_timestamp timestamp; jp_Value := DoubleValue value |}.

Definition buildGCAttrs (gc : GC) : AMap := Map_PutStr "jvm.gc.name" (GCPhase_String (gc_Phase gc)) Map_New.

Definition gcMetricToMetrics (timestamp : Z) (gcList : list GC) : list JvmMetric :=
  [{| jv_Name := gcCountMetricName; jv_Unit := "";
      jv_Points := (λ gc, fillNumberDataPointIntValue timestamp (gc_Count gc) (buildGCAttrs gc)) <$> gcList |};
   {| jv_Name := gcDurationMetricName; jv_Unit := "ms";
      jv_Points := (λ gc, fillNumberDataPointIntValue timestamp (gc_Time gc) (buildGCAttrs gc)) <$> gcList |}].

Definition buildMemoryPoolAttrs (pool : MemoryPool) : AMap :=
  let memoryType :=
    match mp_Type pool with
    | CODE_CACHE_USAGE | METASPACE_USAGE | PERMGEN_USAGE => "non_heap"
    | NEWGEN_USAGE | OLDGEN_USAGE | SURVIVOR_USAGE => "heap"
    | OTHER_USAGE _ => ""
    end in
  Map_PutStr "jvm.memory.type" memoryType (Map_PutStr "jvm.memory.pool.name" (PoolType_String (mp_Type pool)) Map_New).

Definition memoryPoolMetricToMetrics (timestamp : Z) (memoryPools : list MemoryPool) : list JvmMetric :=
  (λ '(name, field),
     {| jv_Name := name; jv_Unit := "By";
        jv_Points := (λ pool, fillNumberDataPointIntValue timestamp (field pool) (buildMemoryPoolAttrs pool)) <$> memoryPools |})
    <$> [(MemoryPoolInitName, mp_Init); (MemoryPoolUsedName, mp_Used); (MemoryPoolMaxName, mp_Max);
         (MemoryPoolCommittedName, mp_Committed)].

Definition buildThreadTypeAttrs (typeValue : string) : AMap :=
  Map_PutBool "thread.daemon" (bool_decide (typeValue = "daemon")) (Map_PutStr "thread.state" typeValue Map_New).

Definition threadMetricToMetrics (timestamp : Z) (thread : option Thread) : option JvmMetric :=
  thread ← thread;      (* [None]: the panic of a nil pointer *)
  Some {| jv_Name := ThreadCountName; jv_Unit := "{thread}";
          jv_Points := (λ '(count, state), fillNumberDataPointIntValue timestamp count (buildThreadTypeAttrs state)) <$>
            [(th_LiveCount thread, "live"); (th_DaemonCount thread, "daemon"); (th_PeakCount thread, "peak");
             (th_RunnableStateThreadCount thread, "runnable"); (th_BlockedStateThreadCount thread, "blocked");
             (th_WaitingStateThreadCount thread, "waiting"); (th_TimedWaitingStateThreadCount thread, "time_waiting")] |}.

Definition cpuMetricToMetrics (timestamp : Z) (cpu : option CPU) : option JvmMetric :=
  cpu ← cpu;
  Some {| jv_Name := CPUUtilizationName; jv_Unit := "1";
          jv_Points := [fillNumberDataPointDoubleValue timestamp (cpu_UsagePercent cpu) Map_New] |}.

Definition jvmMetricToResourceMetrics (jvmMetric : JVMMetric) : option (list JvmMetric) :=
  let gc := gcMetricToMetrics (jm_Time jvmMetric) (jm_Gc jvmMetric) in
  let memory := memoryPoolMetricToMetrics (jm_Time jvmMetric) (jm_MemoryPool jvmMetric) in
  thread ← threadMetricToMetrics (jm_Time jvmMetric) (jm_Thread jvmMetric);
  cpu ← cpuMetricToMetrics (jm_Time jvmMetric) (jm_Cpu jvmMetric);
  Some (gc ++ memory ++ [thread; cpu]).

Definition jvmMetricToResource (serviceName serviceInstance : string) : AMap :=
  Map_PutStr "service.instance.id" serviceInstance (Map_PutStr "service.name" serviceName Map_New).

Definition SwMetricsToMetrics (collection : JVMMetricCollection) : option (list JvmResource) :=
  mapM (λ jvmMetric,
          metrics ← jvmMetricToResourceMetrics jvmMetric;
          Some {| jr_Attributes := jvmMetricToResource (jc_Service collection) (jc_ServiceInstance collection);
                  jr_ScopeName := jvmScopeName; jr_Metrics := metrics |})
       (jc_Metrics collection).

(** ** metric_report_service.go *)

(** The message forwarded and the error; a nil collection is not forwarded. *)
Definition consumeMetrics (collection : option JVMMetricCollection) (nextConsumer : list JvmResource → option GoErr)
    : option (option (list JvmResource) * option GoErr) :=
  match collection with
  | None => Some (None, None)
  | Some collection => pmd ← SwMetricsToMetrics collection; Some (Some pmd, nextConsumer pmd)
  end.

Definition metrics_Collect (collection : option JVMMetricCollection) (nextConsumer : list JvmResource → option GoErr)
    : option (option (list JvmResource) * option GoErr) := consumeMetrics collection nextConsumer.

(** ** Theorems *)

(** One metric of the agent. *)
Lemma jvmMetricToResourceMetrics_spec m :
  match jvmMetricToResourceMetrics m with
  | None => jm_Thread m = None ∨ jm_Cpu m = None
  | Some metrics =>
      (jv_Name <$> metrics) =
        [gcCountMetricName; gcDurationMetricName; MemoryPoolInitName; MemoryPoolUsedName; MemoryPoolMaxName;
         MemoryPoolCommittedName; ThreadCountName; CPUUtilizationName] ∧
      (length ∘ jv_Points <$> metrics) =
        (let g := length (jm_Gc m) in let p := length (jm_MemoryPool m) in [g; g; p; p; p; p; 7%nat; 1%nat]) ∧
      ∀ jv point, jv ∈ metrics → point ∈ jv_Points jv → jp_Timestamp point = milli_timestamp (jm_Time m)
  end.
Proof.
  unfold jvmMetricToResourceMetrics, threadMetricToMetrics, cpuMetricToMetrics.
  destruct (jm_Thread m) as [thread|]; cbn [mbind option_bind]; [|by left].
  destruct (jm_Cpu m) as [cpu|]; cbn [mbind option_bind]; [|by right]. split; [done|]. split.
  - cbn. by rewrite !length_fmap.
  - intros jv point Hjv Hp. unfold gcMetricToMetrics, memoryPoolMetricToMetrics in Hjv. cbn in Hjv.
    repeat (apply elem_of_cons in Hjv as [->|Hjv]; [cbn [jv_Points] in Hp;
      (apply list_elem_of_fmap in Hp as (x & -> & _); done) || (cbn in Hp; set_solver)|]).
    by apply elem_of_nil in Hjv.
Qed.

(** The translation panics just when a metric of the agent comes without its
    thread or its CPU message; otherwise every metric becomes a resource of the
    service and its instance with the two metrics of the collector, the four of the
    memory pools, the threads and the CPU, in that order, with one point per
    collection, pool and thread state, all at the time of the metric. *)
Theorem SwMetricsToMetrics_spec collection :
  match SwMetricsToMetrics collection with
  | None => ∃ m, m ∈ jc_Metrics collection ∧ (jm_Thread m = None ∨ jm_Cpu m = None)
  | Some rs =>
      Forall2 (λ m r,
        jr_Attributes r = jvmMetricToResource (jc_Service collection) (jc_ServiceInstance collection) ∧
        (jv_Name <$> jr_Metrics r) =
          [gcCountMetricName; gcDurationMetricName; MemoryPoolInitName; MemoryPoolUsedName; MemoryPoolMaxName;
           MemoryPoolCommittedName; ThreadCountName; CPUUtilizationName] ∧
        (length ∘ jv_Points <$> jr_Metrics r) =
          (let g := length (jm_Gc m) in let p := length (jm_MemoryPool m) in [g; g; p; p; p; p; 7%nat; 1%nat]) ∧
        (∀ jv point, jv ∈ jr_Metrics r → point ∈ jv_Points jv → jp_Timestamp point = milli_timestamp (jm_Time m)))
      (jc_Metrics collection) rs
  end.
Proof.
  unfold SwMetricsToMetrics. induction (jc_Metrics collection) as [|m ms IH]; [by constructor|]. cbn [mapM].
  pose proof (jvmMetricToResourceMetrics_spec m) as Hm.
  destruct (jvmMetricToResourceMetrics m) as [metrics|]; cbn [mbind option_bind]; [|exists m; split; [by left|done]].
  destruct (mapM _ ms) as [rs|]; cbn [mbind option_bind] in *.
  - constructor; [|exact IH]. split; [done|exact Hm].
  - destruct IH as (m' & Hin & Hm'). exists m'. split; [by right|done].
Qed.
End jvm.
