(* ===== verification/SwServer.v ===== *)
(** * SwServer: the life of the SkyWalking receiver

    Models [tracing_report_service.go] with the look-ups of the extension,
    [skywalking_receiver.go], [sw_management_service.go] and the services that answer
    nothing ([sw_dummy_*.go]).  The extension is seen through the class [FillProc];
    that it answers a second time what it answered the first is the class
    [FillProcLaws], which the extension of the repository satisfies.  What creating a
    server and listening answer is an argument; [None] is a panic. *)

From S2P Require Import Prelude GoStrings PData FillProc OtlpTraces SqlPrune RedParsers SwIds SwComponents SwTraces SwProps Undertow Endpoints OtlpServer.

(** What the receivers rely on: asking again, with nothing in between, changes
    neither the answer nor the extension. *)
Class FillProcLaws (E : Type) `{FillProc E} : Prop := {
  fp_GetMatch_again : ∀ peer e pid id e', fp_GetMatch peer e = Some (pid, id, e') → fp_GetMatch peer e' = Some (pid, id, e');
  fp_GetMatchForHttp_again : ∀ peer server e pid id e',
    fp_GetMatchForHttp peer server e = Some (pid, id, e') → fp_GetMatchForHttp peer server e' = Some (pid, id, e');
}.

Lemma match_peer_again peerAddr serverAddr c :
  match_peer peerAddr serverAddr (match_peer peerAddr serverAddr c).2 = match_peer peerAddr serverAddr c.
Proof.
  unfold match_peer. destruct (sk_CachedSockets c !! peer_key peerAddr) as [p|] eqn:Ec; cbn [snd]; [by rewrite Ec|].
  destruct (sk_ToMapSockets c !! peer_key peerAddr) as [n|] eqn:Et; cbn [snd sk_CachedSockets sk_ToMapSockets].
  - by rewrite Ec, Et.
  - by rewrite Ec, lookup_insert_eq.
Qed.

Lemma getMatch_again a b p pid id p' :
  getMatchPidAndContainerId a b p = Some (pid, id, p') →
  getMatchPidAndContainerId a b p' = Some (pid, id, p') ∧ sp_enable p' = sp_enable p.
Proof.
  unfold getMatchPidAndContainerId. destruct (sp_cache p) as [c|]; [|done]. cbn [mbind option_bind].
  pose proof (match_peer_again a b c) as Hm. destruct (match_peer a b c) as [[pid0 id0] c'] eqn:E. cbn [snd] in Hm.
  intros [= <- <- <-]. cbn [sp_cache sp_enable mbind option_bind sp_interval]. by rewrite Hm.
Qed.

#[global] Instance SocketProc_FillProcLaws : FillProcLaws SocketProcExtension.
Proof.
  split.
  - cbn. unfold GetMatchPidAndContainerId. intros [[a b]|] e pid id e'; destruct (sp_enable e) eqn:Ee; cbn [negb].
    + intros [Hg He]%getMatch_again. by rewrite He, Ee.
    + intros [= <- <- <-]. by rewrite Ee.
    + intros [= <- <- <-]. by destruct (negb _).
    + intros [= <- <- <-]. by rewrite Ee.
  - cbn. unfold GetMatchPidAndContainerIdForHttp. intros a b e pid id e'. destruct (negb (sp_enable e) || _ || _) eqn:Ee.
    + intros [= <- <- <-]. by rewrite Ee.
    + intros [Hg He]%getMatch_again. by rewrite He, Ee.
Qed.

(** ** tracing_report_service.go *)

Section service.
Context `{PD : PData} `{SP : SqlParser} `{UL : UuidLib} `{SWP : SwProto} `{GrpcErrors} {E : Type} `{!FillProc E}.

(** The receiver of the traces; the extension is what it points to. *)
Record TraceReceiver := { tr_undertowCache : UndertowCache; tr_FillProcExtension : option E }.

(** [obsreport] is the error of either report; [None] is the receiver that is not made. *)
Definition sw_NewReceiver (obsreport : option GoErr) : TraceReceiver + GoErr :=
  match obsreport with
  | Some err => inr err
  | None => inl {| tr_undertowCache := {| uc_ioTraceMap := ∅; uc_routeUrlMap := ∅ |}; tr_FillProcExtension := None |}
  end.

Context (accepts : list SwResource → bool).

(** What is handed on, whether there was no error, and the receiver. *)
Notation consumed := (list (list SwResource) * bool * option TraceReceiver)%type.

(** [consumeTraces] and [consumeHttpTraces] differ in how they ask the extension;
    the receiver may be a nil pointer. *)
Definition consume_with (look : E → option (Z * string * E)) (segment : option SegmentObject)
    (r : option TraceReceiver) : option consumed :=
  match segment with
  | None => Some ([], true, r)
  | Some seg =>
      r ← r;
      '(pid, containerId, ext) ←
        match tr_FillProcExtension r with
        | None => Some (0, "", None)
        | Some e => '(pid, containerId, e) ← look e; Some (pid, containerId, Some e)
        end;
      ptd ← ProtoToTraces seg pid containerId;
      '(result, c) ← CheckUndertow seg ptd (tr_undertowCache r);
      let r := Some {| tr_undertowCache := c; tr_FillProcExtension := ext |} in
      Some (match result with
            | Some td => ([td], accepts td, r)
            | None => ([], true, r)
            end)
  end.

Definition consumeTraces (peer : option (string * string)) := consume_with (fp_GetMatch peer).
Definition consumeHttpTraces (remoteAddr host : string) := consume_with (fp_GetMatchForHttp remoteAddr host).

(** [Collect]: the loop over the stream, which ends at its first error. *)
Fixpoint trace_Collect (peer : option (string * string)) (stream : list Recv) (r : option TraceReceiver) : option consumed :=
  match stream with
  | RecvSegment segment :: stream' =>
      '(out, ok, r) ← consumeTraces peer segment r;
      if (ok : bool) then '(outs, res, r) ← trace_Collect peer stream' r; Some (out ++ outs, res, r)
      else Some (out, true, r)
  | RecvEOF :: _ => Some ([], true, r)
  | RecvError :: _ => Some ([], false, r)
  | [] => Some ([], true, r)
  end.

(** The loops of [CollectInSync] and [HTTPHandler]: errors are printed. *)
Fixpoint consume_all (consume : option SegmentObject → option TraceReceiver → option consumed)
    (segments : list (option SegmentObject)) (r : option TraceReceiver)
    : option (list (list SwResource) * option TraceReceiver) :=
  match segments with
  | [] => Some ([], r)
  | segment :: segments' =>
      '(out, _, r) ← consume segment r;
      '(outs, r) ← consume_all consume segments' r;
      Some (out ++ outs, r)
  end.

Definition trace_CollectInSync (peer : option (string * string)) := consume_all (consumeTraces peer).

Record SwResponse := { rs_Status : string; rs_Msg : string }.
Definition failing : string := "failing".

(** The status and the body. *)
Definition ResponseWithJSON (response : SwResponse) (code : Z) : Z * option SwResponse := (code, Some response).

(** [json.Unmarshal]: the segments it put into [data], and its error. *)
Variable json_Unmarshal : string → list (option SegmentObject) * option GoErr.

(** The answer, what is handed on, and the receiver; [body] is what [io.ReadAll]
    answers.  A malformed body is printed, and answered like any other. *)
Definition HTTPHandler (body : string + GoErr) (remoteAddr host : string) (r : option TraceReceiver)
    : option (Z * option SwResponse * list (list SwResource) * option TraceReceiver) :=
  match body with
  | inr err => Some (ResponseWithJSON {| rs_Status := failing; rs_Msg := Err_Error err |} 400, [], r)
  | inl b =>
      let '(data, _) := json_Unmarshal b in
      '(outs, r) ← consume_all (consumeHttpTraces remoteAddr host) data r;
      Some (200, None, outs, r)
  end.

(** ** sw_management_service.go

    Both calls ask the extension about their peer and answer nothing: they make it
    look for the process before the first segment comes. *)
Definition management_call (peer : option (string * string)) (r : option TraceReceiver) : option (option TraceReceiver) :=
  match r with
  | Some {| tr_undertowCache := c; tr_FillProcExtension := Some e |} =>
      '(_, _, e) ← fp_GetMatch peer e;
      Some (Some {| tr_undertowCache := c; tr_FillProcExtension := Some e |})
  | _ => Some r
  end.

Definition ReportInstanceProperties := management_call.
Definition KeepAlive := management_call.

(** ** Theorems on the service *)

Definition has_segment (segments : list (option SegmentObject)) : bool := existsb (λ s, if s is Some _ then true else false) segments.

(** A receiver whose extension answers the same all the time. *)
Definition at_ext (e : option E) (c : UndertowCache) : TraceReceiver :=
  {| tr_undertowCache := c; tr_FillProcExtension := e |}.

Lemma consume_with_fixed look e e' pid id segment c :
  look e = Some (pid, id, e') →
  consume_with look segment (Some (at_ext (Some e) c)) =
    '(outs, ok, c') ← sw_consumeTraces accepts (Some (pid, id)) segment c;
    Some (outs, ok, Some (at_ext (Some (if segment is Some _ then e' else e)) c')).
Proof.
  intros Hl. unfold consume_with, sw_consumeTraces. destruct segment as [seg|]; [|done].
  cbn [mbind option_bind at_ext tr_FillProcExtension tr_undertowCache default from_option Datatypes.id]. rewrite Hl. cbn [mbind option_bind].
  destruct (ProtoToTraces seg pid id) as [ptd|]; [|done]. cbn [mbind option_bind].
  destruct (CheckUndertow seg ptd c) as [[[td|] c']|]; done.
Qed.

Lemma consume_all_fixed look e e' pid id segments c :
  look e = Some (pid, id, e') → look e' = Some (pid, id, e') →
  consume_all (consume_with look) segments (Some (at_ext (Some e) c)) =
    '(outs, c') ← CollectInSync accepts (Some (pid, id)) segments c;
    Some (outs, Some (at_ext (Some (if has_segment segments then e' else e)) c')).
Proof.
  intros Hl Hl'. revert e c Hl. induction segments as [|segment segments IH]; intros e c Hl; [done|].
  cbn [consume_all CollectInSync]. rewrite (consume_with_fixed _ _ _ _ _ _ _ Hl).
  destruct (sw_consumeTraces accepts _ segment c) as [[[out ok] c']|]; [|done]. cbn [mbind option_bind].
  rewrite IH by by destruct segment. destruct (CollectInSync accepts _ segments c') as [[outs c'']|]; [|done].
  cbn [mbind option_bind]. destruct segment as [seg|]; [|done]. change (has_segment (Some seg :: segments)) with true.
  by destruct (has_segment segments).
Qed.

(** Without a receiver, nothing but null segments can be consumed. *)
Lemma consume_all_nil look segments :
  consume_all (consume_with look) segments None = if has_segment segments then None else Some ([], None).
Proof.
  induction segments as [|[seg|] segments IH]; [done..|]. change (has_segment (None :: segments)) with (has_segment segments).
  cbn [consume_all consume_with mbind option_bind]. rewrite IH. by destruct (has_segment segments).
Qed.

(** The process of the caller is asked for segment by segment, yet one answer
    decides: a batch, over grpc or http, becomes what it becomes when the first answer of the
    extension holds for all of its segments, and a [KeepAlive] before it changes nothing.  Over
    http a body that cannot be read is answered 400 and nothing else is; without a
    receiver of traces every body with a segment panics. *)
Theorem one_answer_per_batch `{!FillProcLaws E} e c segments peer remoteAddr host b :
  (∀ pid id e', fp_GetMatch peer e = Some (pid, id, e') →
     (∀ r, KeepAlive peer (Some (at_ext (Some e) c)) = Some r →
        has_segment segments = true → trace_CollectInSync peer segments r = trace_CollectInSync peer segments (Some (at_ext (Some e) c))) ∧
     (λ x, x.1) <$> trace_CollectInSync peer segments (Some (at_ext (Some e) c)) =
       (λ x, x.1) <$> CollectInSync accepts (Some (pid, id)) segments c) ∧
  (∀ pid id e', fp_GetMatchForHttp remoteAddr host e = Some (pid, id, e') →
     (λ x, x.1) <$> HTTPHandler (inl b) remoteAddr host (Some (at_ext (Some e) c)) =
       (λ x, (200, None, x.1)) <$> CollectInSync accepts (Some (pid, id)) (json_Unmarshal b).1 c) ∧
  (∀ err r, HTTPHandler (inr err) remoteAddr host r = Some (400, Some {| rs_Status := failing; rs_Msg := Err_Error err |}, [], r)) ∧
  (HTTPHandler (inl b) remoteAddr host None = None ↔ has_segment (json_Unmarshal b).1 = true).
Proof.
  split_and!.
  - intros pid id e' Hl. pose proof (fp_GetMatch_again _ _ _ _ _ Hl) as Hl'. split.
    + intros r. unfold KeepAlive, management_call, at_ext. rewrite Hl. cbn [mbind option_bind]. intros [= <-] Hs.
      unfold trace_CollectInSync, consumeTraces. change {| tr_undertowCache := c; tr_FillProcExtension := ?x |} with (at_ext x c).
      by rewrite (consume_all_fixed _ _ _ _ _ _ _ Hl Hl'), (consume_all_fixed _ _ _ _ _ _ _ Hl' Hl'), Hs.
    + unfold trace_CollectInSync, consumeTraces. rewrite (consume_all_fixed _ _ _ _ _ _ _ Hl Hl').
      by destruct (CollectInSync accepts _ segments c) as [[outs c']|].
  - intros pid id e' Hl. pose proof (fp_GetMatchForHttp_again _ _ _ _ _ _ Hl) as Hl'. unfold HTTPHandler, consumeHttpTraces.
    destruct (json_Unmarshal b) as [data err]. rewrite (consume_all_fixed _ _ _ _ _ _ _ Hl Hl').
    by destruct (CollectInSync accepts _ _ c) as [[outs c']|].
  - done.
  - unfold HTTPHandler, consumeHttpTraces. destruct (json_Unmarshal b) as [data err]. rewrite consume_all_nil.
    cbn [fst]. by destruct (has_segment data).
Qed.
End service.

(** ** skywalking_receiver.go *)

Section server.
Context `{PD : PData} `{SP : SqlParser} `{UL : UuidLib} `{SWP : SwProto} `{GrpcErrors} {E : Type} `{!FillProc E}.

(** The services that are registered with the grpc server. *)
Inductive SwService :=
  | TraceSegmentReportService | JVMMetricReportService | ManagementService | ConfigurationDiscoveryService
  | EventService | ProfileTask | MeterReportService | CLRMetricReportService | BrowserPerfService.

(** sw_dummy_*.go and the calls of sw_management_service.go: a method that answers a
    message without commands, or no message; [None] is a method that is not
    implemented, which the library answers with an error. *)
Inductive DummyAnswer := EmptyCommands | NoMessage.

Definition dummyReportService (method : string) : option DummyAnswer :=
  if existsb (String.eqb method)
       ["ReportInstanceProperties"; "KeepAlive"; "Collect"; "FetchConfigurations"; "GetProfileTaskCommands"; "ReportTaskFinish"]
  then Some EmptyCommands
  else if String.eqb method "CollectSnapshot" then Some NoMessage else None.

Definition clrService (method : string) : option DummyAnswer :=
  if String.eqb method "Collect" then Some EmptyCommands else None.
Definition eventService (method : string) : option DummyAnswer :=
  if String.eqb method "Collect" then Some NoMessage else None.
Definition meterService (method : string) : option DummyAnswer :=
  if existsb (String.eqb method) ["Collect"; "CollectBatch"] then Some NoMessage else None.

(** What the services answer that [startCollector] registers besides the receivers. *)
Definition dummy_answer (service : SwService) (method : string) : option DummyAnswer :=
  match service with
  | ConfigurationDiscoveryService | ProfileTask | BrowserPerfService => dummyReportService method
  | EventService => eventService method
  | MeterReportService => meterService method
  | CLRMetricReportService => clrService method
  | _ => None
  end.

(** The two methods of the browser's service are not implemented by what is
    registered for it. *)
Example dummy_answers :
  dummy_answer ConfigurationDiscoveryService "FetchConfigurations" = Some EmptyCommands ∧
  dummy_answer ProfileTask "CollectSnapshot" = Some NoMessage ∧
  (λ m, dummy_answer BrowserPerfService m) <$> ["CollectPerfData"; "CollectErrorLogs"] = [None; None].
Proof. done. Qed.

(** [sr_goroutines] are the goroutines of the wait group, [sr_bound] the sockets
    that are listened on. *)
Record swReceiver := {
  sr_config : configuration;
  sr_grpc : option (list SwService);
  sr_collectorServer : bool;
  sr_goroutines : list Protocol;
  sr_bound : list Protocol;
  sr_traceReceiver : option (TraceReceiver (E := E));
  sr_metricsReceiver : bool;
}.

Definition newSkywalkingReceiver (config : configuration) : swReceiver :=
  {| sr_config := config; sr_grpc := None; sr_collectorServer := false; sr_goroutines := []; sr_bound := [];
     sr_traceReceiver := None; sr_metricsReceiver := false |}.

Definition set_receivers (tr : option (TraceReceiver (E := E))) (mr : bool) (sr : swReceiver) : swReceiver :=
  {| sr_config := sr_config sr; sr_grpc := sr_grpc sr; sr_collectorServer := sr_collectorServer sr;
     sr_goroutines := sr_goroutines sr; sr_bound := sr_bound sr; sr_traceReceiver := tr; sr_metricsReceiver := mr |}.

Definition set_collector (grpc : option (list SwService)) (http : bool) (goroutines bound : list Protocol)
    (sr : swReceiver) : swReceiver :=
  {| sr_config := sr_config sr; sr_grpc := grpc; sr_collectorServer := http; sr_goroutines := goroutines;
     sr_bound := bound; sr_traceReceiver := sr_traceReceiver sr; sr_metricsReceiver := sr_metricsReceiver sr |}.

(** The receiver is assigned before the error is looked at. *)
Definition sw_registerTraceConsumer (obsreport : option GoErr) (sr : swReceiver) : option GoErr * swReceiver :=
  match sw_NewReceiver obsreport with
  | inl r => (None, set_receivers (Some r) (sr_metricsReceiver sr) sr)
  | inr err => (Some err, set_receivers None (sr_metricsReceiver sr) sr)
  end.

(** [metrics.NewReceiver] keeps the consumer only: [true] is the receiver. *)
Definition metrics_NewReceiver (obsreport : option GoErr) : bool + GoErr :=
  match obsreport with None => inl true | Some err => inr err end.

Definition sw_registerMetricsConsumer (obsreport : option GoErr) (sr : swReceiver) : option GoErr * swReceiver :=
  match metrics_NewReceiver obsreport with
  | inl mr => (None, set_receivers (sr_traceReceiver sr) mr sr)
  | inr err => (Some err, set_receivers (sr_traceReceiver sr) false sr)
  end.

Definition collectorGRPCAddr (sr : swReceiver) : string := ":" +:+ FormatInt (CollectorGRPCPort (sr_config sr)).
Definition collectorGRPCEnabled (sr : swReceiver) : bool := CollectorGRPCPort (sr_config sr) >? 0.
Definition collectorHTTPEnabled (sr : swReceiver) : bool := CollectorHTTPPort (sr_config sr) >? 0.

(** What the libraries answer; [nil] is [None]. *)
Record SwEnv := {
  sv_extensions : gmap string (option E);
  sv_httpListen : option GoErr;
  sv_httpToServer : option GoErr;
  sv_grpcToServer : option GoErr;
  sv_grpcListen : option GoErr;
  sv_httpShutdown : option GoErr;
}.

(** The errors of [Start], with what they wrap. *)
Inductive SwStartErr :=
  | UnknownFillProc (id : string)
  | BindCollector (endpoint : string) (err : GoErr)
  | CollectorToServer (err : GoErr)
  | GRPCOptions (err : GoErr)
  | BindGRPC (addr : string) (err : GoErr).

Definition sw_services (sr : swReceiver) : list SwService :=
  (if sr_traceReceiver sr is Some _ then [TraceSegmentReportService] else []) ++
  (if sr_metricsReceiver sr then [JVMMetricReportService] else []) ++
  [ManagementService; ConfigurationDiscoveryService; EventService; ProfileTask; MeterReportService;
   CLRMetricReportService; BrowserPerfService].

Definition start_http (env : SwEnv) (sr : swReceiver) : option SwStartErr * swReceiver :=
  if negb (collectorHTTPEnabled sr) then (None, sr)
  else
    match sv_httpListen env with
    | Some err => (Some (BindCollector (CollectorHTTPSettings (sr_config sr)) err), sr)
    | None =>
        let bound := sr_bound sr ++ [ProtoHTTP] in
        match sv_httpToServer env with
        | Some err => (Some (CollectorToServer err), set_collector (sr_grpc sr) false (sr_goroutines sr) bound sr)
        | None => (None, set_collector (sr_grpc sr) true (sr_goroutines sr ++ [ProtoHTTP]) bound sr)
        end
    end.

Definition start_grpc (env : SwEnv) (sr : swReceiver) : option SwStartErr * swReceiver :=
  if negb (collectorGRPCEnabled sr) then (None, sr)
  else
    match sv_grpcToServer env with
    | Some err => (Some (GRPCOptions err), set_collector None (sr_collectorServer sr) (sr_goroutines sr) (sr_bound sr) sr)
    | None =>
        match sv_grpcListen env with
        | Some err =>
            (Some (BindGRPC (collectorGRPCAddr sr) err),
             set_collector (Some []) (sr_collectorServer sr) (sr_goroutines sr) (sr_bound sr) sr)
        | None =>
            (None, set_collector (Some (sw_services sr)) (sr_collectorServer sr) (sr_goroutines sr ++ [ProtoGRPC])
                     (sr_bound sr ++ [ProtoGRPC]) sr)
        end
    end.

(** http first; when grpc fails, nothing stops it. *)
Definition startCollector (env : SwEnv) (sr : swReceiver) : option SwStartErr * swReceiver :=
  let '(err, sr) := start_http env sr in
  match err with
  | Some err => (Some err, sr)
  | None => start_grpc env sr
  end.

Definition sw_Start (env : SwEnv) (sr : swReceiver) : option (option SwStartErr * swReceiver) :=
  match ComponmentIdFillProc (sr_config sr) with
  | None => Some (startCollector env sr)
  | Some id =>
      match sv_extensions env !! id with
      | None => Some (Some (UnknownFillProc id), sr)
      | Some extension =>
          tr ← sr_traceReceiver sr;
          ext ← extension;
          Some (startCollector env (set_receivers (Some (at_ext (Some ext) (tr_undertowCache tr)))
                                      (sr_metricsReceiver sr) sr))
      end
  end.

(** A server that is stopped closes its socket and lets its goroutine end. *)
Definition stop (p : Protocol) (sr : swReceiver) : swReceiver :=
  set_collector (sr_grpc sr) (sr_collectorServer sr) (filter (λ q, q ≠ p) (sr_goroutines sr))
    (if decide (p ∈ sr_goroutines sr) then filter (λ q, q ≠ p) (sr_bound sr) else sr_bound sr) sr.

(** [None] is a [Wait] that never returns. *)
Definition sw_Shutdown (env : SwEnv) (sr : swReceiver) : option (option GoErr * swReceiver) :=
  let '(errs, sr) := if sr_collectorServer sr then (sv_httpShutdown env, stop ProtoHTTP sr) else (None, sr) in
  let sr := if sr_grpc sr is Some _ then stop ProtoGRPC sr else sr in
  match sr_goroutines sr with [] => Some (errs, sr) | _ => None end.

(** ** Theorems on the life cycle *)

Definition sw_fresh (sr : swReceiver) : Prop :=
  sr_grpc sr = None ∧ sr_collectorServer sr = false ∧ sr_goroutines sr = [] ∧ sr_bound sr = [].

(** The protocols that serve after a [Start] that answered [err]. *)
Definition serving_after (err : option SwStartErr) (sr : swReceiver) : list Protocol :=
  let http := if collectorHTTPEnabled sr then [ProtoHTTP] else [] in
  match err with
  | None => http ++ (if collectorGRPCEnabled sr then [ProtoGRPC] else [])
  | Some (GRPCOptions _ | BindGRPC _ _) => http
  | Some (UnknownFillProc _ | BindCollector _ _ | CollectorToServer _) => []
  end.

(** The socket that a server was to be created for, and that was not. *)
Definition leaked (err : option SwStartErr) : list Protocol :=
  match err with Some (CollectorToServer _) => [ProtoHTTP] | _ => [] end.

Lemma startCollector_spec env sr err sr' :
  sw_fresh sr → startCollector env sr = (err, sr') →
  sr_goroutines sr' = serving_after err sr ∧ sr_bound sr' = leaked err ++ serving_after err sr ∧
  (err = None → sr_grpc sr' = if collectorGRPCEnabled sr then Some (sw_services sr) else None) ∧
  ∀ env', ∃ sr'', sw_Shutdown env' sr' = Some (if sr_collectorServer sr' then sv_httpShutdown env' else None, sr'') ∧
    sr_goroutines sr'' = [] ∧ sr_bound sr'' = leaked err.
Proof.
  destruct sr as [cfg grpc server goroutines bound tr mr]. unfold sw_fresh.
  cbn [sr_grpc sr_collectorServer sr_goroutines sr_bound]. intros (-> & -> & -> & ->).
  unfold startCollector, start_http, start_grpc, serving_after, collectorHTTPEnabled, collectorGRPCEnabled.
  cbn [sr_config]. destruct (CollectorHTTPPort cfg >? 0).
  - destruct (sv_httpListen env); [|destruct (sv_httpToServer env)]; cbn [negb sr_config set_collector];
      [..|destruct (CollectorGRPCPort cfg >? 0); [destruct (sv_grpcToServer env); [|destruct (sv_grpcListen env)]|]];
      intros [= <- <-]; (split_and!; [done..|]); intros env'; eexists; done.
  - cbn [negb sr_config]. destruct (CollectorGRPCPort cfg >? 0); [destruct (sv_grpcToServer env); [|destruct (sv_grpcListen env)]|];
      intros [= <- <-]; (split_and!; [done..|]); intros env'; eexists; done.
Qed.

(** What [startCollector] keeps. *)
Lemma startCollector_receivers env sr :
  sr_traceReceiver (startCollector env sr).2 = sr_traceReceiver sr ∧
  sr_metricsReceiver (startCollector env sr).2 = sr_metricsReceiver sr.
Proof.
  destruct sr as [cfg grpc server goroutines bound tr mr].
  unfold startCollector, start_http, start_grpc, collectorHTTPEnabled, collectorGRPCEnabled. cbn [sr_config].
  destruct (CollectorHTTPPort cfg >? 0); cbn [negb];
    [destruct (sv_httpListen env); [done|destruct (sv_httpToServer env); [done|]]|];
    cbn [negb sr_config set_collector]; (destruct (CollectorGRPCPort cfg >? 0); [|done]); cbn [negb];
    (destruct (sv_grpcToServer env); [done|]); by destruct (sv_grpcListen env).
Qed.

(** The error of each failure of [startCollector], by what the libraries answer: the
    address of http, its server, the options of the grpc server, the address of grpc -
    the last two only when http, if it is configured, is up. *)
Definition collector_fails (env : SwEnv) (sr : swReceiver) (err : SwStartErr) : Prop :=
  let http := 0 < CollectorHTTPPort (sr_config sr) in
  let grpc := 0 < CollectorGRPCPort (sr_config sr) in
  let http_up := http → sv_httpListen env = None ∧ sv_httpToServer env = None in
  match err with
  | UnknownFillProc _ => False
  | BindCollector endpoint e =>
      http ∧ sv_httpListen env = Some e ∧ endpoint = CollectorHTTPSettings (sr_config sr)
  | CollectorToServer e => http ∧ sv_httpListen env = None ∧ sv_httpToServer env = Some e
  | GRPCOptions e => http_up ∧ grpc ∧ sv_grpcToServer env = Some e
  | BindGRPC addr e =>
      http_up ∧ grpc ∧ sv_grpcToServer env = None ∧ sv_grpcListen env = Some e ∧
      addr = ":" +:+ FormatInt (CollectorGRPCPort (sr_config sr))
  end.

(** The error of [Start]: the unknown extension first. *)
Definition start_fails (env : SwEnv) (sr : swReceiver) (err : SwStartErr) : Prop :=
  let found := ∀ id, ComponmentIdFillProc (sr_config sr) = Some id → is_Some (sv_extensions env !! id) in
  match err with
  | UnknownFillProc id => ComponmentIdFillProc (sr_config sr) = Some id ∧ sv_extensions env !! id = None
  | _ => found ∧ collector_fails env sr err
  end.

Lemma startCollector_fails env sr err :
  (startCollector env sr).1 = Some err ↔ collector_fails env sr err.
Proof.
  destruct sr as [cfg grpc server goroutines bound tr mr].
  unfold startCollector, start_http, start_grpc, collectorHTTPEnabled, collectorGRPCEnabled, collectorGRPCAddr, collector_fails, set_collector.
  simpl. rewrite !Z.gtb_ltb. destruct (Z.ltb_spec 0 (CollectorHTTPPort cfg)) as [Hh|Hh]; simpl;
    [destruct (sv_httpListen env); [|destruct (sv_httpToServer env)]|]; simpl;
    rewrite ?Z.gtb_ltb; try destruct (Z.ltb_spec 0 (CollectorGRPCPort cfg)); simpl;
    try destruct (sv_grpcToServer env); simpl; try destruct (sv_grpcListen env);
    destruct err; simpl; intuition (congruence || lia).
Qed.

(** C26: [Start] panics just when the configuration names an extension the host has
    and no traces are received, or it is of another type.  Otherwise its error is the
    one of the first step that fails: the extension the host does not have, before
    anything is started, the address of http, its server, the options of the grpc server
    or its address, each with what the library answered.  Without an error every protocol
    of the configuration serves, grpc the traces and the metrics just when they are
    received; when grpc fails http is left serving, and a socket whose server cannot be
    created is never closed.  After a [Shutdown] no goroutine is left. *)
Theorem sw_Start_leaves_http env sr :
  sw_fresh sr →
  (sw_Start env sr = None ↔ ∃ id x, ComponmentIdFillProc (sr_config sr) = Some id ∧ sv_extensions env !! id = Some x ∧
     (x = None ∨ sr_traceReceiver sr = None)) ∧
  ∀ err sr', sw_Start env sr = Some (err, sr') →
    sr_goroutines sr' = serving_after err sr ∧ sr_bound sr' = leaked err ++ serving_after err sr ∧
    (err = None → sr_grpc sr' = if collectorGRPCEnabled sr then Some (sw_services sr) else None) ∧
    (∀ e, err = Some e ↔ start_fails env sr e) ∧
    (∀ id e tr, ComponmentIdFillProc (sr_config sr) = Some id → sv_extensions env !! id = Some (Some e) →
       sr_traceReceiver sr = Some tr → sr_traceReceiver sr' = Some (at_ext (Some e) (tr_undertowCache tr))) ∧
    ∀ env', ∃ sr'', sw_Shutdown env' sr' = Some (if sr_collectorServer sr' then sv_httpShutdown env' else None, sr'') ∧
      sr_goroutines sr'' = [] ∧ sr_bound sr'' = leaked err.
Proof.
  intros Hf. unfold sw_Start, start_fails. destruct (ComponmentIdFillProc (sr_config sr)) as [id|] eqn:Ec.
  - destruct (sv_extensions env !! id) as [x|] eqn:Ex.
    2: { split; [naive_solver|]. intros err sr' [= <- <-]. destruct Hf as (Hg & Hc & Hr & Hb).
         assert (¬ ∀ id', Some id = Some id' → is_Some (sv_extensions env !! id')) as Hno
           by (intros Ha; destruct (Ha id eq_refl) as [? ?]; congruence).
         split_and!; [done..|intros []; naive_solver|naive_solver|].
         intros env'. exists sr. unfold sw_Shutdown. by rewrite Hc, Hg, Hr. }
    assert (∀ id', Some id = Some id' → is_Some (sv_extensions env !! id')) as Hfound by (intros ? [= <-]; by eexists).
    destruct (sr_traceReceiver sr) as [tr|] eqn:Et; cbn [mbind option_bind]; [|naive_solver].
    destruct x as [e|]; cbn [mbind option_bind]; [|naive_solver]. split; [naive_solver|]. intros err sr' [= Hs].
    set (sr1 := set_receivers _ _ sr) in *. assert (sw_fresh sr1) as Hf1 by done.
    destruct (startCollector_spec env sr1 err sr' Hf1 Hs) as (Hr' & Hb' & Hg' & Hd').
    split_and!; [done..| | | |done].
    + intros Herr. rewrite (Hg' Herr). by unfold sw_services; rewrite Et.
    + intros e'. pose proof (startCollector_fails env sr1 e') as Hk. rewrite Hs in Hk. cbn [fst] in Hk. rewrite Hk.
      change (collector_fails env sr1 e') with (collector_fails env sr e'). destruct e'; naive_solver.
    + intros ? e' tr' [= <-] He [= <-]. pose proof (startCollector_receivers env sr1) as [Hk _]. rewrite Hs in Hk. cbn in Hk.
      rewrite Hk. naive_solver.
  - split; [naive_solver|]. intros err sr' [= Hs]. destruct (startCollector_spec env sr err sr' Hf Hs) as (Hr' & Hb' & Hg' & Hd').
    split_and!; [done..| | |done]; [|naive_solver].
    intros e'. pose proof (startCollector_fails env sr e') as Hk. rewrite Hs in Hk. cbn [fst] in Hk. rewrite Hk.
    destruct e'; naive_solver.
Qed.
End server.

(** ** Examples: the port of grpc is taken, and a batch over http *)

Import RefPData RefSql RefUuid RefProto RefErrors.

Definition ex_no_cache : UndertowCache := {| uc_ioTraceMap := ∅; uc_routeUrlMap := ∅ |}.
Definition ex_sock : SocketProcExtension := newSocketProcExtension ex_fs {| fc_Enable := true; fc_Interval := 5 |}.

Definition ex_configuration : configuration :=
  {| CollectorHTTPPort := 12800; CollectorHTTPSettings := "localhost:12800"; CollectorGRPCPort := 11800;
     CollectorGRPCServerSettings := "localhost:11800"; ComponmentIdFillProc := Some "fill_proc" |}.

Definition ex_sw : swReceiver (E := SocketProcExtension) := (sw_registerTraceConsumer None (newSkywalkingReceiver ex_configuration)).2.

Definition ex_sw_env : SwEnv (E := SocketProcExtension) :=
  {| sv_extensions := {["fill_proc" := Some ex_sock]}; sv_httpListen := None; sv_httpToServer := None;
     sv_grpcToServer := None; sv_grpcListen := Some ex_port_taken; sv_httpShutdown := None |}.

(** The host of the configuration is not what grpc listens on. *)
Example ex_grpc_addr : collectorGRPCAddr ex_sw = ":11800" ∧ CollectorGRPCServerSettings ex_configuration = "localhost:11800".
Proof. split; reflexivity. Qed.

Lemma sw_Start_leaves_http_witness :
  ∃ sr', sw_Start ex_sw_env ex_sw = Some (Some (BindGRPC ":11800" ex_port_taken), sr') ∧ sr_goroutines sr' = [ProtoHTTP].
Proof.
  destruct (sw_Start_leaves_http ex_sw_env ex_sw) as [_ H]; [split_and!; reflexivity|].
  eexists. split; [reflexivity|]. destruct (H (Some (BindGRPC ":11800" ex_port_taken)) _ eq_refl) as [Hg _]. exact Hg.
Defined.

(** The two segments of a request served by Undertow, in one body. *)
Definition ex_json (b : string) : list (option SegmentObject) * option GoErr := ([Some ex_io; None; Some ex_task], None).

Lemma one_answer_per_batch_witness :
  (λ x, x.1) <$> HTTPHandler (λ _, true) ex_json (inl "") "10.0.2.15:40000" "10.0.2.15:12800" (Some (at_ext (Some ex_sock) ex_no_cache)) =
    (λ x, (200, None, x.1)) <$> CollectInSync (λ _, true) (Some (0, "")) [Some ex_io; None; Some ex_task] ex_no_cache ∧
  HTTPHandler (λ _, true) ex_json (inl "") "10.0.2.15:40000" "10.0.2.15:12800" None = None.
Proof.
  destruct (one_answer_per_batch (λ _, true) ex_json ex_sock ex_no_cache [] None "10.0.2.15:40000" "10.0.2.15:12800" "")
    as (_ & Hhttp & _ & Hnil).
  split; [|by apply Hnil]. exact (Hhttp 0 "" _ eq_refl).
Defined.
