(* ===== verification/UndertowRace.v ===== *)
(** * UndertowRace: segments that are served at the same time

    Every call of the SkyWalking receiver runs in a goroutine of its own, and the two
    maps of [undertow_trace.go] are [sync.Map]s: a call of [CheckUndertow] is one
    [LoadAndDelete] and, when it finds nothing, one [Store], and the operations of other
    calls may come between the two.  Here a step is one such operation, and a
    schedule any interleaving; [CheckUndertow] of the file Undertow is a call that runs
    alone. *)

From S2P Require Import Prelude GoStrings PData FillProc OtlpTraces SqlPrune RedParsers SwIds SwComponents SwTraces SwProps Undertow.

Section race.
Context `{PD : PData} `{SP : SqlParser} `{UL : UuidLib} `{SWP : SwProto}.

(** A call before its look-up, before its store, and after it. *)
Inductive ucall :=
  | U_call (segment : SegmentObject) (ptd : list SwResource)
  | U_store_io (key : string) (ptd : list SwResource)
  | U_store_url (key url : string) (ptd : list SwResource)
  | U_done (result : option (list SwResource))
  | U_panicked.

Definition or_panic (td : option (list SwResource)) : ucall := match td with Some td => U_done (Some td) | None => U_panicked end.

(** The loop over the spans and the [LoadAndDelete]. *)
Definition look_up (segment : SegmentObject) (ptd : list SwResource) (c : UndertowCache) : ucall * UndertowCache :=
  match scan_segment segment with
  | None => (U_panicked, c)
  | Some (isUndertow, routeUrl, parentSegmentId) =>
      if negb isUndertow then (U_done (Some ptd), c)
      else if bool_decide (routeUrl = "") then
        let key := undertow_key (sg_TraceId segment) (sg_TraceSegmentId segment) in
        match uc_routeUrlMap c !! key with
        | Some cachedRouteUrl =>
            (or_panic (spans ← first_spans ptd; spans ← name_first cachedRouteUrl spans; Some (set_first_spans spans ptd)),
             {| uc_ioTraceMap := uc_ioTraceMap c; uc_routeUrlMap := delete key (uc_routeUrlMap c) |})
        | None => (U_store_io key ptd, c)
        end
      else
        let key := undertow_key (sg_TraceId segment) parentSegmentId in
        match uc_ioTraceMap c !! key with
        | Some cachedTrace =>
            (or_panic (spans ← first_spans cachedTrace; spans ← name_first routeUrl spans; append_scope spans ptd),
             {| uc_ioTraceMap := delete key (uc_ioTraceMap c); uc_routeUrlMap := uc_routeUrlMap c |})
        | None => (U_store_url key routeUrl ptd, c)
        end
  end.

Definition ustep (x : ucall) (c : UndertowCache) : option (ucall * UndertowCache) :=
  match x with
  | U_call segment ptd => Some (look_up segment ptd c)
  | U_store_io key ptd =>
      Some (U_done None, {| uc_ioTraceMap := <[key := ptd]> (uc_ioTraceMap c); uc_routeUrlMap := uc_routeUrlMap c |})
  | U_store_url key url ptd =>
      Some (U_done (Some ptd), {| uc_ioTraceMap := uc_ioTraceMap c; uc_routeUrlMap := <[key := url]> (uc_routeUrlMap c) |})
  | U_done _ | U_panicked => None
  end.

(** The calls that are being served and the maps they share. *)
Record usystem := { us_calls : list ucall; us_cache : UndertowCache }.

Definition sys_step (i : nat) (s : usystem) : option usystem :=
  x ← us_calls s !! i;
  '(x, c) ← ustep x (us_cache s);
  Some {| us_calls := <[i := x]> (us_calls s); us_cache := c |}.

(** The numbers of the calls, in the order of their operations. *)
Fixpoint run_schedule (schedule : list nat) (s : usystem) : option usystem :=
  match schedule with
  | [] => Some s
  | i :: schedule' => s ← sys_step i s; run_schedule schedule' s
  end.

(** ** A call that runs alone *)

Definition finish (x : ucall) (c : UndertowCache) : ucall * UndertowCache := default (x, c) (ustep x c).

(** It is [CheckUndertow]. *)
Lemma alone_is_CheckUndertow segment ptd c :
  let '(x, c1) := look_up segment ptd c in
  CheckUndertow segment ptd c =
    match finish x c1 with (U_done result, c') => Some (result, c') | _ => None end.
Proof.
  unfold look_up, CheckUndertow. destruct (scan_segment segment) as [[[u url] par]|]; [|done]. cbn [mbind option_bind].
  destruct u; cbn [negb]; [|done]. case_bool_decide.
  - destruct (uc_routeUrlMap c !! _) as [cached|]; [|done].
    destruct (first_spans ptd) as [spans|]; [|done]. cbn [mbind option_bind]. by destruct (name_first cached spans).
  - destruct (uc_ioTraceMap c !! _) as [cached|]; [|done].
    destruct (first_spans cached) as [spans|]; [|done]. cbn [mbind option_bind].
    destruct (name_first url spans) as [spans'|]; [|done]. cbn [mbind option_bind]. by destruct (append_scope spans' ptd).
Qed.

(** ** The two segments of a request *)

(** The first two operations belong to one call: its store, if it has one, comes
    before the other's look-up. *)
Definition apart (schedule : list nat) : Prop := schedule !! 0%nat = schedule !! 1%nat.

Lemma look_up_io io task url td c :
  request io task url →
  look_up io td c =
    let key := undertow_key (sg_TraceId io) (sg_TraceSegmentId io) in
    match uc_routeUrlMap c !! key with
    | Some u => (or_panic (spans ← first_spans td; spans ← name_first u spans; Some (set_first_spans spans td)),
                 {| uc_ioTraceMap := uc_ioTraceMap c; uc_routeUrlMap := delete key (uc_routeUrlMap c) |})
    | None => (U_store_io key td, c)
    end.
Proof. intros ((p & Hio) & _). unfold look_up. by rewrite Hio. Qed.

Lemma look_up_task io task url td c :
  request io task url →
  look_up task td c =
    let key := undertow_key (sg_TraceId io) (sg_TraceSegmentId io) in
    match uc_ioTraceMap c !! key with
    | Some cached => (or_panic (spans ← first_spans cached; spans ← name_first url spans; append_scope spans td),
                 {| uc_ioTraceMap := delete key (uc_ioTraceMap c); uc_routeUrlMap := uc_routeUrlMap c |})
    | None => (U_store_url key url td, c)
    end.
Proof. intros (_ & Hurl & Htask & Etid). unfold look_up. rewrite Htask. cbn [negb]. rewrite bool_decide_eq_false_2 by done. by rewrite Etid. Qed.
(** The key under which a call looks and stores. *)
Definition call_key (x : ucall) : option string :=
  match x with
  | U_call segment _ =>
      match scan_segment segment with
      | Some (true, routeUrl, parentSegmentId) =>
          Some (undertow_key (sg_TraceId segment) (if bool_decide (routeUrl = "") then sg_TraceSegmentId segment else parentSegmentId))
      | _ => None
      end
  | U_store_io key _ | U_store_url key _ _ => Some key
  | U_done _ | U_panicked => None
  end.

(** What the maps hold under a key. *)
Definition entries (key : string) (c : UndertowCache) : option (list SwResource) * option string :=
  (uc_ioTraceMap c !! key, uc_routeUrlMap c !! key).

Lemma ustep_key key x c x' c' :
  ustep x c = Some (x', c') → call_key x ≠ Some key → entries key c' = entries key c ∧ call_key x' ≠ Some key.
Proof.
  intros Hs Hk. destruct x as [seg ptd|k ptd|k url ptd| |]; cbn in Hs; try done.
  - injection Hs as Hs. unfold look_up in Hs. cbn in Hk. destruct (scan_segment seg) as [[[[] url] par]|]; [|by injection Hs as <- <-..].
    cbn [negb] in Hs. case_bool_decide.
    + destruct (uc_routeUrlMap c !! _) as [cached|]; injection Hs as <- <-; [|by split].
      split; [unfold entries; cbn; by rewrite lookup_delete_ne by congruence|by destruct (_ ≫= _)].
    + destruct (uc_ioTraceMap c !! _) as [cached|]; injection Hs as <- <-; [|by split].
      split; [unfold entries; cbn; by rewrite lookup_delete_ne by congruence|by destruct (_ ≫= _)].
  - injection Hs as <- <-. cbn in Hk. split; [|done]. unfold entries. cbn. by rewrite lookup_insert_ne by congruence.
  - injection Hs as <- <-. cbn in Hk. split; [|done]. unfold entries. cbn. by rewrite lookup_insert_ne by congruence.
Qed.

(** Calls about other keys leave what is held under one alone. *)
Lemma run_key key schedule s s' :
  run_schedule schedule s = Some s' → Forall (λ x, call_key x ≠ Some key) (us_calls s) →
  entries key (us_cache s') = entries key (us_cache s).
Proof.
  revert s. induction schedule as [|i schedule IH]; intros s; cbn [run_schedule]; [by intros [= <-]|].
  unfold sys_step. destruct (us_calls s !! i) as [x|] eqn:Ei; [|done]. cbn [mbind option_bind].
  destruct (ustep x (us_cache s)) as [[x' c']|] eqn:Eu; [|done]. cbn [mbind option_bind]. intros Hr Hk.
  destruct (ustep_key key _ _ _ _ Eu) as [He Hk']; [exact (Forall_lookup_1 _ _ _ _ Hk Ei)|].
  rewrite (IH _ Hr); [exact He|]. cbn [us_calls]. by apply Forall_insert.
Qed.

Definition served (s : usystem) : Prop := Forall (λ x, ustep x (us_cache s) = None) (us_calls s).

(** What the calls hand on. *)
Definition handed_on (s : usystem) : list (list SwResource) :=
  omap (λ x, match x with U_done result => result | _ => None end) (us_calls s).

(** The runs of two calls, one step after the other. *)
Lemma two_calls x y c i :
  sys_step i {| us_calls := [x; y]; us_cache := c |} =
    match i with
    | 0%nat => '(x, c) ← ustep x c; Some {| us_calls := [x; y]; us_cache := c |}
    | 1%nat => '(y, c) ← ustep y c; Some {| us_calls := [x; y]; us_cache := c |}
    | _ => None
    end.
Proof.
  destruct i as [|[|i]]; unfold sys_step; cbn; [by destruct (ustep x c) as [[]|]|by destruct (ustep y c) as [[]|]|done].
Qed.

Context (io task : SegmentObject) (url : string) (Hreq : request io task url).
Context (attrs : AMap) (first : SwSpan) (rest : list SwSpan) (r : SwResource).
Notation td_io := [{| sres_Attributes := attrs; sres_Scopes := [first :: rest] |}].
Notation td_task := [r].
Notation key := (undertow_key (sg_TraceId io) (sg_TraceSegmentId io)).
Notation both c := {| us_calls := [U_call io td_io; U_call task td_task]; us_cache := c |}.

Definition with_io (c : UndertowCache) : UndertowCache :=
  {| uc_ioTraceMap := <[key := td_io]> (uc_ioTraceMap c); uc_routeUrlMap := uc_routeUrlMap c |}.
Definition with_url (c : UndertowCache) : UndertowCache :=
  {| uc_ioTraceMap := uc_ioTraceMap c; uc_routeUrlMap := <[key := url]> (uc_routeUrlMap c) |}.

(** The four look-ups. *)
Lemma look_ups c :
  no_entry key c →
  look_up io td_io c = (U_store_io key td_io, c) ∧ look_up task td_task c = (U_store_url key url td_task, c) ∧
  look_up task td_task (with_io c) =
    (U_done (Some [{| sres_Attributes := sres_Attributes r; sres_Scopes := sres_Scopes r ++ [set_span_name url first :: rest] |}]), c) ∧
  look_up io td_io (with_url c) =
    (U_done (Some [{| sres_Attributes := attrs; sres_Scopes := [set_span_name url first :: rest] |}]), c).
Proof.
  intros [Hi Hu]. rewrite !(look_up_io io task url) by done. rewrite !(look_up_task io task url) by done. cbv zeta.
  rewrite Hi, Hu. cbn [with_io with_url uc_ioTraceMap uc_routeUrlMap]. rewrite !lookup_insert_eq, !delete_insert_id by done.
  by destruct c.
Qed.

(** How the run of the two calls can end. *)
Inductive outcome (c : UndertowCache) : list nat → usystem → Prop :=
  | io_then_task :
      outcome c [0; 0; 1]%nat
        {| us_calls := [U_done None; U_done (Some [{| sres_Attributes := sres_Attributes r;
                                                      sres_Scopes := sres_Scopes r ++ [set_span_name url first :: rest] |}])];
           us_cache := c |}
  | task_then_io :
      outcome c [1; 1; 0]%nat
        {| us_calls := [U_done (Some [{| sres_Attributes := attrs; sres_Scopes := [set_span_name url first :: rest] |}]);
                        U_done (Some td_task)];
           us_cache := c |}
  | both_missed l :
      ¬ apart l →
      outcome c l {| us_calls := [U_done None; U_done (Some td_task)]; us_cache := with_url (with_io c) |}.

(** One step of every schedule that begins with a step of either call. *)
Ltac next_step Hr l :=
  destruct l as [|[|[|?]] l]; cbn [run_schedule] in Hr; rewrite ?two_calls in Hr; cbn [ustep mbind option_bind] in Hr.

(** A run that ended too early, or with an outcome. *)
Ltac run_ended Hr Hs :=
  injection Hr as <-; cbn [us_calls us_cache] in Hs;
  first [ apply io_then_task | apply task_then_io | apply both_missed; discriminate
        | exfalso; rewrite !list.Forall_cons in Hs; cbn [ustep] in Hs; destruct Hs as (?Hs1 & ?Hs2 & _); discriminate ].

Lemma run_outcome c schedule s :
  no_entry key c → run_schedule schedule (both c) = Some s → served s → outcome c schedule s.
Proof.
  intros Hc Hr Hs. destruct (look_ups c Hc) as (E1 & E2 & E3 & E4). unfold served in Hs.
  assert (∀ c', {| uc_ioTraceMap := <[key := td_io]> (uc_ioTraceMap c'); uc_routeUrlMap := uc_routeUrlMap c' |} = with_io c') as Ei by done.
  assert (∀ c', {| uc_ioTraceMap := uc_ioTraceMap c'; uc_routeUrlMap := <[key := url]> (uc_routeUrlMap c') |} = with_url c') as Eu by done.
  next_step Hr schedule; rewrite ?E1, ?E2 in Hr; cbn [mbind option_bind] in Hr; try discriminate; [run_ended Hr Hs| |].
  all: next_step Hr schedule; rewrite ?E1, ?E2, ?Ei, ?Eu in Hr; cbn [mbind option_bind] in Hr; try discriminate; try run_ended Hr Hs.
  all: next_step Hr schedule; rewrite ?E1, ?E2, ?E3, ?E4, ?Ei, ?Eu in Hr; cbn [mbind option_bind] in Hr; try discriminate; try run_ended Hr Hs.
  all: next_step Hr schedule; rewrite ?Ei, ?Eu in Hr; cbn [mbind option_bind] in Hr; try discriminate; try run_ended Hr Hs.
  all: next_step Hr schedule; try discriminate; run_ended Hr Hs.
Qed.

Lemma outcome_apart c schedule s :
  outcome c schedule s → apart schedule →
  handed_on s ≫= spans_out ≡ₚ renamed url (spans_out td_io) ++ spans_out td_task ∧ us_cache s = c.
Proof.
  intros [| |l Hl] Ha; [| |done]; (split; [|done]); unfold handed_on, spans_out; cbn -[app]; rewrite !app_nil_r.
  - rewrite join_app. cbn -[app]. rewrite !app_nil_r. by rewrite (Permutation_app_comm (mjoin _)).
  - done.
Qed.

Lemma outcome_missed c schedule s :
  outcome c schedule s → ¬ apart schedule →
  handed_on s = [td_task] ∧ entries key (us_cache s) = (Some td_io, Some url).
Proof.
  intros [| |l Hl] Ha; [by destruct Ha|by destruct Ha|]. split; [done|].
  unfold entries. cbn [us_cache with_io with_url uc_ioTraceMap uc_routeUrlMap]. by rewrite !lookup_insert_eq.
Qed.
End race.

Section together.
Context `{PD : PData} `{SP : SqlParser} `{UL : UuidLib} `{SWP : SwProto}.

(** C24: the two segments of a request, served at the same time by two calls whose
    operations are interleaved in any way.  They are put together, and the cache is
    what it was, just when the first two operations are of one call.  When both
    look-ups come first, both find nothing: the spans of the task alone are handed
    on, the trace of the I/O thread and the url it waits for lie in the two maps
    under one key, and no calls about other keys, interleaved in any way, ever change that. *)
Theorem undertow_race io task url pid cid td_io pid' cid' td_task c schedule s :
  let key := undertow_key (sg_TraceId io) (sg_TraceSegmentId io) in
  request io task url → no_entry key c →
  ProtoToTraces io pid cid = Some td_io → ProtoToTraces task pid' cid' = Some td_task →
  run_schedule schedule {| us_calls := [U_call io td_io; U_call task td_task]; us_cache := c |} = Some s → served s →
  (apart schedule → handed_on s ≫= spans_out ≡ₚ renamed url (spans_out td_io) ++ spans_out td_task ∧ us_cache s = c) ∧
  (¬ apart schedule →
     handed_on s = [td_task] ∧ entries key (us_cache s) = (Some td_io, Some url) ∧
     ∀ calls schedule' s', Forall (λ x, call_key x ≠ Some key) calls →
       run_schedule schedule' {| us_calls := calls; us_cache := us_cache s |} = Some s' →
       entries key (us_cache s') = (Some td_io, Some url)).
Proof.
  intros key Hreq Hc Eio Etask Hr Hs.
  destruct (ProtoToTraces_shape _ _ _ _ Eio) as (attrs & first & rest & -> & _); [destruct Hreq as ((p & Hio) & _); by eapply scan_true|].
  destruct (ProtoToTraces_shape _ _ _ _ Etask) as (attrs2 & s2 & spans2 & -> & _); [destruct Hreq as (_ & _ & Htask & _); by eapply scan_true|].
  pose proof (run_outcome io task url Hreq attrs first rest _ c schedule s Hc Hr Hs) as Ho. split.
  - intros Ha. by eapply outcome_apart.
  - intros Ha. destruct (outcome_missed _ _ _ _ _ _ _ _ _ Ho Ha) as [Hh He]. split_and!; [done|done|].
    intros calls schedule' s' Hk Hr'. by rewrite (run_key _ _ _ _ Hr' Hk).
Qed.

(** ** Any number of calls *)

(** The spans of a trace but for the names, which a match changes. *)
Definition unnamed (td : list SwResource) : list SwSpan := set_span_name "" <$> spans_out td.

Definition call_spans (x : ucall) : list SwSpan :=
  match x with
  | U_call _ td | U_store_io _ td | U_store_url _ _ td | U_done (Some td) => unnamed td
  | U_done None | U_panicked => []
  end.

Definition held_spans (c : UndertowCache) : list SwSpan := (map_to_list (uc_ioTraceMap c)).*2 ≫= unnamed.

(** All spans there are: with the calls, or handed on by them, or held. *)
Definition all_spans (s : usystem) : list SwSpan := (us_calls s ≫= call_spans) ++ held_spans (us_cache s).

Lemma unnamed_first name spans spans' :
  name_first name spans = Some spans' → set_span_name "" <$> spans' = set_span_name "" <$> spans.
Proof. destruct spans as [|x spans]; [done|]. by intros [= <-]. Qed.

Lemma unnamed_set td spans spans' :
  first_spans td = Some spans → set_span_name "" <$> spans' = set_span_name "" <$> spans →
  unnamed (set_first_spans spans' td) = unnamed td.
Proof.
  unfold first_spans, unnamed, spans_out. destruct td as [|r td]; [done|]. cbn [head mbind option_bind].
  destruct (sres_Scopes r) as [|sc scs] eqn:Er; [done|]. intros [= <-] E. cbn [set_first_spans mbind list_bind sres_Scopes]. rewrite Er.
  cbn [tail mjoin list_join]. by rewrite !fmap_app, E.
Qed.

Lemma unnamed_append spans td td' :
  append_scope spans td = Some td' → unnamed td' ≡ₚ unnamed td ++ (set_span_name "" <$> spans).
Proof.
  unfold unnamed, spans_out. destruct td as [|r td]; [done|]. intros [= <-]. cbn [mbind list_bind sres_Scopes].
  rewrite join_app. cbn [mjoin list_join]. rewrite app_nil_r, !fmap_app, <- !app_assoc.
  by rewrite (Permutation_app_comm (_ <$> spans)).
Qed.

Lemma first_submseteq td spans : first_spans td = Some spans → set_span_name "" <$> spans ⊆+ unnamed td.
Proof.
  unfold first_spans, unnamed, spans_out. destruct td as [|r td]; [done|]. cbn [head mbind option_bind].
  destruct (sres_Scopes r) as [|sc scs] eqn:Er; [done|]. intros [= <-]. cbn [mbind list_bind]. rewrite Er. cbn [mjoin list_join].
  rewrite !fmap_app, <- !app_assoc. by apply submseteq_inserts_r.
Qed.

Lemma held_delete key td c urls :
  uc_ioTraceMap c !! key = Some td →
  held_spans c ≡ₚ unnamed td ++ held_spans {| uc_ioTraceMap := delete key (uc_ioTraceMap c); uc_routeUrlMap := urls |}.
Proof. intros Hk. unfold held_spans. cbn [uc_ioTraceMap]. by rewrite <- (map_to_list_delete _ _ _ Hk). Qed.

Lemma held_insert key td c urls :
  held_spans {| uc_ioTraceMap := <[key := td]> (uc_ioTraceMap c); uc_routeUrlMap := urls |} ⊆+ unnamed td ++ held_spans c.
Proof.
  unfold held_spans. cbn [uc_ioTraceMap]. rewrite <- insert_delete_eq, map_to_list_insert by apply lookup_delete_eq.
  cbn [fmap list_fmap mbind list_bind]. apply submseteq_skips_l. destruct (uc_ioTraceMap c !! key) as [old|] eqn:Ek.
  - rewrite <- (map_to_list_delete _ _ _ Ek). cbn [fmap list_fmap mbind list_bind]. apply submseteq_inserts_l. done.
  - by rewrite delete_id.
Qed.

Lemma ustep_spans x c x' c' :
  ustep x c = Some (x', c') → call_spans x' ++ held_spans c' ⊆+ call_spans x ++ held_spans c.
Proof.
  intros Hs. destruct x as [seg td|k td|k url td| |]; cbn [ustep] in Hs; try done.
  2: { injection Hs as <- <-. apply held_insert. }
  2: { by injection Hs as <- <-. }
  injection Hs as Hs. unfold look_up in Hs. destruct (scan_segment seg) as [[[u url] par]|].
  2: { injection Hs as <- <-. apply submseteq_inserts_l. done. }
  destruct u; cbn [negb] in Hs; [|by injection Hs as <- <-]. case_bool_decide.
  - destruct (uc_routeUrlMap c !! _) as [cached|]; injection Hs as <- <-; [|done]. change (held_spans _) with (held_spans c) at 1.
    apply submseteq_skips_r. destruct (first_spans td) as [spans|] eqn:Ef; [|apply submseteq_nil_l]. cbn [mbind option_bind].
    destruct (name_first cached spans) as [spans'|] eqn:En; [|apply submseteq_nil_l]. cbn [mbind option_bind or_panic call_spans].
    by rewrite (unnamed_set _ _ _ Ef (unnamed_first _ _ _ En)).
  - destruct (uc_ioTraceMap c !! _) as [cached|] eqn:Ek; injection Hs as <- <-; [|done].
    rewrite (held_delete _ _ _ (uc_routeUrlMap c) Ek), app_assoc. apply submseteq_skips_r.
    destruct (first_spans cached) as [spans|] eqn:Ef; [|apply submseteq_nil_l]. cbn [mbind option_bind].
    destruct (name_first url spans) as [spans'|] eqn:En; [|apply submseteq_nil_l]. cbn [mbind option_bind].
    destruct (append_scope spans' td) as [td'|] eqn:Ea; [|apply submseteq_nil_l]. cbn [or_panic call_spans].
    rewrite (unnamed_append _ _ _ Ea). apply submseteq_skips_l. rewrite (unnamed_first _ _ _ En). by apply first_submseteq.
Qed.

Lemma insert_bind {A B} (f : A → list B) (l : list A) i x y :
  l !! i = Some x → ∃ rest, l ≫= f ≡ₚ f x ++ rest ∧ <[i := y]> l ≫= f ≡ₚ f y ++ rest.
Proof.
  intros Hi. exists ((take i l ++ drop (S i) l) ≫= f). split.
  - rewrite <- (take_drop_middle l i x Hi) at 1. by rewrite bind_app, bind_cons, bind_app, Permutation_app_swap_app.
  - rewrite insert_take_drop by (by eapply lookup_lt_Some). by rewrite bind_app, bind_cons, bind_app, Permutation_app_swap_app.
Qed.

(** However many calls are served at the same time, and however their operations are
    interleaved: no span is handed on that was not received, and none twice. *)
Theorem undertow_no_duplicates schedule s s' :
  run_schedule schedule s = Some s' →
  all_spans s' ⊆+ all_spans s ∧ (handed_on s' ≫= unnamed) ++ held_spans (us_cache s') ⊆+ all_spans s.
Proof.
  intros Hr. assert (all_spans s' ⊆+ all_spans s) as Ha.
  - revert s Hr. induction schedule as [|i schedule IH]; intros s; cbn [run_schedule]; [by intros [= <-]|].
    unfold sys_step. destruct (us_calls s !! i) as [x|] eqn:Ei; [|done]. cbn [mbind option_bind].
    destruct (ustep x (us_cache s)) as [[x' c']|] eqn:Eu; [|done]. cbn [mbind option_bind]. intros Hr. etrans; [by apply IH|].
    unfold all_spans. cbn [us_calls us_cache]. destruct (insert_bind call_spans (us_calls s) i x x' Ei) as (rest & -> & ->).
    rewrite (Permutation_app_comm (call_spans x')), (Permutation_app_comm (call_spans x)), <- !app_assoc.
    apply submseteq_skips_l. by apply ustep_spans.
  - split; [done|]. etrans; [|exact Ha]. unfold all_spans. apply submseteq_skips_r. unfold handed_on.
    induction (us_calls s') as [|x l IH]; [done|]. cbn [omap list_omap mbind list_bind].
    destruct x as [| | |[td|]|]; cbn [mbind list_bind call_spans]; try (by apply submseteq_inserts_l); [by apply submseteq_skips_l|done..].
Qed.
End together.

(** ** A run in which both look-ups come first *)

Import RefPData RefSql RefUuid RefProto.

Definition ex_td (segment : SegmentObject) : list SwResource := default [] (ProtoToTraces segment 0 "").
Definition ex_both : usystem :=
  {| us_calls := [U_call ex_io (ex_td ex_io); U_call ex_task (ex_td ex_task)];
     us_cache := {| uc_ioTraceMap := ∅; uc_routeUrlMap := ∅ |} |}.
Definition ex_run_of (schedule : list nat) : usystem := default ex_both (run_schedule schedule ex_both).

Definition is_served (s : usystem) : bool :=
  forallb (λ x, if ustep x (us_cache s) is None then true else false) (us_calls s).

Lemma is_served_spec s : is_served s = true → served s.
Proof.
  unfold is_served, served. induction (us_calls s) as [|x l IH]; cbn [forallb]; [constructor|].
  destruct (ustep x (us_cache s)) eqn:E1; [done|]. intros Hl. constructor; [done|by apply IH].
Qed.

Lemma ex_td_ok segment :
  (if ProtoToTraces segment 0 "" is Some _ then true else false) = true → ProtoToTraces segment 0 "" = Some (ex_td segment).
Proof. unfold ex_td. by destruct (ProtoToTraces segment 0 ""). Qed.

(** Two spans wait for ever; one after the other, they are put together. *)
Lemma undertow_race_witness :
  (∃ s, run_schedule [0; 1; 0; 1]%nat ex_both = Some s ∧ handed_on s = [ex_td ex_task] ∧
     entries (undertow_key ex_segA ex_segA) (us_cache s) = (Some (ex_td ex_io), Some "GET:/users/{id}")) ∧
  ∃ s, run_schedule [1; 1; 0]%nat ex_both = Some s ∧ us_cache s = us_cache ex_both.
Proof.
  assert (request ex_io ex_task "GET:/users/{id}") as Hreq
    by (split; [exists ""; reflexivity|split; [discriminate|split; reflexivity]]).
  assert (no_entry (undertow_key (sg_TraceId ex_io) (sg_TraceSegmentId ex_io)) (us_cache ex_both)) as Hc by (split; apply lookup_empty).
  pose proof (ex_td_ok ex_io ltac:(vm_compute; reflexivity)) as Eio.
  pose proof (ex_td_ok ex_task ltac:(vm_compute; reflexivity)) as Etask.
  assert (∀ l, (if run_schedule l ex_both is Some s then is_served s else false) = true →
    ∃ s, run_schedule l ex_both = Some s ∧ served s) as Hrun.
  { intros l Hl. destruct (run_schedule l ex_both) as [s|]; [|done]. exists s. split; [done|by apply is_served_spec]. }
  destruct (Hrun [0; 1; 0; 1]%nat ltac:(vm_compute; done)) as (s1 & E1 & Hs1).
  destruct (Hrun [1; 1; 0]%nat ltac:(vm_compute; done)) as (s2 & E2 & Hs2). split.
  - destruct (undertow_race _ _ _ _ _ _ _ _ _ _ _ _ Hreq Hc Eio Etask E1 Hs1) as [_ Hm].
    destruct (Hm ltac:(discriminate)) as (Hh & He & _). exists s1. split; [exact E1|]. split; [exact Hh|exact He].
  - destruct (undertow_race _ _ _ _ _ _ _ _ _ _ _ _ Hreq Hc Eio Etask E2 Hs2) as [Ha _].
    destruct (Ha eq_refl) as [_ Hca]. exists s2. split; [exact E2|exact Hca].
Defined.
