(* ===== verification/SwRed.v ===== *)
(** * SwRed: SkyWalking segments as RED metrics

    The receiver of [skywalkingreceiver] and the connector of [redmetricsconnector]
    together: under which labels the spans of a segment are counted.  The reference
    reads the segment of the agent alone - the type and the layer of a span, its peer,
    its component and its tags - and knows nothing of attributes. *)

From S2P Require Import Prelude GoStrings Float64 PData Cache FillProc EntryUrl SqlPrune RedParsers Histogram LruCache RedConnector RedSeries RedExport RedRuns SwIds SwComponents SwTraces SwProps.

(** The receiver's message as the connector is given it: what it does not read is
    left out. *)
Definition as_traces `{PData} (td : list SwResource) : Traces :=
  (λ r, {| ResourceSpans_Resource := sres_Attributes r;
           ResourceSpans_ScopeSpans := (λ spans, {| ScopeSpans_Spans := ss_Span <$> spans |}) <$> sres_Scopes r |}) <$> td.

(** ** What an agent says of a call *)

Section labels.
Context `{PD : PData} `{SP : SqlParser}.

#[local] Notation tags_of s := (omap id (default [] (sw_Tags s))).

Definition tag_value (key : string) (tags : list KeyStringValuePair) : option string := list.last (values_of key tags).

(** The kinds of a cache or a database, the last of which counts. *)
Definition systems_of (tags : list KeyStringValuePair) : list string :=
  omap (λ t, if decide (kv_Key t = "db.type") then Some (ToLower (kv_Value t))
             else if decide (kv_Key t = "cache.type") then Some (ToLower (GetServerName (kv_Value t))) else None) tags.

Definition statements_of (tags : list KeyStringValuePair) : list string :=
  omap (λ t, if decide (kv_Key t = "db.statement" ∨ kv_Key t = "cache.cmd") then Some (kv_Value t) else None) tags.

Definition sql_of (statement : string) : string * string := default ("", "") (SQLParseOperationAndTableNEW statement).

(** The statements that have an operation. *)
Definition has_operation (t : KeyStringValuePair) : bool :=
  bool_decide (kv_Key t = "db.statement") && negb (bool_decide (kv_Value t = "")) && negb (bool_decide ((sql_of (kv_Value t)).1 = "")).

Definition tables_of (tags : list KeyStringValuePair) : list string :=
  omap (λ t, if has_operation t then Some (sql_of (kv_Value t)).2 else None) tags.

Definition operations_of (tags : list KeyStringValuePair) : list string :=
  omap (λ t, if has_operation t then Some (sql_of (kv_Value t)).1
             else if decide (kv_Key t = "cache.op") then Some (kv_Value t) else None) tags.

Definition statement_name (dbName : string) (tags : list KeyStringValuePair) : string :=
  match list.last (operations_of tags), list.last (tables_of tags), list.last (statements_of tags) with
  | Some operation, Some table, _ => sql_name operation dbName table
  | _, _, None => ""
  | _, _, Some statement =>
      let '(operation, table) := sql_of statement in
      if bool_decide (operation = "") then "" else sql_name operation dbName table
  end.

(** Whom the call went to, or came from. *)
Definition address_of (s : SpanObject) : string :=
  match tag_value "mq.broker" (tags_of s) with
  | Some broker => broker
  | None => if sw_SpanType s =? SpanType_Exit then sw_Peer s else ""
  end.

Definition component_of (s : SpanObject) : string := ToLower (GetComponent (sw_ComponentId s)).

Definition is_call (s : SpanObject) : bool := (sw_SpanType s =? SpanType_Exit) && negb (sw_SpanLayer s =? SpanLayer_MQ).

Definition sw_external (http : HttpParser) (pid cid svc : string) (s : SpanObject) : option KeyArgs :=
  let key name system := ExternalKey pid cid svc "" name (address_of s) system (sw_IsError s) in
  let method := default "" (tag_value "http.method" (tags_of s)) in
  if negb (is_call s) then None
  else if negb (bool_decide (method = "")) then
    Some (key (Http_parse http method (default "" (tag_value "url" (tags_of s)))) "http")
  else if sw_SpanLayer s =? SpanLayer_RPCFramework then Some (key (sw_OperationName s) (component_of s))
  else if bool_decide (systems_of (tags_of s) = []) then Some (key (sw_OperationName s) "unknown")
  else None.

Definition sw_db (pid cid svc : string) (s : SpanObject) : option KeyArgs :=
  if negb (is_call s) then None
  else
    (λ system,
       let dbName := default "" (tag_value "db.instance" (tags_of s)) in
       let name := if bool_decide (system ∈ ["redis"; "memcached"; "aerospike"]) then ""
                   else statement_name dbName (tags_of s) in
       DbKey pid cid svc "" system dbName (if bool_decide (name = "") then sw_OperationName s else name)
         (address_of s) (sw_IsError s))
    <$> list.last (systems_of (tags_of s)).

(** A message that is sent or received; without tags the system is not known. *)
Definition sw_mq (pid cid svc : string) (s : SpanObject) : option KeyArgs :=
  let key role := MqKey pid cid svc ""
    (match tag_value "mq.queue" (tags_of s) with
     | Some queue => queue
     | None => default Unknown (head (values_of "mq.topic" (tags_of s)))
     end) (address_of s) (if sw_Tags s is Some _ then component_of s else Unknown) (sw_IsError s) role in
  if negb (sw_SpanLayer s =? SpanLayer_MQ) then None
  else if sw_SpanType s =? SpanType_Entry then Some (key "consumer")
  else if sw_SpanType s =? SpanType_Exit then Some (key "producer")
  else None.

(** The first span of a segment that serves a request or receives a message. *)
Definition sw_server (pid cid svc : string) (top : bool) (s : SpanObject) : option KeyArgs :=
  if (sw_SpanType s =? SpanType_Entry) && (sw_SpanId s =? 0)
  then Some (ServerKey pid cid svc (sw_OperationName s) top (sw_IsError s)) else None.

Definition short (containerId : string) : string := if slen containerId >? 12 then stake 12 containerId else containerId.

(** The labels of a span of a segment in a family other than that of the servers. *)
Definition sw_args (cfg : RedConfig) (k : MetricKind) (pid : Z) (containerId : string) (segment : SegmentObject)
    (s : SpanObject) : option KeyArgs :=
  if (0 <? pid) && negb (bool_decide (sg_Service segment = "")) && enabled k cfg
     && (microsecondsToTimestamp (sw_StartTime s) <? microsecondsToTimestamp (sw_EndTime s)) then
    match k with
    | KServer => None
    | KExternal => sw_external (NewHttpParser (rc_HttpParser cfg)) (FormatInt pid) (short containerId) (sg_Service segment) s
    | KDb => sw_db (FormatInt pid) (short containerId) (sg_Service segment) s
    | KMq => sw_mq (FormatInt pid) (short containerId) (sg_Service segment) s
    end
  else None.

(** The names the connector reads, which the tags of an agent do not use. *)
Definition attribute_names : list string :=
  [AttributeNetSockPeerAddr; AttributeNetworkPeerAddress; AttributeNetPeerName; AttributeNetPeerPort; AttributeServerAddress;
   AttributeHttpRequestMethod; AttributeHttpUrl; AttributeUrlFull; AttributeRPCSystem; AttributeDBSystem; AttributeDBName;
   AttributeDBOperation; AttributeDBSQLTable; AttributeMessagingSystem; AttributeMessageDest; AttributeMessageDestName].

Definition own_names (tags : list KeyStringValuePair) : Prop := Forall (λ t, kv_Key t ∉ attribute_names) tags.
End labels.

(** ** What the tags write *)

Section writes.
Context `{PD : PData} `{PDL : !PDataLaws PD} `{SP : SqlParser}.

(** The attributes a tag sets, but for the topic, which is set when there is no
    destination yet. *)
Definition tag_writes (t : Z) (tag : KeyStringValuePair) : list (string * string) :=
  let key := kv_Key tag in let value := kv_Value tag in
  if HasPrefix key "cache." then
    [(if t =? SpanType_Local then (key, value)
      else if bool_decide (key = "cache.type") then (AttributeDBSystem, ToLower (GetServerName value))
      else if bool_decide (key = "cache.cmd") then (AttributeDBStatement, value)
      else if bool_decide (key = "cache.op") then (AttributeDBOperation, value) else (key, value))]
  else if HasPrefix key "db." then
    if bool_decide (key = "db.type") then [(AttributeDBSystem, ToLower value)]
    else if bool_decide (key = "db.instance") then [(AttributeDBName, value)]
    else if bool_decide (key = "db.statement") then
      (AttributeDBStatement, value) ::
        (if bool_decide (value = "") || bool_decide ((sql_of value).1 = "") then []
         else [(AttributeDBOperation, (sql_of value).1); (AttributeDBSQLTable, (sql_of value).2)])
    else [(key, value)]
  else if HasPrefix key "mq." then
    if bool_decide (key = "mq.queue") then [(AttributeMessagingDestinationName, value)]
    else if bool_decide (key = "mq.topic") then []
    else if bool_decide (key = "mq.broker") then [(AttributeNetPeerName, value)]
    else [(key, value)]
  else [(default key (otSpanTagsMapping !! key), value)].

Definition puts (writes : list (string * string)) (dest : AMap) : AMap := foldS (λ kv, Map_PutStr kv.1 kv.2) writes dest.

Definition written (a : string) (writes : list (string * string)) : list string := (filter (λ kv, kv.1 = a) writes).*2.

Lemma puts_get a writes dest :
  Map_Get a (puts writes dest) = match list.last (written a writes) with Some v => Some (ValueStr v) | None => Map_Get a dest end.
Proof.
  revert dest. induction writes as [|[k v] writes IH]; intros dest; [done|]. cbn [puts foldS]. fold (puts writes).
  unfold puts in IH. rewrite IH. unfold written, Map_PutStr. rewrite filter_cons, Map_Get_Put_dec. cbn [fst snd].
  case_decide; subst; [|done]. cbn [fmap list_fmap snd]. rewrite last_cons. by destruct (list.last _).
Qed.

Lemma tag_attribute_writes t tag dest d :
  tag_attribute t tag dest = Some d → ∀ a, a ≠ AttributeMessagingDestinationName → Map_Get a d = Map_Get a (puts (tag_writes t tag) dest).
Proof.
  destruct tag as [key value]. unfold tag_attribute, tag_writes, setCacheAttribute, setDbAttribute, setMqAttribute. cbn [kv_Key kv_Value].
  destruct (HasPrefix key "cache."); cbn [negb mbind option_bind].
  { intros [= <-] a _. repeat case_match; done. }
  destruct (HasPrefix key "db."); cbn [negb mbind option_bind].
  - destruct (bool_decide (key = "db.type")); [by intros [= <-]|]. destruct (bool_decide (key = "db.instance")); [by intros [= <-]|].
    destruct (bool_decide (key = "db.statement")); [|by intros [= <-]].
    destruct (bool_decide (value = "")); cbn [orb]; [by intros [= <-]|]. unfold sql_of.
    destruct (SQLParseOperationAndTableNEW value) as [[op table]|]; cbn [mbind option_bind]; [|done].
    change (default ("", "") (Some (op, table))) with (op, table). cbn [fst snd negb]. by destruct (bool_decide (op = "")); intros [= <-].
  - destruct (HasPrefix key "mq."); cbn [negb]; [|by intros [= <-]].
    destruct (bool_decide (key = "mq.queue")); [by intros [= <-]|].
    destruct (bool_decide (key = "mq.topic")); [|by destruct (bool_decide (key = "mq.broker")); intros [= <-]].
    destruct (Map_Get AttributeMessagingDestinationName dest); intros [= <-] a Ha; [done|]. by apply Map_Get_Put_ne.
Qed.

Lemma tags_get t tags dest d a :
  a ≠ AttributeMessagingDestinationName → run_all (tag_attribute t) tags dest = Some d →
  Map_Get a d = match list.last (written a (tags ≫= tag_writes t)) with Some v => Some (ValueStr v) | None => Map_Get a dest end.
Proof.
  intros Ha. revert dest. induction tags as [|tag tags IH]; intros dest; cbn [run_all]; [by intros [= <-]|].
  destruct (tag_attribute t tag dest) as [d1|] eqn:E; [|done]. cbn [mbind option_bind]. intros Hr. rewrite (IH _ Hr).
  rewrite (tag_attribute_writes _ _ _ _ E a Ha), puts_get. cbn [mbind list_bind].
  unfold written. rewrite list.filter_app, fmap_app, last_app. by destruct (list.last _).
Qed.

(** Tags that are given another name; all others keep theirs. *)
Definition renamed_keys : list string :=
  ["url"; "cache.type"; "cache.cmd"; "cache.op"; "db.type"; "db.instance"; "db.statement"; "mq.queue"; "mq.topic"; "mq.broker"].

Lemma tag_writes_other t k v : k ∉ renamed_keys → tag_writes t {| kv_Key := k; kv_Value := v |} = [(k, v)].
Proof.
  intros Hk. unfold renamed_keys in Hk. repeat (apply not_elem_of_cons in Hk as [? Hk]).
  unfold tag_writes. cbn [kv_Key kv_Value]. rewrite !(bool_decide_eq_false_2 (k = _)) by done.
  assert (otSpanTagsMapping !! k = None) as ->
    by (unfold otSpanTagsMapping; apply not_elem_of_list_to_map; cbn; rewrite !not_elem_of_cons; split_and!; by try apply not_elem_of_nil).
  by repeat case_match.
Qed.

Lemma written_bind a t tags f :
  Forall (λ tag, written a (tag_writes t tag) = option_list (f tag)) tags → written a (tags ≫= tag_writes t) = omap f tags.
Proof.
  induction 1 as [|tag tags E _ IH]; [done|]. cbn [mbind list_bind omap list_omap]. unfold written in *.
  rewrite list.filter_app, fmap_app, E, IH. by destruct (f tag).
Qed.

Lemma values_omap key tags : values_of key tags = omap (λ t, if decide (kv_Key t = key) then Some (kv_Value t) else None) tags.
Proof. induction tags as [|t tags IH]; [done|]. rewrite values_of_cons, IH. cbn [omap list_omap]. by case_decide. Qed.

(** The attributes of a call or a message, from the tags that have own names. *)
Ltac by_key Hin :=
  unfold renamed_keys in Hin; repeat (apply elem_of_cons in Hin as [->|Hin]); [..|by apply elem_of_nil in Hin].

Lemma written_all a t tags f :
  own_names tags →
  (∀ k v, k ∈ renamed_keys →
     written a (tag_writes t {| kv_Key := k; kv_Value := v |}) = option_list (f {| kv_Key := k; kv_Value := v |})) →
  (∀ k v, k ∉ attribute_names → k ∉ renamed_keys → f {| kv_Key := k; kv_Value := v |} = if decide (k = a) then Some v else None) →
  written a (tags ≫= tag_writes t) = omap f tags.
Proof.
  intros Hown H1 H2. apply written_bind. eapply list.Forall_impl; [exact Hown|]. intros [k v] Hk. cbn [kv_Key] in Hk.
  destruct (decide (k ∈ renamed_keys)) as [Hin|Hn]; [by apply H1|].
  rewrite tag_writes_other, (H2 k v Hk Hn) by done. unfold written. rewrite filter_cons. cbn [fst]. by destruct (decide (k = a)).
Qed.

(** A tag with a name of its own is none of the others. *)
Ltac other_key :=
  intros k v Hk Hr; unfold has_operation; cbn [kv_Key kv_Value]; unfold renamed_keys, attribute_names in *;
  rewrite !not_elem_of_cons in Hk; rewrite !not_elem_of_cons in Hr; destruct_and! Hk; destruct_and! Hr;
  rewrite ?bool_decide_eq_false_2 by done; cbn [andb]; rewrite ?decide_False by (done || tauto); done.

Ltac renamed_key Ht :=
  intros k v Hin; by_key Hin; unfold tag_writes; cbn [kv_Key kv_Value]; rewrite ?(proj2 (Z.eqb_neq _ _) Ht); try reflexivity;
  unfold has_operation; cbn [kv_Key kv_Value];
  destruct (bool_decide (v = "")), (bool_decide ((sql_of v).1 = "")); reflexivity.

Ltac from_tags Ht := rewrite ?values_omap; apply written_all; [done|renamed_key Ht|other_key].

Section forms.
Context (t : Z) (tags : list KeyStringValuePair) (Ht : t ≠ SpanType_Local) (Hown : own_names tags).
#[local] Notation writes := (tags ≫= tag_writes t).

Lemma written_system : written AttributeDBSystem writes = systems_of tags.
Proof. from_tags Ht. Qed.
Lemma written_statement : written AttributeDBStatement writes = statements_of tags.
Proof. from_tags Ht. Qed.
Lemma written_operation : written AttributeDBOperation writes = operations_of tags.
Proof. from_tags Ht. Qed.
Lemma written_table : written AttributeDBSQLTable writes = tables_of tags.
Proof. from_tags Ht. Qed.
Lemma written_instance : written AttributeDBName writes = values_of "db.instance" tags.
Proof. from_tags Ht. Qed.
Lemma written_method : written AttributeHttpMethod writes = values_of "http.method" tags.
Proof. from_tags Ht. Qed.
Lemma written_url : written AttributeHttpUrl writes = values_of "url" tags.
Proof. from_tags Ht. Qed.
Lemma written_broker : written AttributeNetPeerName writes = values_of "mq.broker" tags.
Proof. from_tags Ht. Qed.

(** Attributes no tag sets. *)
Lemma written_none a :
  a ∈ [AttributeNetSockPeerAddr; AttributeNetworkPeerAddress; AttributeNetPeerPort; AttributeServerAddress; AttributeHttpRequestMethod;
       AttributeUrlFull; AttributeRPCSystem; AttributeMessagingSystem; AttributeMessageDest] → written a writes = [].
Proof.
  intros Ha. trans (omap (λ _ : KeyStringValuePair, None : option string) tags); [|clear; induction tags as [|x l IH]; [done|by cbn; rewrite IH]].
  repeat (apply elem_of_cons in Ha as [->|Ha]); [..|by apply elem_of_nil in Ha]; from_tags Ht.
Qed.
End forms.
End writes.

(** ** The attributes of a translated span *)

Section attributes.
Context `{PD : PData} `{PDL : !PDataLaws PD} `{SP : SqlParser} `{UL : UuidLib} `{SWP : SwProto}.
Implicit Types s : SpanObject.

#[local] Notation tags_of s := (omap id (default [] (sw_Tags s))).

(** What the fields of a span set, before its tags. *)
Definition first_value (s : SpanObject) (a : string) : option string :=
  if decide (a = AttributeNetPeerName) then if sw_SpanType s =? SpanType_Exit then Some (sw_Peer s) else None
  else if decide (a = AttributeRPCSystem) then
    if (sw_SpanType s =? SpanType_Exit) && (sw_SpanLayer s =? SpanLayer_RPCFramework) then Some (component_of s) else None
  else if decide (a = AttributeMessagingSystem) then
    if (if sw_Tags s is Some _ then true else false) && (sw_SpanLayer s =? SpanLayer_MQ)
       && ((sw_SpanType s =? SpanType_Exit) || (sw_SpanType s =? SpanType_Entry)) then Some (component_of s) else None
  else None.

Definition sw8_names : list string := [AttributeSkywalkingSegmentID; sw_AttributeSkywalkingSpanID; AttributeSkywalkingParentSpanID].

Lemma swToTags_get s attrs a :
  swToTags s Map_New = Some attrs → a ≠ AttributeMessagingDestinationName →
  Map_Get a attrs = ValueStr <$> match list.last (written a (tags_of s ≫= tag_writes (sw_SpanType s))) with
                                 | Some v => Some v | None => first_value s a end.
Proof.
  intros E Ha. unfold swToTags in E. unfold first_value, component_of. destruct (sw_Tags s) as [tags|].
  - apply run_deref_Some in E as [_ E]. eapply tags_get in E; [|exact Ha]. rewrite E. cbn [default from_option]. unfold id. destruct (list.last _); [done|].
    cbn [andb]. unfold Map_PutStr.
    destruct (sw_SpanType s =? SpanType_Exit), (sw_SpanType s =? SpanType_Entry), (sw_SpanLayer s =? SpanLayer_RPCFramework), (sw_SpanLayer s =? SpanLayer_MQ);
      cbn [andb orb]; rewrite ?Map_Get_Put_dec, Map_Get_New; repeat case_decide; subst; done.
  - injection E as <-. cbn [default from_option andb]. unfold Map_PutStr.
    destruct (sw_SpanType s =? SpanType_Exit), (sw_SpanLayer s =? SpanLayer_RPCFramework);
      cbn [andb]; rewrite ?Map_Get_Put_dec, Map_Get_New; cbn; repeat case_decide; subst; done.
Qed.

(** A translation and its attributes, but for the ids of SkyWalking. *)
Lemma span_fields t seg s o :
  swSpanToSpan t seg s = Some o →
  Span_Kind (ss_Span o) = span_kind s ∧
  Span_StartTimestamp (ss_Span o) = microsecondsToTimestamp (sw_StartTime s) ∧
  Span_EndTimestamp (ss_Span o) = microsecondsToTimestamp (sw_EndTime s) ∧
  ∃ attrs, swToTags s Map_New = Some attrs ∧ ∀ a, a ∉ sw8_names → Map_Get a (Span_Attributes (ss_Span o)) = Map_Get a attrs.
Proof.
  unfold swSpanToSpan. fold (parent_id seg s).
  destruct (swTraceIDToTraceID t) as [tid|]; cbn [mbind option_bind]; [|done].
  destruct (segmentIDToSpanID seg (u32 (sw_SpanId s))) as [sid|]; cbn [mbind option_bind]; [|done].
  destruct (parent_id seg s) as [parent|]; cbn [mbind option_bind]; [|done].
  destruct (swToTags s Map_New) as [attrs|]; cbn [mbind option_bind]; [|done].
  destruct (swLogsToSpanEvents (sw_Logs s)) as [events|]; cbn [mbind option_bind]; [|done].
  destruct (swReferencesToSpanLinks (sw_Refs s)) as [links|]; cbn [mbind option_bind]; [|done]. intros [= <-].
  split_and!; [done..|]. exists attrs. split; [done|]. intros a Ha. unfold sw8_names in Ha. rewrite !not_elem_of_cons in Ha.
  destruct Ha as (H1 & H2 & H3 & _). cbn [Span_Attributes ss_Span]. unfold setSwSpanIDToAttributes, Map_PutInt, Map_PutStr.
  destruct (negb _); rewrite !Map_Get_Put_ne by done; done.
Qed.

Lemma span_get t seg s o a :
  swSpanToSpan t seg s = Some o → a ∉ sw8_names → a ≠ AttributeMessagingDestinationName →
  Map_Get a (Span_Attributes (ss_Span o)) =
    ValueStr <$> match list.last (written a (tags_of s ≫= tag_writes (sw_SpanType s))) with
                 | Some v => Some v | None => first_value s a end.
Proof.
  intros E H8 Hd. destruct (span_fields _ _ _ _ E) as (_ & _ & _ & attrs & Et & Hg). rewrite (Hg a H8). by apply swToTags_get.
Qed.
End attributes.

Section call.
Context `{PD : PData} `{PDL : !PDataLaws PD} `{SP : SqlParser} `{UL : UuidLib} `{SWP : SwProto}.
#[local] Notation tags_of s := (omap id (default [] (sw_Tags s))).
Context (tid seg : string) (s : SpanObject) (o : SwSpan) (Eo : swSpanToSpan tid seg s = Some o).
Context (Hown : own_names (tags_of s)) (Ht : sw_SpanType s ≠ SpanType_Local).
#[local] Notation attr := (Span_Attributes (ss_Span o)).

(** The names the connector reads are none of the ids, nor the destination. *)
Ltac read := rewrite (span_get tid seg s o) by (done || (unfold sw8_names; rewrite !not_elem_of_cons; split_and!; try done; apply not_elem_of_nil)).

Lemma get_none a :
  a ∈ [AttributeNetSockPeerAddr; AttributeNetworkPeerAddress; AttributeNetPeerPort; AttributeServerAddress; AttributeHttpRequestMethod;
       AttributeUrlFull; AttributeMessageDest] → Map_Get a attr = None.
Proof.
  intros Ha. repeat (apply elem_of_cons in Ha as [->|Ha]); [..|by apply elem_of_nil in Ha].
  all: read; rewrite written_none by (done || set_solver); done.
Qed.

Lemma get_peer : Map_Get AttributeNetPeerName attr =
  ValueStr <$> match tag_value "mq.broker" (tags_of s) with
               | Some broker => Some broker
               | None => if sw_SpanType s =? SpanType_Exit then Some (sw_Peer s) else None
               end.
Proof. read. by rewrite written_broker by done. Qed.

Lemma peer_address : GetClientPeer attr = address_of s.
Proof.
  unfold GetClientPeer, peer_of. rewrite get_peer, !get_none by set_solver. unfold address_of.
  destruct (tag_value "mq.broker" _); [cbn; by autorewrite with go|]. destruct (_ =? _); [cbn; by autorewrite with go|done].
Qed.

Lemma get_method : getHttpMethod attr = default "" (tag_value "http.method" (tags_of s)).
Proof.
  unfold getHttpMethod. rewrite (get_none AttributeHttpRequestMethod) by set_solver. read. rewrite written_method by done.
  unfold tag_value. destruct (list.last _); cbn; by autorewrite with go.
Qed.

Lemma get_url : getHttpUrl attr = default "" (tag_value "url" (tags_of s)).
Proof.
  unfold getHttpUrl. rewrite (get_none AttributeUrlFull) by set_solver. read. rewrite written_url by done.
  unfold tag_value. destruct (list.last _); cbn; by autorewrite with go.
Qed.

Lemma get_system : Map_Get AttributeDBSystem attr = ValueStr <$> list.last (systems_of (tags_of s)).
Proof. read. rewrite written_system by done. by destruct (list.last _). Qed.

Lemma get_rpc : Map_Get AttributeRPCSystem attr =
  ValueStr <$> if (sw_SpanType s =? SpanType_Exit) && (sw_SpanLayer s =? SpanLayer_RPCFramework) then Some (component_of s) else None.
Proof. read. by rewrite written_none by (done || set_solver). Qed.

Lemma get_messaging : Map_Get AttributeMessagingSystem attr =
  ValueStr <$> if (if sw_Tags s is Some _ then true else false) && (sw_SpanLayer s =? SpanLayer_MQ)
                  && ((sw_SpanType s =? SpanType_Exit) || (sw_SpanType s =? SpanType_Entry)) then Some (component_of s) else None.
Proof. read. by rewrite written_none by (done || set_solver). Qed.

Lemma get_name dbName : db_name attr dbName = Some (statement_name dbName (tags_of s)).
Proof.
  unfold db_name, statement_name. do 3 read. rewrite written_operation, written_table, written_statement by done.
  destruct (list.last (operations_of _)) as [op|], (list.last (tables_of _)) as [table|]; cbn; autorewrite with go; try done.
  all: destruct (list.last (statements_of _)) as [st|]; cbn; autorewrite with go; try done.
  all: unfold sql_of; destruct (SQLParse_NEW_total st) as [[op' t'] Eq]; rewrite Eq; cbn; by destruct (bool_decide (op' = "")).
Qed.

Lemma get_dbName : getAttrValueWithDefault attr AttributeDBName "" = default "" (tag_value "db.instance" (tags_of s)).
Proof.
  unfold getAttrValueWithDefault. read. rewrite written_instance by done. unfold tag_value.
  destruct (list.last _); cbn; by autorewrite with go.
Qed.

Lemma get_destination :
  getMessageDest attr Unknown =
    match tag_value "mq.queue" (tags_of s) with
    | Some queue => queue
    | None => default Unknown (head (values_of "mq.topic" (tags_of s)))
    end.
Proof.
  unfold getMessageDest. rewrite (get_none AttributeMessageDest) by set_solver.
  destruct (span_fields _ _ _ _ Eo) as (_ & _ & _ & attrs & Et & Hg). rewrite Hg by (unfold sw8_names; set_solver).
  change AttributeMessageDestName with AttributeMessagingDestinationName. destruct (sw_Tags s) as [tags|] eqn:Etags; cbn [default from_option].
  - assert (no_nil tags) as Hnil
      by (pose proof (swToTags_total s Map_New) as Hn; rewrite Et, Etags in Hn; by apply Hn; eexists).
    rewrite (no_nil_fmap _ Hnil) in Etags. destruct (mq_destination s _ Etags) as (attrs' & Et' & Hd).
    { eapply list.Forall_impl; [exact Hown|]. intros t Hk E. apply Hk. rewrite E. unfold attribute_names. set_solver. }
    rewrite Et in Et'. injection Et' as <-. unfold tag_value, id. rewrite Hd.
    destruct (list.last _); [cbn; by autorewrite with go|]. destruct (head _); cbn; by autorewrite with go.
  - unfold swToTags in Et. rewrite Etags in Et. injection Et as <-. cbn.
    destruct (_ =? _); [destruct (_ =? _)|]; unfold Map_PutStr; rewrite ?Map_Get_Put_ne, Map_Get_New by done; done.
Qed.

(** ** The labels *)

Lemma call_kind : SpanKind_eqb (Span_Kind (ss_Span o)) SpanKindClient = is_call s.
Proof.
  destruct (span_fields _ _ _ _ Eo) as (-> & _). unfold span_kind, is_call.
  destruct (sw_SpanLayer s =? SpanLayer_MQ), (sw_SpanType s =? SpanType_Exit) eqn:E1, (sw_SpanType s =? SpanType_Entry) eqn:E2,
    (sw_SpanType s =? SpanType_Local); done.
Qed.

Lemma span_error : isError (Span_Status (ss_Span o)) = sw_IsError s.
Proof. by destruct (swSpanToSpan_fields _ _ _ _ Eo) as (_ & _ & _ & _ & _ & ->). Qed.

Lemma span_name : Span_Name (ss_Span o) = sw_OperationName s.
Proof. by destruct (swSpanToSpan_fields _ _ _ _ Eo) as (_ & _ & _ & -> & _ & _). Qed.

Lemma no_messaging : is_call s = true → Map_Get AttributeMessagingSystem attr = None.
Proof. unfold is_call. rewrite get_messaging. intros [_ Hl%negb_true_iff]%andb_true_iff. by rewrite Hl, andb_false_r. Qed.

Lemma external_labels http pid cid svc : external_args http pid cid svc "" (ss_Span o) = sw_external http pid cid svc s.
Proof.
  unfold external_args, sw_external. rewrite call_kind, peer_address, get_method, get_url, span_error, span_name, get_rpc, get_system.
  destruct (is_call s) eqn:Ec; cbn [negb]; [|done]. rewrite no_messaging by done.
  destruct (bool_decide (_ = "")); cbn [negb]; [|done].
  unfold is_call in Ec. apply andb_true_iff in Ec as [-> _]. cbn [andb].
  destruct (sw_SpanLayer s =? SpanLayer_RPCFramework); cbn; [by autorewrite with go|].
  destruct (systems_of _) as [|x l] eqn:El; [done|]. by destruct (list.last (x :: l)) eqn:E; [|apply last_None in E].
Qed.

Lemma db_labels pid cid svc : db_args pid cid svc "" (ss_Span o) = sw_db pid cid svc s.
Proof.
  unfold db_args, sw_db. rewrite call_kind, peer_address, span_error, span_name, get_system, get_dbName, get_name.
  destruct (is_call s); cbn [negb]; [|done]. destruct (list.last _); cbn; [|done]. autorewrite with go. by case_match.
Qed.

Lemma mq_labels pid cid svc : mq_args pid cid svc "" (ss_Span o) = sw_mq pid cid svc s.
Proof.
  unfold mq_args, sw_mq. rewrite peer_address, span_error, get_destination, get_messaging.
  destruct (span_fields _ _ _ _ Eo) as (-> & _). unfold span_kind.
  destruct (sw_SpanLayer s =? SpanLayer_MQ) eqn:El; cbn [negb].
  - destruct (sw_SpanType s =? SpanType_Entry), (sw_SpanType s =? SpanType_Exit), (sw_Tags s); cbn [andb orb fmap option_fmap option_map from_option];
      by rewrite ?Value_Str_Str.
  - rewrite andb_false_r. cbn [andb]. by destruct (sw_SpanType s =? SpanType_Exit), (sw_SpanType s =? SpanType_Entry), (sw_SpanType s =? SpanType_Local).
Qed.
End call.

(** ** A local span is no call *)

Section segment.
Context `{PD : PData} `{PDL : !PDataLaws PD} `{SP : SqlParser} `{UL : UuidLib} `{SWP : SwProto}.

Lemma local_labels tid seg s o http pid cid svc :
  swSpanToSpan tid seg s = Some o → sw_SpanType s = SpanType_Local →
  external_args http pid cid svc "" (ss_Span o) = None ∧ db_args pid cid svc "" (ss_Span o) = None ∧
  mq_args pid cid svc "" (ss_Span o) = None ∧
  sw_external http pid cid svc s = None ∧ sw_db pid cid svc s = None ∧ sw_mq pid cid svc s = None.
Proof.
  intros E El. destruct (span_fields _ _ _ _ E) as (Ek & _). unfold external_args, db_args, mq_args, sw_external, sw_db, sw_mq, is_call.
  rewrite Ek. unfold span_kind. rewrite El. by destruct (sw_SpanLayer s =? SpanLayer_MQ).
Qed.

(** The labels of the translation are those the reference reads off the segment. *)
Lemma all_labels tid seg s o http pid cid svc :
  swSpanToSpan tid seg s = Some o → own_names (omap id (default [] (sw_Tags s))) →
  external_args http pid cid svc "" (ss_Span o) = sw_external http pid cid svc s ∧
  db_args pid cid svc "" (ss_Span o) = sw_db pid cid svc s ∧ mq_args pid cid svc "" (ss_Span o) = sw_mq pid cid svc s.
Proof.
  intros E Ho. destruct (decide (sw_SpanType s = SpanType_Local)) as [El|El].
  - destruct (local_labels tid seg s o http pid cid svc E El) as (-> & -> & -> & -> & -> & ->). done.
  - split_and!; [by eapply external_labels|by eapply db_labels|by eapply mq_labels].
Qed.
End segment.

(** ** A segment in the connector *)

Section measured.
Context `{PD : PData} `{PDL : !PDataLaws PD} `{UL : UuidLib} `{SWP : SwProto} `{NE : NodeEnv} `{SP : SqlParser} `{GP : GoPlatform} `{VML : VmMathLaws}
  `{LL : !SimpleLRULaws (L : SimpleLRU string AMap)}.
Implicit Types p : connectorImp.

(** The span a segment begins with is counted as a request: every other one is not,
    whatever its tags say. *)
Lemma server_labels tid seg s o pid cid svc p :
  swSpanToSpan tid seg s = Some o →
  server_args pid cid svc (ss_Span o) p =
    sw_server pid cid (tracked_service svc p) (SpanID_IsEmpty (Span_ParentSpanID (ss_Span o))) s.
Proof.
  intros E. destruct (span_fields _ _ _ _ E) as (Ek & _). destruct (swSpanToSpan_fields _ _ _ _ E) as (_ & _ & _ & En & Ei & Ee).
  unfold server_args, sw_server. change AttributeSkywalkingSpanID with sw_AttributeSkywalkingSpanID.
  rewrite Ek, En, Ei, Ee. autorewrite with go. unfold span_kind.
  destruct (Z.eqb_spec (sw_SpanType s) SpanType_Entry) as [->|]; [by destruct (sw_SpanLayer s =? SpanLayer_MQ)|].
  destruct (sw_SpanLayer s =? SpanLayer_MQ), (sw_SpanType s =? SpanType_Exit), (sw_SpanType s =? SpanType_Local); done.
Qed.

(** What the tags put on the resource. *)
Lemma tags_resource_get tags m d a :
  a ∉ [AttributeHttpUrl; AttributeHTTPStatusCode] → run_all (deref resource_attribute) tags m = Some d →
  Map_Get a d = Map_Get a m.
Proof.
  intros Ha [_ E]%run_deref_Some. rewrite !not_elem_of_cons in Ha. destruct Ha as (H1 & H2 & _).
  revert m E. induction (omap id tags) as [|tag l IH]; intros m; cbn [run_all]; [by intros [= <-]|].
  unfold resource_attribute at 1. cbn [mbind option_bind]. intros E%IH. rewrite E.
  destruct (otSpanResourcesMapping !! kv_Key tag) as [k|] eqn:Ek; [|done]. unfold Map_PutStr. rewrite Map_Get_Put_ne; [done|].
  unfold otSpanResourcesMapping in Ek. apply elem_of_list_to_map_2 in Ek.
  repeat (apply elem_of_cons in Ek as [[= _ ->]|Ek]; [congruence|]). by apply elem_of_nil in Ek.
Qed.

Lemma resource_get spans m d a :
  a ∉ [AttributeHttpUrl; AttributeHTTPStatusCode] → Map_Get a m = None →
  run_all swTagsToInternalResource spans m = Some d → Map_Get a d = None.
Proof.
  intros Ha. revert m. induction spans as [|span spans IH]; intros m Hm; cbn [run_all]; [by intros [= <-]|].
  destruct (swTagsToInternalResource span m) as [m1|] eqn:E; [|done]. cbn [mbind option_bind]. apply IH.
  unfold swTagsToInternalResource in E. destruct span as [s|]; [|by injection E as <-].
  destruct (sw_Tags s) as [tags|]; [|injection E as <-; apply Map_Get_New].
  rewrite (tags_resource_get _ _ _ _ Ha E). apply Map_Get_New.
Qed.

(** The process, the service and the container the connector reads off the resource. *)
Lemma segment_resource segment pid cid r scopes :
  ProtoToTraces segment pid cid = Some [r] →
  GetResourceAttribute {| ResourceSpans_Resource := sres_Attributes r; ResourceSpans_ScopeSpans := scopes |} =
    if 0 <? pid then (FormatInt pid, sg_Service segment, short cid) else ("", "", "").
Proof.
  unfold ProtoToTraces. destruct (sg_Spans segment) as [spans|]; [|done]. cbv zeta.
  destruct (run_all swTagsToInternalResource spans Map_New) as [base|] eqn:Ebase; cbn [mbind option_bind]; [|done].
  destruct (swSpansToSpanSlice _ _ _) as [l|]; cbn [mbind option_bind]; [|done]. intros [= <-].
  unfold GetResourceAttribute, GetPid, GetContainerId. cbn [ResourceSpans_Resource sres_Attributes].
  assert (∀ a, a ∉ [AttributeHttpUrl; AttributeHTTPStatusCode] → Map_Get a base = None) as Hb
    by (intros a Ha; apply (resource_get spans Map_New); [done|apply Map_Get_New|done]).
  unfold Map_PutStr, Map_PutInt. rewrite !(Map_Get_Put_ne AttributeSkywalkingTraceID), !(Map_Get_Put_ne AttributeServiceInstanceID) by done.
  rewrite (Map_Get_Put AttributeServiceName_red), !(Map_Get_Put_ne AttributeServiceName) by done.
  assert (slen cid >? 0 = false → cid = "") as Hnil by (destruct cid; [done|intros Hs; by destruct (Z.gtb_spec (slen (String a cid)) 0)]).
  assert (short cid = if slen cid >? 0 then short cid else "") as Es
    by (destruct (slen cid >? 0) eqn:E; [done|by rewrite (Hnil eq_refl)]).
  assert (∀ m : AMap, Map_Get KEY_CONTAINERID (if slen cid >? 0 then Map_Put KEY_CONTAINERID (ValueStr cid) m else m) =
    if slen cid >? 0 then Some (ValueStr cid) else Map_Get KEY_CONTAINERID m) as Hc by (intros; destruct (_ >? _); [apply Map_Get_Put|done]).
  assert (∀ a (m : AMap), a ≠ KEY_CONTAINERID → Map_Get a (if slen cid >? 0 then Map_Put KEY_CONTAINERID (ValueStr cid) m else m) = Map_Get a m) as Ho
    by (intros; destruct (_ >? _); [by apply Map_Get_Put_ne|done]).
  rewrite Hc, !Ho by done. rewrite Es. unfold short. destruct (Z.ltb_spec 0 pid) as [Hp|Hp].
  - rewrite (proj2 (Z.gtb_lt pid 0) Hp), Map_Get_Put, Value_Int_Int, Value_Str_Str, !Map_Get_Put_ne, !Hb by (done || set_solver).
    rewrite (proj2 (Z.leb_gt pid 0) Hp). by destruct (slen cid >? 0); rewrite ?Value_Str_Str.
  - rewrite (Z.gtb_ltb pid 0), (proj2 (Z.ltb_ge 0 pid) Hp), !Hb by set_solver. done.
Qed.

Lemma pretty_N_go_nonempty n s : (0 < n)%N ∨ s ≠ "" → pretty_N_go n s ≠ "".
Proof.
  revert s. induction (N.lt_wf_0 n) as [n _ IH]; intros s Hs. destruct (decide (n = 0)%N) as [->|Hn].
  - rewrite pretty_N_go_0. destruct Hs; [lia|done].
  - rewrite pretty_N_go_step by lia. apply IH; [apply N.div_lt; lia|by right].
Qed.

Lemma FormatInt_nonempty n : FormatInt n ≠ "".
Proof.
  destruct n as [|p|p]; [done| |done]. unfold FormatInt, pretty, pretty_Z, pretty, pretty_positive, pretty, pretty_N.
  rewrite decide_False by done. by apply pretty_N_go_nonempty; left.
Qed.

(** The spans of a segment that are measured, when no entry urls are matched. *)
Lemma segment_plain_spans segment pid cid td :
  ProtoToTraces segment pid cid = Some td →
  as_traces td ≫= plain_spans_of =
    if (0 <? pid) && negb (bool_decide (sg_Service segment = ""))
    then NewResourceSpan 0 (FormatInt pid) (short cid) (sg_Service segment) "" ∘ ss_Span <$> spans_out td else [].
Proof.
  intros E. pose proof E as E'. unfold ProtoToTraces in E'. destruct (sg_Spans segment) as [spans|]; [|injection E' as <-; by case_match].
  cbv zeta in E'. destruct (run_all swTagsToInternalResource spans Map_New) as [base|]; cbn [mbind option_bind] in E'; [|done].
  destruct (swSpansToSpanSlice _ _ _) as [l|]; cbn [mbind option_bind] in E'; [|done].
  assert (∃ attrs, td = [{| sres_Attributes := attrs; sres_Scopes := [l] |}]) as (attrs & ->) by (injection E' as <-; by eexists).
  clear E'. unfold as_traces, spans_out. cbn [fmap list_fmap mbind list_bind sres_Attributes sres_Scopes mjoin list_join].
  rewrite !app_nil_r. unfold plain_spans_of. pose proof (segment_resource _ _ _ _ [{| ScopeSpans_Spans := ss_Span <$> l |}] E) as Er.
  cbn [sres_Attributes] in Er. rewrite Er. destruct (0 <? pid); cbn [andb]; [|done].
  rewrite (bool_decide_eq_false_2 (FormatInt pid = "")) by apply FormatInt_nonempty. cbn [orb].
  destruct (bool_decide (sg_Service segment = "")); cbn [negb]; [done|]. unfold spansOf. cbn. by rewrite app_nil_r, <- list_fmap_compose.
Qed.

Lemma countb_Forall2 {A B} (f : A → bool) (g : B → bool) l l' :
  Forall2 (λ a b, f a = g b) l l' → countb f l = countb g l'.
Proof. induction 1 as [|a b l l' E _ IH]; cbn; [done|]. by rewrite E, IH. Qed.

Lemma countb_none {A} (f : A → bool) l : (∀ a, f a = false) → countb f l = 0.
Proof. intros Hf. induction l as [|a l IH]; cbn; [done|]. by rewrite Hf, IH. Qed.

(** Whether a span of a segment is a sample of a series. *)
Definition sw_sample (cfg : RedConfig) (k : MetricKind) (key : string) (pid : Z) (cid : string) (segment : SegmentObject)
    (s : SpanObject) : bool :=
  bool_decide (key_string <$> sw_args cfg k pid cid segment s = Some key).

Lemma segment_samples cfg p k key segment pid cid td :
  configured cfg p → k ≠ KServer → ProtoToTraces segment pid cid = Some td →
  Forall (λ s, own_names (omap id (default [] (sw_Tags s)))) (real_spans segment) →
  countb (sample_of k key p) (as_traces td ≫= plain_spans_of) = countb (sw_sample cfg k key pid cid segment) (real_spans segment).
Proof.
  intros (Ecfg & Ehttp & _) Hk E Hown. rewrite (segment_plain_spans _ _ _ _ E).
  destruct ((0 <? pid) && negb _) eqn:Hp; [|symmetry; apply countb_none; intros s; unfold sw_sample, sw_args; by rewrite Hp].
  symmetry. apply countb_Forall2. rewrite Forall2_fmap_r.
  pose proof (ProtoToTraces_spans _ _ _ _ E) as Hall. clear E. induction Hall as [|s o l l' Eo Hall IH]; [constructor|].
  apply list.Forall_cons in Hown as [Ho Hown]. constructor; [|by apply IH]. unfold sw_sample, sample_of, matched_args, args_of, sw_args.
  cbn [rsp_Pid rsp_ContainerId rsp_ServiceName rsp_EntryUrl rsp_Span NewResourceSpan compose].
  destruct (span_fields _ _ _ _ Eo) as (_ & -> & -> & _). rewrite Ecfg, Ehttp, Hp. cbn [andb].
  destruct (enabled k cfg && _); [|done]. destruct (all_labels _ _ _ _ (NewHttpParser (rc_HttpParser cfg)) (FormatInt pid) (short cid) (sg_Service segment) Eo Ho)
    as (E1 & E2 & E3). by destruct k; rewrite ?E1, ?E2, ?E3.
Qed.

(** C22: From the agent to the metrics: when a segment whose tags have names of their
    own is translated and handed to the connector, in every reachable state without
    matching of entry urls, the connector takes it and every series of calls and
    messages grows, modulo 2^64, by the number of spans of the segment that the
    reference puts into it by their type, layer, peer, component and tags alone. *)
Theorem sw_segment_measured now cfg p gorder now' segment pid cid td :
  conn_reachable now cfg p → ci_entryUrlCache p = None → ProtoToTraces segment pid cid = Some td →
  Forall (λ s, own_names (omap id (default [] (sw_Tags s)))) (real_spans segment) →
  ∃ p', red_ConsumeTraces gorder now' (as_traces td) p = Some p' ∧
    ∀ k key, k ≠ KServer →
      fam_count (family_of k p') key =
        u64 (fam_count (family_of k p) key + countb (sw_sample cfg k key pid cid segment) (real_spans segment)).
Proof.
  intros Hr Hu E Hown. destruct (reachable_inv now cfg p Hr) as (Hok & _ & Hcfg & _).
  destruct (aggregate_all_counts (as_traces td ≫= plain_spans_of) p Hok) as (p' & Er & _ & Hc).
  exists p'. rewrite red_ConsumeTraces_measured. unfold measured. rewrite Hu. cbn [mbind option_bind].
  rewrite <- Hu, set_entryUrlCache_id. split; [exact Er|]. intros k key Hk. rewrite Hc by done.
  by rewrite (segment_samples cfg p k key segment pid cid td).
Qed.
End measured.

(** Every call is counted, as an external one or as one of a database. *)
Lemma call_counted `{PD : PData} `{SP : SqlParser} http pid cid svc s :
  is_call s = true → is_Some (sw_external http pid cid svc s) ∨ is_Some (sw_db pid cid svc s).
Proof.
  intros Hc. unfold sw_external, sw_db. rewrite Hc. cbn [negb]. case_bool_decide; cbn [negb]; [|left; by eexists].
  destruct (_ =? _); [left; by eexists|]. case_bool_decide as He; [left; by eexists|right].
  destruct (list.last _) eqn:E; [by eexists|]. by apply last_None in E.
Qed.

(** ** A segment with a request, a query, a call and a message *)

Import RefPData RefEnv RefSql AMD64 RefVm RefLRU RefUuid RefProto.

Definition ex_tag (key value : string) : KeyStringValuePair := {| kv_Key := key; kv_Value := value |}.

Definition ex_calls : SegmentObject := {|
  sg_TraceId := ex_segA; sg_TraceSegmentId := ex_segA; sg_Service := "orders"; sg_ServiceInstance := "o1";
  sg_Spans := Some
    [Some (ex_sw_span 3 0 [] "Mysql/JDBI/Statement/execute" SpanType_Exit 1
       [ex_tag "db.type" "Mysql"; ex_tag "db.instance" "shop"; ex_tag "db.statement" "select * from users"]);
     Some (ex_sw_span 2 0 [] "/pay" SpanType_Exit 3 [ex_tag "url" "http://pay:80/pay"; ex_tag "http.method" "POST"]);
     Some (ex_sw_span 1 0 [] "Kafka/shipped/Producer" SpanType_Exit SpanLayer_MQ
       [ex_tag "mq.broker" "kafka:9092"; ex_tag "mq.topic" "shipped"]);
     Some (ex_sw_span 4 0 [] "Redisson/GET" SpanType_Exit 5 [ex_tag "cache.type" "Redis"; ex_tag "cache.cmd" "GET"]);
     Some (ex_sw_span 0 (-1) [] "POST:/orders" SpanType_Entry 3 [ex_tag "url" "http://orders/orders"; ex_tag "http.method" "POST"])] |}.

Definition ex_db_key : KeyArgs := DbKey "7" "" "orders" "" "mysql" "shop" "SELECT shop.users" "host:80" false.

Lemma ex_calls_labels :
  (λ k, omap (sw_args ex_red_config k 7 "" ex_calls) (real_spans ex_calls)) <$> [KExternal; KDb; KMq; KServer] =
    [[ExternalKey "7" "" "orders" "" "POST" "host:80" "http" false];
     [ex_db_key; DbKey "7" "" "orders" "" "redis" "" "Redisson/GET" "host:80" false];
     [MqKey "7" "" "orders" "" "shipped" "kafka:9092" "redis" false "producer"]; []].
Proof. vm_compute. reflexivity. Qed.

Lemma sw_segment_measured_witness :
  ∃ p td p', conn_reachable 1000 ex_red_config p ∧ ProtoToTraces ex_calls 7 "" = Some td ∧
    red_ConsumeTraces keys_of 100 (as_traces td) p = Some p' ∧
    fam_count (ci_dbCall p') (key_string ex_db_key) = u64 (fam_count (ci_dbCall p) (key_string ex_db_key) + 1).
Proof.
  destruct ex_start as (p & E & Eu).
  assert (conn_reachable 1000 ex_red_config p) as Hr by (exists p; split; [exact E|constructor]).
  destruct (ex_translated ex_calls) as [td Etd]; [by vm_compute|].
  destruct (sw_segment_measured 1000 ex_red_config p keys_of 100 ex_calls 7 "" td Hr Eu Etd) as (p' & Ep & Hc).
  { apply (bool_decide_unpack _). vm_compute. exact I. }
  exists p, td, p'. split; [exact Hr|]. split; [exact Etd|]. split; [exact Ep|].
  specialize (Hc KDb (key_string ex_db_key) ltac:(discriminate)).
  assert (countb (sw_sample ex_red_config KDb (key_string ex_db_key) 7 "" ex_calls) (real_spans ex_calls) = 1) as Hn by (vm_compute; reflexivity).
  rewrite Hn in Hc. exact Hc.
Defined.
