(* ===== verification/OtlpRed.v ===== *)
(** * OtlpRed: from the connection of a request to the process of a series

    The OTLP receiver, the extension that finds processes and the RED connector
    together: whose process id the series of a request's spans can have.  The receiver
    writes [apo.pid] into a resource, the connector reads it there, or else
    [process.pid], and makes it a label.  Spans that wait for their entry url keep the
    process of their resource until a message or a tick measures them. *)

From S2P Require Import Prelude GoStrings Float64 PData Cache ProcNet FillProc FillRuns OtlpTraces EntryUrl UnmatchedRuns SqlPrune RedParsers Histogram LruCache RedConnector RedSeries RedExport RedRuns.

Section otlp_red.
Context `{PD : PData} `{PDL : !PDataLaws PD} `{G : GrpcErrors} `{NE : NodeEnv} `{SP : SqlParser} `{GP : GoPlatform} `{VML : VmMathLaws}
  `{LL : !SimpleLRULaws (L : SimpleLRU string AMap)}.
Implicit Types (p : connectorImp) (r : ResourceSpan).

(** ** Which spans change a series *)

Lemma aggregate_all_changed rs p :
  conn_ok p →
  ∃ p', run_all aggregate_matched rs p = Some p' ∧
    ∀ k key, fam_count (family_of k p') key ≠ fam_count (family_of k p) key →
      ∃ r q a, r ∈ rs ∧ matched_args k r q = Some a ∧ key = key_string a.
Proof.
  revert p. induction rs as [|r rs IH]; intros p Hp; [by exists p|]. cbn [run_all].
  destruct (aggregate_ok (rsp_Pid r) (rsp_ContainerId r) (rsp_ServiceName r) (rsp_EntryUrl r) (rsp_Span r) p Hp)
    as (p1 & E1 & Hp1 & _ & Hc & _).
  destruct (IH p1 Hp1) as (p' & E' & Hc'). exists p'.
  assert (aggregate_matched r p = Some p1) as -> by exact E1. split; [exact E'|].
  intros k key Hne. destruct (decide (fam_count (family_of k p') key = fam_count (family_of k p1) key)) as [E|E].
  - rewrite E, Hc in Hne. unfold bump in Hne. fold (matched_args k r p) in Hne.
    destruct (matched_args k r p) as [a|] eqn:Ea; [|done]. case_decide; [|done]. exists r, p, a. split; [by left|]. by split.
  - destruct (Hc' k key E) as (r' & q & a & Hr' & Ha). exists r', q, a. split; [by right|done].
Qed.

(** The labels of a span have the process of its resource. *)
Lemma labels_pid k r p a : matched_args k r p = Some a → ("pid", rsp_Pid r) ∈ labels_of a.
Proof.
  unfold matched_args, args_of. destruct (enabled k (ci_config p) && _); [|done].
  destruct k; unfold server_args, external_args, db_args, mq_args; cbv zeta; repeat case_match; intros E;
    try discriminate E; try (apply fmap_Some in E as (? & _ & ->)); simplify_eq; cbn [labels_of]; set_solver.
Qed.

Lemma plain_spans_pid rss r :
  r ∈ plain_spans_of rss → rsp_Span r ∈ spansOf rss ∧ 0 < GetPid (ResourceSpans_Resource rss) ∧
    rsp_Pid r = FormatInt (GetPid (ResourceSpans_Resource rss)).
Proof.
  unfold plain_spans_of, GetResourceAttribute. destruct (Z.leb_spec (GetPid (ResourceSpans_Resource rss)) 0) as [Hle|Hlt].
  { cbn. intros Hin. by apply elem_of_nil in Hin. }
  destruct (Map_Get AttributeServiceName_red _); [|intros Hin; by apply elem_of_nil in Hin].
  destruct (_ || _); [intros Hin; by apply elem_of_nil in Hin|].
  intros (span & -> & Hs)%list_elem_of_fmap. done.
Qed.

(** What the connector reads of what the receiver wrote. *)
Lemma carries_pid pid containerId attrs attrs' :
  carries (pid, containerId) attrs attrs' → GetPid attrs' = if decide (pid > 0) then pid else GetPid attrs.
Proof.
  intros Hc. unfold GetPid. rewrite !Hc. cbn [fst snd]. rewrite !(decide_False (P := KEY_PID = KEY_CONTAINERID ∧ _)) by (by intros []).
  rewrite !(decide_False (P := AttributeProcessPID = _ ∧ _)) by (by intros []). case_decide as Hp.
  - rewrite decide_True by tauto. apply Value_Int_Int.
  - rewrite decide_False; [done|]. intros Hpos. by apply Hp.
Qed.

(** A process id that a resource of the request comes with, in its attributes or as a name
    of Beyla, or of a process that held the connection at an earlier tick. *)
Definition source_of (evs : list fill_event) (peerAddr : string) (td : Traces) (s : string) : Prop :=
  ∃ rs pid, rs ∈ td ∧ 0 < pid ∧ s = FormatInt pid ∧
    let attrs := ResourceSpans_Resource rs in
    (pid = GetPid attrs ∨ pid = getBeylaPid attrs ∨
     ∃ containerId, holder evs peerAddr pid containerId ∧ (getContainerId attrs = "" ∨ getContainerId attrs = containerId)).

(** The process id of a span that waits for its entry url. *)
Definition waiting_pid (c : option EntryUrlCache) (s : string) : Prop :=
  ∃ cache, c = Some cache ∧ s ∈ (rsp_Pid <$> ec_unMatchedSpans cache).

(** What is measured and what waits is of the message, or has waited. *)
Lemma measured_pid gorder now td p rs c :
  measured gorder now td p = Some (rs, c) →
  (∀ r, r ∈ rs → waiting_pid (ci_entryUrlCache p) (rsp_Pid r) ∨ pid_of_resource td (rsp_Pid r)) ∧
  (∀ s, waiting_pid c s → waiting_pid (ci_entryUrlCache p) s ∨ pid_of_resource td s).
Proof.
  unfold measured. destruct (ci_entryUrlCache p) as [cache|].
  - destruct (GetMatchedResourceSpans gorder now td cache) as [[out cache']|] eqn:E; [|done]. cbn [mbind option_bind]. intros [= <- <-].
    apply message_pid, Forall_app in E as [H1 H2]. rewrite list.Forall_forall in H1, H2. split.
    + intros r Hr. destruct (H1 r Hr); [left; by exists cache|by right].
    + intros s (c0 & [= <-] & (u & -> & Hu)%list_elem_of_fmap). destruct (H2 u Hu); [left; by exists cache|by right].
  - intros [= <- <-]. split; [|by intros s (c0 & ? & _)]. intros r (rss & Hr & Hin)%list_elem_of_bind. right.
    apply plain_spans_pid in Hr as (_ & Hpos & Ep). by exists rss.
Qed.

Lemma fam_count_set_cache k c p key : fam_count (family_of k (set_entryUrlCache c p)) key = fam_count (family_of k p) key.
Proof. by destruct k. Qed.

(** The process ids of what was exported are those of [source_of]. *)
Lemma exported_source evs peerAddr (td td' : Traces) s :
  Forall2 (λ rs rs', ResourceSpans_ScopeSpans rs' = ResourceSpans_ScopeSpans rs ∧
    ∃ pid containerId, carries (pid, containerId) (ResourceSpans_Resource rs) (ResourceSpans_Resource rs') ∧
      sourced evs peerAddr (ResourceSpans_Resource rs) pid containerId) td td' →
  pid_of_resource td' s → source_of evs peerAddr td s.
Proof.
  intros Hall (rs' & [i Hi]%list_elem_of_lookup_1 & Hpos & ->).
  destruct (Forall2_lookup_r _ _ _ _ _ Hall Hi) as (rs & Hj & _ & pid & cid & Hcar & Hsrc).
  eexists rs, _. split; [by eapply list_elem_of_lookup_2|]. split; [exact Hpos|]. split; [done|].
  cbv zeta. rewrite (carries_pid _ _ _ _ Hcar). case_decide as Hp; [right|by left].
  destruct (Hsrc Hp) as [->|Hh]; [by left|right; by exists cid].
Qed.

(** A tick that gives up on spans changes series of their processes alone. *)
Lemma tick_changes now cfg p now' rs c :
  conn_reachable now cfg p → timed_out now' p = Some (rs, c) →
  ∃ p', run_all aggregate_matched rs (set_entryUrlCache c p) = Some p' ∧
    ∀ k key, fam_count (family_of k p') key ≠ fam_count (family_of k p) key →
      ∃ a s, key = key_string a ∧ ("pid", s) ∈ labels_of a ∧ waiting_pid (ci_entryUrlCache p) s.
Proof.
  intros Hr Ht. pose proof (set_entryUrlCache_inv cfg c p (reachable_inv now cfg p Hr)) as (Hok & _).
  destruct (aggregate_all_changed rs _ Hok) as (p' & Er & Hc). exists p'. split; [done|]. intros k key Hne.
  rewrite <- (fam_count_set_cache k c) in Hne. destruct (Hc k key Hne) as (r & q & a & Hin & Ha & ->).
  exists a, (rsp_Pid r). split; [done|]. split; [by eapply labels_pid|].
  unfold timed_out in Ht. destruct (ci_entryUrlCache p) as [cache|]; [|done]. cbn [mbind option_bind] in Ht.
  destruct (CleanExpireBuckets cache) as [cache1|] eqn:E1; [|done]. cbn [mbind option_bind] in Ht.
  apply CleanExpireBuckets_held in E1 as [E1 _]. unfold CleanUnMatchedSpans in Ht. injection Ht as <- <-.
  apply list_elem_of_fmap in Hin as (u & -> & Hu). exists cache. split; [done|]. apply list_elem_of_fmap. exists u. split; [done|].
  rewrite <- E1. eapply elem_of_sublist; [exact Hu|apply sublist_take].
Qed.

(** C32: The receiver, the extension and the connector together: whatever ticks and
    requests came before, a request that is exported is handed to the connector, and in
    every reachable state of it, with or without matching of entry urls, what is measured
    is counted; every series whose count changes, and every span that waits for its entry
    url afterwards, has a process that one of the request's resources came with, in its
    attributes or as a name of Beyla, or that held the connection of the request's peer at
    an earlier tick - or the process of a span that waited before. *)
Theorem series_pid_source now cfg p gorder now' interval evs peerAddr serverAddr td :
  conn_reachable now cfg p → SpanCount td ≠ 0 →
  ∃ td' receiver',
    otlp_Export (Some (peerAddr, serverAddr)) (λ _, None) td {| or_fillProcExtension := Some (ext_after interval evs) |} =
      Some (Some td', None, receiver') ∧
    (ci_entryUrlCache p = None → is_Some (measured gorder now' td' p)) ∧
    ∀ rs c, measured gorder now' td' p = Some (rs, c) →
      (∃ p', red_ConsumeTraces gorder now' td' p = Some p' ∧
         ∀ k key, fam_count (family_of k p') key ≠ fam_count (family_of k p) key →
           ∃ a s, key = key_string a ∧ ("pid", s) ∈ labels_of a ∧
             (source_of evs peerAddr td s ∨ waiting_pid (ci_entryUrlCache p) s)) ∧
      ∀ s, waiting_pid c s → source_of evs peerAddr td s ∨ waiting_pid (ci_entryUrlCache p) s.
Proof.
  intros Hr Hn. destruct (export_sourced interval evs peerAddr serverAddr (λ _, None) td Hn) as (td' & Ee & Hall).
  eexists td', _. split; [exact Ee|]. split; [unfold measured; intros ->; by eexists|]. intros rs c Hm.
  pose proof (set_entryUrlCache_inv cfg c p (reachable_inv now cfg p Hr)) as (Hok & _).
  destruct (measured_pid _ _ _ _ _ _ Hm) as [Hrs Hwait].
  pose proof (exported_source evs peerAddr td td') as Hsrc. split.
  - destruct (aggregate_all_changed rs _ Hok) as (p' & Er & Hc). exists p'. split; [by rewrite red_ConsumeTraces_measured, Hm|].
    intros k key Hne. rewrite <- (fam_count_set_cache k c) in Hne. destruct (Hc k key Hne) as (r & q & a & Hin & Ha & ->).
    exists a, (rsp_Pid r). split; [done|]. split; [by eapply labels_pid|]. destruct (Hrs r Hin); [by right|left; by apply Hsrc].
  - intros s Hs. destruct (Hwait s Hs); [by right|left; by apply Hsrc].
Qed.
End otlp_red.

(** ** A request of a process that was seen before *)

Import RefPData RefErrors RefEnv RefSql AMD64 RefVm RefLRU.

Definition ex_request : Traces :=
  [{| ResourceSpans_Resource := {["service.name" := VStr "orders"]};
      ResourceSpans_ScopeSpans := [{| ScopeSpans_Spans := [ex_otlp_span] |}] |}].

Lemma series_pid_source_witness :
  ∃ p td' receiver' p',
    conn_reachable 1000 ex_red_config p ∧
    otlp_Export (Some ("10.0.2.15:40000", "10.0.2.15:4317")) (λ _, None) ex_request
      {| or_fillProcExtension := Some (ext_after 5 ex_events) |} = Some (Some td', None, receiver') ∧
    ex_pids (Some (Some td', None, receiver')) = [Some (VInt 12)] ∧
    red_ConsumeTraces keys_of 100 td' p = Some p'.
Proof.
  destruct ex_start as (p & E & Eu).
  assert (conn_reachable 1000 ex_red_config p) as Hr by (exists p; split; [exact E|constructor]).
  destruct (series_pid_source 1000 ex_red_config p keys_of 100 5 ex_events "10.0.2.15:40000" "10.0.2.15:4317" ex_request Hr)
    as (td' & receiver' & Ee & Hm & Hall); [discriminate|].
  destruct (Hm Eu) as [[rs c] Em]. destruct (Hall rs c Em) as [(p' & Er & _) _].
  exists p, td', receiver', p'. split; [exact Hr|]. split; [exact Ee|]. split; [|exact Er].
  apply (f_equal ex_pids) in Ee. cbn [ex_pids] in Ee. cbn [ex_pids]. rewrite <- Ee. vm_compute. reflexivity.
Defined.
