(* ===== verification/Factories.v ===== *)
(** * Factories: the signals of one configuration share one receiver

    Models the factories [otlpreceiver/factory.go] and
    [skywalkingreceiver/factory.go], which compose the packages of [Sharing] with the
    receivers of [OtlpServer] and [SwServer].  What a factory relies on is the class
    [Registry]: a simulation of the simpler of the two packages, which both
    satisfy; the lemmas on creating, starting and stopping are proved against
    it.  The receivers live in a list, at the position of their component. *)

From S2P Require Import Prelude GoStrings PData FillProc OtlpTraces Sharing SqlPrune RedParsers SwIds SwComponents SwTraces SwProps Undertow Endpoints OtlpServer SwServer.

(** ** The interface: what is loaded, started and stopped, seen as the simpler package *)

Class Registry (K : Type) `{Countable K} `{GrpcErrors} (A St : Type) := {
  rg_comps : St → SharedComponents (K := K);
  rg_load : K → A → St → option (nat * St);
  rg_start : nat → option GoErr → St → option (option GoErr * St);
  rg_stop : nat → option GoErr → St → option (option GoErr * St);
  rg_ok : St → Prop;
  rg_pre : K → A → St → Prop;
}.

Class RegistryLaws (K : Type) `{Countable K} `{GrpcErrors} (A St : Type) `{!Registry K A St} : Prop := {
  rg_inv : ∀ st, rg_ok st → shared_inv (rg_comps st);
  rg_load_ok : ∀ key a st, rg_ok st → rg_pre key a st →
    ∃ st', rg_load key a st = Some ((GetOrAdd key (rg_comps st)).1, st') ∧
      rg_comps st' = (GetOrAdd key (rg_comps st)).2 ∧ rg_ok st' ∧ ∀ a', rg_pre key a' st → rg_pre key a' st';
  rg_start_ok : ∀ c answer st o comps, rg_ok st → shared_Start c answer (rg_comps st) = Some (o, comps) →
    ∃ st', rg_start c answer st = Some (o, st') ∧ rg_comps st' = comps ∧ rg_ok st';
  rg_stop_ok : ∀ c answer st o comps, rg_ok st → shared_Shutdown c answer (rg_comps st) = Some (o, comps) →
    ∃ st', rg_stop c answer st = Some (o, st') ∧ rg_comps st' = comps ∧ rg_ok st';
}.

(** ** The packages *)

Section packages.
Context {K : Type} `{Countable K} `{GrpcErrors}.

#[global] Instance SharedComponents_Registry : Registry K unit (SharedComponents (K := K)) := {|
  rg_comps s := s;
  rg_load key _ s := Some (GetOrAdd key s);
  rg_start := shared_Start;
  rg_stop := shared_Shutdown;
  rg_ok := shared_inv;
  rg_pre _ _ _ := True;
|}.

#[global] Instance SharedComponents_RegistryLaws : RegistryLaws K unit (SharedComponents (K := K)).
Proof.
  split; cbn.
  - done.
  - intros key _ s Hs _. exists (GetOrAdd key s).2. split_and!; [by destruct (GetOrAdd key s)|done|by apply GetOrAdd_inv|done].
  - intros c answer s o comps Hs E. exists comps. split_and!; [done..|by eapply shared_Start_inv].
  - intros c answer s o comps Hs E. exists comps. split_and!; [done..|by eapply shared_Shutdown_inv].
Qed.

(** The telemetry settings are the argument; the constructor answers no error. *)
#[global] Instance Map_Registry : Registry K nat (Map (K := K)) := {|
  rg_comps := m_components;
  rg_load key t m := '(o, m) ← LoadOrStore key None t m; match o with inl c => Some (c, m) | inr _ => None end;
  rg_start := map_Start;
  rg_stop := map_Shutdown;
  rg_ok := map_inv;
  rg_pre := own_settings;
|}.

(** Loading a component leaves the settings that a key may use as they are. *)
Lemma load_own_settings (key : K) t t' (m : Map (K := K)) o m' :
  map_inv m → LoadOrStore key None t m = Some (o, m') → own_settings key t' m → own_settings key t' m'.
Proof.
  intros Hm. unfold LoadOrStore. destruct (ss_comps (m_components m) !! key) as [c|] eqn:Ec.
  - destruct (m_telemetry m !! c) as [[tel seen]|] eqn:Et; [|done]. cbn [mbind option_bind]. case_decide; intros [= <- <-]; [done|].
    intros Hown c' tel' seen'. cbn [m_telemetry m_components].
    intros [(<- & _ & _)|[Hne Hc']]%list_lookup_insert_Some Ht; [done|by eapply Hown].
  - pose proof (mi_length m Hm) as Hl. unfold GetOrAdd. rewrite Ec. intros [= <- <-] Hown c' tel' seen'.
    cbn [m_telemetry m_components ss_comps]. intros [Hc'|[Hc' Ht]]%lookup_app_Some Hin.
    + pose proof (Hown _ _ _ Hc' Hin). congruence.
    + apply list_lookup_singleton_Some in Ht as [Hz _]. rewrite lookup_insert_eq. f_equal. lia.
Qed.

#[global] Instance Map_RegistryLaws : RegistryLaws K nat (Map (K := K)).
Proof.
  split.
  - intros m. apply mi_shared.
  - intros key t m Hm Hown. cbn. assert (∃ m', LoadOrStore key None t m = Some (inl (GetOrAdd key (m_components m)).1, m') ∧
      m_components m' = (GetOrAdd key (m_components m)).2 ∧ map_inv m') as (m' & E & Hc & Hi).
    { unfold LoadOrStore, GetOrAdd. destruct (ss_comps (m_components m) !! key) as [c|] eqn:Ec.
      - assert (is_Some (m_telemetry m !! c)) as [[tel seen] Et].
        { apply (sh_map _ (mi_shared _ Hm)) in Ec as (r & Hr & _). apply lookup_lt_is_Some. rewrite (mi_length _ Hm).
          by eapply lookup_lt_Some. }
        rewrite Et. cbn [mbind option_bind]. eexists. split; [reflexivity|].
        case_decide; [done|]. split; [done|]. by apply (load_old_inv key).
      - eexists. split; [reflexivity|]. split; [done|]. pose proof (load_new_inv key t m Hm Hown Ec) as Hi.
        unfold GetOrAdd in Hi. by rewrite Ec in Hi. }
    exists m'. rewrite E. split_and!; [done..|]. intros t'. by eapply load_own_settings.
  - intros c answer m o comps Hm E. cbn in *. pose proof (shared_Start_inv _ _ _ _ _ (mi_shared _ Hm) E) as Hi.
    pose proof (shared_Start_length _ _ _ _ _ E) as Hl.
    destruct (ss_heap (m_components m) !! c) as [r|] eqn:Er; [|by unfold shared_Start in E; rewrite Er in E].
    pose proof (map_Start_ok c answer m r Hm Er) as Hok. pose proof E as E'. unfold shared_Start in E'.
    rewrite Er in E'. cbn [mbind option_bind] in E'.
    destruct (sc_startOnce r) eqn:Ef; [injection E' as <- <-; by exists m|]. injection E' as <- _.
    destruct Hok as (comps' & Hs & ->). eexists. split; [reflexivity|]. cbn [m_components moved].
    split; [congruence|]. apply moved_inv; congruence.
  - intros c answer m o comps Hm E. cbn in *. pose proof (shared_Shutdown_inv _ _ _ _ _ (mi_shared _ Hm) E) as Hi.
    pose proof (shared_Shutdown_length _ _ _ _ _ E) as Hl.
    destruct (ss_heap (m_components m) !! c) as [r|] eqn:Er; [|by unfold shared_Shutdown in E; rewrite Er in E].
    pose proof (map_Shutdown_ok c answer m r Hm Er) as Hok. pose proof E as E'. unfold shared_Shutdown in E'.
    rewrite Er in E'. cbn [mbind option_bind] in E'.
    destruct (sc_stopOnce r) eqn:Ef; [injection E' as <- <-; by exists m|]. injection E' as <- _.
    destruct Hok as (comps' & Hs & ->). eexists. split; [reflexivity|]. cbn [m_components moved].
    split; [congruence|]. apply moved_inv; congruence.
Qed.
End packages.

(** ** A registry and the receivers behind its components *)

Section factory.
Context {K : Type} `{Countable K} `{GrpcErrors} {A St : Type} `{!Registry K A St} `{!RegistryLaws K A St} {R : Type}.

Record factory := { fa_registry : St; fa_receivers : list R }.

(** The component of a key, with a receiver made for it if there was none. *)
Definition get_receiver (key : K) (a : A) (create : R) (f : factory) : option (nat * factory) :=
  '(c, st) ← rg_load key a (fa_registry f);
  Some (c, {| fa_registry := st;
              fa_receivers := if ss_comps (rg_comps (fa_registry f)) !! key is Some _ then fa_receivers f
                              else fa_receivers f ++ [create] |}).

(** [Unwrap], and a call that changes the receiver. *)
Definition update_receiver (c : nat) (g : R → R) (f : factory) : factory :=
  {| fa_registry := fa_registry f; fa_receivers := alter g c (fa_receivers f) |}.

(** [Start] of the component: [run] is what starting the receiver answers, [None] its
    panic. *)
Definition comp_Start (c : nat) (run : R → option (option GoErr * R)) (f : factory) : option (option GoErr * factory) :=
  sc ← ss_heap (rg_comps (fa_registry f)) !! c;
  r ← fa_receivers f !! c;
  '(answer, r) ← (if sc_startOnce sc then Some (None, r) else run r);
  '(err, st) ← rg_start c answer (fa_registry f);
  Some (err, {| fa_registry := st; fa_receivers := <[c := r]> (fa_receivers f) |}).

Definition comp_Shutdown (c : nat) (run : R → option (option GoErr * R)) (f : factory) : option (option GoErr * factory) :=
  sc ← ss_heap (rg_comps (fa_registry f)) !! c;
  r ← fa_receivers f !! c;
  '(answer, r) ← (if sc_stopOnce sc then Some (None, r) else run r);
  '(err, st) ← rg_stop c answer (fa_registry f);
  Some (err, {| fa_registry := st; fa_receivers := <[c := r]> (fa_receivers f) |}).

Record fa_ok (f : factory) : Prop := {
  fo_registry : rg_ok (fa_registry f);
  fo_length : length (ss_heap (rg_comps (fa_registry f))) = length (fa_receivers f);
}.

Definition comp_of (f : factory) (key : K) : option nat := ss_comps (rg_comps (fa_registry f)) !! key.

(** The component [c] of [key] is not started, and its receiver is [r]. *)
Record idle (f : factory) (key : K) (c : nat) (r : R) : Prop := {
  id_ok : fa_ok f;
  id_comp : comp_of f key = Some c;
  id_heap : ss_heap (rg_comps (fa_registry f)) !! c = Some {| sc_key := key; sc_startOnce := false; sc_stopOnce := false |};
  id_receiver : fa_receivers f !! c = Some r;
}.

(** The first load makes the receiver. *)
Lemma get_receiver_new key a create f :
  fa_ok f → rg_pre key a (fa_registry f) → comp_of f key = None →
  ∃ f', get_receiver key a create f = Some (length (fa_receivers f), f') ∧
    idle f' key (length (fa_receivers f)) create ∧ fa_receivers f' = fa_receivers f ++ [create] ∧
    ∀ a', rg_pre key a' (fa_registry f) → rg_pre key a' (fa_registry f').
Proof.
  intros [Hok Hl] Hpre Hn. unfold comp_of in Hn. destruct (rg_load_ok key a (fa_registry f) Hok Hpre) as (st & E & Hc & Hok' & Hpre').
  unfold get_receiver. rewrite E, Hn. unfold GetOrAdd in *. rewrite Hn in *. cbn [mbind option_bind fst snd] in *.
  rewrite Hl. eexists. split; [reflexivity|]. cbn [fa_registry fa_receivers]. split_and!; [|done|done].
  split; [split; cbn [fa_registry fa_receivers]; [done|]|..]; unfold comp_of; cbn [fa_registry fa_receivers];
    rewrite ?Hc; cbn [ss_heap ss_comps].
  - by rewrite !length_app, Hl.
  - by rewrite lookup_insert_eq, Hl.
  - rewrite lookup_app_r by lia. by rewrite Hl, Nat.sub_diag.
  - by rewrite lookup_app_r, Nat.sub_diag by lia.
Qed.

(** The others find it. *)
Lemma get_receiver_old key a create f c r :
  idle f key c r → rg_pre key a (fa_registry f) →
  ∃ f', get_receiver key a create f = Some (c, f') ∧ idle f' key c r ∧ fa_receivers f' = fa_receivers f ∧
    ∀ a', rg_pre key a' (fa_registry f) → rg_pre key a' (fa_registry f').
Proof.
  intros [[Hok Hl] Hcomp Hh Hr] Hpre. unfold comp_of in Hcomp.
  destruct (rg_load_ok key a (fa_registry f) Hok Hpre) as (st & E & Hc & Hok' & Hpre').
  unfold get_receiver. rewrite E, Hcomp. unfold GetOrAdd in *. rewrite Hcomp in *. cbn [mbind option_bind fst snd] in *.
  eexists. split; [reflexivity|]. cbn [fa_registry fa_receivers]. split_and!; [|done|done].
  split; [split; cbn [fa_registry fa_receivers]; [done|]|..]; unfold comp_of; cbn [fa_registry fa_receivers];
    rewrite ?Hc; done.
Qed.

Lemma update_receiver_idle g f key c r : idle f key c r → idle (update_receiver c g f) key c (g r).
Proof.
  intros [[Hok Hl] Hcomp Hh Hr]. split; [split; [done|]|done|done|]; cbn [fa_receivers update_receiver fa_registry].
  - by rewrite length_alter.
  - by rewrite list_lookup_alter_eq, Hr.
Qed.

(** The first [Start] starts the receiver, and no other does. *)
Lemma comp_Start_idle key c r f run answer r' :
  idle f key c r → run r = Some (answer, r') →
  ∃ f', comp_Start c run f = Some (answer, f') ∧ fa_ok f' ∧ fa_receivers f' = <[c := r']> (fa_receivers f) ∧
    comp_of f' key = Some c ∧
    ss_heap (rg_comps (fa_registry f')) !! c = Some {| sc_key := key; sc_startOnce := true; sc_stopOnce := false |} ∧
    ∀ run', ∃ f'', comp_Start c run' f' = Some (None, f'') ∧ fa_receivers f'' = fa_receivers f'.
Proof.
  intros [[Hok Hl] Hcomp Hh Hr] Hrun. unfold comp_Start at 1. rewrite Hh, Hr. cbn [mbind option_bind sc_startOnce]. rewrite Hrun.
  cbn [mbind option_bind]. assert (∃ comps, shared_Start c answer (rg_comps (fa_registry f)) = Some (answer, comps) ∧
    ss_comps comps = ss_comps (rg_comps (fa_registry f)) ∧
    ss_heap comps = <[c := {| sc_key := key; sc_startOnce := true; sc_stopOnce := false |}]> (ss_heap (rg_comps (fa_registry f))))
    as (comps & Es & Hcs & Hhs).
  { unfold shared_Start. rewrite Hh. cbn [mbind option_bind sc_startOnce]. by eexists. }
  destruct (rg_start_ok _ _ _ _ _ Hok Es) as (st & -> & Hc & Hok'). cbn [mbind option_bind]. eexists. split; [reflexivity|].
  assert (ss_heap comps !! c = Some {| sc_key := key; sc_startOnce := true; sc_stopOnce := false |}) as Hh'.
  { rewrite Hhs. apply list_lookup_insert_eq. by eapply lookup_lt_Some. }
  unfold comp_of. cbn [fa_registry fa_receivers]. rewrite Hc. split_and!; [|done|by rewrite Hcs|done|].
  - split; cbn [fa_registry fa_receivers]; [done|]. by rewrite Hc, Hhs, !length_insert.
  - intros run'. unfold comp_Start. cbn [fa_registry fa_receivers]. rewrite Hc, Hh'.
    assert (<[c:=r']> (fa_receivers f) !! c = Some r') as Hr' by (apply list_lookup_insert_eq; by eapply lookup_lt_Some).
    rewrite Hr'. cbn [mbind option_bind sc_startOnce].
    assert (shared_Start c None (rg_comps st) = Some (None, comps)) as Es' by (unfold shared_Start; by rewrite Hc, Hh').
    destruct (rg_start_ok _ _ _ _ _ Hok' Es') as (st' & -> & _). eexists. split; [reflexivity|]. cbn [fa_receivers].
    by apply list_insert_id.
Qed.

(** The first [Shutdown] of a started component stops the receiver and frees the key. *)
Lemma comp_Shutdown_once key c r f run answer r' :
  fa_ok f → comp_of f key = Some c → fa_receivers f !! c = Some r →
  ss_heap (rg_comps (fa_registry f)) !! c = Some {| sc_key := key; sc_startOnce := true; sc_stopOnce := false |} →
  run r = Some (answer, r') →
  ∃ f', comp_Shutdown c run f = Some (answer, f') ∧ fa_ok f' ∧ fa_receivers f' = <[c := r']> (fa_receivers f) ∧
    comp_of f' key = None ∧
    ∀ run', ∃ f'', comp_Shutdown c run' f' = Some (None, f'') ∧ fa_receivers f'' = fa_receivers f'.
Proof.
  intros [Hok Hl] Hcomp Hr Hh Hrun. unfold comp_Shutdown at 1. rewrite Hh, Hr. cbn [mbind option_bind sc_stopOnce]. rewrite Hrun.
  cbn [mbind option_bind]. assert (∃ comps, shared_Shutdown c answer (rg_comps (fa_registry f)) = Some (answer, comps) ∧
    ss_comps comps = delete key (ss_comps (rg_comps (fa_registry f))) ∧
    ss_heap comps = <[c := {| sc_key := key; sc_startOnce := true; sc_stopOnce := true |}]> (ss_heap (rg_comps (fa_registry f))))
    as (comps & Es & Hcs & Hhs).
  { unfold shared_Shutdown. rewrite Hh. cbn [mbind option_bind sc_stopOnce]. by eexists. }
  destruct (rg_stop_ok _ _ _ _ _ Hok Es) as (st & -> & Hc & Hok'). cbn [mbind option_bind]. eexists. split; [reflexivity|].
  assert (ss_heap comps !! c = Some {| sc_key := key; sc_startOnce := true; sc_stopOnce := true |}) as Hh'.
  { rewrite Hhs. apply list_lookup_insert_eq. by eapply lookup_lt_Some. }
  unfold comp_of. cbn [fa_registry fa_receivers]. rewrite Hc. split_and!; [|done|by rewrite Hcs, lookup_delete_eq|].
  - split; cbn [fa_registry fa_receivers]; [done|]. by rewrite Hc, Hhs, !length_insert.
  - intros run'. unfold comp_Shutdown. cbn [fa_registry fa_receivers]. rewrite Hc, Hh'.
    assert (<[c:=r']> (fa_receivers f) !! c = Some r') as Hr' by (apply list_lookup_insert_eq; by eapply lookup_lt_Some).
    rewrite Hr'. cbn [mbind option_bind sc_stopOnce].
    assert (shared_Shutdown c None (rg_comps st) = Some (None, comps)) as Es' by (unfold shared_Shutdown; by rewrite Hc, Hh').
    destruct (rg_stop_ok _ _ _ _ _ Hok' Es') as (st' & -> & _). eexists. split; [reflexivity|]. cbn [fa_receivers].
    by apply list_insert_id.
Qed.

(** What follows creating a receiver: it is started once, stopped once, and then
    the configuration is free. *)
Definition lives_once (f : factory) (key : K) (c : nat) (r : R) (start stop : R → option (option GoErr * R)) : Prop :=
  ∀ err r1, start r = Some (err, r1) →
    ∃ f1, comp_Start c start f = Some (err, f1) ∧ fa_receivers f1 = <[c := r1]> (fa_receivers f) ∧
      (∀ run, ∃ f1', comp_Start c run f1 = Some (None, f1') ∧ fa_receivers f1' = fa_receivers f1) ∧
      ∀ err2 r2, stop r1 = Some (err2, r2) →
        ∃ f2, comp_Shutdown c stop f1 = Some (err2, f2) ∧ fa_receivers f2 = <[c := r2]> (fa_receivers f1) ∧
          comp_of f2 key = None ∧
          ∀ run, ∃ f2', comp_Shutdown c run f2 = Some (None, f2') ∧ fa_receivers f2' = fa_receivers f2.

Lemma idle_lives_once f key c r start stop : idle f key c r → lives_once f key c r start stop.
Proof.
  intros Hi err r1 Hs. destruct (comp_Start_idle _ _ _ _ _ _ _ Hi Hs) as (f1 & E1 & Hok1 & Hr1 & Hc1 & Hh1 & Hagain).
  exists f1. split_and!; [done..|]. intros err2 r2 Hstop.
  assert (fa_receivers f1 !! c = Some r1) as Hl1.
  { rewrite Hr1. apply list_lookup_insert_eq. eapply lookup_lt_Some, id_receiver, Hi. }
  destruct (comp_Shutdown_once _ _ _ _ _ _ _ Hok1 Hc1 Hl1 Hh1 Hstop) as (f2 & E2 & _ & Hr2 & Hc2 & Hagain2).
  by exists f2.
Qed.
End factory.
Arguments factory St R : clear implicits.

(** ** otlpreceiver/factory.go *)

Section otlp.
Context `{GrpcErrors} {E : Type} `{!FillProc E} {K : Type} `{Countable K}.
Notation F := (factory (Map (K := K)) (otlpReceiver (E := E))).

(** [errors.Join] of one error or more. *)
Variable errors_Join : list GoErr → GoErr.

Definition otlp_run_Start (env : ServerEnv (E := E)) (r : otlpReceiver (E := E))
    : option (option GoErr * otlpReceiver (E := E)) :=
  '(errs, r) ← otlp_Start env r; Some (match errs with [] => None | _ => Some (errors_Join errs) end, r).

Definition otlp_run_Shutdown (env : ServerEnv (E := E)) (r : otlpReceiver (E := E))
    : option (option GoErr * otlpReceiver (E := E)) :=
  Some (otlp_Shutdown env r).

(** [createTraces], [createMetrics] and [createLog] differ in the consumer they
    register; [create] is the error of [newOtlpReceiver], [settings] the address of
    the copy of the settings. *)
Definition otlp_create (s : Signal) (oCfg : K * OtlpConfig) (create : option GoErr) (settings : nat) (f : F)
    : option ((nat + GoErr) * F) :=
  '(o, m) ← LoadOrStore oCfg.1 create settings (fa_registry f);
  match o with
  | inr err => Some (inr err, {| fa_registry := m; fa_receivers := fa_receivers f |})
  | inl c =>
      Some (inl c, update_receiver c (register s)
        {| fa_registry := m;
           fa_receivers := if ss_comps (m_components (fa_registry f)) !! oCfg.1 is Some _ then fa_receivers f
                           else fa_receivers f ++ [newOtlpReceiver oCfg.2] |})
  end.

Definition createTraces := otlp_create SignalTraces.
Definition createMetrics := otlp_create SignalMetrics.
Definition createLog := otlp_create SignalLogs.

(** The pipelines of the configuration, one after the other. *)
Fixpoint otlp_create_all (oCfg : K * OtlpConfig) (l : list (Signal * nat)) (f : F) : option (list nat * F) :=
  match l with
  | [] => Some ([], f)
  | (s, settings) :: l' =>
      '(o, f) ← otlp_create s oCfg None settings f;
      match o with
      | inr _ => None
      | inl c => '(cs, f) ← otlp_create_all oCfg l' f; Some (c :: cs, f)
      end
  end.

Lemma otlp_create_get s oCfg settings f :
  otlp_create s oCfg None settings f =
    '(c, f) ← get_receiver oCfg.1 settings (newOtlpReceiver oCfg.2) f; Some (inl c, update_receiver c (register s) f).
Proof.
  unfold otlp_create, get_receiver. cbn. unfold LoadOrStore.
  destruct (ss_comps (m_components (fa_registry f)) !! oCfg.1) as [c|].
  - destruct (m_telemetry (fa_registry f) !! c) as [[tel seen]|]; [|done]. cbn [mbind option_bind].
    by destruct (decide (settings ∈ (seen : gset nat))).
  - by destruct (GetOrAdd oCfg.1 (m_components (fa_registry f))).
Qed.

(** All pipelines but the first find the receiver. *)
Lemma otlp_create_all_old oCfg l f c r :
  idle f oCfg.1 c r → Forall (λ a, own_settings oCfg.1 a (fa_registry f)) l.*2 →
  ∃ f', otlp_create_all oCfg l f = Some (replicate (length l) c, f') ∧
    idle f' oCfg.1 c (foldl (λ r s, register s r) r l.*1) ∧ length (fa_receivers f') = length (fa_receivers f) ∧
    ∀ i, i ≠ c → fa_receivers f' !! i = fa_receivers f !! i.
Proof.
  revert f r. induction l as [|[s a] l IH]; intros f r Hi; cbn [fmap list_fmap fst snd]; [by exists f|].
  intros [Ha Hl]%list.Forall_cons. cbn [otlp_create_all]. rewrite otlp_create_get.
  destruct (get_receiver_old oCfg.1 a (newOtlpReceiver oCfg.2) f c r Hi Ha) as (f1 & -> & Hi1 & Hr1 & Hpre).
  cbn [mbind option_bind].
  destruct (IH (update_receiver c (register s) f1) (register s r)) as (f' & -> & Hi' & Hlen & Hother).
  - by apply update_receiver_idle.
  - eapply list.Forall_impl; [exact Hl|]. intros a' Ha'. by apply Hpre.
  - exists f'. cbn [mbind option_bind]. split_and!; [done..| |].
    + rewrite Hlen. cbn [fa_receivers update_receiver]. by rewrite length_alter, Hr1.
    + intros i Hne. rewrite Hother by done. cbn [fa_receivers update_receiver]. by rewrite list_lookup_alter_ne, Hr1.
Qed.

Lemma otlp_create_all_new oCfg s a l f :
  fa_ok f → comp_of f oCfg.1 = None → Forall (λ a, own_settings oCfg.1 a (fa_registry f)) (a :: l.*2) →
  let c := length (fa_receivers f) in
  ∃ f', otlp_create_all oCfg ((s, a) :: l) f = Some (replicate (S (length l)) c, f') ∧
    idle f' oCfg.1 c (foldl (λ r s, register s r) (newOtlpReceiver oCfg.2) (s :: l.*1)) ∧
    length (fa_receivers f') = S c ∧ ∀ i, (i < c)%nat → fa_receivers f' !! i = fa_receivers f !! i.
Proof.
  intros Hok Hn [Ha Hl]%list.Forall_cons c. cbn [otlp_create_all]. rewrite otlp_create_get.
  destruct (get_receiver_new oCfg.1 a (newOtlpReceiver oCfg.2) f Hok Ha Hn) as (f1 & -> & Hi1 & Hr1 & Hpre).
  cbn [mbind option_bind].
  destruct (otlp_create_all_old oCfg l (update_receiver c (register s) f1) c (register s (newOtlpReceiver oCfg.2)))
    as (f' & Ef & Hi' & Hlen & Hother).
  - by apply update_receiver_idle.
  - eapply list.Forall_impl; [exact Hl|]. intros a' Ha'. by apply Hpre.
  - exists f'. unfold c in *. rewrite Ef. cbn [mbind option_bind]. split_and!; [done..| |].
    + rewrite Hlen. cbn [fa_receivers update_receiver]. rewrite length_alter, Hr1, length_app. simpl. lia.
    + intros i Hlt. rewrite Hother by lia. cbn [fa_receivers update_receiver].
      rewrite list_lookup_alter_ne by lia. by rewrite Hr1, lookup_app_l.
Qed.

Lemma register_signals l (r : otlpReceiver (E := E)) s :
  s ∈ signals (foldl (λ r s, register s r) r l) ↔ s ∈ signals r ∨ s ∈ l.
Proof.
  revert r. induction l as [|x l IH]; intros r; cbn [foldl]; [rewrite elem_of_nil; tauto|]. rewrite IH, elem_of_cons.
  assert (s ∈ signals (register x r) ↔ s ∈ signals r ∨ s = x) as ->; [|tauto].
  unfold signals. destruct x; cbn [register ot_nextTraces ot_nextMetrics ot_nextLogs];
    destruct (ot_nextTraces r), (ot_nextMetrics r), (ot_nextLogs r), s; set_solver.
Qed.

(** C36: The pipelines of one configuration, whatever their signals and their order,
    get the same component, and no other component changes; its receiver has the consumers of just these
    signals.  Whichever pipeline starts it first starts it, and the others do
    nothing; so with stopping it, after which the configuration is free to be used
    again. *)
Theorem pipelines_share_receiver oCfg s a l f env :
  fa_ok f → comp_of f oCfg.1 = None → Forall (λ a, own_settings oCfg.1 a (fa_registry f)) (a :: l.*2) →
  let c := length (fa_receivers f) in
  ∃ f' r, otlp_create_all oCfg ((s, a) :: l) f = Some (replicate (S (length l)) c, f') ∧
    fa_receivers f' = fa_receivers f ++ [r] ∧ ot_cfg r = oCfg.2 ∧ fresh r ∧ (∀ x, x ∈ signals r ↔ x = s ∨ x ∈ l.*1) ∧
    lives_once f' oCfg.1 c r (otlp_run_Start env) (otlp_run_Shutdown env).
Proof.
  intros Hok Hn Ha c. destruct (otlp_create_all_new oCfg s a l f Hok Hn Ha) as (f' & Ef & Hi & Hlen & Hold).
  set (r := foldl _ _ _) in Hi. exists f', r. split_and!; [done| | | | |by apply idle_lives_once].
  - pose proof (id_receiver _ _ _ _ Hi) as Hr. subst c. apply list_eq. intros i.
    destruct (decide (i < length (fa_receivers f))%nat) as [Hlt|Hge]; [by rewrite lookup_app_l, Hold|].
    rewrite lookup_app_r by lia. destruct (decide (i = length (fa_receivers f))) as [->|Hne].
    + by rewrite Hr, Nat.sub_diag.
    + rewrite lookup_ge_None_2 by lia. symmetry. apply lookup_ge_None_2. simpl. lia.
  - assert (∀ l (r0 : otlpReceiver (E := E)), ot_cfg (foldl (λ r s, register s r) r0 l) = ot_cfg r0) as Hc; [|by apply Hc].
    intros l0. induction l0 as [|x l0 IH]; intros r0; [done|]. cbn [foldl]. by rewrite IH.
  - assert (∀ l (r0 : otlpReceiver (E := E)), fresh r0 → fresh (foldl (λ r s, register s r) r0 l)) as Hc; [|by apply Hc].
    intros l0. induction l0 as [|x l0 IH]; intros r0 Hr0; [done|]. cbn [foldl]. by apply IH.
  - intros x. unfold r. rewrite register_signals, elem_of_cons. unfold signals. simpl. rewrite elem_of_nil. tauto.
Qed.
End otlp.

(** ** skywalkingreceiver/factory.go *)

Section skywalking.
Context `{PD : PData} `{SP : SqlParser} `{UL : UuidLib} `{SWP : SwProto} `{GrpcErrors} {E : Type} `{!FillProc E}.
Context {K : Type} `{Countable K}.
Notation F := (factory (SharedComponents (K := K)) (swReceiver (E := E))).

(** Both signals differ in the consumer they register.  The receiver stays in the
    registry when registering fails; [obsreport] is the error of that.  [None] is
    the error of the configuration. *)
Definition sw_create (reg : option GoErr → swReceiver (E := E) → option GoErr * swReceiver (E := E))
    (cfg : K * SwConfig) (obsreport : option GoErr) (f : F) : option (option (nat + GoErr) * F) :=
  match createConfiguration cfg.2 with
  | None => Some (None, f)
  | Some c =>
      '(r, f) ← get_receiver cfg.1 tt (newSkywalkingReceiver c) f;
      sr ← fa_receivers f !! r;
      let '(err, sr) := reg obsreport sr in
      Some (Some (match err with Some err => inr err | None => inl r end), update_receiver r (λ _, sr) f)
  end.

Definition createTracesReceiver := sw_create sw_registerTraceConsumer.
Definition createMetricsReceiver := sw_create sw_registerMetricsConsumer.

(** The error of [Start] as the caller sees it. *)
Variable Errorf : SwStartErr → GoErr.

Definition sw_run_Start (env : SwEnv (E := E)) (sr : swReceiver (E := E)) : option (option GoErr * swReceiver (E := E)) :=
  match sw_Start env sr with Some (err, sr) => Some (Errorf <$> err, sr) | None => None end.

(** The receiver of both signals. *)
Definition sw_both (c : configuration) : swReceiver (E := E) :=
  set_receivers (Some (at_ext None {| uc_ioTraceMap := ∅; uc_routeUrlMap := ∅ |})) true (newSkywalkingReceiver c).

Lemma sw_create_new reg cfg c obsreport f :
  fa_ok f → comp_of f cfg.1 = None → createConfiguration cfg.2 = Some c →
  let '(err, sr) := reg obsreport (newSkywalkingReceiver c) in
  ∃ f', sw_create reg cfg obsreport f =
      Some (Some (match err with Some err => inr err | None => inl (length (fa_receivers f)) end), f') ∧
    idle f' cfg.1 (length (fa_receivers f)) sr ∧ fa_receivers f' = fa_receivers f ++ [sr].
Proof.
  intros Hok Hn Hc. destruct (reg obsreport (newSkywalkingReceiver c)) as [err sr] eqn:Er. unfold sw_create. rewrite Hc.
  destruct (get_receiver_new cfg.1 tt (newSkywalkingReceiver c) f Hok I Hn) as (f1 & -> & Hi & Hr & _).
  cbn [mbind option_bind]. rewrite (id_receiver _ _ _ _ Hi). cbn [mbind option_bind]. rewrite Er.
  eexists. split; [reflexivity|]. split; [by apply (update_receiver_idle (λ _, sr)) in Hi|].
  cbn [fa_receivers update_receiver]. rewrite Hr. rewrite <- (Nat.add_0_r (length (fa_receivers f))). by rewrite alter_app_r.
Qed.

Lemma sw_create_old reg cfg c p sr f :
  idle f cfg.1 p sr → createConfiguration cfg.2 = Some c → (reg None sr).1 = None →
  ∃ f', sw_create reg cfg None f = Some (Some (inl p), f') ∧ idle f' cfg.1 p (reg None sr).2 ∧
    fa_receivers f' = alter (λ _, (reg None sr).2) p (fa_receivers f).
Proof.
  intros Hi Hc He. destruct (reg None sr) as [err sr'] eqn:Er. cbn [fst snd] in *. subst err. unfold sw_create. rewrite Hc.
  destruct (get_receiver_old cfg.1 tt (newSkywalkingReceiver c) f p sr Hi I) as (f1 & -> & Hi1 & Hr & _).
  cbn [mbind option_bind]. rewrite (id_receiver _ _ _ _ Hi1). cbn [mbind option_bind]. rewrite Er.
  eexists. split; [reflexivity|]. split; [by apply (update_receiver_idle (λ _, sr')) in Hi1|].
  cbn [fa_receivers update_receiver]. by rewrite Hr.
Qed.

(** The two signals of a configuration, in either order. *)
Theorem sw_pipelines_share_receiver cfg c f env reg1 reg2 :
  fa_ok f → comp_of f cfg.1 = None → createConfiguration cfg.2 = Some c →
  (reg1, reg2) = (sw_registerTraceConsumer, sw_registerMetricsConsumer) ∨
  (reg1, reg2) = (sw_registerMetricsConsumer, sw_registerTraceConsumer) →
  let p := length (fa_receivers f) in
  ∃ f1 f2, sw_create reg1 cfg None f = Some (Some (inl p), f1) ∧ sw_create reg2 cfg None f1 = Some (Some (inl p), f2) ∧
    fa_receivers f2 = fa_receivers f ++ [sw_both c] ∧
    lives_once f2 cfg.1 p (sw_both c) (sw_run_Start env) (sw_Shutdown env).
Proof.
  intros Hok Hn Hc Hreg p.
  destruct Hreg as [[= -> ->] | [= -> ->]];
    [pose proof (sw_create_new sw_registerTraceConsumer cfg c None f Hok Hn Hc) as (f1 & E1 & Hi1 & Hr1);
     destruct (sw_create_old sw_registerMetricsConsumer cfg c _ _ _ Hi1 Hc eq_refl) as (f2 & E2 & Hi2 & Hr2)
    |pose proof (sw_create_new sw_registerMetricsConsumer cfg c None f Hok Hn Hc) as (f1 & E1 & Hi1 & Hr1);
     destruct (sw_create_old sw_registerTraceConsumer cfg c _ _ _ Hi1 Hc eq_refl) as (f2 & E2 & Hi2 & Hr2)];
    exists f1, f2; (split_and!; [done|done| |by eapply idle_lives_once]);
    rewrite Hr2, Hr1, <- (Nat.add_0_r (length (fa_receivers f))); by rewrite alter_app_r.
Qed.
End skywalking.

(** ** Three pipelines of a configuration, and a taken port *)

Import RefErrors.

Definition ex_oCfg : string * OtlpConfig := ("cfg", (otlp_createDefaultConfig true).1).
Definition ex_factory : factory (Map (K := string)) (otlpReceiver (E := SocketProcExtension)) :=
  {| fa_registry := NewMap; fa_receivers := [] |}.

Lemma ex_factory_ok : fa_ok ex_factory.
Proof. split; [apply map_reach_inv, map_new|reflexivity]. Qed.

Lemma pipelines_share_receiver_witness :
  ∃ f' r, otlp_create_all ex_oCfg [(SignalLogs, 1%nat); (SignalTraces, 2%nat)] ex_factory = Some ([0%nat; 0%nat], f') ∧
    fa_receivers f' = [r] ∧ SignalTraces ∈ signals r ∧ SignalMetrics ∉ signals r.
Proof.
  destruct (pipelines_share_receiver (λ _, ex_in_use) ex_oCfg SignalLogs 1 [(SignalTraces, 2%nat)] ex_factory ex_server_env)
    as (f' & r & Ef & Hr & _ & _ & Hs & _).
  - exact ex_factory_ok.
  - reflexivity.
  - repeat constructor; by intros c telemetry seen ?.
  - exists f', r. split; [exact Ef|]. split; [exact Hr|]. split; [apply Hs; right; by left|].
    rewrite Hs. cbn. rewrite list_elem_of_singleton. by intros [?|?].
Defined.
