(* ===== verification/Tickers.v ===== *)
(** * Tickers: the goroutines that drive the periodic tasks

    Models [pkg/common/timeutils/ticker_helper.go] with its copy in the back sampling
    processor, [Start] and [Shutdown] of that processor, of the trace block processor
    and of the RED connector.  A step is what a goroutine does between two points
    where it may wait; a run is any interleaving.  The channel of a [time.Ticker]
    has room for one tick, and stopping it does not take that tick away (go 1.21).
    [None] is a step that is not possible, or a panic. *)

From S2P Require Import Prelude GoStrings TraceBlock BackSampling RedConnector.

(** A [time.Ticker]: whether a tick is in its channel, and whether it was stopped. *)
Record timer := { tk_pending : bool; tk_stopped : bool }.

(** [time.NewTicker] panics when the interval is not positive. *)
Definition NewTicker (d : Z) : option timer := if d <=? 0 then None else Some {| tk_pending := false; tk_stopped := false |}.

Definition fire (t : timer) : option timer :=
  if tk_stopped t then None else Some {| tk_pending := true; tk_stopped := false |}.

Definition tick_taken (t : timer) : option timer :=
  if tk_pending t then Some {| tk_pending := false; tk_stopped := tk_stopped t |} else None.

Definition timer_Stop (t : timer) : timer := {| tk_pending := tk_pending t; tk_stopped := true |}.

(** ** ticker_helper.go *)

(** A goroutine of [Start]: before its [select], which reads the two fields anew,
    waiting on what it read, in [OnTick], and after it returned. *)
Inductive gor := G_select | G_blocked (ticker stopCh : nat) | G_tick | G_returned.

(** The fields are positions in the lists of all tickers and channels; [pt_ticks]
    counts the calls of [OnTickFunc]. *)
Record PolicyTicker := {
  pt_Ticker : option nat;
  pt_StopCh : option nat;
  pt_timers : list timer;
  pt_closed : list bool;
  pt_goroutines : list gor;
  pt_ticks : nat;
}.

Definition new_PolicyTicker : PolicyTicker :=
  {| pt_Ticker := None; pt_StopCh := None; pt_timers := []; pt_closed := []; pt_goroutines := []; pt_ticks := 0 |}.

Definition pt_Start (d : Z) (pt : PolicyTicker) : option PolicyTicker :=
  t ← NewTicker d;
  Some {| pt_Ticker := Some (length (pt_timers pt)); pt_StopCh := Some (length (pt_closed pt));
          pt_timers := pt_timers pt ++ [t]; pt_closed := pt_closed pt ++ [false];
          pt_goroutines := pt_goroutines pt ++ [G_select]; pt_ticks := pt_ticks pt |}.

(** Closing a closed channel panics. *)
Definition pt_Stop (pt : PolicyTicker) : option PolicyTicker :=
  match pt_StopCh pt with
  | None => Some pt
  | Some ch =>
      closed ← pt_closed pt !! ch;
      if (closed : bool) then None
      else
        t ← pt_Ticker pt;
        Some {| pt_Ticker := pt_Ticker pt; pt_StopCh := pt_StopCh pt; pt_timers := alter timer_Stop t (pt_timers pt);
                pt_closed := <[ch := true]> (pt_closed pt); pt_goroutines := pt_goroutines pt; pt_ticks := pt_ticks pt |}
  end.

Definition set_goroutine (g : nat) (s : gor) (timers : list timer) (ticks : nat) (pt : PolicyTicker) : PolicyTicker :=
  {| pt_Ticker := pt_Ticker pt; pt_StopCh := pt_StopCh pt; pt_timers := timers; pt_closed := pt_closed pt;
     pt_goroutines := <[g := s]> (pt_goroutines pt); pt_ticks := ticks |}.

Inductive tev := T_fire (t : nat) | T_select (g : nat) | T_tick (g : nat) | T_done (g : nat) | T_stop (g : nat).

(** The runtime fires a ticker, or a goroutine reads the fields, takes a tick, comes
    back from [OnTick] or sees the closed channel. *)
Definition pt_step (e : tev) (pt : PolicyTicker) : option PolicyTicker :=
  match e with
  | T_fire t =>
      timer ← pt_timers pt !! t;
      timer ← fire timer;
      Some {| pt_Ticker := pt_Ticker pt; pt_StopCh := pt_StopCh pt; pt_timers := <[t := timer]> (pt_timers pt);
              pt_closed := pt_closed pt; pt_goroutines := pt_goroutines pt; pt_ticks := pt_ticks pt |}
  | T_select g =>
      match pt_goroutines pt !! g, pt_Ticker pt, pt_StopCh pt with
      | Some G_select, Some t, Some ch => Some (set_goroutine g (G_blocked t ch) (pt_timers pt) (pt_ticks pt) pt)
      | _, _, _ => None
      end
  | T_tick g =>
      match pt_goroutines pt !! g with
      | Some (G_blocked t _) =>
          timer ← pt_timers pt !! t;
          timer ← tick_taken timer;
          Some (set_goroutine g G_tick (<[t := timer]> (pt_timers pt)) (S (pt_ticks pt)) pt)
      | _ => None
      end
  | T_done g =>
      match pt_goroutines pt !! g with
      | Some G_tick => Some (set_goroutine g G_select (pt_timers pt) (pt_ticks pt) pt)
      | _ => None
      end
  | T_stop g =>
      match pt_goroutines pt !! g with
      | Some (G_blocked _ ch) =>
          closed ← pt_closed pt !! ch;
          if (closed : bool) then Some (set_goroutine g G_returned (pt_timers pt) (pt_ticks pt) pt) else None
      | _ => None
      end
  end.

Fixpoint pt_run (l : list tev) (pt : PolicyTicker) : option PolicyTicker :=
  match l with
  | [] => Some pt
  | e :: l' => pt ← pt_step e pt; pt_run l' pt
  end.

(** *** A ticker that was started once *)

(** The one goroutine of a ticker, with its timer, whether its channel is closed, and
    how many ticks there were. *)
Definition one_ticker (t : timer) (closed : bool) (g : gor) (n : nat) : PolicyTicker :=
  {| pt_Ticker := Some 0%nat; pt_StopCh := Some 0%nat; pt_timers := [t]; pt_closed := [closed]; pt_goroutines := [g];
     pt_ticks := n |}.

Definition good_gor (g : gor) : Prop := match g with G_blocked t ch => t = 0%nat ∧ ch = 0%nat | _ => True end.

(** Its steps, one by one. *)
Inductive one_step : tev → timer * bool * gor * nat → timer * bool * gor * nat → Prop :=
  | one_fire p c g n : one_step (T_fire 0) ({| tk_pending := p; tk_stopped := false |}, c, g, n)
                                ({| tk_pending := true; tk_stopped := false |}, c, g, n)
  | one_select t c n : one_step (T_select 0) (t, c, G_select, n) (t, c, G_blocked 0 0, n)
  | one_tick s c n : one_step (T_tick 0) ({| tk_pending := true; tk_stopped := s |}, c, G_blocked 0 0, n)
                              ({| tk_pending := false; tk_stopped := s |}, c, G_tick, S n)
  | one_done t c n : one_step (T_done 0) (t, c, G_tick, n) (t, c, G_select, n)
  | one_stop t n : one_step (T_stop 0) (t, true, G_blocked 0 0, n) (t, true, G_returned, n).

Definition of_one (s : timer * bool * gor * nat) : PolicyTicker :=
  let '(t, c, g, n) := s in one_ticker t c g n.

Lemma singleton_lookup {A} (x y : A) (i : nat) : [x] !! i = Some y → i = 0%nat ∧ y = x.
Proof. intros H. by apply list_lookup_singleton_Some in H as [-> <-]. Qed.

Lemma pt_step_one e s pt :
  good_gor s.1.2 → pt_step e (of_one s) = Some pt → ∃ s', one_step e s s' ∧ pt = of_one s' ∧ good_gor s'.1.2.
Proof.
  destruct s as [[[t c] g] n]. cbn [fst snd]. intros Hg. destruct e as [i|i|i|i|i]; cbn [pt_step of_one one_ticker pt_timers pt_goroutines pt_Ticker pt_StopCh pt_closed pt_ticks].
  - destruct ([t] !! i) as [t'|] eqn:E; [|done]. apply singleton_lookup in E as [-> ->]. cbn [mbind option_bind].
    unfold fire. destruct t as [p []]; cbn; [done|]. intros [= <-]. by eexists (_, _, _, _); split; [constructor|].
  - destruct ([g] !! i) as [g'|] eqn:E; [|done]. apply singleton_lookup in E as [-> ->].
    destruct g; try done. intros [= <-]. by eexists (_, _, _, _); split; [constructor|].
  - destruct ([g] !! i) as [g'|] eqn:E; [|done]. apply singleton_lookup in E as [-> ->].
    destruct g as [|t0 ch0| |]; try done. destruct Hg as [-> ->]. cbn. unfold tick_taken.
    destruct t as [[] s]; cbn; [|done]. intros [= <-]. by eexists (_, _, _, _); split; [constructor|].
  - destruct ([g] !! i) as [g'|] eqn:E; [|done]. apply singleton_lookup in E as [-> ->].
    destruct g; try done. intros [= <-]. by eexists (_, _, _, _); split; [constructor|].
  - destruct ([g] !! i) as [g'|] eqn:E; [|done]. apply singleton_lookup in E as [-> ->].
    destruct g as [|t0 ch0| |]; try done. destruct Hg as [-> ->]. cbn. destruct c; [|done]. intros [= <-].
    by eexists (_, _, _, _); split; [constructor|].
Qed.

Lemma pt_run_one l s pt :
  good_gor s.1.2 → pt_run l (of_one s) = Some pt → ∃ s', pt = of_one s' ∧ good_gor s'.1.2 ∧
    (tk_stopped s.1.1.1 = false → s.1.1.2 = false → tk_stopped s'.1.1.1 = false ∧ s'.1.1.2 = false).
Proof.
  revert s. induction l as [|e l IH]; intros s Hg; cbn [pt_run]; [intros [= <-]; by exists s|].
  destruct (pt_step e (of_one s)) as [pt1|] eqn:E; [|done]. cbn [mbind option_bind].
  destruct (pt_step_one _ _ _ Hg E) as (s1 & Hs & -> & Hg1). intros Hr.
  destruct (IH _ Hg1 Hr) as (s' & -> & Hg' & Hf). exists s'. split_and!; [done..|].
  intros Ht Hc. apply Hf; destruct Hs; by cbn in *.
Qed.

(** What is left to do once the ticker and the channel are stopped. *)
Definition ticks_left (s : timer * bool * gor * nat) : nat := if tk_pending s.1.1.1 then 1 else 0.
Definition steps_left (s : timer * bool * gor * nat) : nat :=
  3 * ticks_left s + match s.1.2 with G_tick => 3 | G_select => 2 | G_blocked _ _ => 1 | G_returned => 0 end.

Lemma stopped_step e s s' :
  one_step e s s' → tk_stopped s.1.1.1 = true → s.1.1.2 = true →
  tk_stopped s'.1.1.1 = true ∧ s'.1.1.2 = true ∧ (S (steps_left s') = steps_left s) ∧
  (s'.2 + ticks_left s' = s.2 + ticks_left s)%nat.
Proof. destruct 1; unfold steps_left, ticks_left; cbn; intros; try done; repeat split; try done; try destruct (tk_pending t); lia. Qed.

Lemma stopped_run l s pt :
  good_gor s.1.2 → tk_stopped s.1.1.1 = true → s.1.1.2 = true → pt_run l (of_one s) = Some pt →
  ∃ s', pt = of_one s' ∧ good_gor s'.1.2 ∧ s'.1.1.2 = true ∧ (length l + steps_left s' = steps_left s)%nat ∧
    (s'.2 + ticks_left s' = s.2 + ticks_left s)%nat.
Proof.
  revert s. induction l as [|e l IH]; intros s Hg Ht Hc; cbn [pt_run]; [intros [= <-]; by exists s|].
  destruct (pt_step e (of_one s)) as [pt1|] eqn:E; [|done]. cbn [mbind option_bind].
  destruct (pt_step_one _ _ _ Hg E) as (s1 & Hs & -> & Hg1). destruct (stopped_step _ _ _ Hs Ht Hc) as (Ht1 & Hc1 & Hm & Hn).
  intros Hr. destruct (IH _ Hg1 Ht1 Hc1 Hr) as (s' & -> & Hg' & Hc' & Hl & Hn'). exists s'. split_and!; [done..| |]; cbn [length]; lia.
Qed.

Lemma one_progress s :
  good_gor s.1.2 → s.1.1.2 = true → s.1.2 = G_returned ∨ ∃ e, is_Some (pt_step e (of_one s)).
Proof.
  destruct s as [[[t c] g] n]. cbn. intros Hg ->. destruct g as [|t0 ch| |]; [right|right|right|by left].
  - by exists (T_select 0); eexists.
  - destruct Hg as [-> ->]. by exists (T_stop 0); eexists.
  - by exists (T_done 0); eexists.
Qed.

(** C38: A ticker that was started once can be stopped once, at any time, and a second
    [Stop] panics.  After the [Stop] its goroutine ends: no run of it has more than six
    steps, and while it has not returned it has a step; but [Stop] does not wait: the
    task may still be running, and may start once more. *)
Theorem ticker_stops d pt1 l pt2 :
  pt_Start d new_PolicyTicker = Some pt1 → pt_run l pt1 = Some pt2 →
  ∃ pt3, pt_Stop pt2 = Some pt3 ∧ pt_Stop pt3 = None ∧
    ∀ l' pt4, pt_run l' pt3 = Some pt4 →
      (length l' ≤ 6)%nat ∧ (pt_ticks pt4 ≤ S (pt_ticks pt2))%nat ∧
      (pt_goroutines pt4 = [G_returned] ∨ ∃ e, is_Some (pt_step e pt4)).
Proof.
  unfold pt_Start, NewTicker. destruct (d <=? 0); [done|]. cbn [mbind option_bind]. intros [= <-] Hr.
  destruct (pt_run_one l ({| tk_pending := false; tk_stopped := false |}, false, G_select, 0%nat) pt2 I Hr)
    as ([[[t c] g] n] & -> & Hg & Hf).
  destruct (Hf eq_refl eq_refl) as [Ht Hc]. cbn in Hg, Ht, Hc. subst c.
  exists (of_one (timer_Stop t, true, g, n)). split_and!; [done..|]. intros l' pt4 Hr'.
  destruct (stopped_run l' (timer_Stop t, true, g, n) pt4 Hg eq_refl eq_refl Hr') as (s' & -> & Hg' & Hc' & Hl & Hn).
  split_and!.
  - unfold steps_left, ticks_left in Hl. cbn in Hl. destruct (tk_pending t), g; lia.
  - destruct s' as [[[t' c'] g'] n']. unfold ticks_left in Hn. cbn in *. destruct (tk_pending t), (tk_pending t'); lia.
  - destruct (one_progress s' Hg' Hc') as [Hret|?]; [left|by right]. destruct s' as [[[t' c'] g'] n']. cbn in *. by subst.
Qed.

(** A tick that waits when the ticker is stopped, while the task runs. *)
Definition ex_ticks : list tev := [T_select 0; T_fire 0; T_tick 0; T_fire 0].
Definition ex_ticker : PolicyTicker := default new_PolicyTicker (pt_run ex_ticks (default new_PolicyTicker (pt_Start 1 new_PolicyTicker))).

Lemma ticker_stops_witness :
  ∃ pt3 pt4, pt_Stop ex_ticker = Some pt3 ∧
    pt_run [T_done 0; T_select 0; T_tick 0; T_done 0; T_select 0; T_stop 0] pt3 = Some pt4 ∧
    pt_ticks ex_ticker = 1%nat ∧ pt_ticks pt4 = 2%nat ∧ (pt_ticks pt4 ≤ S (pt_ticks ex_ticker))%nat.
Proof.
  destruct (ticker_stops 1 (default new_PolicyTicker (pt_Start 1 new_PolicyTicker)) ex_ticks ex_ticker eq_refl eq_refl)
    as (pt3 & Es & _ & H).
  exists pt3. injection Es as <-. eexists. split; [reflexivity|]. split; [reflexivity|].
  split; [reflexivity|]. split; [reflexivity|].
  exact (proj1 (proj2 (H [T_done 0%nat; T_select 0%nat; T_tick 0%nat; T_done 0%nat; T_select 0%nat; T_stop 0%nat] _ eq_refl))).
Defined.

(** ** backsamplingprocessor/processor.go: [Start], [Shutdown] *)

Inductive bspTicker :=
  | BT_slowThreshold | BT_sample | BT_sendTrace | BT_cleanCache | BT_notifyProfile | BT_notify
  | BT_cleanOtelTrace | BT_querySampleValue.

#[global] Instance bspTicker_eq_dec : EqDecision bspTicker.
Proof. solve_decision. Defined.

Definition bspTicker_number (k : bspTicker) : nat :=
  match k with
  | BT_slowThreshold => 0 | BT_sample => 1 | BT_sendTrace => 2 | BT_cleanCache => 3 | BT_notifyProfile => 4
  | BT_notify => 5 | BT_cleanOtelTrace => 6 | BT_querySampleValue => 7
  end.

Definition bspTicker_of (n : nat) : bspTicker :=
  match n with
  | 0 => BT_slowThreshold | 1 => BT_sample | 2 => BT_sendTrace | 3 => BT_cleanCache | 4 => BT_notifyProfile
  | 5 => BT_notify | 6 => BT_cleanOtelTrace | _ => BT_querySampleValue
  end%nat.

#[global] Instance bspTicker_countable : Countable bspTicker.
Proof. apply (inj_countable' bspTicker_number bspTicker_of). by intros []. Defined.

(** The tickers the constructor makes; the others are nil. *)
Definition bsp_created (cfg : BspConfig) : list bspTicker :=
  (if ac_Enable (bc_Adaptive cfg) then [BT_cleanOtelTrace; BT_querySampleValue] else []) ++
  [BT_slowThreshold; BT_sample; BT_sendTrace; BT_cleanCache] ++
  (if bc_EbpfPort cfg >? 0 then [BT_notifyProfile] else []) ++
  (if bc_NotifyEnabled cfg then [BT_notify] else []).

Notation bspTickers := (gmap bspTicker PolicyTicker).

Definition bsp_newTickers (cfg : BspConfig) : bspTickers :=
  list_to_map ((λ k, (k, new_PolicyTicker)) <$> bsp_created cfg).

(** [time.Duration(n) * time.Second], which wraps. *)
Definition Second : Z := 1000000000.
Definition seconds (n : Z) : Z := i64 (n * Second).

(** What [Start] starts, with the intervals, and what [Shutdown] stops. *)
Definition bsp_intervals (cfg : BspConfig) : list (bspTicker * Z) :=
  [(BT_slowThreshold, seconds (cc_IntervalQuerySlow (bc_Controller cfg)));
   (BT_sample, seconds (cc_IntervalQuerySample (bc_Controller cfg)));
   (BT_sendTrace, seconds (cc_IntervalSendTrace (bc_Controller cfg)));
   (BT_cleanCache, Second)] ++
  (if bc_EbpfPort cfg >? 0 then [(BT_notifyProfile, Second)] else []) ++
  (if bc_NotifyEnabled cfg then [(BT_notify, Second)] else []) ++
  (if ac_Enable (bc_Adaptive cfg)
   then [(BT_cleanOtelTrace, Second); (BT_querySampleValue, ac_MemoryCheckInterval (bc_Adaptive cfg))] else []).

Definition bsp_stops (cfg : BspConfig) : list bspTicker := bsp_created cfg.

(** One ticker after the other; a nil ticker panics. *)
Fixpoint each_ticker {A} (f : A → PolicyTicker → option PolicyTicker) (l : list (bspTicker * A)) (tks : bspTickers)
    : option bspTickers :=
  match l with
  | [] => Some tks
  | (k, a) :: l' => pt ← tks !! k; pt ← f a pt; each_ticker f l' (<[k := pt]> tks)
  end.

Definition bsp_Start (cfg : BspConfig) (tks : bspTickers) : option bspTickers := each_ticker pt_Start (bsp_intervals cfg) tks.
Definition bsp_Shutdown (cfg : BspConfig) (tks : bspTickers) : option bspTickers :=
  each_ticker (λ _ : unit, pt_Stop) ((λ k, (k, tt)) <$> bsp_stops cfg) tks.

(** Each ticker is called once, in the state it was in. *)
Lemma each_ticker_spec {A} (f : A → PolicyTicker → option PolicyTicker) l tks :
  NoDup l.*1 → Forall (λ x, is_Some (tks !! x.1)) l →
  (each_ticker f l tks = None ↔ ∃ k a pt, (k, a) ∈ l ∧ tks !! k = Some pt ∧ f a pt = None) ∧
  ∀ tks', each_ticker f l tks = Some tks' →
    (∀ k a, (k, a) ∈ l → tks' !! k = tks !! k ≫= f a) ∧ (∀ k, k ∉ l.*1 → tks' !! k = tks !! k).
Proof.
  revert tks. induction l as [|[k a] l IH]; intros tks; cbn [fmap list_fmap fst].
  - intros _ _. split; [split; [done|]; intros (k & a & pt & H & _); by apply elem_of_nil in H|].
    intros tks' [= <-]. split; [intros k a H; by apply elem_of_nil in H|done].
  - intros [Hk Hnd]%list.NoDup_cons [[pt Ep] Hl]%list.Forall_cons. cbn [fst] in Ep. cbn [each_ticker]. rewrite Ep. cbn [mbind option_bind].
    assert (∀ k' a', (k', a') ∈ l → k' ≠ k) as Hne.
    { intros k' a' H ->. apply Hk, list_elem_of_fmap. by exists (k, a'). }
    destruct (f a pt) as [pt'|] eqn:Ef; cbn [mbind option_bind].
    2: { split; [|done]. split; [|done]. intros _. exists k, a, pt. split; [by left|done]. }
    destruct (IH (<[k := pt']> tks) Hnd) as [Hn Hs].
    { apply list.Forall_forall. intros [k' a'] H. cbn [fst]. rewrite lookup_insert_ne by (symmetry; by eapply Hne).
      by apply (proj1 (list.Forall_forall _ _) Hl (k', a')). }
    split.
    + rewrite Hn. split; intros (k' & a' & p & H & Hp & Hf).
      * exists k', a', p. rewrite lookup_insert_ne in Hp by (symmetry; by eapply Hne). split; [by right|done].
      * apply elem_of_cons in H as [[= -> ->]|H]; [congruence|]. exists k', a', p.
        by rewrite lookup_insert_ne by (symmetry; by eapply Hne).
    + intros tks' E. destruct (Hs tks' E) as [H1 H2]. split.
      * intros k' a' [[= -> ->]|H]%elem_of_cons; [rewrite H2, lookup_insert_eq, Ep by done; done|].
        rewrite (H1 k' a' H). by rewrite lookup_insert_ne by (symmetry; by eapply Hne).
      * intros k' [Hk' Hk'']%not_elem_of_cons. rewrite H2 by done. by rewrite lookup_insert_ne.
Qed.

Lemma bsp_intervals_created cfg k : k ∈ (bsp_intervals cfg).*1 ↔ k ∈ bsp_created cfg.
Proof.
  unfold bsp_intervals, bsp_created. destruct (bc_EbpfPort cfg >? 0), (bc_NotifyEnabled cfg), (ac_Enable (bc_Adaptive cfg));
    cbn; rewrite !elem_of_cons; tauto.
Qed.

Lemma bsp_created_NoDup cfg : NoDup (bsp_created cfg) ∧ NoDup (bsp_intervals cfg).*1.
Proof.
  unfold bsp_intervals, bsp_created. destruct (bc_EbpfPort cfg >? 0), (bc_NotifyEnabled cfg), (ac_Enable (bc_Adaptive cfg));
    cbn; split; repeat (constructor; [set_solver|]); constructor.
Qed.

Lemma bsp_newTickers_lookup cfg k : bsp_newTickers cfg !! k = if decide (k ∈ bsp_created cfg) then Some new_PolicyTicker else None.
Proof.
  unfold bsp_newTickers. case_decide as Hk.
  - apply elem_of_list_to_map.
    + rewrite <- list_fmap_compose. cbn. rewrite list_fmap_id. apply bsp_created_NoDup.
    + apply list_elem_of_fmap. by exists k.
  - apply not_elem_of_list_to_map. rewrite <- list_fmap_compose. cbn. by rewrite list_fmap_id.
Qed.

Lemma elem_of_with_unit (k : bspTicker) (u : unit) (l : list bspTicker) : (k, u) ∈ (λ k, (k, tt)) <$> l ↔ k ∈ l.
Proof. destruct u. rewrite list_elem_of_fmap. naive_solver. Qed.

Lemma fst_with_unit (l : list bspTicker) : ((λ k, (k, tt)) <$> l).*1 = l.
Proof. rewrite <- list_fmap_compose. cbn. by rewrite list_fmap_id. Qed.

Lemma bsp_Shutdown_spec cfg tks :
  (∀ k, k ∈ bsp_created cfg → is_Some (tks !! k)) →
  (bsp_Shutdown cfg tks = None ↔ ∃ k pt, k ∈ bsp_created cfg ∧ tks !! k = Some pt ∧ pt_Stop pt = None) ∧
  ∀ tks', bsp_Shutdown cfg tks = Some tks' →
    (∀ k, k ∈ bsp_created cfg → tks' !! k = tks !! k ≫= pt_Stop) ∧ (∀ k, k ∉ bsp_created cfg → tks' !! k = tks !! k).
Proof.
  intros Ht. unfold bsp_Shutdown, bsp_stops.
  destruct (each_ticker_spec (λ _ : unit, pt_Stop) ((λ k, (k, tt)) <$> bsp_created cfg) tks) as [Hn Hs].
  - rewrite fst_with_unit. apply bsp_created_NoDup.
  - apply list.Forall_forall. intros [k u] H%elem_of_with_unit. by apply Ht.
  - rewrite fst_with_unit in Hs. split.
    + rewrite Hn. setoid_rewrite elem_of_with_unit. split; [naive_solver|]. intros (k & pt & H). by exists k, tt, pt.
    + intros tks' E. destruct (Hs tks' E) as [H1 H2]. split; [|done]. intros k Hk. apply (H1 k tt). by apply elem_of_with_unit.
Qed.

Lemma bsp_Start_each cfg :
  (bsp_Start cfg (bsp_newTickers cfg) = None ↔ ∃ k d, (k, d) ∈ bsp_intervals cfg ∧ d <= 0) ∧
  ∀ tks, bsp_Start cfg (bsp_newTickers cfg) = Some tks →
    (∀ k d, (k, d) ∈ bsp_intervals cfg → tks !! k = pt_Start d new_PolicyTicker) ∧
    (∀ k, k ∉ bsp_created cfg → tks !! k = None).
Proof.
  pose proof (bsp_newTickers_lookup cfg) as Hnew.
  assert (∀ k d, (k, d) ∈ bsp_intervals cfg → bsp_newTickers cfg !! k = Some new_PolicyTicker) as Hin.
  { intros k d H. rewrite Hnew, decide_True; [done|]. apply bsp_intervals_created, list_elem_of_fmap. by exists (k, d). }
  destruct (each_ticker_spec pt_Start (bsp_intervals cfg) (bsp_newTickers cfg)) as [Hnone Hsome].
  { apply bsp_created_NoDup. }
  { apply list.Forall_forall. intros [k d] H. cbn [fst]. rewrite (Hin _ _ H). by eexists. }
  split.
  - unfold bsp_Start. rewrite Hnone. split.
    + intros (k & d & pt & H & Hpt & Hs). exists k, d. split; [done|]. rewrite (Hin _ _ H) in Hpt. injection Hpt as <-.
      unfold pt_Start, NewTicker in Hs. destruct (Z.leb_spec d 0); [lia|done].
    + intros (k & d & H & Hd). exists k, d, new_PolicyTicker. rewrite (Hin _ _ H). split_and!; [done..|].
      unfold pt_Start, NewTicker. by rewrite (proj2 (Z.leb_le d 0)).
  - intros tks E. destruct (Hsome tks E) as [H1 H2]. split.
    + intros k d H. by rewrite (H1 _ _ H), (Hin _ _ H).
    + intros k Hk. rewrite H2 by by rewrite bsp_intervals_created. by rewrite Hnew, decide_False.
Qed.

(** A ticker that was started can be stopped, once. *)
Lemma pt_Start_Stop d pt :
  pt_Start d new_PolicyTicker = Some pt → ∃ pt', pt_Stop pt = Some pt' ∧ pt_Stop pt' = None.
Proof. unfold pt_Start, NewTicker. destruct (d <=? 0); [done|]. intros [= <-]. by eexists. Qed.

(** What each ticker is for runs so often: what the controller is asked and sent, as
    the configuration says in seconds, the memory check as it says, all else once per second. *)
Definition interval_of (cfg : BspConfig) (k : bspTicker) : Z :=
  match k with
  | BT_slowThreshold => seconds (cc_IntervalQuerySlow (bc_Controller cfg))
  | BT_sample => seconds (cc_IntervalQuerySample (bc_Controller cfg))
  | BT_sendTrace => seconds (cc_IntervalSendTrace (bc_Controller cfg))
  | BT_querySampleValue => ac_MemoryCheckInterval (bc_Adaptive cfg)
  | _ => 1000000000
  end.

Lemma elem_of_intervals cfg k d : (k, d) ∈ bsp_intervals cfg ↔ k ∈ bsp_created cfg ∧ d = interval_of cfg k.
Proof.
  rewrite <- bsp_intervals_created, list_elem_of_fmap. unfold bsp_intervals. split.
  - intros Hin. split; [by exists (k, d)|]. revert Hin.
    destruct (bc_EbpfPort cfg >? 0), (bc_NotifyEnabled cfg), (ac_Enable (bc_Adaptive cfg)); cbn [app];
      rewrite ?elem_of_cons, elem_of_nil; intros Hin; destruct_or! Hin; naive_solver.
  - intros [([k' d'] & -> & Hin) ->]. cbn [fst]. assert (interval_of cfg k' = d') as ->; [|done]. revert Hin.
    destruct (bc_EbpfPort cfg >? 0), (bc_NotifyEnabled cfg), (ac_Enable (bc_Adaptive cfg)); cbn [app];
      rewrite ?elem_of_cons, elem_of_nil; intros Hin; destruct_or! Hin; naive_solver.
Qed.

(** What keeps [Start] from starting its tickers. *)
Definition bad_interval (cfg : BspConfig) : Prop :=
  interval_of cfg BT_slowThreshold <= 0 ∨ interval_of cfg BT_sample <= 0 ∨ interval_of cfg BT_sendTrace <= 0 ∨
  (ac_Enable (bc_Adaptive cfg) = true ∧ interval_of cfg BT_querySampleValue <= 0).

Lemma bad_interval_spec cfg : (∃ k d, (k, d) ∈ bsp_intervals cfg ∧ d <= 0) ↔ bad_interval cfg.
Proof.
  setoid_rewrite elem_of_intervals. unfold bad_interval, bsp_created. split.
  - intros (k & d & [Hk ->] & Hd). destruct k; cbn [interval_of] in *; try lia; try tauto.
    right; right; right. split; [|done]. revert Hk.
    destruct (bc_EbpfPort cfg >? 0), (bc_NotifyEnabled cfg), (ac_Enable (bc_Adaptive cfg)); cbn [app]; set_solver.
  - intros [Hd|[Hd|[Hd|[Ha Hd]]]]; [exists BT_slowThreshold|exists BT_sample|exists BT_sendTrace|exists BT_querySampleValue];
      eexists; (split; [split; [|reflexivity]|done]); rewrite ?Ha; set_solver.
Qed.

(** C39: [Start] of the back sampling processor panics just when an interval of the
    controller is not positive, or that of the memory check with adaptive sampling:
    none of them has a default.  Otherwise it starts just the tickers that were made,
    each with its interval; a [Shutdown] stops each of them, a second one panics, and
    one without a [Start] does nothing. *)
Theorem bsp_Start_Shutdown cfg :
  (bsp_Start cfg (bsp_newTickers cfg) = None ↔ bad_interval cfg) ∧
  bsp_Shutdown cfg (bsp_newTickers cfg) = Some (bsp_newTickers cfg) ∧
  ∀ tks, bsp_Start cfg (bsp_newTickers cfg) = Some tks →
    (∀ k, is_Some (tks !! k) ↔ k ∈ bsp_created cfg) ∧
    (∀ k, k ∈ bsp_created cfg → tks !! k = pt_Start (interval_of cfg k) new_PolicyTicker) ∧
    ∃ tks', bsp_Shutdown cfg tks = Some tks' ∧ (∀ k, k ∈ bsp_created cfg → tks' !! k = tks !! k ≫= pt_Stop) ∧
      bsp_Shutdown cfg tks' = None.
Proof.
  pose proof (bsp_newTickers_lookup cfg) as Hnew. destruct (bsp_Start_each cfg) as [Hnone Hsome]. split_and!; [by rewrite Hnone, bad_interval_spec| |].
  - destruct (bsp_Shutdown_spec cfg (bsp_newTickers cfg)) as [Hn Hs]; [intros k Hk; rewrite Hnew, decide_True by done; by eexists|].
    destruct (bsp_Shutdown cfg (bsp_newTickers cfg)) as [tks'|].
    + destruct (Hs tks' eq_refl) as [H1 H2]. f_equal. apply map_eq. intros k.
      destruct (decide (k ∈ bsp_created cfg)) as [Hk|Hk]; [|by apply H2]. rewrite H1 by done. by rewrite Hnew, decide_True.
    + destruct (proj1 Hn eq_refl) as (k & pt & Hk & Hpt & Hst). rewrite Hnew, decide_True in Hpt by done. by injection Hpt as <-.
  - intros tks Est. destruct (Hsome tks Est) as [Hd Hother].
    assert (∀ k, k ∈ bsp_created cfg → ∃ pt pt', tks !! k = Some pt ∧ pt_Stop pt = Some pt' ∧ pt_Stop pt' = None) as Hstop.
    { intros k Hk. pose proof Hk as Hin. apply bsp_intervals_created, list_elem_of_fmap in Hin as ([k0 d] & -> & Hin).
      pose proof (Hd _ _ Hin) as Hl. destruct (pt_Start d new_PolicyTicker) as [pt|] eqn:Ep.
      - destruct (pt_Start_Stop d pt Ep) as (pt' & ? & ?). by exists pt, pt'.
      - unfold pt_Start, NewTicker in Ep. destruct (Z.leb_spec d 0); [|done].
        assert (bsp_Start cfg (bsp_newTickers cfg) = None) by (apply Hnone; eauto). congruence. }
    destruct (bsp_Shutdown_spec cfg tks) as [Hn Hs]; [intros k (pt & _ & ? & _)%Hstop; by eexists|].
    split_and!; [|intros k Hk; apply Hd, elem_of_intervals; by split|].
    + intros k. split; [|intros (pt & _ & ? & _)%Hstop; by eexists]. intros [pt Hpt].
      destruct (decide (k ∈ bsp_created cfg)) as [|Hk]; [done|]. by rewrite Hother in Hpt.
    + destruct (bsp_Shutdown cfg tks) as [tks'|] eqn:Esd.
      2: { destruct (proj1 Hn eq_refl) as (k & pt & Hk & Hpt & Hst). destruct (Hstop k Hk) as (? & ? & ? & ? & ?). congruence. }
      exists tks'. destruct (Hs tks' eq_refl) as [H1 _]. split_and!; [done..|].
      destruct (bsp_Shutdown_spec cfg tks') as [Hn' _].
      * intros k Hk. rewrite H1 by done. destruct (Hstop k Hk) as (pt & pt' & -> & Hst & _). cbn. rewrite Hst. by eexists.
      * apply Hn'. destruct (Hstop BT_cleanCache) as (pt & pt' & Hpt & Hst & Hst').
        { unfold bsp_created. rewrite !elem_of_app, !elem_of_cons. tauto. }
        exists BT_cleanCache, pt'. split_and!; [|rewrite H1|done].
        -- unfold bsp_created. rewrite !elem_of_app, !elem_of_cons. tauto.
        -- rewrite Hpt. exact Hst.
        -- unfold bsp_created. rewrite !elem_of_app, !elem_of_cons. tauto.
Qed.

(** The default configuration has an interval of zero. *)
Lemma bsp_Start_Shutdown_witness :
  bsp_Start bsp_createDefaultConfig (bsp_newTickers bsp_createDefaultConfig) = None ∧
  bsp_Shutdown bsp_createDefaultConfig (bsp_newTickers bsp_createDefaultConfig) =
    Some (bsp_newTickers bsp_createDefaultConfig).
Proof.
  destruct (bsp_Start_Shutdown bsp_createDefaultConfig) as (Hp & Hs & _). split; [|exact Hs].
  apply Hp. left. vm_compute. discriminate.
Defined.

(** ** traceblockprocessor/processor.go: [Start], [Shutdown], [runMinuteTask] *)

(** The goroutine at its [select], in the task, and after it returned. *)
Inductive worker := W_select | W_tick | W_returned.

(** A call of [Shutdown] that waits for [doneCh], and one that returned. *)
Inductive caller := C_waiting | C_returned.

(** A channel is whether it is closed; [None] is nil. *)
Record tbLife := {
  tl_startOnce : bool;
  tl_stopOnce : bool;
  tl_stopCh : option bool;
  tl_doneCh : option bool;
  tl_minuteTicker : option timer;
  tl_worker : option worker;
  tl_callers : list caller;
  tl_ticks : nat;
}.

Definition new_tbLife : tbLife :=
  {| tl_startOnce := false; tl_stopOnce := false; tl_stopCh := None; tl_doneCh := None; tl_minuteTicker := None;
     tl_worker := None; tl_callers := []; tl_ticks := 0 |}.

Definition tb_Start (s : tbLife) : option tbLife :=
  if tl_startOnce s then Some s
  else
    t ← NewTicker (60 * Second);
    Some {| tl_startOnce := true; tl_stopOnce := tl_stopOnce s; tl_stopCh := Some false; tl_doneCh := Some false;
            tl_minuteTicker := Some t; tl_worker := Some W_select; tl_callers := tl_callers s; tl_ticks := tl_ticks s |}.

(** Up to the wait for [doneCh]; the channel is closed once, so that it cannot panic. *)
Definition tb_Shutdown (s : tbLife) : tbLife :=
  {| tl_startOnce := tl_startOnce s; tl_stopOnce := true;
     tl_stopCh := if tl_stopOnce s then tl_stopCh s else (λ _, true) <$> tl_stopCh s;
     tl_doneCh := tl_doneCh s; tl_minuteTicker := tl_minuteTicker s; tl_worker := tl_worker s;
     tl_callers := tl_callers s ++ [if tl_doneCh s is Some _ then C_waiting else C_returned]; tl_ticks := tl_ticks s |}.

Definition set_worker (t : option timer) (done : option bool) (w : worker) (n : nat) (s : tbLife) : tbLife :=
  {| tl_startOnce := tl_startOnce s; tl_stopOnce := tl_stopOnce s; tl_stopCh := tl_stopCh s; tl_doneCh := done;
     tl_minuteTicker := t; tl_worker := Some w; tl_callers := tl_callers s; tl_ticks := n |}.

Inductive lev := L_start | L_shutdown | L_fire | L_take | L_back | L_stop | L_return (i : nat).

(** [runMinuteTask]: it takes a tick, comes back from the task, or sees the closed
    channel, and then stops the ticker and closes [doneCh]. *)
Definition runMinuteTask (e : lev) (s : tbLife) : option tbLife :=
  match e, tl_worker s with
  | L_take, Some W_select =>
      t ← tl_minuteTicker s; t ← tick_taken t; Some (set_worker (Some t) (tl_doneCh s) W_tick (S (tl_ticks s)) s)
  | L_back, Some W_tick => Some (set_worker (tl_minuteTicker s) (tl_doneCh s) W_select (tl_ticks s) s)
  | L_stop, Some W_select =>
      closed ← tl_stopCh s;
      if (closed : bool)
      then Some (set_worker (timer_Stop <$> tl_minuteTicker s) ((λ _, true) <$> tl_doneCh s) W_returned (tl_ticks s) s)
      else None
  | _, _ => None
  end.

Definition tb_life_step (e : lev) (s : tbLife) : option tbLife :=
  match e with
  | L_start => tb_Start s
  | L_shutdown => Some (tb_Shutdown s)
  | L_fire =>
      t ← tl_minuteTicker s; t ← fire t;
      Some {| tl_startOnce := tl_startOnce s; tl_stopOnce := tl_stopOnce s; tl_stopCh := tl_stopCh s; tl_doneCh := tl_doneCh s;
              tl_minuteTicker := Some t; tl_worker := tl_worker s; tl_callers := tl_callers s; tl_ticks := tl_ticks s |}
  | L_return i =>
      match tl_callers s !! i, tl_doneCh s with
      | Some C_waiting, Some true =>
          Some {| tl_startOnce := tl_startOnce s; tl_stopOnce := tl_stopOnce s; tl_stopCh := tl_stopCh s;
                  tl_doneCh := tl_doneCh s; tl_minuteTicker := tl_minuteTicker s; tl_worker := tl_worker s;
                  tl_callers := <[i := C_returned]> (tl_callers s); tl_ticks := tl_ticks s |}
      | _, _ => None
      end
  | _ => runMinuteTask e s
  end.

Fixpoint tb_life_run (l : list lev) (s : tbLife) : option tbLife :=
  match l with
  | [] => Some s
  | e :: l' => s ← tb_life_step e s; tb_life_run l' s
  end.

(** What holds once it was started: [doneCh] is closed just when the goroutine has
    returned, the channel just when a [Shutdown] began, and no call has returned before. *)
Record tb_started (s : tbLife) : Prop := {
  ts_start : tl_startOnce s = true;
  ts_stop : tl_stopCh s = Some (tl_stopOnce s);
  ts_worker : ∃ t w, tl_minuteTicker s = Some t ∧ tl_worker s = Some w ∧
    tl_doneCh s = Some (if w is W_returned then true else false) ∧ (w = W_returned → tk_stopped t = true);
  ts_returned : C_returned ∈ tl_callers s → tl_worker s = Some W_returned;
}.

Ltac started_cases H :=
  destruct H as [Hst Hsp (tm & wk & Htm & Hwk & Hdn & Hend) Hret].

Lemma tb_step_started e s s' : tb_started s → tb_life_step e s = Some s' → tb_started s'.
Proof.
  intros Hs E. pose proof Hs as Hs0. started_cases Hs. destruct e; cbn [tb_life_step] in E.
  - unfold tb_Start in E. rewrite Hst in E. by injection E as <-.
  - injection E as <-. split; cbn; [done| |by exists tm, wk|].
    + rewrite Hsp. by destruct (tl_stopOnce s).
    + rewrite Hdn. rewrite elem_of_app, list_elem_of_singleton. intros [?|?]; [by apply Hret|done].
  - rewrite Htm in E. cbn in E. unfold fire in E. destruct (tk_stopped tm) eqn:Et; [done|]. injection E as <-.
    split; cbn; [done..| |done]. eexists _, wk. split_and!; [done..|]. intros ->. by specialize (Hend eq_refl).
  - unfold runMinuteTask in E. rewrite Hwk in E. destruct wk; [|done..]. rewrite Htm in E. cbn in E. unfold tick_taken in E.
    destruct (tk_pending tm); [|done]. injection E as <-. split; cbn; [done..| |by intros ?%Hret; congruence].
    by eexists _, W_tick.
  - unfold runMinuteTask in E. rewrite Hwk in E. destruct wk; [done| |done]. injection E as <-.
    split; cbn; [done..| |by intros ?%Hret; congruence]. by exists tm, W_select.
  - unfold runMinuteTask in E. rewrite Hwk in E. destruct wk; [|done..]. rewrite Hsp in E. cbn in E.
    destruct (tl_stopOnce s) eqn:Eo; [|done]. injection E as <-. split; cbn; [done|by rewrite Eo| |done].
    exists (timer_Stop tm), W_returned. by rewrite Htm, Hdn.
  - destruct (tl_callers s !! i) as [[]|]; try done. rewrite Hdn in E. destruct wk; try done. injection E as <-.
    split; cbn; [done..|by exists tm, W_returned|done].
Qed.

Lemma tb_run_started l s s' : tb_started s → tb_life_run l s = Some s' → tb_started s'.
Proof.
  revert s. induction l as [|e l IH]; intros s Hs; cbn [tb_life_run]; [by intros [= <-]|].
  destruct (tb_life_step e s) as [s1|] eqn:E; [|done]. cbn [mbind option_bind]. apply IH. by eapply tb_step_started.
Qed.

(** Once the goroutine returned, no task runs. *)
Lemma returned_run l s s' :
  tb_started s → tl_worker s = Some W_returned → tb_life_run l s = Some s' → tl_ticks s' = tl_ticks s.
Proof.
  revert s. induction l as [|e l IH]; intros s Hs Hw; cbn [tb_life_run]; [by intros [= <-]|].
  destruct (tb_life_step e s) as [s1|] eqn:E; [|done]. cbn [mbind option_bind]. pose proof (tb_step_started _ _ _ Hs E) as Hs1.
  assert (tl_worker s1 = Some W_returned ∧ tl_ticks s1 = tl_ticks s) as [Hw1 <-]; [|by apply IH].
  started_cases Hs. destruct e; cbn [tb_life_step] in E; unfold runMinuteTask in E; rewrite ?Hw in E; try done.
  - unfold tb_Start in E. rewrite Hst in E. by injection E as <-.
  - by injection E as <-.
  - rewrite Htm in E. cbn in E. destruct (fire tm); [|done]. by injection E as <-.
  - destruct (tl_callers s !! i) as [[]|], (tl_doneCh s) as [[]|]; try done. by injection E as <-.
Qed.

Definition internal (e : lev) : bool := match e with L_take | L_back | L_stop | L_return _ => true | _ => false end.
Definition is_fire (e : lev) : bool := match e with L_fire => true | _ => false end.
Definition count (p : lev → bool) (l : list lev) : nat := length (List.filter p l).

Fixpoint waiting (l : list caller) : nat :=
  match l with [] => 0 | C_waiting :: l' => S (waiting l') | C_returned :: l' => waiting l' end.

Lemma waiting_insert l i : l !! i = Some C_waiting → S (waiting (<[i := C_returned]> l)) = waiting l.
Proof.
  revert i. induction l as [|c l IH]; intros [|i]; try done; cbn; [by intros [= ->]|]. intros Hi%IH. destruct c; cbn; by rewrite <- Hi.
Qed.

(** What is left to do, if the ticker does not fire again. *)
Definition life_left (s : tbLife) : nat :=
  waiting (tl_callers s) +
  match tl_worker s, tl_minuteTicker s with
  | Some W_tick, Some t => 2 + if tk_pending t then 2 else 0
  | Some W_select, Some t => 1 + if tk_pending t then 2 else 0
  | _, _ => 0
  end.

Lemma life_step e s s' :
  tb_started s → tb_life_step e s = Some s' →
  (internal e = true → S (life_left s') ≤ life_left s)%nat ∧ (is_fire e = true → life_left s' ≤ life_left s + 2)%nat ∧
  (internal e || is_fire e = true → tl_stopOnce s' = tl_stopOnce s).
Proof.
  intros Hs E. started_cases Hs. unfold life_left. destruct e; cbn [tb_life_step] in E; try (split_and!; done).
  - rewrite Htm in E. cbn in E. unfold fire in E. destruct (tk_stopped tm); [done|]. injection E as <-. cbn. rewrite Hwk, Htm.
    split_and!; [done| |done]. intros _. destruct wk, (tk_pending tm); lia.
  - unfold runMinuteTask in E. rewrite Hwk in E. destruct wk; [|done..]. rewrite Htm in E. cbn in E. unfold tick_taken in E.
    destruct (tk_pending tm) eqn:Ep; [|done]. injection E as <-. cbn. rewrite Hwk, Htm, Ep. split_and!; [lia|done..].
  - unfold runMinuteTask in E. rewrite Hwk in E. destruct wk; [done| |done]. injection E as <-. cbn. rewrite Hwk, Htm.
    split_and!; [lia|done..].
  - unfold runMinuteTask in E. rewrite Hwk in E. destruct wk; [|done..]. rewrite Hsp in E. cbn in E.
    destruct (tl_stopOnce s) eqn:Eo; [|done]. injection E as <-. cbn. rewrite Hwk, Htm, Eo. cbn. split_and!; [lia|done..].
  - destruct (tl_callers s !! i) as [[]|] eqn:Ei; try done. destruct (tl_doneCh s) as [[]|]; try done. injection E as <-. cbn.
    apply waiting_insert in Ei. split_and!; [lia|done..].
Qed.

Lemma waiting_zero l : waiting l = 0%nat → Forall (λ c, c = C_returned) l.
Proof. induction l as [|[] l IH]; cbn; [constructor|done|]. intros H. constructor; [done|by apply IH]. Qed.

Lemma waiting_pos l : waiting l ≠ 0%nat → ∃ i, l !! i = Some C_waiting.
Proof. induction l as [|[] l IH]; cbn; [done|by exists 0%nat|]. intros [i Hi]%IH. by exists (S i). Qed.

Lemma life_progress s :
  tb_started s → tl_stopOnce s = true →
  tl_worker s = Some W_returned ∧ Forall (λ c, c = C_returned) (tl_callers s) ∨
  ∃ e, internal e = true ∧ is_Some (tb_life_step e s).
Proof.
  intros Hs Ho. started_cases Hs. destruct wk.
  - right. exists L_stop. split; [done|]. cbn. unfold runMinuteTask. rewrite Hwk, Hsp, Ho. by eexists.
  - right. exists L_back. split; [done|]. cbn. unfold runMinuteTask. rewrite Hwk. by eexists.
  - destruct (decide (waiting (tl_callers s) = 0%nat)) as [Hz|Hp]; [left; split; [done|by apply waiting_zero]|right].
    apply waiting_pos in Hp as [i Hi]. exists (L_return i). split; [done|]. cbn. rewrite Hi, Hdn. by eexists.
Qed.

(** [Shutdown] of the trace block processor waits for the goroutine: when a call has
    returned no task runs any more; and once one has begun, all of them return after
    at most a fixed number of steps, and two more for each time the ticker fires
    meanwhile. *)
Theorem tb_Shutdown_waits l s :
  tb_life_run (L_start :: l) new_tbLife = Some s →
  (C_returned ∈ tl_callers s → tl_worker s = Some W_returned ∧
     ∀ l' s', tb_life_run l' s = Some s' → tl_ticks s' = tl_ticks s) ∧
  (tl_stopOnce s = true → ∀ l' s', Forall (λ e, internal e || is_fire e = true) l' → tb_life_run l' s = Some s' →
     (count internal l' ≤ life_left s + 2 * count is_fire l')%nat ∧
     (tl_worker s' = Some W_returned ∧ Forall (λ c, c = C_returned) (tl_callers s') ∨
      ∃ e, internal e = true ∧ is_Some (tb_life_step e s'))).
Proof.
  cbn [tb_life_run tb_life_step]. intros Hr. assert (tb_started s) as Hs.
  { eapply tb_run_started, Hr. split; cbn; [done..| |by intros ?%elem_of_nil]. by eexists _, W_select. }
  split; [intros Hret; split; [by apply (ts_returned s Hs)|]; intros l' s' Hr'; eapply returned_run, Hr'; [done|by apply (ts_returned s Hs)]|].
  clear Hr l. intros Ho l'. revert s Hs Ho. induction l' as [|e l' IH]; intros s Hs Ho s' Hint; cbn [tb_life_run].
  - intros [= <-]. split; [cbn; lia|]. by apply life_progress.
  - apply list.Forall_cons in Hint as [He Hint]. destruct (tb_life_step e s) as [s1|] eqn:Es; [|done]. cbn [mbind option_bind].
    intros Hr'. destruct (life_step _ _ _ Hs Es) as (Hi & Hf & Hso). pose proof (tb_step_started _ _ _ Hs Es) as Hs1.
    destruct (IH s1 Hs1 ltac:(by rewrite (Hso He)) s' Hint Hr') as [Hc Hp]. split; [|done].
    unfold count in *. cbn [List.filter]. destruct e; try discriminate He; cbn in *; try (specialize (Hi eq_refl); lia).
    specialize (Hf eq_refl). lia.
Qed.

(** ** redmetricsconnector/connector.go: [Start], [Shutdown] *)

(** The call of [Shutdown] at its send on [done], and after it. *)
Inductive cn_call := CN_none | CN_sending | CN_returned.

Record cnLife := {
  cn_config : RedConfig;
  cn_started : bool;
  cn_shutdownOnce : bool;
  cn_ticker : timer;
  cn_worker : option worker;
  cn_call_state : cn_call;
  cn_cleanUnMatcheTicker : PolicyTicker;
  cn_exports : nat;
}.

(** The ticker of the exports is made by the factory. *)
Definition metricsTicker (cfg : RedConfig) : option timer := NewTicker (rc_MetricsFlushInterval cfg).

Definition new_cnLife (cfg : RedConfig) : option cnLife :=
  t ← metricsTicker cfg;
  Some {| cn_config := cfg; cn_started := false; cn_shutdownOnce := false; cn_ticker := t; cn_worker := None;
          cn_call_state := CN_none; cn_cleanUnMatcheTicker := new_PolicyTicker; cn_exports := 0 |}.

Definition set_cn (started once : bool) (t : timer) (w : option worker) (c : cn_call) (clean : PolicyTicker) (n : nat)
    (s : cnLife) : cnLife :=
  {| cn_config := cn_config s; cn_started := started; cn_shutdownOnce := once; cn_ticker := t; cn_worker := w;
     cn_call_state := c; cn_cleanUnMatcheTicker := clean; cn_exports := n |}.

Definition cn_enabled (cfg : RedConfig) : bool :=
  rc_ServerEnabled cfg || rc_ExternalEnabled cfg || rc_DbEnabled cfg || rc_MqEnabled cfg.

(** The collector starts it once. *)
Definition cn_Start (s : cnLife) : option cnLife :=
  if negb (cn_enabled (cn_config s)) then Some s
  else
    clean ← (if rc_ClientEntryUrlEnabled (cn_config s) then pt_Start Second (cn_cleanUnMatcheTicker s)
             else Some (cn_cleanUnMatcheTicker s));
    Some (set_cn true (cn_shutdownOnce s) (cn_ticker s) (Some W_select) (cn_call_state s) clean (cn_exports s) s).

(** Up to the send on [done]; the ticker of the urls is stopped outside the [once]. *)
Definition cn_Shutdown (s : cnLife) : option cnLife :=
  clean ← (if rc_ClientEntryUrlEnabled (cn_config s) then pt_Stop (cn_cleanUnMatcheTicker s)
           else Some (cn_cleanUnMatcheTicker s));
  Some (if cn_shutdownOnce s
        then set_cn (cn_started s) true (cn_ticker s) (cn_worker s) (cn_call_state s) clean (cn_exports s) s
        else if cn_started s
        then set_cn true true (timer_Stop (cn_ticker s)) (cn_worker s) CN_sending clean (cn_exports s) s
        else set_cn false true (cn_ticker s) (cn_worker s) CN_returned clean (cn_exports s) s).

Inductive cev := CE_fire | CE_take | CE_back | CE_done.

(** The goroutine takes a tick, comes back from [exportMetrics], or meets the send. *)
Definition cn_step (e : cev) (s : cnLife) : option cnLife :=
  let set t w := set_cn (cn_started s) (cn_shutdownOnce s) t (Some w) (cn_call_state s) (cn_cleanUnMatcheTicker s) in
  match e, cn_worker s with
  | CE_fire, _ =>
      t ← fire (cn_ticker s);
      Some (set_cn (cn_started s) (cn_shutdownOnce s) t (cn_worker s) (cn_call_state s) (cn_cleanUnMatcheTicker s) (cn_exports s) s)
  | CE_take, Some W_select => t ← tick_taken (cn_ticker s); Some (set t W_tick (S (cn_exports s)) s)
  | CE_back, Some W_tick => Some (set (cn_ticker s) W_select (cn_exports s) s)
  | CE_done, Some W_select =>
      match cn_call_state s with
      | CN_sending =>
          Some (set_cn false (cn_shutdownOnce s) (cn_ticker s) (Some W_returned) CN_returned (cn_cleanUnMatcheTicker s) (cn_exports s) s)
      | _ => None
      end
  | _, _ => None
  end.

Fixpoint cn_run (l : list cev) (s : cnLife) : option cnLife :=
  match l with
  | [] => Some s
  | e :: l' => s ← cn_step e s; cn_run l' s
  end.

(** What holds of a connector that was started, before [Shutdown] and after. *)
Definition cn_running (s : cnLife) : Prop :=
  cn_started s = true ∧ cn_shutdownOnce s = false ∧ tk_stopped (cn_ticker s) = false ∧ cn_call_state s = CN_none ∧
  ∃ w, cn_worker s = Some w ∧ w ≠ W_returned.

Definition cn_stopping (s : cnLife) : Prop :=
  tk_stopped (cn_ticker s) = true ∧ cn_shutdownOnce s = true ∧
  ∃ w, cn_worker s = Some w ∧ cn_call_state s = if w is W_returned then CN_returned else CN_sending.

Lemma cn_running_run l s s' :
  cn_running s → cn_run l s = Some s' →
  cn_running s' ∧ cn_config s' = cn_config s ∧ cn_cleanUnMatcheTicker s' = cn_cleanUnMatcheTicker s.
Proof.
  revert s. induction l as [|e l IH]; intros s Hs; cbn [cn_run]; [by intros [= <-]|].
  destruct (cn_step e s) as [s1|] eqn:E; [|done]. cbn [mbind option_bind]. intros Hr.
  assert (cn_running s1 ∧ cn_config s1 = cn_config s ∧ cn_cleanUnMatcheTicker s1 = cn_cleanUnMatcheTicker s) as (Hs1 & <- & <-);
    [|by apply IH].
  destruct Hs as (H1 & H2 & H3 & H4 & w & Hw & Hne). unfold cn_step in E. rewrite Hw in E. destruct e.
  - unfold fire in E. rewrite H3 in E. injection E as <-. split; [|done]. split_and!; try done. by exists w.
  - destruct w; try done. unfold tick_taken in E. destruct (tk_pending (cn_ticker s)); [|done]. injection E as <-.
    split; [|done]. split_and!; try done. by exists W_tick.
  - destruct w; try done. injection E as <-. split; [|done]. split_and!; try done. by exists W_select.
  - rewrite H4 in E. by destruct w.
Qed.

Definition cn_left (s : cnLife) : nat :=
  match cn_worker s with Some W_tick => 2 | Some W_select => 1 | _ => 0 end +
  match cn_worker s with Some W_returned => 0 | _ => if tk_pending (cn_ticker s) then 2 else 0 end.

Lemma cn_stopping_step e s s' :
  cn_stopping s → cn_step e s = Some s' →
  cn_stopping s' ∧ (S (cn_left s') ≤ cn_left s)%nat ∧ (cn_worker s ≠ Some W_returned) ∧
  cn_config s' = cn_config s ∧ cn_cleanUnMatcheTicker s' = cn_cleanUnMatcheTicker s.
Proof.
  intros (H1 & H2 & w & Hw & Hc) E. unfold cn_step in E. rewrite Hw in E. unfold cn_left. rewrite Hw. destruct e.
  - unfold fire in E. by rewrite H1 in E.
  - destruct w; try done. unfold tick_taken in E. destruct (tk_pending (cn_ticker s)) eqn:Ep; [|done]. injection E as <-. cbn.
    split; [split_and!; try done; by exists W_tick|]. split_and!; done || lia.
  - destruct w; try done. injection E as <-. cbn.
    split; [split_and!; try done; by exists W_select|]. split_and!; try done; destruct (tk_pending _); lia.
  - destruct w; try done. rewrite Hc in E. injection E as <-. cbn.
    split; [split_and!; try done; by exists W_returned|]. split_and!; try done; destruct (tk_pending _); lia.
Qed.

Lemma cn_stopping_run l n s s' :
  cn_stopping s → (cn_left s ≤ n)%nat → cn_run l s = Some s' →
  cn_stopping s' ∧ cn_config s' = cn_config s ∧ cn_cleanUnMatcheTicker s' = cn_cleanUnMatcheTicker s ∧ (length l ≤ n)%nat.
Proof.
  revert n s. induction l as [|e l IH]; intros n s Hs Hn; cbn [cn_run]; [intros [= <-]; split_and!; try done; cbn; lia|].
  destruct (cn_step e s) as [s1|] eqn:E; [|done]. cbn [mbind option_bind]. intros Hr.
  destruct (cn_stopping_step _ _ _ Hs E) as (Hs1 & Hl & _ & <- & <-). destruct n as [|n]; [lia|].
  destruct (IH n s1 Hs1 ltac:(lia) Hr) as (? & ? & ? & ?). split_and!; try done. cbn. lia.
Qed.

(** [Shutdown] of the connector waits too: it returns after at most four steps of the
    goroutine, which has then returned, and no export runs any more.  A second
    [Shutdown] panics when the urls of the callers are kept. *)
Theorem cn_Shutdown_waits cfg s0 s1 l s2 :
  new_cnLife cfg = Some s0 → cn_enabled cfg = true → cn_Start s0 = Some s1 → cn_run l s1 = Some s2 →
  ∃ s3, cn_Shutdown s2 = Some s3 ∧
    ∀ l' s4, cn_run l' s3 = Some s4 →
      (length l' ≤ 4)%nat ∧ (cn_Shutdown s4 = None ↔ rc_ClientEntryUrlEnabled cfg = true) ∧
      (cn_call_state s4 = CN_returned ∧ cn_worker s4 = Some W_returned ∧ (∀ e, cn_step e s4 = None) ∨
       ∃ e, is_Some (cn_step e s4)).
Proof.
  unfold new_cnLife, metricsTicker, NewTicker. destruct (rc_MetricsFlushInterval cfg <=? 0); [done|]. cbn [mbind option_bind]. intros [= <-] He.
  unfold cn_Start. cbn [cn_config cn_cleanUnMatcheTicker]. rewrite He. cbn [negb]. intros Es1 Hr.
  assert (cn_running s1 ∧ cn_config s1 = cfg ∧
    ∃ c, cn_cleanUnMatcheTicker s1 = c ∧ ∃ c', (if rc_ClientEntryUrlEnabled cfg then pt_Stop c else Some c) = Some c' ∧
      ((if rc_ClientEntryUrlEnabled cfg then pt_Stop c' else Some c') = None ↔ rc_ClientEntryUrlEnabled cfg = true))
    as (Hrun & Hcfg & c & Hc & c' & Hst & Hst').
  { destruct (rc_ClientEntryUrlEnabled cfg); injection Es1 as <-; (split; [split_and!; try done; by exists W_select|]);
      split; try done; eexists; (split; [done|]); eexists; (split; [done|]); by cbn. }
  destruct (cn_running_run _ _ _ Hrun Hr) as ((H1 & H2 & H3 & H4 & w & Hw & Hne) & Hcfg2 & Hc2).
  unfold cn_Shutdown at 1. rewrite Hcfg2, Hcfg, Hc2, Hc, Hst. cbn [mbind option_bind]. rewrite H2, H1.
  set (s3 := set_cn _ _ _ _ _ _ _ _). exists s3. split; [done|].
  assert (cn_stopping s3 ∧ cn_config s3 = cfg ∧ cn_cleanUnMatcheTicker s3 = c' ∧ (cn_left s3 ≤ 4)%nat) as (Hs3 & Hk3 & Hc3 & Hl3).
  { split_and!; [split_and!; [done..|]; exists w; cbn; by destruct w|by cbn; congruence|done|].
    unfold cn_left. cbn. rewrite Hw. destruct w, (tk_pending (cn_ticker s2)); lia. }
  clearbody s3. clear - Hs3 Hk3 Hc3 Hl3 Hst'. intros l' s4 Hr.
  destruct (cn_stopping_run l' 4 s3 s4 Hs3 Hl3 Hr) as (Hs4 & Hk4 & Hc4 & Hlen). rewrite Hk3 in Hk4. rewrite Hc3 in Hc4.
  split_and!; [done| |].
  - unfold cn_Shutdown. rewrite Hk4, Hc4, <- Hst'. by destruct (if rc_ClientEntryUrlEnabled cfg then _ else _).
  - destruct Hs4 as (Ht & _ & w & Hw & Hcall). destruct w.
    + right. exists CE_done. unfold cn_step. rewrite Hw, Hcall. by eexists.
    + right. exists CE_back. unfold cn_step. rewrite Hw. by eexists.
    + left. split_and!; [done..|]. intros e. unfold cn_step, fire. rewrite Hw, Ht. by destruct e.
Qed.
