(* ===== verification/MetadataProc.v ===== *)
(** * MetadataProc: the labels of Kubernetes

    Models [processor/metadataprocessor/metadata_processor.go].  The pods are
    answered by the querier of another repository, an argument of the definitions;
    of a metric the model keeps the name, the kind and the attributes of its data
    points, which is all the processor touches. *)

From S2P Require Import Prelude GoStrings PData OtlpTraces.

(** ** The querier *)

Record Owner := { ow_Kind : string; ow_Name : string }.
Record Pod := { pod_Name : string; pod_NS : string; pod_NodeName : string; pod_Owners : list Owner }.

(** [pmetric.MetricType] *)
Inductive MetricType :=
  | MetricTypeEmpty | MetricTypeGauge | MetricTypeSum | MetricTypeHistogram | MetricTypeExponentialHistogram
  | MetricTypeSummary.

#[global] Instance pmetric_MetricType_eq_dec : EqDecision MetricType.
Proof. solve_decision. Defined.

Section metadata.
Context `{PD : PData} `{GrpcErrors}.
(** [cache.Querier.GetPodByContainerId] for the empty cluster. *)
Variable GetPodByContainerId : string → option Pod.

Record K8sMetric := { km_Name : string; km_Type : MetricType; km_DataPoints : list AMap }.
Record K8sScope := { ks_Metrics : list K8sMetric }.
Record K8sResource := { kr_Scopes : list K8sScope }.

(** [MetricPrefixs], after [newMetadataProcessor] appended the single prefix. *)
Record metadataProcessor := { mp_MetricPrefixs : list string }.

Definition newMetadataProcessor (MetricPrefix : string) (MetricPrefixs : list string) : metadataProcessor :=
  {| mp_MetricPrefixs := if slen MetricPrefix >? 0 then MetricPrefixs ++ [MetricPrefix] else MetricPrefixs |}.

(** The labels of the owner at an index. *)
Definition owner_suffix (index : Z) : string := if index =? 0 then "" else FormatInt index.
Definition put_owner (index : Z) (owner : Owner) (attrs : AMap) : AMap :=
  Map_PutStr ("workload_name" +:+ owner_suffix index) (ow_Name owner)
    (Map_PutStr ("workload_kind" +:+ owner_suffix index) (ow_Kind owner) attrs).

Fixpoint put_owners (index : Z) (owners : list Owner) (attrs : AMap) : AMap :=
  match owners with
  | [] => attrs
  | owner :: owners' => put_owners (index + 1) owners' (put_owner index owner attrs)
  end.

Definition fillPodInfo (attrs : AMap) : AMap :=
  match Map_Get "container_id" attrs with
  | None => attrs
  | Some containerId =>
      if bool_decide (Value_Str containerId = "") then attrs
      else
        match GetPodByContainerId (Value_Str containerId) with
        | None => attrs
        | Some pod =>
            put_owners 0 (pod_Owners pod)
              (Map_PutStr "node" (pod_NodeName pod)
                 (Map_PutStr "namespace" (pod_NS pod) (Map_PutStr "pod" (pod_Name pod) attrs)))
        end
  end.

(** The five kinds with data points are filled alike; an empty metric has none. *)
Definition FillWithK8sMetadata (metric : K8sMetric) : K8sMetric :=
  match km_Type metric with
  | MetricTypeGauge | MetricTypeSum | MetricTypeHistogram | MetricTypeExponentialHistogram | MetricTypeSummary =>
      {| km_Name := km_Name metric; km_Type := km_Type metric; km_DataPoints := fillPodInfo <$> km_DataPoints metric |}
  | MetricTypeEmpty => metric
  end.

Definition needFill (m : metadataProcessor) (metric : K8sMetric) : bool :=
  existsb (λ metricPrefix, HasPrefix (km_Name metric) metricPrefix) (mp_MetricPrefixs m).

Definition md_ConsumeMetrics (nextConsumer : list K8sResource → option GoErr) (m : metadataProcessor) (md : list K8sResource)
    : list K8sResource * option GoErr :=
  let md := (λ rs, {| kr_Scopes := (λ ils, {| ks_Metrics :=
               (λ metric, if needFill m metric then FillWithK8sMetadata metric else metric) <$> ks_Metrics ils |})
             <$> kr_Scopes rs |}) <$> md in
  (md, nextConsumer md).

(** ** Theorems *)

Context `{!PDataLaws PD}.

(** The labels a pod gives. *)
Fixpoint owner_labels (index : Z) (owners : list Owner) : list (string * string) :=
  match owners with
  | [] => []
  | owner :: owners' =>
      ("workload_kind" +:+ owner_suffix index, ow_Kind owner) ::
      ("workload_name" +:+ owner_suffix index, ow_Name owner) :: owner_labels (index + 1) owners'
  end.

Definition pod_labels (pod : Pod) : list (string * string) :=
  ("pod", pod_Name pod) :: ("namespace", pod_NS pod) :: ("node", pod_NodeName pod) :: owner_labels 0 (pod_Owners pod).

Definition put_labels (labels : list (string * string)) (attrs : AMap) : AMap :=
  foldS (λ kv, Map_PutStr kv.1 kv.2) labels attrs.

Lemma put_owners_labels index owners attrs : put_owners index owners attrs = put_labels (owner_labels index owners) attrs.
Proof. revert index attrs. induction owners as [|owner owners IH]; intros index attrs; [done|]. apply IH. Qed.

(** Attributes that answer alike. *)
Definition same_attrs (a b : AMap) : Prop := ∀ k, Map_Get k a = Map_Get k b.

#[local] Instance same_attrs_equiv : Equivalence same_attrs.
Proof. split; [by intros a k|by intros a b E k|by intros a b c E1 E2 k; rewrite E1]. Qed.

#[local] Instance Map_PutStr_proper k v : Proper (same_attrs ==> same_attrs) (Map_PutStr k v).
Proof. intros a b E k'. unfold Map_PutStr. rewrite !Map_Get_Put_dec. by case_decide. Qed.

Lemma put_labels_other k ls attrs : k ∉ ls.*1 → Map_Get k (put_labels ls attrs) = Map_Get k attrs.
Proof.
  revert attrs. induction ls as [|[k' v] ls IH]; intros attrs; [done|]. rewrite fmap_cons, not_elem_of_cons. intros [Hne Hk].
  unfold put_labels. cbn [foldS]. etrans; [by apply IH|]. apply Map_Get_Put_ne. simpl in *. congruence.
Qed.

Lemma put_labels_own k ls a b : k ∈ ls.*1 → Map_Get k (put_labels ls a) = Map_Get k (put_labels ls b).
Proof.
  revert a b. induction ls as [|[k' v] ls IH]; intros a b; [by intros ?%elem_of_nil|]. rewrite fmap_cons, elem_of_cons.
  unfold put_labels. cbn [foldS]. intros Hk. destruct (decide (k ∈ ls.*1)) as [Hin|Hno]; [by apply IH|].
  destruct Hk as [->|?]; [|done]. etrans; [by apply put_labels_other|]. etrans; [|symmetry; by apply put_labels_other].
  cbn [fst snd]. unfold Map_PutStr. by rewrite !Map_Get_Put.
Qed.

(** Putting labels twice is putting them once. *)
Lemma put_labels_idem ls attrs : same_attrs (put_labels ls (put_labels ls attrs)) (put_labels ls attrs).
Proof.
  intros k. destruct (decide (k ∈ ls.*1)) as [Hin|Hno]; [by apply put_labels_own|]. by rewrite !put_labels_other.
Qed.

Lemma owner_labels_keys index owners : "container_id" ∉ (owner_labels index owners).*1.
Proof.
  revert index. induction owners as [|owner owners IH]; intros index; [by intros ?%elem_of_nil|].
  cbn [owner_labels]. rewrite !fmap_cons. rewrite !not_elem_of_cons. split_and!; [by intros [=]..|apply IH].
Qed.

Lemma pod_labels_keys pod : "container_id" ∉ (pod_labels pod).*1.
Proof.
  unfold pod_labels. rewrite !fmap_cons, !not_elem_of_cons. split_and!; [done..|apply owner_labels_keys].
Qed.

(** The pod of a data point. *)
Definition pod_of (attrs : AMap) : option Pod :=
  containerId ← Map_Get "container_id" attrs;
  if bool_decide (Value_Str containerId = "") then None else GetPodByContainerId (Value_Str containerId).

Lemma fillPodInfo_labels attrs :
  fillPodInfo attrs = match pod_of attrs with Some pod => put_labels (pod_labels pod) attrs | None => attrs end.
Proof.
  unfold fillPodInfo, pod_of. destruct (Map_Get "container_id" attrs) as [v|]; [|done]. cbn [mbind option_bind].
  case_bool_decide; [done|]. destruct (GetPodByContainerId (Value_Str v)) as [pod|]; [|done].
  rewrite put_owners_labels. done.
Qed.

Lemma pod_of_fill attrs : pod_of (fillPodInfo attrs) = pod_of attrs.
Proof.
  rewrite fillPodInfo_labels. destruct (pod_of attrs) as [pod|] eqn:E; [|done]. rewrite <- E. unfold pod_of.
  by rewrite put_labels_other by apply pod_labels_keys.
Qed.

Lemma fillPodInfo_idem attrs : same_attrs (fillPodInfo (fillPodInfo attrs)) (fillPodInfo attrs).
Proof.
  rewrite (fillPodInfo_labels (fillPodInfo attrs)), pod_of_fill. rewrite fillPodInfo_labels.
  destruct (pod_of attrs); [apply put_labels_idem|done].
Qed.

(** A metric is filled when it has one of the prefixes. *)
Definition has_prefix (m : metadataProcessor) (metric : K8sMetric) : Prop :=
  Exists (λ metricPrefix, HasPrefix (km_Name metric) metricPrefix = true) (mp_MetricPrefixs m).

Lemma needFill_spec m metric : needFill m metric = true ↔ has_prefix m metric.
Proof. unfold needFill, has_prefix. rewrite existsb_exists, list.Exists_exists. by setoid_rewrite list_elem_of_In. Qed.

(** Two messages with the same metrics and points, point by point related. *)
Definition related (R : K8sMetric → AMap → AMap → Prop) (md md' : list K8sResource) : Prop :=
  Forall2 (λ rs rs', Forall2 (λ ils ils', Forall2 (λ metric metric',
    km_Name metric' = km_Name metric ∧ km_Type metric' = km_Type metric ∧
    Forall2 (R metric) (km_DataPoints metric) (km_DataPoints metric'))
    (ks_Metrics ils) (ks_Metrics ils')) (kr_Scopes rs) (kr_Scopes rs')) md md'.

Lemma Forall2_fmap_self {A B} (R : A → B → Prop) (f : A → B) l : (∀ x, R x (f x)) → Forall2 R l (f <$> l).
Proof. intros HR. induction l; constructor; auto. Qed.

Lemma ConsumeMetrics_related (R : K8sMetric → AMap → AMap → Prop) nextConsumer m md :
  (∀ metric attrs, needFill m metric = true → km_Type metric ≠ MetricTypeEmpty → R metric attrs (fillPodInfo attrs)) →
  (∀ metric attrs, needFill m metric = false ∨ km_Type metric = MetricTypeEmpty → R metric attrs attrs) →
  related R md (md_ConsumeMetrics nextConsumer m md).1.
Proof.
  intros Hfill Hkeep. unfold related, md_ConsumeMetrics. cbn [fst].
  apply Forall2_fmap_self. intros rs. cbn [kr_Scopes]. apply Forall2_fmap_self. intros ils. cbn [ks_Metrics].
  apply Forall2_fmap_self. intros metric.
  assert (∀ l : list AMap, (∀ attrs, R metric attrs attrs) → Forall2 (R metric) l l) as Hrefl
    by (intros l HR; induction l; by constructor).
  destruct (needFill m metric) eqn:En.
  2: { split_and!; [done..|]. apply Hrefl. intros attrs. apply Hkeep. by left. }
  unfold FillWithK8sMetadata.
  destruct (km_Type metric) eqn:Et; cbn [km_Name km_Type km_DataPoints]; rewrite ?Et; split_and!; try done;
    [apply Hrefl; intros attrs; apply Hkeep; by right|apply Forall2_fmap_self; intros attrs; apply Hfill; [done|congruence]..].
Qed.

(** C40: The processor touches only the labels of the pod, and only on data points of
    metrics that carry one of the prefixes: every label of the pod is there, and the
    others are untouched; a point whose container is not known is left alone; the
    message keeps its shape; and processing it again changes no answer. *)
Theorem ConsumeMetrics_labels nextConsumer m md :
  related (λ metric attrs attrs',
    (∀ k, match pod_of attrs with
          | Some pod =>
              (has_prefix m metric → km_Type metric ≠ MetricTypeEmpty → k ∈ (pod_labels pod).*1 →
               Map_Get k attrs' = Map_Get k (put_labels (pod_labels pod) Map_New)) ∧
              (¬ has_prefix m metric ∨ km_Type metric = MetricTypeEmpty ∨ k ∉ (pod_labels pod).*1 →
               Map_Get k attrs' = Map_Get k attrs)
          | None => Map_Get k attrs' = Map_Get k attrs
          end) ∧
    same_attrs (fillPodInfo attrs') (fillPodInfo attrs))
    md (md_ConsumeMetrics nextConsumer m md).1.
Proof.
  apply ConsumeMetrics_related.
  - intros metric attrs Hp%needFill_spec Ht. split; [|apply fillPodInfo_idem]. intros k. rewrite fillPodInfo_labels.
    destruct (pod_of attrs) as [pod|]; [|done]. split; [intros _ _; by apply put_labels_own|].
    intros [?|[?|?]]; [done..|by apply put_labels_other].
  - intros metric attrs Hno. split; [|done]. intros k. destruct (pod_of attrs) as [pod|]; [|done]. split; [|done].
    intros Hp%needFill_spec Ht. destruct Hno; congruence.
Qed.
End metadata.

(** ** An example *)

Import RefPData RefErrors.

Definition ex_querier (id : string) : option Pod :=
  if bool_decide (id = "c1") then
    Some {| pod_Name := "web-0"; pod_NS := "shop"; pod_NodeName := "n1";
            pod_Owners := [{| ow_Kind := "StatefulSet"; ow_Name := "web" |}] |}
  else None.

Definition ex_point : AMap := <["container_id" := VStr "c1"]> (<["pod" := VStr "old"]> ∅).

Definition ex_md : list K8sResource :=
  [{| kr_Scopes := [{| ks_Metrics := [{| km_Name := "kindling_cpu"; km_Type := MetricTypeGauge;
                                         km_DataPoints := [ex_point] |}] |}] |}].

Lemma ConsumeMetrics_labels_witness :
  ∃ attrs', (md_ConsumeMetrics ex_querier (λ _, None) (newMetadataProcessor "kindling_" []) ex_md).1 =
    [{| kr_Scopes := [{| ks_Metrics := [{| km_Name := "kindling_cpu"; km_Type := MetricTypeGauge;
                                           km_DataPoints := [attrs'] |}] |}] |}] ∧
    Map_Get "pod" attrs' = Some (VStr "web-0") ∧ Map_Get "workload_kind" attrs' = Some (VStr "StatefulSet") ∧
    Map_Get "container_id" attrs' = Some (VStr "c1").
Proof.
  pose proof (ConsumeMetrics_labels ex_querier (λ _, None) (newMetadataProcessor "kindling_" []) ex_md) as Hrel.
  exists (fillPodInfo ex_querier ex_point). split; [reflexivity|].
  apply Forall2_cons_1 in Hrel as [Hrel _]. apply Forall2_cons_1 in Hrel as [Hrel _]. apply Forall2_cons_1 in Hrel as [Hrel _].
  destruct Hrel as (_ & _ & Hrel). apply Forall2_cons_1 in Hrel as [[Hpoint _] _].
  assert (has_prefix (newMetadataProcessor "kindling_" [])
            {| km_Name := "kindling_cpu"; km_Type := MetricTypeGauge; km_DataPoints := [ex_point] |}) as Hp by by left.
  split_and!.
  - exact (proj1 (Hpoint "pod") Hp ltac:(done) ltac:(by left)).
  - exact (proj1 (Hpoint "workload_kind") Hp ltac:(done) ltac:(do 3 right; by left)).
  - apply (proj2 (Hpoint "container_id")). right. right. apply pod_labels_keys.
Defined.
