(* ===== verification/Startup.v ===== *)
(** * Startup: creating the components, and what they report

    Models [Start] and [Shutdown] of the fillproc extension, the creation of the back
    sampling processor with [NewSampleApi] and [NewUdsRegistryServer], the reporter of
    the remote-write receiver and the life of the metadata processor.  What the
    operating system and the libraries answer is an argument. *)

From S2P Require Import Prelude GoStrings PData Float64 Cache TraceCache ProcNet FillProc OtlpTraces RedParsers Notify BackSampling PromRW PrwReceiver MetadataProc Tickers.

(** ** socket_proc.go: the life of the extension *)

(** The extension and what its ticker points to. *)
Record spLife := { sl_extension : SocketProcExtension; sl_checkSocketProcTicker : option PolicyTicker }.

Definition new_spLife (fs : ProcFS) (cfg : FillProcConfig) : spLife :=
  let p := newSocketProcExtension fs cfg in
  {| sl_extension := p; sl_checkSocketProcTicker := if sp_enable p then Some new_PolicyTicker else None |}.

(** A call through the nil interface panics. *)
Definition sp_ticker_call (f : PolicyTicker → option PolicyTicker) (s : spLife) : option spLife :=
  if sp_enable (sl_extension s) then
    pt ← sl_checkSocketProcTicker s;
    pt ← f pt;
    Some {| sl_extension := sl_extension s; sl_checkSocketProcTicker := Some pt |}
  else Some s.

Definition sp_Start (s : spLife) : option spLife := sp_ticker_call (pt_Start (sp_interval (sl_extension s))) s.
Definition sp_Shutdown (s : spLife) : option spLife := sp_ticker_call pt_Stop s.

(** A configured interval below a millisecond is replaced. *)
Lemma sp_interval_bound fs cfg : 1000000 <= sp_interval (newSocketProcExtension fs cfg).
Proof.
  unfold newSocketProcExtension, defaultSocketProcInterval. cbn [sp_interval].
  destruct (Z.ltb_spec (Z.quot (fc_Interval cfg) 1000) 1000); [done|]. Z.to_euclidean_division_equations. lia.
Qed.

(** Whatever interval is configured, the extension can be started and then shut
    down once, and shut down without having been started; its ticker fires at most
    once per millisecond.  When it is not enabled it has no ticker. *)
Theorem fillproc_Start_Shutdown fs cfg :
  let s := new_spLife fs cfg in
  let enabled := sp_enable (sl_extension s) in
  1000000 <= sp_interval (sl_extension s) ∧
  sp_Shutdown s = Some s ∧
  ∃ s1 s2, sp_Start s = Some s1 ∧ sp_Shutdown s1 = Some s2 ∧ sl_extension s2 = sl_extension s ∧
    (if enabled then ∃ pt, pt_Start (sp_interval (sl_extension s)) new_PolicyTicker = Some pt ∧
                           sl_checkSocketProcTicker s1 = Some pt ∧ sp_Shutdown s2 = None
     else s1 = s ∧ s2 = s).
Proof.
  cbv zeta. pose proof (sp_interval_bound fs cfg) as Hi. split; [done|].
  unfold sp_Shutdown, sp_Start, sp_ticker_call, new_spLife. cbn [sl_extension sl_checkSocketProcTicker].
  set (p := newSocketProcExtension fs cfg) in *. clearbody p. destruct (sp_enable p) eqn:Ee.
  2: { split; [done|]. exists {| sl_extension := p; sl_checkSocketProcTicker := None |}, {| sl_extension := p; sl_checkSocketProcTicker := None |}.
       cbn. by rewrite Ee. }
  split; [done|]. destruct (pt_Start (sp_interval p) new_PolicyTicker) as [pt|] eqn:Ep.
  2: { unfold pt_Start, NewTicker in Ep. destruct (Z.leb_spec (sp_interval p) 0); [lia|done]. }
  destruct (pt_Start_Stop _ _ Ep) as (pt' & Es & Ess). cbn [mbind option_bind].
  exists {| sl_extension := p; sl_checkSocketProcTicker := Some pt |}, {| sl_extension := p; sl_checkSocketProcTicker := Some pt' |}.
  cbn [sl_extension sl_checkSocketProcTicker]. rewrite Ee, Ep. cbn [mbind option_bind]. rewrite Es. cbn [mbind option_bind]. rewrite Ess.
  split_and!; try done. by exists pt.
Qed.

(** ** uds_notify.go: NewUdsRegistryServer *)

Section creation.
Context `{GrpcErrors}.

(** What the file system and the network answer about the socket and its directory. *)
Record UdsEnv := {
  ue_StatSock : option bool;         (* whether the file is a directory; [None] is an error *)
  ue_Remove : option GoErr;
  ue_dirIsNotExist : bool;
  ue_MkdirAll : option GoErr;
  ue_ResolveUnixAddr : option GoErr;
  ue_ListenUnix : option GoErr;
}.

Inductive UdsErr :=
  | RemoveFailed (err : GoErr) | SockIsDir | CannotCreateDir (err : GoErr) | NoAddr (err : GoErr) | NoListener (err : GoErr).

(** What is done to the file system. *)
Inductive UdsAction := RemoveSock | MkdirAll | ListenUnix.

Definition registry_paths : list string := ["/register"; "/already-register-healthcheck"].

(** The part before the server is made. *)
Definition prepare_sock (env : UdsEnv) : list UdsAction * option UdsErr :=
  match ue_StatSock env with
  | Some isDir =>
      if negb isDir then ([RemoveSock], RemoveFailed <$> ue_Remove env)
      else ([], Some SockIsDir)
  | None =>
      if ue_dirIsNotExist env then ([MkdirAll], CannotCreateDir <$> ue_MkdirAll env)
      else ([], None)
  end.

Definition NewUdsRegistryServer (env : UdsEnv) : list UdsAction * (UdsRegistryServer + UdsErr) :=
  let '(actions, err) := prepare_sock env in
  match err with
  | Some err => (actions, inr err)
  | None =>
      match ue_ResolveUnixAddr env, ue_ListenUnix env with
      | Some err, _ => (actions, inr (NoAddr err))
      | None, Some err => (actions ++ [ListenUnix], inr (NoListener err))
      | None, None => (actions ++ [ListenUnix], inl {| ur_signals := []; ur_udsClients := [] |})
      end
  end.

(** ** sample_api.go: NewSampleApi and the query of the sample value *)

(** The clients of the connection; the one of the sample rate may be nil. *)
Record SampleClients := { sa_getSampleRateClient : bool }.

(** [conn] is the error of [grpc.NewClient]. *)
Definition NewSampleApi (conn : option GoErr) (adaptiveEnable : bool) : (SampleApi * SampleClients) + GoErr :=
  match conn with
  | Some err => inr err
  | None => inl ({| sa_cachedTraces := [] |}, {| sa_getSampleRateClient := adaptiveEnable |})
  end.

(** [answer] is what the client answers; [None] is the nil result. *)
Definition api_GetSampleValue (answer : Z + GoErr) (clients : SampleClients) : option Z * option GoErr :=
  if negb (sa_getSampleRateClient clients) then (None, None)
  else match answer with inl value => (Some value, None) | inr err => (None, Some err) end.

(** ** processor.go: newTracesProcessor *)

Context `{PD : PData} `{GP : GoPlatform} `{NE : NodeEnv}.

Definition bsp_getNodeName : string :=
  match LookupEnv "MY_NODE_NAME" with
  | Some nodeNameFromEnv => nodeNameFromEnv
  | None => match Hostname with Some hostName => hostName | None => "Unknown" end
  end.

Definition bsp_getNodeIp : string := default "" (LookupEnv "MY_NODE_IP").

Record BspEnv := { be_telemetry : option GoErr; be_NewClient : option GoErr; be_uds : UdsEnv }.

Inductive BspErr := TelemetryErr (err : GoErr) | SampleApiErr (err : GoErr) | NotifyErr (err : UdsErr).

(** The three creations that may fail, in their order, then the rest. *)
Definition bsp_create (env : BspEnv) (now : Z) (cfg : BspConfig)
    : option (list UdsAction * ((backSamplingProcessor * SampleClients) + BspErr)) :=
  match be_telemetry env with
  | Some err => Some ([], inr (TelemetryErr err))
  | None =>
      match NewSampleApi (be_NewClient env) (ac_Enable (bc_Adaptive cfg)) with
      | inr err => Some ([], inr (SampleApiErr err))
      | inl (_, clients) =>
          let '(actions, uds) := if bc_NotifyEnabled cfg then NewUdsRegistryServer (be_uds env)
                                 else ([], inl {| ur_signals := []; ur_udsClients := [] |}) in
          match uds with
          | inr err => Some (actions, inr (NotifyErr err))
          | inl _ =>
              bsp ← newTracesProcessor now bsp_getNodeIp bsp_getNodeName cfg;
              Some (actions, inl (bsp, clients))
          end
      end
  end.

(** [querySampleValueOnTick] with the call it makes. *)
Definition query_on_tick (answer : Z + GoErr) (clients : SampleClients) (b : backSamplingProcessor) : backSamplingProcessor :=
  match bsp_adaptive b with
  | None => b
  | Some _ => let '(result, _) := api_GetSampleValue answer clients in querySampleValueOnTick result b
  end.

Lemma NewUds_actions env actions res :
  NewUdsRegistryServer env = (actions, res) →
  (ue_StatSock env = Some true → actions = []) ∧ (RemoveSock ∈ actions → ue_StatSock env = Some false) ∧
  (∀ server, res = inl server → ListenUnix ∈ actions).
Proof.
  unfold NewUdsRegistryServer, prepare_sock.
  destruct (ue_StatSock env) as [[]|], (ue_dirIsNotExist env), (ue_Remove env), (ue_MkdirAll env), (ue_ResolveUnixAddr env), (ue_ListenUnix env);
    intros [= <- <-]; set_solver.
Qed.

Lemma newTracesProcessor_adaptive now ip name cfg b :
  newTracesProcessor now ip name cfg = Some b → ac_Enable (bc_Adaptive cfg) = false → bsp_adaptive b = None.
Proof.
  unfold newTracesProcessor. destruct (NewReadableCache _ _) as [t|]; [|done]. destruct (NewOtelTraceSampler _ _) as [o|]; [|done].
  intros <-%(inj Some) Ha. cbn [bsp_adaptive]. by rewrite Ha.
Qed.

Lemma query_on_tick_asks now ip name cfg b answer :
  newTracesProcessor now ip name cfg = Some b →
  query_on_tick answer {| sa_getSampleRateClient := ac_Enable (bc_Adaptive cfg) |} b =
    querySampleValueOnTick (if answer is inl v then Some v else None) b.
Proof.
  intros Eb. unfold query_on_tick. destruct (ac_Enable (bc_Adaptive cfg)) eqn:Ea.
  - unfold api_GetSampleValue. cbn [sa_getSampleRateClient negb]. destruct (bsp_adaptive b) eqn:E1; [by destruct answer|].
    unfold querySampleValueOnTick. by rewrite E1.
  - unfold querySampleValueOnTick. by rewrite (newTracesProcessor_adaptive _ _ _ _ _ Eb Ea).
Qed.

(** The socket is touched only when notification is enabled, and a directory in its
    place never; a processor that was created listens when it notifies.  A processor
    that samples adaptively has the client it asks for its value, so that no answer
    is lost to the nil client. *)
Theorem bsp_create_spec env now cfg actions res :
  bsp_create env now cfg = Some (actions, res) →
  (bc_NotifyEnabled cfg = false → actions = []) ∧
  (ue_StatSock (be_uds env) = Some true → actions = []) ∧
  (RemoveSock ∈ actions → ue_StatSock (be_uds env) = Some false) ∧
  ∀ b clients, res = inl (b, clients) →
    newTracesProcessor now bsp_getNodeIp bsp_getNodeName cfg = Some b ∧
    (bc_NotifyEnabled cfg = true → ListenUnix ∈ actions) ∧
    ∀ answer, query_on_tick answer clients b = querySampleValueOnTick (if answer is inl v then Some v else None) b.
Proof.
  assert (RemoveSock ∉ ([] : list UdsAction)) as Hnil by by intros ?%elem_of_nil.
  unfold bsp_create, NewSampleApi. destruct (be_telemetry env) as [e|]; [by intros [= <- <-]|].
  destruct (be_NewClient env) as [e|]; [by intros [= <- <-]|].
  destruct (if bc_NotifyEnabled cfg then _ else _) as [acts uds] eqn:Eu.
  assert ((ue_StatSock (be_uds env) = Some true → acts = []) ∧ (RemoveSock ∈ acts → ue_StatSock (be_uds env) = Some false) ∧
    (bc_NotifyEnabled cfg = false → acts = []) ∧ (∀ server, uds = inl server → bc_NotifyEnabled cfg = true → ListenUnix ∈ acts)) as (H1 & H2 & H3 & H4).
  { destruct (bc_NotifyEnabled cfg); [apply NewUds_actions in Eu as (Ha1 & Ha2 & Ha3); split_and!; [exact Ha1|exact Ha2|done|intros server Hserver _; by eapply Ha3]|]. by injection Eu as <- <-. }
  destruct uds as [server|e]; [|intros [= <- <-]; by split_and!].
  destruct (newTracesProcessor now bsp_getNodeIp bsp_getNodeName cfg) as [b|] eqn:Eb; [|done]. cbn [mbind option_bind].
  intros Heq. injection Heq as <- <-. split_and!; [done..|]. intros b' clients Heq. injection Heq as <- <-.
  split_and!; [done|by eapply H4|]. intros answer. by eapply query_on_tick_asks.
Qed.
End creation.

(** ** metadata_processor.go: the life of the source *)

Section metadata.
Context `{GrpcErrors} `{PD : PData}.

(** The source the processor made, and whether it runs. *)
Record mdLife := { ml_metaSource : option bool }.
Definition new_mdLife : mdLife := {| ml_metaSource := None |}.

(** [run] and [halt] are what [Run] and [Stop] of the source answer. *)
Definition md_Start (run : option GoErr) (s : mdLife) : option GoErr * mdLife :=
  (run, {| ml_metaSource := Some (if run is None then true else false) |}).

Definition md_Shutdown (halt : option GoErr) (s : mdLife) : option GoErr * mdLife :=
  match ml_metaSource s with
  | Some _ => (halt, {| ml_metaSource := Some false |})
  | None => (None, s)
  end.

(** [newMetadataProcessor] appends to the list of the configuration it is given, which
    the processors of several pipelines share. *)
Definition md_create_again (MetricPrefix : string) (m : metadataProcessor) : metadataProcessor :=
  newMetadataProcessor MetricPrefix (mp_MetricPrefixs m).

(** Every creation makes the list longer and changes no decision. *)
Theorem md_created_again MetricPrefix MetricPrefixs metric n :
  let m := newMetadataProcessor MetricPrefix MetricPrefixs in
  let m' := Nat.iter n (md_create_again MetricPrefix) m in
  needFill m' metric = needFill m metric ∧
  len (mp_MetricPrefixs m') = len (mp_MetricPrefixs m) + (if slen MetricPrefix >? 0 then Z.of_nat n else 0).
Proof.
  cbv zeta. induction n as [|n [IH1 IH2]].
  { unfold Nat.iter. cbn [nat_rect]. split; [done|]. by destruct (slen MetricPrefix >? 0); rewrite Z.add_0_r. }
  rewrite Nat.iter_succ. set (m' := Nat.iter n _ _) in *.
  assert (mp_MetricPrefixs (md_create_again MetricPrefix m') =
    if slen MetricPrefix >? 0 then mp_MetricPrefixs m' ++ [MetricPrefix] else mp_MetricPrefixs m') as Em by done.
  unfold needFill at 1. rewrite Em. destruct (slen MetricPrefix >? 0) eqn:Ep.
  - split; [|unfold len in *; rewrite length_app; cbn [length]; lia]. rewrite existsb_app. fold (needFill m' metric). rewrite IH1.
    unfold needFill, newMetadataProcessor. rewrite Ep. cbn [mp_MetricPrefixs]. rewrite existsb_app. cbn [existsb].
    by destruct (existsb _ MetricPrefixs), (HasPrefix _ _).
  - by split.
Qed.
End metadata.

(** ** reporter.go *)

Section reporter.
Context `{GrpcErrors} `{PD : PData} `{GP : GoPlatform}.

(** What the reporter of the remote-write receiver leaves behind. *)
Inductive report :=
  | DebugLog (msg : string) (err : GoErr)
  | SpanStatus (msg : string)
  | SpanAnnotation (reason : string) (msg : string)
  | EndMetricsOp (format : string) (numReceivedMessages : Z) (err : option GoErr).

(** [obsreport] is the error of [NewObsReport]. *)
Definition newOtelReporter (obsreport : option GoErr) : bool + GoErr :=
  match obsreport with Some err => inr err | None => inl true end.

Definition OnError (reason : string) (err : option GoErr) : list report :=
  match err with None => [] | Some err => [SpanAnnotation reason (Err_Error err)] end.

(** The message of the log is the string of a field that holds an integer. *)
Definition OnMetricsProcessed (format : string) (numReceivedMessages : Z) (err : option GoErr) : list report :=
  match err with
  | Some err => [DebugLog "" err; SpanStatus (Err_Error err)]
  | None => []
  end ++ [EndMetricsOp format numReceivedMessages err].

Definition DataPointCount (metrics : list PrwMetric) : Z := sumZ ((λ m, len (pm_Points m)) <$> metrics).

(** [flush] and, on an error, the branch of [manageServerLifecycle]. *)
Definition flush_reports (format : string) (f : list PrwMetric * option GoErr) : list report :=
  OnMetricsProcessed format (DataPointCount f.1) f.2 ++ OnError "flush_error" f.2.

Definition ended (r : report) : option (Z * option GoErr) :=
  match r with EndMetricsOp _ n err => Some (n, err) | _ => None end.

Lemma ended_flush format f : omap ended (flush_reports format f) = [(DataPointCount f.1, f.2)].
Proof. unfold flush_reports, OnMetricsProcessed, OnError. by destruct f as [m [err|]]. Qed.

(** Every call of the consumer ends one operation, with its points and its error, in
    order; and the reports of a session name an error at most once. *)
Theorem session_reports format s :
  session_inv s →
  omap ended (mjoin (flush_reports format <$> ss_flushed s)) = (λ f, (DataPointCount f.1, f.2)) <$> ss_flushed s ∧
  (length (omap (λ r, match r with SpanAnnotation _ _ => Some r | _ => None end) (mjoin (flush_reports format <$> ss_flushed s))) ≤ 1)%nat.
Proof.
  intros Hs. split.
  - induction (ss_flushed s) as [|f l IH]; [done|].
    change (mjoin (flush_reports format <$> f :: l)) with (flush_reports format f ++ mjoin (flush_reports format <$> l)).
    by rewrite omap_app, IH, ended_flush.
  - assert (∀ l, Forall flush_ok l → omap (λ r, match r with SpanAnnotation _ _ => Some r | _ => None end) (mjoin (flush_reports format <$> l)) = []) as Hok.
    { intros l. induction 1 as [|[m e] l He Hl IH]; [done|]. unfold flush_ok in He. cbn in He. subst e.
      change (mjoin (flush_reports format <$> (m, None) :: l)) with (flush_reports format (m, None) ++ mjoin (flush_reports format <$> l)).
      by rewrite omap_app, IH. }
    destruct (si_flushed _ Hs) as [Hf|(_ & l & m & err & -> & Hl)]; [rewrite Hok by done; simpl; lia|].
    rewrite fmap_app, join_app, omap_app, Hok by done. cbn. lia.
Qed.
End reporter.
