(* ===== verification/Wiring.v ===== *)
(** * Wiring: the factories, the start of the process, the telemetry of the processor

    Models [cmd/components.go], [cmd/main.go] with [main_others.go] and
    [main_windows.go], and [internal/metadata/generated_telemetry.go] of the
    back-sampling processor.  [MakeFactoryMap], the factories of other repositories, the
    command and the service of the collector, and the instruments of a meter are
    parameters. *)

From S2P Require Import Prelude GoStrings PData FillProc OtlpTraces.

(** ** cmd/components.go *)

(** The factories by the package they come from: the eight of this repository and the
    others. *)
Inductive Package :=
  | P_fillprocextension | P_otlpreceiver | P_skywalkingreceiver | P_prometheusremotewritereceiver
  | P_backsamplingprocessor | P_traceblockprocessor | P_metadataprocessor | P_redmetricsconnector
  | P_other (name : string).

#[export] Instance Package_eq_dec : EqDecision Package.
Proof. solve_decision. Defined.

(** The [Type()] of a factory; [foreign] is the one of another repository's. *)
Definition factory_Type (foreign : string → string) (p : Package) : string :=
  match p with
  | P_fillprocextension => "fill_proc"
  | P_otlpreceiver => "otlp"
  | P_skywalkingreceiver => "skywalking"
  | P_prometheusremotewritereceiver => "signalfxgatewayprometheusremotewrite"
  | P_backsamplingprocessor => "backsampling"
  | P_traceblockprocessor => "traceblock"
  | P_metadataprocessor => "metadata"
  | P_redmetricsconnector => "redmetrics"
  | P_other name => foreign name
  end.

Definition extensions_list : list Package := [P_other "pprofextension"; P_fillprocextension].
Definition receivers_list : list Package :=
  [P_other "prometheusreceiver"; P_other "k8seventsreceiver"; P_otlpreceiver; P_skywalkingreceiver; P_prometheusremotewritereceiver].
Definition exporters_list : list Package :=
  P_other <$> ["nopexporter"; "debugexporter"; "otlpexporter"; "otlphttpexporter"; "loggingexporter"; "clickhouseexporter";
               "prometheusexporter"; "prometheusremotewriteexporter"].
Definition processors_list : list Package :=
  [P_other "batchprocessor"; P_other "memorylimiterprocessor"; P_backsamplingprocessor; P_traceblockprocessor; P_metadataprocessor;
   P_other "k8sattributesprocessor"; P_other "resourceprocessor"; P_other "attributesprocessor"; P_other "filterprocessor"].
Definition connectors_list : list Package := [P_redmetricsconnector].

Section components.
Context {E : Type} (foreign : string → string).
Abbreviation type_of := (factory_Type foreign).

(** [MakeFactoryMap] of each kind: a map from types to factories, or an error when two
    factories have the same type. *)
Variable MakeFactoryMap : list Package → gmap string Package + E.

Definition MakeFactoryMap_doc : Prop := ∀ l,
  if decide (NoDup (type_of <$> l))
  then ∃ m, MakeFactoryMap l = inl m ∧ ∀ t p, m !! t = Some p ↔ p ∈ l ∧ type_of p = t
  else ∃ err, MakeFactoryMap l = inr err.

Record otel_Factories := {
  of_Extensions : gmap string Package;
  of_Receivers : gmap string Package;
  of_Exporters : gmap string Package;
  of_Processors : gmap string Package;
  of_Connectors : gmap string Package;
}.

Definition cmd_components : otel_Factories + E :=
  match MakeFactoryMap extensions_list with
  | inr err => inr err
  | inl ext =>
      match MakeFactoryMap receivers_list with
      | inr err => inr err
      | inl rec =>
          match MakeFactoryMap exporters_list with
          | inr err => inr err
          | inl exp =>
              match MakeFactoryMap processors_list with
              | inr err => inr err
              | inl proc =>
                  match MakeFactoryMap connectors_list with
                  | inr err => inr err
                  | inl con => inl {| of_Extensions := ext; of_Receivers := rec; of_Exporters := exp;
                                      of_Processors := proc; of_Connectors := con |}
                  end
              end
          end
      end
  end.

Lemma MakeFactoryMap_get l m p : MakeFactoryMap_doc → MakeFactoryMap l = inl m → p ∈ l → m !! type_of p = Some p.
Proof.
  intros Hd Hm Hp. specialize (Hd l). case_decide; destruct Hd as [x Hx]; [|congruence].
  destruct Hx as [Hx Hl]. rewrite Hx in Hm. injection Hm as <-. by apply Hl.
Qed.

Lemma MakeFactoryMap_ok l : MakeFactoryMap_doc → (∃ m, MakeFactoryMap l = inl m) ↔ NoDup (type_of <$> l).
Proof.
  intros Hd. specialize (Hd l). case_decide as Hn; split; [done| |intros [m Hm]|done].
  - destruct Hd as (m & Hm & _). by exists m.
  - destruct Hd as [err Herr]. congruence.
Qed.

(** A map of factories as it is documented. *)
Definition ref_MakeFactoryMap (err : E) (l : list Package) : gmap string Package + E :=
  if decide (NoDup (type_of <$> l)) then inl (list_to_map ((λ p, (type_of p, p)) <$> l)) else inr err.

(** The collector has factories exactly when no two of a kind have the same type, and
    then every package of this repository is found under its own type. *)
Theorem cmd_components_types :
  MakeFactoryMap_doc →
  ((∃ f, cmd_components = inl f) ↔
   Forall (λ l, NoDup (type_of <$> l)) [extensions_list; receivers_list; exporters_list; processors_list; connectors_list]) ∧
  ∀ f, cmd_components = inl f →
    of_Extensions f !! "fill_proc" = Some P_fillprocextension ∧
    of_Receivers f !! "otlp" = Some P_otlpreceiver ∧
    of_Receivers f !! "skywalking" = Some P_skywalkingreceiver ∧
    of_Receivers f !! "signalfxgatewayprometheusremotewrite" = Some P_prometheusremotewritereceiver ∧
    of_Processors f !! "backsampling" = Some P_backsamplingprocessor ∧
    of_Processors f !! "traceblock" = Some P_traceblockprocessor ∧
    of_Processors f !! "metadata" = Some P_metadataprocessor ∧
    of_Connectors f !! "redmetrics" = Some P_redmetricsconnector.
Proof.
  intros Hd. split.
  - rewrite !list.Forall_cons, list.Forall_nil, <- !MakeFactoryMap_ok by done. unfold cmd_components. split.
    + intros [f Hf]. repeat case_match; try done. by split_and!; eexists.
    + intros ([? ->] & [? ->] & [? ->] & [? ->] & [? ->] & _). by eexists.
  - intros f. unfold cmd_components. destruct (MakeFactoryMap extensions_list) as [ext|] eqn:E1; [|done].
    destruct (MakeFactoryMap receivers_list) as [rec|] eqn:E2; [|done]. destruct (MakeFactoryMap exporters_list) as [exp|]; [|done].
    destruct (MakeFactoryMap processors_list) as [proc|] eqn:E4; [|done]. destruct (MakeFactoryMap connectors_list) as [con|] eqn:E5; [|done].
    intros [= <-]. cbn [of_Extensions of_Receivers of_Processors of_Connectors].
    split_and!; match goal with |- ?m !! _ = Some ?p => eapply (MakeFactoryMap_get _ m p Hd) end; try eassumption;
      apply list_elem_of_In; cbn; tauto.
Qed.
End components.

Lemma ref_MakeFactoryMap_doc {E} foreign (err : E) : MakeFactoryMap_doc foreign (ref_MakeFactoryMap foreign err).
Proof.
  intros l. unfold ref_MakeFactoryMap. case_decide as Hn; [|by eexists]. eexists. split; [done|]. intros t p.
  rewrite <- elem_of_list_to_map by (by rewrite <- list_fmap_compose). rewrite list_elem_of_fmap. split.
  - by intros (q & [= -> ->] & Hq).
  - intros [Hp <-]. by exists p.
Qed.

(** ** cmd/main.go, main_others.go, main_windows.go *)

(** How a function ends: it returns, or [log.Fatal] ends the process. *)
Inductive ends (E : Type) := Returned (err : option E) | Fatal (prefix : string) (err : E).
Arguments Returned {E}. Arguments Fatal {E}.

Section main.
Context {E : Type}.

(** [executed] is what [cmd.Execute] answers. *)
Definition runInteractive (executed : option E) : ends E :=
  match executed with
  | Some err => Fatal "collector server run finished with error: " err
  | None => Returned None
  end.

Definition run_others (executed : option E) : ends E := runInteractive executed.

(** [served] is what [svc.Run] answers; [not_a_service] is
    [errors.Is(err, ERROR_FAILED_SERVICE_CONTROLLER_CONNECT)], [wrap] the [Errorf]. *)
Definition run_windows (served : option E) (not_a_service : E → bool) (wrap : string → E → E) (executed : option E) : ends E :=
  match served with
  | Some err => if not_a_service err then runInteractive executed
                else Returned (Some (wrap "failed to start collector server: " err))
  | None => Returned None
  end.

Definition cmd_main (run : ends E) : ends E :=
  match run with
  | Returned (Some err) => Fatal "" err
  | Returned None => Returned None
  | Fatal prefix err => Fatal prefix err
  end.

(** The process ends by itself exactly when the command - on Windows, the service or,
    started by hand, the command - has no error; [main] never returns one, and away from
    Windows its own [log.Fatal] is not reached. *)
Lemma cmd_main_ends (served : option E) not_a_service wrap executed :
  (cmd_main (run_others executed) = Returned None ↔ executed = None) ∧
  cmd_main (run_others executed) = run_others executed ∧
  (cmd_main (run_windows served not_a_service wrap executed) = Returned None ↔
   served = None ∨ ∃ err, served = Some err ∧ not_a_service err = true ∧ executed = None).
Proof.
  unfold run_others, run_windows, runInteractive. split_and!; [by destruct executed|by destruct executed|].
  destruct served as [err|]; [|by split; [left|]]. destruct (not_a_service err) eqn:E1; [destruct executed as [e|]|]; split; try done.
  - by intros [?|(? & _ & _ & ?)].
  - intros _. right. by exists err.
  - intros [?|(? & [= <-] & ? & _)]; congruence.
Qed.
End main.

(** ** internal/metadata/generated_telemetry.go *)

(** [configtelemetry.Level]: none, basic, normal, detailed are -1 to 2. *)
Definition LevelBasic : Z := 0.
Inductive MeterKind := MeterOfSettings | MeterNoop.

Record TelemetryBuilder := { tlb_meter : MeterKind; tlb_level : Z }.

Definition telemetryBuilderOption := TelemetryBuilder → TelemetryBuilder.
Definition WithLevel (lvl : Z) : telemetryBuilderOption := λ b, {| tlb_meter := tlb_meter b; tlb_level := lvl |}.

Section telemetry.
Context {E : Type}.
(** What the meter of the settings answers to an instrument; the one of [noop] never has
    an error. *)
Variable create_instrument : string → option E.

Definition new_instrument (meter : MeterKind) (name : string) : option E :=
  match meter with MeterOfSettings => create_instrument name | MeterNoop => None end.

(** The errors that are joined, in order; the two instruments belong to the meter. *)
Definition NewTelemetryBuilder (options : list telemetryBuilderOption) : TelemetryBuilder * list E :=
  let builder := foldS (λ op b, op b) options {| tlb_meter := MeterNoop; tlb_level := LevelBasic |} in
  let meter := if tlb_level builder >=? LevelBasic then MeterOfSettings else MeterNoop in
  let err1 := new_instrument meter "otelcol_processor_back_sampling_sample_value" in
  let err2 := new_instrument meter "otelcol_processor_back_sampling_span_count" in
  ({| tlb_meter := meter; tlb_level := tlb_level builder |}, option_list err1 ++ option_list err2).

Lemma options_level (levels : list Z) :
  tlb_level (foldS (λ op b, op b) (WithLevel <$> levels) {| tlb_meter := MeterNoop; tlb_level := LevelBasic |}) =
  default LevelBasic (list.last levels).
Proof. induction levels as [|lvl levels _] using rev_ind; [done|]. by rewrite fmap_app, foldS_app, last_snoc. Qed.

(** The last level counts; below the basic one nothing is recorded and nothing fails. *)
Lemma NewTelemetryBuilder_level (levels : list Z) :
  let '(b, errs) := NewTelemetryBuilder (WithLevel <$> levels) in
  tlb_level b = default LevelBasic (list.last levels) ∧
  (tlb_meter b = MeterNoop ↔ tlb_level b < LevelBasic) ∧ (tlb_level b < LevelBasic → errs = []) ∧
  (LevelBasic <= tlb_level b → errs = [] ↔
     create_instrument "otelcol_processor_back_sampling_sample_value" = None ∧
     create_instrument "otelcol_processor_back_sampling_span_count" = None).
Proof.
  unfold NewTelemetryBuilder. cbv zeta. rewrite options_level.
  rewrite Z.geb_leb. destruct (Z.leb_spec LevelBasic (default LevelBasic (list.last levels))); cbn [tlb_level tlb_meter new_instrument]; split_and!; try done; try lia.
  - split; [done|lia].
  - intros _. destruct (create_instrument _), (create_instrument _); split; intros Hn; try done; by destruct Hn.
Qed.
End telemetry.
