(* ===== verification/TestUtil.v ===== *)
(** * TestUtil: the free ports of the tests

    Models [pkg/common/testutil/testutil.go].  [None] is [require]: the test ends.  What
    [net.Listen], [netsh] and the registry of the feature gates answer are arguments;
    that a failed [Close] marks the test as failed is left out. *)

From S2P Require Import Prelude GoStrings Endpoints.

(** ** Strings *)

(** The order of strings: by bytes. *)
Fixpoint bytes_leb (l1 l2 : list ascii) : bool :=
  match l1, l2 with
  | [], _ => true
  | _ :: _, [] => false
  | a :: l1', b :: l2' =>
      (nat_of_ascii a <? nat_of_ascii b)%nat || ((nat_of_ascii a =? nat_of_ascii b)%nat && bytes_leb l1' l2')
  end.
Definition string_leb (s1 s2 : string) : bool := bytes_leb (byte_list s1) (byte_list s2).

(** [strings.Split(s, sep)] for a separator that is not empty: up to the first
    occurrence, and on. *)
Fixpoint cut_bytes (sep l : list ascii) : option (list ascii * list ascii) :=
  if decide (sep `prefix_of` l) then Some ([], drop (length sep) l)
  else match l with
       | [] => None
       | a :: l' => '(before, after) ← cut_bytes sep l'; Some (a :: before, after)
       end.
Fixpoint split_bytes (fuel : nat) (sep l : list ascii) : list (list ascii) :=
  match fuel, cut_bytes sep l with
  | S fuel', Some (before, after) => before :: split_bytes fuel' sep after
  | _, _ => [l]
  end.
(** Every cut takes a byte at least. *)
Definition SplitSep (s sep : string) : list string :=
  of_byte_list <$> split_bytes (String.length s) (byte_list sep) (byte_list s).

(** ** The excluded ranges *)

Record portpair := { pp_first : string; pp_last : string }.

Definition newline : ascii := "010".

(** A line of the table. *)
Definition exclusion_line (line : string) : option (list portpair) :=
  if bool_decide (TrimSpace line = "") then Some []
  else match Fields (TrimSpace line) with
       | [first; last] => Some [{| pp_first := first; pp_last := last |}]
       | _ => None
       end.

Definition createExclusionsList (exclusionsText : string) : option (list portpair) :=
  match SplitSep exclusionsText "--------" with
  | [_; _; part] =>
      match Split part "*" with
      | portsText :: _ :: _ => mjoin <$> mapM exclusion_line (Split portsText newline)
      | _ => None
      end
  | _ => None
  end.

(** What the two commands print; [None] is their error. *)
Definition getExclusionsList (outputTCP outputUDP : option string) : option (list portpair) :=
  tcp ← outputTCP; exclusions ← createExclusionsList tcp;
  udp ← outputUDP; exclusions' ← createExclusionsList udp;
  Some (exclusions ++ exclusions').

Definition port_excluded (exclusions : list portpair) (port : string) : bool :=
  existsb (λ pair, string_leb (pp_first pair) port && string_leb port (pp_last pair)) exclusions.

(** ** The search *)

Definition listen_networks : list string := ["tcp"; "tcp4"; "tcp6"; "unix"; "unixpacket"].
Definition packet_networks : list string := ["udp"; "udp4"; "udp6"; "unixgram"].

Section search.
(** The address of the listener of each attempt, and of the packet listener. *)
Variables Listen ListenPacket : nat → option string.

Definition findAvailableAddress (network : string) (attempt : nat) : option string :=
  if decide (network ∈ listen_networks) then Listen attempt
  else if decide (network ∈ packet_networks) then ListenPacket attempt
  else Some "".

(** The outer [None]: the loop has not ended within so many attempts. *)
Fixpoint find_loop (fuel : nat) (windows : bool) (exclusions : list portpair) (network : string) (attempt : nat)
    : option (option string) :=
  match fuel with
  | O => None
  | S fuel' =>
      match findAvailableAddress network attempt with
      | None => Some None
      | Some endpoint =>
          match SplitHostPort endpoint with
          | None => Some None
          | Some (_, port) =>
              if windows && port_excluded exclusions port then find_loop fuel' windows exclusions network (S attempt)
              else Some (Some endpoint)
          end
      end
  end.

Definition GetAvailableLocalNetworkAddress (fuel : nat) (windows : bool) (outputTCP outputUDP : option string) (network : string)
    : option (option string) :=
  match (if windows then getExclusionsList outputTCP outputUDP else Some []) with
  | None => Some None
  | Some exclusions => find_loop fuel windows exclusions network 0
  end.

Definition GetAvailableLocalAddress (fuel : nat) (windows : bool) (outputTCP outputUDP : option string) : option (option string) :=
  GetAvailableLocalNetworkAddress fuel windows outputTCP outputUDP "tcp".

Definition GetAvailablePort (fuel : nat) (windows : bool) (outputTCP outputUDP : option string) : option (option Z) :=
  endpoint ← GetAvailableLocalAddress fuel windows outputTCP outputUDP;
  Some (e ← endpoint; '(_, port) ← SplitHostPort e; Atoi port).

(** An attempt that ends the loop: what the system gives is an error, or an address
    without a port, or not excluded. *)
Definition settles (windows : bool) (exclusions : list portpair) (network : string) (attempt : nat) : bool :=
  match endpoint ← findAvailableAddress network attempt; SplitHostPort endpoint with
  | Some (_, port) => negb (windows && port_excluded exclusions port)
  | None => true
  end.

(** The loop ends at the first such attempt, and goes on when there is none. *)
Lemma find_loop_first windows exclusions network n k :
  (∀ j, (j < k)%nat → settles windows exclusions network (n + j) = false) →
  find_loop k windows exclusions network n = None ∧
  ∀ fuel, (k < fuel)%nat → settles windows exclusions network (n + k) = true →
    find_loop fuel windows exclusions network n =
      Some (endpoint ← findAvailableAddress network (n + k); _ ← SplitHostPort endpoint; Some endpoint).
Proof.
  revert n. induction k as [|k IH]; intros n Hno; (split; [try done|]).
  - intros [|fuel] Hf; [lia|]. rewrite Nat.add_0_r. unfold settles. cbn [find_loop].
    destruct (findAvailableAddress network n) as [endpoint|]; cbn [mbind option_bind]; [|done].
    destruct (SplitHostPort endpoint) as [[host port]|]; [|done]. by destruct (windows && _).
  - destruct (IH (S n)) as [Hk _]; [intros j Hj; rewrite Nat.add_succ_comm; apply Hno; lia|].
    specialize (Hno 0%nat ltac:(lia)). rewrite Nat.add_0_r in Hno. unfold settles in Hno. cbn [find_loop].
    destruct (findAvailableAddress network n) as [endpoint|]; cbn [mbind option_bind] in Hno; [|done].
    destruct (SplitHostPort endpoint) as [[host port]|]; [|done]. by destruct (windows && _).
  - intros [|fuel] Hf; [lia|]. destruct (IH (S n)) as [_ Hk]; [intros j Hj; rewrite Nat.add_succ_comm; apply Hno; lia|].
    specialize (Hno 0%nat ltac:(lia)). rewrite Nat.add_0_r in Hno. unfold settles in Hno. cbn [find_loop].
    destruct (findAvailableAddress network n) as [endpoint|]; cbn [mbind option_bind] in Hno; [|done].
    destruct (SplitHostPort endpoint) as [[host port]|]; [|done]. destruct (windows && _); [|done].
    rewrite <- Nat.add_succ_comm. apply Hk. lia.
Qed.

(** Away from Windows the first address is the answer. *)
Lemma find_address_others fuel outputTCP outputUDP network :
  GetAvailableLocalNetworkAddress (S fuel) false outputTCP outputUDP network =
    Some (endpoint ← findAvailableAddress network 0; _ ← SplitHostPort endpoint; Some endpoint).
Proof.
  apply (find_loop_first false [] network 0 0); [lia|lia|]. unfold settles.
  destruct (findAvailableAddress network _) as [endpoint|]; [|done]. cbn [mbind option_bind]. by destruct (SplitHostPort endpoint) as [[host port]|].
Qed.
End search.

(** ** Ports compared as strings *)

Definition is_digit (a : ascii) : bool := let n := nat_of_ascii a in ((48 <=? n) && (n <=? 57))%nat.
Definition digit_val (a : ascii) : Z := Z.of_nat (nat_of_ascii a) - 48.
Fixpoint port_value (l : list ascii) (acc : Z) : Z :=
  match l with [] => acc | a :: l' => port_value l' (acc * 10 + digit_val a) end.
Definition portNumber (port : string) : Z := port_value (byte_list port) 0.
Definition all_digits (s : string) : Prop := Forall (λ a, is_digit a = true) (byte_list s).

Lemma is_digit_val a : is_digit a = true → 0 <= digit_val a <= 9.
Proof. unfold is_digit, digit_val. intros [H1%Nat.leb_le H2%Nat.leb_le]%andb_true_iff. lia. Qed.

Lemma port_value_acc l acc : port_value l acc = acc * 10 ^ len l + port_value l 0.
Proof.
  revert acc. unfold len. induction l as [|a l IH]; intros acc; cbn [port_value length]; [cbn; lia|].
  rewrite (IH (acc * 10 + _)), (IH (0 * 10 + _)), Nat2Z.inj_succ, Z.pow_succ_r by lia. lia.
Qed.

Lemma port_value_bound l : Forall (λ a, is_digit a = true) l → 0 <= port_value l 0 < 10 ^ len l.
Proof.
  unfold len. induction 1 as [|a l Ha _ IH]; cbn [port_value length]; [cbn; lia|].
  rewrite port_value_acc, Nat2Z.inj_succ, Z.pow_succ_r by lia. apply is_digit_val in Ha. unfold len. nia.
Qed.

(** For as many digits the order of the strings is the order of the numbers. *)
Lemma bytes_leb_value l1 l2 :
  Forall (λ a, is_digit a = true) l1 → Forall (λ a, is_digit a = true) l2 → length l1 = length l2 →
  bytes_leb l1 l2 = (port_value l1 0 <=? port_value l2 0).
Proof.
  intros H1. revert l2. induction H1 as [|a l1 Ha H1 IH]; intros [|b l2] H2 Hl; try done.
  apply list.Forall_cons in H2 as [Hb H2]. injection Hl as Hl. cbn [bytes_leb port_value]. rewrite (IH l2 H2 Hl).
  rewrite (port_value_acc l1 (0 * 10 + _)), (port_value_acc l2 (0 * 10 + _)).
  pose proof (port_value_bound l1 H1) as B1. pose proof (port_value_bound l2 H2) as B2.
  assert (len l2 = len l1) as El by (unfold len; lia). rewrite El in *. apply is_digit_val in Ha, Hb. unfold digit_val in *.
  set (p := 10 ^ len l1) in *. apply Bool.eq_true_iff_eq. rewrite orb_true_iff, andb_true_iff, Nat.ltb_lt, Nat.eqb_eq, !Z.leb_le.
  split; [intros [Hlt|[-> Hle]]; nia|]. intros Hle.
  destruct (lt_eq_lt_dec (nat_of_ascii a) (nat_of_ascii b)) as [[Hlt|He]|Hgt]; [by left|right; split; [done|]; rewrite He in Hle; lia|nia].
Qed.

(** A range of ports with as many digits as the port is the range it says. *)
Lemma port_excluded_numeric exclusions port :
  all_digits port →
  Forall (λ r, all_digits (pp_first r) ∧ all_digits (pp_last r) ∧
               length (byte_list (pp_first r)) = length (byte_list port) ∧ length (byte_list (pp_last r)) = length (byte_list port)) exclusions →
  port_excluded exclusions port =
    existsb (λ r, (portNumber (pp_first r) <=? portNumber port) && (portNumber port <=? portNumber (pp_last r))) exclusions.
Proof.
  intros Hp. unfold port_excluded. induction 1 as [|r exclusions (H1 & H2 & L1 & L2) _ IH]; [done|]. cbn [existsb]. rewrite IH.
  unfold string_leb, portNumber. by rewrite !bytes_leb_value.
Qed.

(** Another range is not: port 10000 is not found in the one from 9990 to 10010, and the
    one from 5000 to 5100 takes port 50010 away. *)
Lemma port_excluded_strings :
  port_excluded [{| pp_first := "9990"; pp_last := "10010" |}] "10000" = false ∧
  port_excluded [{| pp_first := "5000"; pp_last := "5100" |}] "50010" = true.
Proof. split; reflexivity. Qed.

(** The table as [netsh] prints it. *)
Definition ex_netsh : string :=
  of_byte_list (mjoin ((λ l, byte_list l ++ [newline]) <$>
    ["Start Port    End Port"; "----------    --------"; "     49697       49796"; "     50000       50059     *"; ""; "* - Administered port exclusions."])).
Lemma createExclusionsList_netsh :
  createExclusionsList ex_netsh = Some [{| pp_first := "49697"; pp_last := "49796" |}; {| pp_first := "50000"; pp_last := "50059" |}].
Proof. vm_compute. reflexivity. Qed.

(** ** Feature gates *)

Class GateStore (R : Type) := {
  gs_IsEnabled : string → R → bool;
  (** the global registry; [None] is the error *)
  gs_Set : string → bool → R → option R;
}.
Class GateStoreLaws (R : Type) `{GateStore R} : Prop := {
  gs_set_get : ∀ id b r r', gs_Set id b r = Some r' → gs_IsEnabled id r' = b;
  gs_set_other : ∀ id id' b r r', gs_Set id b r = Some r' → id' ≠ id → gs_IsEnabled id' r' = gs_IsEnabled id' r;
}.

(** The registry, and the function that is returned. *)
Definition SetFeatureGateForTest {R} `{GateStore R} (id : string) (enabled : bool) (r : R) : option (R * (R → option R)) :=
  let originalValue := gs_IsEnabled id r in
  r ← gs_Set id enabled r; Some (r, gs_Set id originalValue).

(** The gate is as asked for until the function that is returned puts it back. *)
Lemma SetFeatureGateForTest_restores {R} `{GateStoreLaws R} id enabled (r r1 r2 : R) undo :
  SetFeatureGateForTest id enabled r = Some (r1, undo) → undo r1 = Some r2 →
  gs_IsEnabled id r1 = enabled ∧ ∀ id', gs_IsEnabled id' r2 = gs_IsEnabled id' r.
Proof.
  unfold SetFeatureGateForTest. destruct (gs_Set id enabled r) as [r'|] eqn:E; [|done]. cbn [mbind option_bind]. intros [= <- <-] Eu.
  split; [by eapply gs_set_get|]. intros id'. destruct (decide (id' = id)) as [->|Hne]; [by eapply gs_set_get|].
  rewrite (gs_set_other _ _ _ _ _ Eu Hne). by eapply gs_set_other.
Qed.
